(* ===== verification/_CoqProject ===== *)
-Q . S2P
Prelude.v
BootInfo.v
PmmInterface.v
Pmm.v
PmmSpec.v
PmmCheck.v
RxBuffer.v
X86.v
Paging.v
PagingBits.v
PagingModel.v
PagingOps.v
PagingStep.v
PagingSpace.v
PagingSpec.v
PagingInit.v
PagingInitStep.v
PagingInitSpec.v
Elf.v
ElfSpec.v
Text.v
Console.v
ConsoleSpec.v
State.v
Devices.v
SerialIrq.v
Irq.v
Serial.v
Timer.v
Frames.v
SerialSpec.v
IrqSpec.v
KernelConsole.v
Tables.v
TablesSpec.v
Asm.v
AsmSpec.v
Disabled.v
Stubs.v
StubsSpec.v
Firmware.v
Load.v
BootMain.v
FirmwareSpec.v
LoadSpec.v
BootSpec.v
LoaderSpec.v
PagingWorld.v
PagingCheck.v
PagingCheckSpec.v
BootMemory.v
Linker.v
LinkerSpec.v
PagingFaults.v
PagingFixtures.v
KernelMain.v
RegisterCheck.v
BootDrivers.v
KernelMainSpec.v
BootLive.v
KernelMainLive.v
Handoff.v
System.v
