(* ===== verification/Prelude.v ===== *)
(** * OS_by_AI: a verification library for the loader and the kernel

    OS_by_AI is a small x86-64 kernel and its UEFI loader, written in C. The
    loader ([src/boot]) reads the kernel's ELF file, places it, leaves the
    firmware and jumps to the kernel with a boot-information structure
    ([src/include/boot_info.h]). The kernel ([src/kernel]) validates that
    structure, builds its physical page allocator from the firmware's memory
    map, builds its own page tables out of allocated pages, takes over the
    interrupt controllers, the timer and the serial line, and ends in a command
    console. This library models that code function by function and proves what
    makes each part correct.

    ** The parts

    - Boot information: [BootInfo] reads the two structures the loader hands
      over as words of RAM.
    - Physical pages: [Pmm] is [kernel/pmm.c], the static variables as the
      record [PMM], the two bitmaps as arrays of 64-bit words. [PmmInterface]
      is what clients may rely on - a class of operations, a class of their
      contract over the set of vacant pages; [Pmm] discharges it. [PmmSpec]
      proves the allocator a first-fit pool over exactly the usable pages,
      [PmmCheck] is [kernel/pmm_check.c].
    - Processor: [X86] is [include/x86.h], the registers with the cached
      translations.
    - Page tables: [Paging] is the dynamic interface of [kernel/paging.c]
      ([paging_map], [paging_unmap], [paging_protect], [paging_query]),
      [PagingInit] is [paging_init] with its helpers. Both are written against
      the allocator's interface, so that they run on any allocator that meets
      it. [PagingBits] is the arithmetic of entries and indices, [PagingModel]
      the tree of tables in memory and what holds of it, [PagingOps] and
      [PagingStep] the effect of the operations on the tree, [PagingSpace] the
      abstract address space, [PagingSpec] the refinement of it;
      [PagingInitStep] and [PagingInitSpec] are the same for initialization.
    - Kernel image: [Elf] is the validation and placement of [boot/load.c],
      [ElfSpec] what it accepts and what memory then holds.
    - Loader: [Firmware] is [boot/efi.h], the protocols as classes of operations
      on a firmware state (a parameter), with a history of the calls; [Load] is
      the reading of the file in [boot/load.c], [BootMain] is [boot/main.c].
      [FirmwareSpec] has the ledger of what the loader holds and what it relies
      on the firmware for, [LoadSpec] and [BootSpec] what each function does,
      [LoaderSpec] the results for [efi_main].
    - Boot check of paging: [PagingCheck] is [kernel/paging_check.c], the check
      and the fault fixtures, with the processor's accesses translated by its
      tables. [PagingWorld] is the address space, the allocator and RAM as one
      abstract world the check runs on, [PagingCheckSpec] the check on it,
      [BootMemory] the check on what [pmm_init] and [paging_init] leave.
      [PagingFaults] is what the processor makes of a page fault on the kernel's
      own pages - the frame goes onto the stack through the page tables, and is a
      double fault where there is none - with the fixture of [kernel/entry.S] that
      runs into it; [PagingFixtures] proves where the fixtures end.
    - Receive ring: [RxBuffer] is [kernel/rx_buffer.c] with its refinement of a
      bounded queue.
    - Drivers: [State] is the state monad with its program logic and
      loop, [Devices] the state the drivers share - the processor, the
      hardware behind the I/O ports (a parameter: any deterministic machine),
      the history of port accesses, the static variables. [SerialIrq] and [Serial] are [kernel/serial.c],
      [Irq] is [kernel/irq.c] with [timer_interrupt] and the entry and exit of
      an interrupt, [Timer] the rest of [kernel/timer.c]. [Frames] says what
      each part leaves alone, [SerialSpec] and [IrqSpec] what they promise
      against models of the 16550, the 8259 and the 8254.
    - Console: [Console] is [kernel/console.c] over a class of the functions it
      calls, [ConsoleSpec] its refinement of a line discipline, [KernelConsole]
      the console on the real serial driver, timer and allocator. [Text] is C
      strings and hexadecimal numerals.
    - Descriptor tables: [Tables] is [kernel/tables.c], [TablesSpec] the tables
      as the processor decodes them and the panic's report on the wire.
    - Interrupt stubs: [Stubs] is [kernel/interrupts.S] - the stubs, their common
      parts, the register check of the timer, the loading of the tables, and the
      halt of [kernel/entry.S] - and the
      processor's delivery of an event through the tables; [Asm] is the processor
      they run on (general registers, selectors, flags, stack) and their
      instructions, [AsmSpec] the program logic of these. The
      compiled [irq_dispatch] and [exception_panic] are a parameter, and
      [StubsSpec.Compiled] what the calling convention makes of it. [Disabled]
      shows that the handlers do not depend on the flags while interrupts are
      off, [StubsSpec] has the results, [RegisterCheck] shows that the check is
      the one [KernelMain] runs.
    - Linker script: [Linker] is [kernel/linker.ld] as a function from the sizes
      and alignments of the sections to the symbols and the segments,
      [LinkerSpec] what holds of the image.
    - Entry: [KernelMain] is [kernel/main.c] on the composed state of all the
      parts above, [BootDrivers] what the drivers' initialization leaves alone,
      [KernelMainSpec] the boot as a whole, on any hardware. [BootLive] and
      [KernelMainLive] decide it on hardware that answers: the steps that cannot
      fail there, and when the others do not.
    - The whole: [Handoff] joins the loader and the kernel - what the one hands
      over, the other accepts - and [System] is [kernel_entry] of
      [kernel/entry.S] with the composition of all the parts.

    ** What the theorems show

    - Refinements: the allocator, the dynamic paging interface, the receive
      ring and the console answer every sequence of calls (for paging,
      interleaved with memory accesses of the processor and evictions from its
      translation cache) as their abstract machines do.
    - Invariants and safety: pages of the kernel, the boot data and the stack
      are never handed out nor overwritten by page tables, cached translations
      are never stale, the identity map is permanent, sections keep their
      protection, array indices stay in bounds.
    - Errors: a refused initialization, mapping or image leaves no trace; an
      overflow of input is reported once; an overlong line is not run.
    - Round trips, functional behaviour and equivalences as named there.
    - Boot: the kernel spins with the error that stopped it on the line, or
      reaches the console with everything in place; it never faults. On hardware
      that answers in time it is decided which ([kernel_main_decides]), by the
      boot information, the processor and the number of free pages: the outcome
      of [pmm_init] and of [paging_init] is characterized exactly. The check
      of paging ends, says exactly whether there is room, and restores what it
      changed; each fault fixture ends in the handler of its exception, with the
      error code and the address that identify it, the push below the boot stack
      in the double fault's, on the double fault's own stack.
    - The whole: from [efi_main] to the console ([system_boots]), the outcome
      stated of the firmware's memory map, the place of the hand-off area, the
      processor and the free memory. The loader takes its hand-off area anywhere
      in memory; the kernel spins when it is not between 1 MiB and 4 GiB. Where the
      kernel's file is one that the linker script describes, nothing is left to
      assume of where its sections are ([linked_system_boots]).
    - Interrupt stubs: an interrupt taken through the tables does what
      [irq_dispatch] does and is otherwise transparent to the code it interrupts,
      every register, the flags and the stack included; an exception is reported
      with the registers it happened with, on the stack its gate asks for, and
      never returned from; [tables_load] leaves the tables, the selectors and the
      task as [Tables] says; the register check passes over an interrupt taken
      that way.
    - Linker script: the loader accepts the image and places it where the symbols
      say; every byte of a segment gets the protection of the segment; the
      script's assertion is what keeps the double-fault stack whole.
    - Loader: it returns to the firmware with everything given back and the
      failure reported, or enters the kernel with its image in memory, complete
      boot information and the boot services left as the firmware demands. It
      gives back nothing it does not hold, but for the pointer that a refused
      [AllocatePool] or [Open] leaves: [load_kernel] looks at the pointer and not at the
      status, and [LoaderSpec.refused_pool_is_freed] is a firmware on which it
      frees a buffer that is not its own.
    - Devices: what is written to the wire, in which order and only when the
      UART is ready; what the interrupt handler asks the UART and which bytes it
      delivers for the answers; how the controllers are
      programmed and acknowledged; all for any answers of the hardware and any
      interrupts in between.

    ** Conventions and bounds

    A C integer is a [Z] with its reduction written at every operation that can
    leave its range. A [for] loop is [for_step]: the C loop unrolled the exact
    number of times its bounds allow, with an early exit, so that no fuel is
    involved ([for_step_unfold] is the C reading of it, [for_step_rule] its
    proof rule); other recursion is structural. The
    loop that reads the kernel's file has the file's length as fuel, which
    [LoaderSpec.read_entire_file_terminates] shows to be enough. The loops of
    the paging check that take the free pages and give them back have the
    number of managed pages as fuel, which [BootMemory.paging_boot_check_exact]
    shows to be enough: running out is an outcome of its own, and excluded. [Console.digits] has the twenty
    digits that the C buffer has, and every 64-bit number fits. The endless
    loop of [console_run] is modelled for any number of turns.

    ** Modelling assumptions

    RAM is a map from addresses to 64-bit words, accessed through the identity
    map. The accessed and dirty bits and the paging-structure caches of the
    processor are not modelled; its translation cache is, as a map from page
    numbers to leaf entries. The boot information is read once per function.
    The firmware is a parameter: it answers as it likes, within what
    [FirmwareSpec.Conforming] says where a theorem asks for it, which is nothing
    of what a refused call leaves in the caller's pointers; the buffer with
    the kernel's file lies outside the image's pages. Interrupts are taken at the polls of the
    serial driver, which is where the code's port accesses make the order
    observable. A failing serial line makes the console spin for ever; the
    theorems say that this is the only way it stops answering. Where a theorem
    says that something is reached, it assumes [SerialSpec.prompt_hardware] - the
    UART shows an idle transmitter within the polls the driver makes - and
    [BootLive.Ticking] - an unmasked timer raises its interrupt; both hold of the
    chipset of [KernelMainLive]. [System.described] is what the composition
    relies on the firmware for besides: the final map describes the pages the
    loader holds as the loader's; [BootMemory.linked] what it relies on the linker
    script for, which [LinkerSpec] proves of the files the script describes.

    In the assembly, an event is delivered as an interrupt gate does it in 64-bit
    mode without a change of privilege; the stack is memory in words at multiples
    of eight, where every push of the code goes, and the pointers [tables_load]
    is given are such multiples. The compiled functions keep the calling
    convention, have [room] bytes of stack, and do to the drivers' state what the
    model of their source does. The auxiliary carry, which the manual leaves
    undefined after a logical instruction, is cleared by it. Non-maskable
    interrupts come only as events that are delivered. [Asm]'s stack is always
    mapped; that it can fail to be is [PagingFaults], which delivers page faults
    by the same tables through the same pages, up to the entry of the handler.
    Whether the processor saves the resume flag set for a double fault is a
    parameter there.

    ** Not modelled

    What the compiler makes of the C code: the machine code of the functions and
    their stack frames, so that outside the assembly [rsp] is a parameter of what
    reads it. The Makefile and the test scripts, which build the program
    and drive it from outside. The prototypes and inclusions of the headers, which
    have no behaviour. *)

From Stdlib Require Export ZArith Lia.
From stdpp Require Export base numbers list functions gmap sets fin_maps fin_sets sorting.

#[export] Set Default Goal Selector "!".
Open Scope Z_scope.

(** ** Machine integers *)

(** A C unsigned integer is a [Z]; every operation that can leave the type's
    range is followed by the reduction its width prescribes. *)
Definition u64 (x : Z) : Z := x mod 2 ^ 64.
Definition u32 (x : Z) : Z := x mod 2 ^ 32.
Definition u16 (x : Z) : Z := x mod 2 ^ 16.
Definition u8 (x : Z) : Z := x mod 2 ^ 8.

(** [UINT64_MAX] and C's [~x] on a [uint64_t]. *)
Definition UINT64_MAX : Z := 2 ^ 64 - 1.
Definition not64 (x : Z) : Z := u64 (Z.lnot x).

(** [UINT64_C(1) << n], the only shift of a constant the kernel uses. *)
Definition bit64 (n : Z) : Z := u64 (Z.shiftl 1 n).

(** C's truth value of [x & mask]. *)
Definition has_bits (x mask : Z) : bool := negb (Z.land x mask =? 0).

(** The values of a [uint64_t]. *)
Definition is_u64 (x : Z) : Prop := 0 ≤ x < 2 ^ 64.

(** ** Loops with an early exit *)

(** The outcome of running (part of) a loop: it went on with a new loop
    state, or the body left it with a result. *)
Inductive ctl (S R : Type) : Type :=
  | Next (s : S)
  | Stop (r : R).
Arguments Next {S R} s.
Arguments Stop {S R} r.

(** Running a body at most [n] times. *)
Fixpoint repeat_nat {S R} (n : nat) (f : S → ctl S R) (s : S) : ctl S R :=
  match n with
  | O => Next s
  | S n => match f s with Next s => repeat_nat n f s | Stop r => Stop r end
  end.

Section loops.
Context {S R : Type}.

(** Running a body at most [p] times. Binary recursion, so that a bound of
    2^20 iterations costs nothing when the body stops early. *)
Fixpoint repeat_pos (p : positive) (f : S → ctl S R) (s : S) : ctl S R :=
  match p with
  | xH => f s
  | xO q =>
      match repeat_pos q f s with
      | Next s1 => repeat_pos q f s1
      | Stop r => Stop r
      end
  | xI q =>
      match f s with
      | Next s0 =>
          match repeat_pos q f s0 with
          | Next s1 => repeat_pos q f s1
          | Stop r => Stop r
          end
      | Stop r => Stop r
      end
  end.

(** One turn of [for (i = lo; i < hi; i += step) body]. *)
Definition for_turn (step : Z) (body : Z → S → ctl S R) (x : Z * S) : ctl (Z * S) R :=
  match body (fst x) (snd x) with
  | Next s => Next (fst x + step, s)
  | Stop r => Stop r
  end.
End loops.

(** [for (i = lo; i < hi; i += step) body]. The counter does not wrap: each
    loop of the program keeps [i + step] inside its type. *)
Definition for_step {S R} (lo step hi : Z) (body : Z → S → ctl S R) (s : S) : ctl S R :=
  match (hi - lo + step - 1) / step with
  | Zpos n =>
      match repeat_pos n (for_turn step body) (lo, s) with
      | Next x => Next (snd x)
      | Stop r => Stop r
      end
  | _ => Next s
  end.

(** A loop whose body never leaves it. *)
Definition for_all {S} (lo step hi : Z) (body : Z → S → S) (s : S) : S :=
  match for_step lo step hi (λ i s, Next (R:=Empty_set) (body i s)) s with
  | Next s => s
  | Stop r => match r with end
  end.

(** A loop over the values of a list, for counters that go down
    ([for (shift = 39; shift > 12; shift -= 9)]). *)
Fixpoint foreach {A S R} (l : list A) (body : A → S → ctl S R) (s : S) : ctl S R :=
  match l with
  | [] => Next s
  | x :: l =>
      match body x s with
      | Next s => foreach l body s
      | Stop r => Stop r
      end
  end.

(** ** Word-addressed physical memory *)

(** RAM as the kernel's [uint64_t] accesses see it: the word at each 8-byte
    aligned byte address. A finite map with default 0 describes any content
    of a finite memory; a load returns the 64 bits of the cell. *)
Abbreviation ram := (gmap Z Z).
Definition load (m : ram) (a : Z) : Z := u64 (default 0 (m !! a)).
Definition store (m : ram) (a v : Z) : ram := <[a := v]> m.

(** The byte addresses of the 512 words of the page at [page]. *)
Definition in_words (page x : Z) : Prop := page ≤ x < page + 4096 ∧ (x - page) mod 8 = 0.

(** ** Automation *)

Create HintDb u64.
Create Rewrite HintDb mem.

(** Destruct the condition the goal branches on, keeping the comparison. *)
Ltac zbool :=
  repeat match goal with
  | H : (_ =? _) = true |- _ => apply Z.eqb_eq in H
  | H : (_ =? _) = false |- _ => apply Z.eqb_neq in H
  | H : (_ <? _) = true |- _ => apply Z.ltb_lt in H
  | H : (_ <? _) = false |- _ => apply Z.ltb_ge in H
  | H : (_ <=? _) = true |- _ => apply Z.leb_le in H
  | H : (_ <=? _) = false |- _ => apply Z.leb_gt in H
  | H : negb _ = true |- _ => apply negb_true_iff in H
  | H : negb _ = false |- _ => apply negb_false_iff in H
  | H : (_ || _) = false |- _ => apply orb_false_iff in H as [? ?]
  | H : (_ && _) = true |- _ => apply andb_true_iff in H as [? ?]
  end.

(** Split every conjunction and existential among the hypotheses. *)
Ltac split_hyps :=
  repeat match goal with
  | H : _ ∧ _ |- _ => destruct H
  | H : ∃ _, _ |- _ => destruct H
  end.

(** Linear arithmetic that also knows [/] and [mod] by constants. *)
Ltac zdm := Z.div_mod_to_equations; lia.

(** ** Integers *)

Lemma u64_range x : is_u64 (u64 x).
Proof. apply Z.mod_pos_bound. lia. Qed.

Lemma u64_small x : is_u64 x → u64 x = x.
Proof. apply Z.mod_small. Qed.

Lemma bit64_shiftl n : 0 ≤ n < 64 → bit64 n = Z.shiftl 1 n.
Proof.
  intros H. apply Z.mod_small. rewrite Z.shiftl_1_l.
  split; [apply Z.pow_nonneg; lia | apply Z.pow_lt_mono_r; lia].
Qed.

Lemma testbit_bit64 n i : 0 ≤ n < 64 → 0 ≤ i → Z.testbit (bit64 n) i = (i =? n).
Proof.
  intros Hn Hi. rewrite bit64_shiftl by done. rewrite Z.shiftl_1_l.
  destruct (Z.eqb_spec i n) as [->|Hne].
  - apply Z.pow2_bits_true. lia.
  - apply Z.pow2_bits_false. lia.
Qed.

Lemma testbit_u64 x i : 0 ≤ i < 64 → Z.testbit (u64 x) i = Z.testbit x i.
Proof. intros H. unfold u64. apply Z.mod_pow2_bits_low. lia. Qed.

Lemma testbit_not64 x i : 0 ≤ i < 64 → Z.testbit (not64 x) i = negb (Z.testbit x i).
Proof. intros H. unfold not64. rewrite testbit_u64 by lia. apply Z.lnot_spec. lia. Qed.

Lemma testbit_u64_high x i : is_u64 x → 64 ≤ i → Z.testbit x i = false.
Proof.
  intros Hx Hi. rewrite <- (u64_small x Hx). unfold u64.
  apply Z.mod_pow2_bits_high. lia.
Qed.

(** The two 32-bit halves of a word, put together again. *)
Lemma u64_halves v : Z.lor (Z.shiftl (u32 (Z.shiftr v 32)) 32) (u32 v) = u64 v.
Proof.
  apply Z.bits_inj'. intros i Hi. rewrite Z.lor_spec, Z.shiftl_spec by done. unfold u32.
  destruct (decide (i < 32)) as [Hlt|Hge].
  - rewrite (Z.testbit_neg_r _ (i - 32)), Z.mod_pow2_bits_low, testbit_u64 by lia. done.
  - rewrite (Z.mod_pow2_bits_high v) by lia. rewrite orb_false_r.
    destruct (decide (i < 64)).
    + rewrite Z.mod_pow2_bits_low, Z.shiftr_spec, testbit_u64 by lia. f_equal. lia.
    + rewrite Z.mod_pow2_bits_high by lia. unfold u64. by rewrite Z.mod_pow2_bits_high by lia.
Qed.

Lemma is_u64_of_bits x :
  0 ≤ x → (∀ i, 64 ≤ i → Z.testbit x i = false) → is_u64 x.
Proof.
  intros Hx Hb. split; [done|].
  assert (x = u64 x) as ->; [|apply u64_range].
  apply Z.bits_inj'. intros i Hi. unfold u64.
  destruct (decide (i < 64)).
  - by rewrite Z.mod_pow2_bits_low by lia.
  - rewrite Z.mod_pow2_bits_high by lia. apply Hb. lia.
Qed.

Lemma is_u64_lor x y : is_u64 x → is_u64 y → is_u64 (Z.lor x y).
Proof.
  intros Hx Hy. apply is_u64_of_bits.
  - apply Z.lor_nonneg. unfold is_u64 in *. lia.
  - intros i Hi. rewrite Z.lor_spec, !testbit_u64_high; done.
Qed.

Lemma is_u64_lxor x y : is_u64 x → is_u64 y → is_u64 (Z.lxor x y).
Proof.
  intros Hx Hy. apply is_u64_of_bits.
  - apply Z.lxor_nonneg. unfold is_u64 in *. lia.
  - intros i Hi. by rewrite Z.lxor_spec, !testbit_u64_high.
Qed.

Lemma is_u64_land x y : is_u64 x → 0 ≤ y → is_u64 (Z.land x y).
Proof.
  intros Hx Hy. apply is_u64_of_bits.
  - apply Z.land_nonneg. unfold is_u64 in *. lia.
  - intros i Hi. rewrite Z.land_spec, testbit_u64_high; done.
Qed.

(** Testing a single bit: C's [(w & (1 << i)) != 0]. *)
Lemma has_bits_bit64 w i : 0 ≤ i < 64 → has_bits w (bit64 i) = Z.testbit w i.
Proof.
  intros Hi. unfold has_bits.
  assert (Z.land w (bit64 i) = if Z.testbit w i then bit64 i else 0) as ->.
  { apply Z.bits_inj'. intros j Hj.
    rewrite Z.land_spec, testbit_bit64 by lia.
    destruct (Z.eqb_spec j i) as [->|Hne].
    - destruct (Z.testbit w i); rewrite ?testbit_bit64, ?Z.bits_0, ?Z.eqb_refl by lia; done.
    - rewrite andb_false_r.
      destruct (Z.testbit w i); rewrite ?testbit_bit64, ?Z.bits_0 by lia; [|done].
      symmetry. by apply Z.eqb_neq. }
  destruct (Z.testbit w i); [|done].
  rewrite bit64_shiftl, Z.shiftl_1_l by done.
  apply negb_true_iff, Z.eqb_neq. pose proof (Z.pow_pos_nonneg 2 i). lia.
Qed.

Lemma land_not_bit64 v n : 0 ≤ n < 64 → has_bits (Z.land v (not64 (bit64 n))) (bit64 n) = false.
Proof.
  intros Hn. rewrite has_bits_bit64, Z.land_spec, testbit_not64, testbit_bit64 by lia.
  by rewrite Z.eqb_refl, andb_false_r.
Qed.

(** C's [x & ~(2^k - 1)]. *)
Lemma land_align x k : is_u64 x → 0 ≤ k < 64 → Z.land x (not64 (Z.ones k)) = x / 2 ^ k * 2 ^ k.
Proof.
  intros Hx Hk. apply Z.bits_inj'. intros i Hi. rewrite Z.land_spec.
  rewrite <- Z.shiftr_div_pow2, <- Z.shiftl_mul_pow2, Z.shiftl_spec by lia.
  destruct (decide (i < k)).
  - by rewrite testbit_not64, Z.ones_spec_low, andb_false_r, Z.testbit_neg_r by lia.
  - rewrite Z.shiftr_spec, Z.sub_add by lia. destruct (decide (i < 64)).
    + by rewrite testbit_not64, Z.ones_spec_high, andb_true_r by lia.
    + by rewrite !(testbit_u64_high x) by (done || lia).
Qed.

Lemma land_page_mask x : is_u64 x → Z.land x (not64 4095) = x / 4096 * 4096.
Proof. intros Hx. by apply (land_align x 12). Qed.

#[export] Hint Resolve u64_range is_u64_lor is_u64_lxor is_u64_land : u64.

(** ** Reasoning about loops *)

Lemma repeat_nat_add {S R} n m (f : S → ctl S R) s :
  repeat_nat (n + m) f s =
  match repeat_nat n f s with Next s => repeat_nat m f s | Stop r => Stop r end.
Proof.
  revert s. induction n as [|n IH]; intros s; simpl; [done|].
  by destruct (f s).
Qed.

Lemma repeat_pos_nat {S R} p (f : S → ctl S R) s :
  repeat_pos p f s = repeat_nat (Pos.to_nat p) f s.
Proof.
  revert s. induction p as [q IH|q IH|]; intros s.
  - rewrite Pos2Nat.inj_xI. cbn [repeat_pos repeat_nat]. destruct (f s) as [s0|r]; [|done].
    replace (2 * Pos.to_nat q)%nat with (Pos.to_nat q + Pos.to_nat q)%nat by lia.
    rewrite repeat_nat_add, IH. by destruct (repeat_nat _ f s0).
  - rewrite Pos2Nat.inj_xO. cbn [repeat_pos].
    replace (2 * Pos.to_nat q)%nat with (Pos.to_nat q + Pos.to_nat q)%nat by lia.
    rewrite repeat_nat_add, IH. by destruct (repeat_nat _ f s).
  - change (Pos.to_nat 1) with 1%nat. simpl. by destruct (f s).
Qed.

(** The number of turns of [for (i = lo; i < hi; i += step)]. *)
Lemma for_step_turns {S R} lo step hi (body : Z → S → ctl S R) s :
  for_step lo step hi body s =
  match repeat_nat (Z.to_nat ((hi - lo + step - 1) / step)) (for_turn step body) (lo, s) with
  | Next x => Next (snd x)
  | Stop r => Stop r
  end.
Proof.
  unfold for_step. destruct ((hi - lo + step - 1) / step) as [|p|p]; simpl; [done| |done].
  by rewrite repeat_pos_nat.
Qed.

(** The C reading of the loop: test, body, increment. *)
Lemma for_step_unfold {S R} lo step hi (body : Z → S → ctl S R) s :
  0 < step →
  for_step lo step hi body s =
  if lo <? hi then
    match body lo s with
    | Next s => for_step (lo + step) step hi body s
    | Stop r => Stop r
    end
  else Next s.
Proof.
  intros Hstep. rewrite for_step_turns.
  destruct (Z.ltb_spec lo hi) as [Hlt|Hge].
  - assert (Z.to_nat ((hi - lo + step - 1) / step) =
            1 + Z.to_nat ((hi - (lo + step) + step - 1) / step))%nat as ->.
    { replace (hi - lo + step - 1) with ((hi - (lo + step) + step - 1) + 1 * step) by lia.
      rewrite Z.div_add by lia.
      assert (0 ≤ (hi - (lo + step) + step - 1) / step) by (apply Z.div_pos; lia). lia. }
    simpl. unfold for_turn at 1. simpl.
    destruct (body lo s); [|done]. by rewrite for_step_turns.
  - assert (Z.to_nat ((hi - lo + step - 1) / step) = 0)%nat as ->; [|done].
    assert ((hi - lo + step - 1) / step < 1) by (apply Z.div_lt_upper_bound; lia). lia.
Qed.

Lemma for_step_done {S R} lo step hi (body : Z → S → ctl S R) s :
  0 < step → hi ≤ lo → for_step lo step hi body s = Next s.
Proof.
  intros ??. rewrite for_step_unfold by done.
  by rewrite (proj2 (Z.ltb_ge _ _)).
Qed.

(** The partial-correctness rule: an invariant of the counter and the state,
    and what holds of the results the body leaves the loop with. The counter
    stays congruent to [lo] modulo [step]. *)
Lemma for_step_rule {S R} (P : Z → S → Prop) (Q : R → Prop)
    lo step hi (body : Z → S → ctl S R) s :
  0 < step →
  P lo s →
  (∀ i s, lo ≤ i < hi → (i - lo) mod step = 0 → P i s →
    match body i s with Next s => P (i + step) s | Stop r => Q r end) →
  match for_step lo step hi body s with
  | Next s => ∃ i, lo ≤ i ∧ hi ≤ i ∧ (lo < hi → i < hi + step) ∧ (hi ≤ lo → i = lo)
                   ∧ (i - lo) mod step = 0 ∧ P i s
  | Stop r => Q r
  end.
Proof.
  intros Hstep Hlo Hbody.
  cut (∀ n i s, Z.to_nat (hi - i) = n → lo ≤ i → (lo < hi → i < hi + step) →
         (hi ≤ lo → i = lo) → (i - lo) mod step = 0 → P i s →
         match for_step i step hi body s with
         | Next s => ∃ i, lo ≤ i ∧ hi ≤ i ∧ (lo < hi → i < hi + step) ∧ (hi ≤ lo → i = lo)
                   ∧ (i - lo) mod step = 0 ∧ P i s
         | Stop r => Q r
         end).
  { intros H. eapply (H _ lo s eq_refl); try lia; [|done]. by rewrite Z.sub_diag, Z.mod_0_l by lia. }
  intros n. induction n as [n IH] using lt_wf_ind. intros i s' Hn Hi Hu Hz Hmod HP.
  rewrite for_step_unfold by done.
  destruct (Z.ltb_spec i hi) as [Hlt|Hge].
  - specialize (Hbody i s' ltac:(lia) Hmod HP). destruct (body i s') as [s1|r]; [|done].
    eapply (IH (Z.to_nat (hi - (i + step)))); try lia; [|done].
    replace (i + step - lo) with (i - lo + 1 * step) by lia.
    by rewrite Z.mod_add by lia.
  - exists i. repeat split; try lia; done.
Qed.

(** The same for unit steps, where the counter ends at [max lo hi]. *)
Lemma for_one_rule {S R} (P : Z → S → Prop) (Q : R → Prop)
    lo hi (body : Z → S → ctl S R) s :
  P lo s →
  (∀ i s, lo ≤ i < hi → P i s →
    match body i s with Next s => P (i + 1) s | Stop r => Q r end) →
  match for_step lo 1 hi body s with
  | Next s => P (Z.max lo hi) s
  | Stop r => Q r
  end.
Proof.
  intros Hlo Hbody.
  pose proof (for_step_rule P Q lo 1 hi body s ltac:(lia) Hlo) as H.
  specialize (H (λ i s Hi _ HP, Hbody i s Hi HP)).
  destruct (for_step lo 1 hi body s) as [s'|r]; [|done].
  destruct H as (i & ? & ? & ? & ? & _ & HP).
  by replace (Z.max lo hi) with i by lia.
Qed.

(** The rule for a loop over the multiples of [d] from [b * d] to below [hi],
    in terms of the multiplier. *)
Lemma for_stride_rule {S R} (P : Z → S → Prop) (Q : R → Prop)
    d b e hi (body : Z → S → ctl S R) s :
  0 < d → (∀ q, q * d < hi ↔ q < e) →
  P b s →
  (∀ q s, b ≤ q < e → P q s →
    match body (q * d) s with Next s => P (q + 1) s | Stop r => Q r end) →
  match for_step (b * d) d hi body s with
  | Next s => P (Z.max b e) s
  | Stop r => Q r
  end.
Proof.
  intros Hd He H0 Hbody. set (P' i s := ∃ q, i = q * d ∧ (q = b ∨ q ≤ e) ∧ P q s).
  assert (∀ i s, b * d ≤ i < hi → (i - b * d) mod d = 0 → P' i s →
    match body i s with Next s => P' (i + d) s | Stop r => Q r end) as Hstep.
  { intros i s1 Hi _ (q & -> & Hq & HP).
    assert (b ≤ q < e) as Hqe by (split; [nia|apply He; lia]).
    specialize (Hbody q s1 Hqe HP). destruct (body (q * d) s1); [|done].
    exists (q + 1). split; [lia|]. split; [lia|done]. }
  assert (P' (b * d) s) as Hstart by (exists b; eauto).
  pose proof (for_step_rule P' Q (b * d) d hi body s Hd Hstart Hstep) as Hrule.
  destruct (for_step (b * d) d hi body s) as [s'|r]; [|done].
  destruct Hrule as (i & Hlo & Hhi & _ & _ & _ & (q & -> & Hq & HP)).
  pose proof (He q). assert (b ≤ q) by nia. replace (Z.max b e) with q by lia. done.
Qed.

Lemma for_all_rule {S} (P : Z → S → Prop) lo hi (body : Z → S → S) s :
  P lo s →
  (∀ i s, lo ≤ i < hi → P i s → P (i + 1) (body i s)) →
  P (Z.max lo hi) (for_all lo 1 hi body s).
Proof.
  intros Hlo Hbody. unfold for_all.
  pose proof (for_one_rule (R:=Empty_set) P (λ _, True) lo hi
    (λ i s, Next (body i s)) s Hlo Hbody) as H.
  destruct (for_step _ _ _ _ _) as [s'|[]]. done.
Qed.

(** Step over the unit-step loop in the goal with invariant [P] of the counter
    and the state and postcondition [Q] of early exits: three goals, the
    invariant at the start, its preservation, and the rest of the proof with
    the loop's outcome and [Hloop]. *)
Ltac for_one P Q :=
  match goal with
  | |- context [for_step ?lo 1 ?hi ?b ?st] =>
      let H := fresh "Hloop" in
      assert (match for_step lo 1 hi b st with
              | Next s => P (Z.max lo hi) s
              | Stop r => Q r
              end) as H;
      [apply (for_one_rule P Q) | destruct (for_step lo 1 hi b st)]
  end.

(** The same for a loop with a stride: the invariant is on the multiplier,
    which runs from [b] to [e]; two more goals for the stride and the bound
    come first. *)
Ltac for_stride P Q b e :=
  match goal with
  | |- context [for_step ?lo ?d ?hi ?f ?st] =>
      let H := fresh "Hloop" in
      assert (match for_step lo d hi f st with
              | Next s => P (Z.max b e) s
              | Stop r => Q r
              end) as H;
      [replace lo with (b * d) by lia; apply (for_stride_rule P Q d b e hi f st)
      |destruct (for_step lo d hi f st)]
  end.

(** The same for a loop that runs to its end. *)
Ltac for_whole P :=
  match goal with
  | |- context [for_all ?lo 1 ?hi ?b ?st] =>
      let H := fresh "Hloop" in
      assert (P (Z.max lo hi) (for_all lo 1 hi b st)) as H;
      [apply (for_all_rule P)
      |revert H; generalize (for_all lo 1 hi b st); intros ? H; cbv beta in H]
  end.

(** A body that is [Next] throughout. *)
Lemma for_step_next {S R} lo step hi (body : Z → S → ctl S R) s :
  0 < step →
  (∀ i s, lo ≤ i < hi → ∃ s', body i s = Next s') →
  ∃ s', for_step lo step hi body s = Next s'.
Proof.
  intros Hstep Hbody.
  pose proof (for_step_rule (λ _ _, True) (λ _, False) lo step hi body s Hstep I) as H.
  destruct (for_step lo step hi body s) as [s'|r]; [by eauto|].
  exfalso. apply H. intros i s' Hi _ _. by destruct (Hbody i s' Hi) as [? ->].
Qed.

(** Loops with pointwise equal bodies agree. *)
Lemma for_step_ext {S R} lo step hi (f g : Z → S → ctl S R) s :
  0 < step →
  (∀ i s, lo ≤ i < hi → f i s = g i s) →
  for_step lo step hi f s = for_step lo step hi g s.
Proof.
  intros Hstep Hfg.
  cut (∀ n i s, Z.to_nat (hi - i) = n → lo ≤ i →
         for_step i step hi f s = for_step i step hi g s).
  { intros H. by eapply (H _ lo s). }
  intros n. induction n as [n IH] using lt_wf_ind. intros i s' Hn Hi.
  rewrite !(for_step_unfold i) by done.
  destruct (Z.ltb_spec i hi) as [Hlt|Hge]; [|done].
  rewrite Hfg by lia. destruct (g i s'); [|done].
  apply (IH (Z.to_nat (hi - (i + step)))); lia.
Qed.

(** ** Memory *)

Lemma load_range m a : is_u64 (load m a).
Proof. apply u64_range. Qed.

Lemma load_store m a b v : load (store m a v) b = if decide (a = b) then u64 v else load m b.
Proof.
  unfold load, store. case_decide as Hab.
  - subst. by rewrite lookup_insert_eq.
  - by rewrite lookup_insert_ne.
Qed.

Lemma load_store_eq m a v : is_u64 v → load (store m a v) a = v.
Proof. intros Hv. rewrite load_store, decide_True by done. by apply u64_small. Qed.

Lemma load_store_ne m a b v : a ≠ b → load (store m a v) b = load m b.
Proof. intros H. by rewrite load_store, decide_False. Qed.

#[export] Instance in_words_dec page x : Decision (in_words page x).
Proof. unfold in_words. apply _. Defined.

Lemma in_words_index page x :
  in_words page x → ∃ j, 0 ≤ j < 512 ∧ x = page + 8 * j.
Proof. intros [? ?]. exists ((x - page) / 8). split; zdm. Qed.

Lemma index_in_words page j : 0 ≤ j < 512 → in_words page (page + 8 * j).
Proof. split; [lia|zdm]. Qed.

(** A loop that stores every word of a page. *)
Lemma load_store_words page f m x :
  (∀ j, 0 ≤ j < 512 → is_u64 (f j)) →
  load (for_all 0 1 512 (λ j m, store m (page + 8 * j) (f j)) m) x =
  if decide (in_words page x) then f ((x - page) / 8) else load m x.
Proof.
  intros Hf.
  for_whole (λ i m', (∀ j, 0 ≤ j < i → load m' (page + 8 * j) = f j) ∧
              ∀ y, (∀ j, 0 ≤ j < i → y ≠ page + 8 * j) → load m' y = load m y).
  - split; [lia|done].
  - intros i m' Hi [Hin Hout]. split.
    + intros j Hj. destruct (decide (j = i)) as [->|Hne].
      * rewrite load_store_eq; [done|]. apply Hf. lia.
      * rewrite load_store_ne by lia. apply Hin. lia.
    + intros y Hy. rewrite load_store_ne by (intros Heq; apply (Hy i); [lia|done]).
      apply Hout. intros j Hj. apply Hy. lia.
  - destruct Hloop as [Hin Hout]. case_decide as Hd.
    + apply in_words_index in Hd as (j & Hj & ->).
      replace ((page + 8 * j - page) / 8) with j by zdm. by apply Hin.
    + apply Hout. intros j Hj ->. by apply Hd, index_in_words.
Qed.

#[export] Hint Resolve load_range : u64.
#[export] Hint Rewrite load_store_eq using (first [done | by auto with u64]) : mem.
#[export] Hint Rewrite load_store_ne using (first [done | lia]) : mem.

(** ** Sequences of calls *)

(** The answers of a sequence of calls, and the state after it. *)
Fixpoint run {C A S} (step : C → S → A * S) (cs : list C) (s : S) : list A * S :=
  match cs with
  | [] => ([], s)
  | c :: cs =>
      let '(a, s) := step c s in
      let '(l, s) := run step cs s in
      (a :: l, s)
  end.

(** Two machines that answer every allowed call alike and stay related answer
    every sequence alike. *)
Lemma run_simulation {C A S T} (step : C → S → A * S) (spec : C → T → A * T)
    (ok : C → Prop) (R : S → T → Prop) cs s t :
  (∀ c s t, ok c → R s t →
    fst (step c s) = fst (spec c t) ∧ R (snd (step c s)) (snd (spec c t))) →
  Forall ok cs → R s t →
  fst (run step cs s) = fst (run spec cs t) ∧ R (snd (run step cs s)) (snd (run spec cs t)).
Proof.
  intros Hstep Hok. revert s t. induction Hok as [|c cs Hc _ IH]; intros s t Hst; simpl; [done|].
  destruct (Hstep c s t Hc Hst) as [Ha Hst'].
  destruct (step c s) as [a s'], (spec c t) as [b t']. simpl in *.
  destruct (IH s' t' Hst') as [Hl Hend].
  destruct (run step cs s') as [l s''], (run spec cs t') as [m t'']. simpl in *. by subst.
Qed.

(** A property every step keeps holds after every sequence. *)
Lemma run_invariant {C A S} (step : C → S → A * S) (ok : C → Prop) (P : S → Prop) cs s :
  (∀ c s, ok c → P s → P (snd (step c s))) → Forall ok cs → P s → P (snd (run step cs s)).
Proof.
  intros Hstep Hok. revert s. induction Hok as [|c cs Hc _ IH]; intros s Hs; simpl; [done|].
  pose proof (Hstep c s Hc Hs) as H. destruct (step c s) as [a s']. simpl in H.
  specialize (IH s' H). by destruct (run step cs s').
Qed.
