(* ===== verification/BootInfo.v ===== *)
(** * Boot information: [include/boot_info.h]

    The loader/kernel contract as the kernel reads it from RAM: the
    [BOOT_INFO] structure at the address it is handed, and the memory
    descriptors of the final UEFI memory map, at the stride the structure
    gives. Both are 8-byte aligned structures of 64-bit words, two of which
    are pairs of [uint32_t]. *)

From S2P Require Import Prelude.

Definition BOOT_INFO_MAGIC : Z := 0x4f5342494e464f31.
Definition BOOT_INFO_VERSION : Z := 2.
Definition BOOT_SERVICES_EXITED : Z := 1.

Record BOOT_INFO := {
  magic : Z;
  version : Z;
  info_size : Z;
  memory_map : Z;
  memory_map_size : Z;
  descriptor_size : Z;
  descriptor_version : Z;
  reserved : Z;
  kernel_base : Z;
  kernel_size : Z;
  stack_base : Z;
  stack_size : Z;
  flags : Z;
}.

Record BOOT_MEMORY_DESCRIPTOR := {
  type : Z;
  padding : Z;
  physical_start : Z;
  virtual_start : Z;
  number_of_pages : Z;
  attributes : Z;
}.

(** [sizeof(BOOT_INFO)] and [sizeof(BOOT_MEMORY_DESCRIPTOR)], which the header
    asserts. *)
Definition sizeof_BOOT_INFO : Z := 88.
Definition sizeof_BOOT_MEMORY_DESCRIPTOR : Z := 40.

(** The two [uint32_t] of a little-endian 64-bit word. *)
Definition low32 (w : Z) : Z := u32 w.
Definition high32 (w : Z) : Z := u32 (Z.shiftr w 32).

(** The structure a [const BOOT_INFO *] points to. *)
Definition read_info (m : ram) (p : Z) : BOOT_INFO := {|
  magic := load m p;
  version := low32 (load m (p + 8));
  info_size := high32 (load m (p + 8));
  memory_map := load m (p + 16);
  memory_map_size := load m (p + 24);
  descriptor_size := load m (p + 32);
  descriptor_version := low32 (load m (p + 40));
  reserved := high32 (load m (p + 40));
  kernel_base := load m (p + 48);
  kernel_size := load m (p + 56);
  stack_base := load m (p + 64);
  stack_size := load m (p + 72);
  flags := load m (p + 80);
|}.

(** The structure a [const BOOT_MEMORY_DESCRIPTOR *] points to. *)
Definition read_descriptor (m : ram) (p : Z) : BOOT_MEMORY_DESCRIPTOR := {|
  type := low32 (load m p);
  padding := high32 (load m p);
  physical_start := load m (p + 8);
  virtual_start := load m (p + 16);
  number_of_pages := load m (p + 24);
  attributes := load m (p + 32);
|}.

(** Every 64-bit field of a structure read from memory is a [uint64_t]. *)
Lemma read_descriptor_range m p :
  is_u64 (physical_start (read_descriptor m p)) ∧
  is_u64 (number_of_pages (read_descriptor m p)) ∧
  is_u64 (attributes (read_descriptor m p)).
Proof. simpl. auto with u64. Qed.

Lemma read_info_range m p :
  let i := read_info m p in
  is_u64 (memory_map i) ∧ is_u64 (memory_map_size i) ∧ is_u64 (descriptor_size i) ∧
  is_u64 (kernel_base i) ∧ is_u64 (kernel_size i) ∧
  is_u64 (stack_base i) ∧ is_u64 (stack_size i).
Proof. simpl. auto 10 with u64. Qed.

(** Memories that agree on the words of a structure hold the same one. *)
Lemma read_descriptor_agree m m' p :
  (∀ k, 0 ≤ k < 5 → load m' (p + 8 * k) = load m (p + 8 * k)) →
  read_descriptor m' p = read_descriptor m p.
Proof.
  intros H. unfold read_descriptor.
  pose proof (H 0 ltac:(lia)) as H0. change (8 * 0) with 0 in H0.
  pose proof (H 1 ltac:(lia)) as H1. change (8 * 1) with 8 in H1.
  pose proof (H 2 ltac:(lia)) as H2. change (8 * 2) with 16 in H2.
  pose proof (H 3 ltac:(lia)) as H3. change (8 * 3) with 24 in H3.
  pose proof (H 4 ltac:(lia)) as H4. change (8 * 4) with 32 in H4.
  rewrite Z.add_0_r in H0. by rewrite H0, H1, H2, H3, H4.
Qed.

Lemma read_info_agree m m' p :
  (∀ k, 0 ≤ k < 11 → load m' (p + 8 * k) = load m (p + 8 * k)) →
  read_info m' p = read_info m p.
Proof.
  intros H.
  assert (∀ x, 0 ≤ x < 88 → x mod 8 = 0 → load m' (p + x) = load m (p + x)) as Hx.
  { intros x Hx Hm. replace x with (8 * (x / 8)) by zdm. apply H. zdm. }
  pose proof (Hx 0 ltac:(lia) eq_refl) as H0. rewrite Z.add_0_r in H0.
  unfold read_info. by rewrite H0, !Hx.
Qed.
