(* ===== verification/PmmInterface.v ===== *)
(** * The page allocator's interface: [kernel/pmm.h]

    [PmmApi] is the API the header declares; [PmmContract] is what its
    clients (the page tables, the boot checks) rely on: a fixed pool of page
    frames, some of which are in use. The clients are proved against the
    contract, and [Pmm] proves that [kernel/pmm.c] keeps it. *)

From S2P Require Import Prelude.

Definition PMM_PAGE_SIZE : Z := 4096.
Definition PMM_LIMIT : Z := 0x100000000.

(** A physical page the allocator may manage: aligned, between 1 MiB and
    4 GiB. *)
Definition frame (a : Z) : Prop :=
  0x100000 ≤ a < PMM_LIMIT ∧ a mod PMM_PAGE_SIZE = 0.

(** The functions of [pmm.h] on an allocator state [A]. [pmm_alloc] returns
    [Some address] for [true] with the address stored through its pointer,
    and [None] for [false] with the pointer's target untouched. *)
Class PmmApi (A : Type) := {
  pmm_alloc : A → option Z * A;
  pmm_free : Z → A → bool * A;
  pmm_is_allocated : Z → A → bool;
  pmm_total : A → Z;
  pmm_available : A → Z;
}.

Class PmmContract (A : Type) `{!PmmApi A} := {
  (** the states of an initialized allocator *)
  pmm_inv : A → Prop;
  (** the addresses of the managed pages, and of those handed out *)
  pmm_pool : A → gset Z;
  pmm_used : A → gset Z;

  pmm_pool_frame s a : pmm_inv s → a ∈ pmm_pool s → frame a;
  pmm_used_pool s : pmm_inv s → pmm_used s ⊆ pmm_pool s;

  (** An allocation hands out a page of the pool that was not in use, and
      fails only when there is none. *)
  pmm_alloc_some s a s' :
    pmm_inv s → pmm_alloc s = (Some a, s') →
    pmm_inv s' ∧ a ∈ pmm_pool s ∖ pmm_used s ∧
    pmm_pool s' = pmm_pool s ∧ pmm_used s' = {[a]} ∪ pmm_used s;
  pmm_alloc_none s s' :
    pmm_inv s → pmm_alloc s = (None, s') → s' = s ∧ pmm_pool s ⊆ pmm_used s;

  (** A release succeeds exactly on the pages in use. *)
  pmm_free_true s a s' :
    pmm_inv s → pmm_free a s = (true, s') →
    pmm_inv s' ∧ a ∈ pmm_used s ∧
    pmm_pool s' = pmm_pool s ∧ pmm_used s' = pmm_used s ∖ {[a]};
  pmm_free_false s a s' :
    pmm_inv s → pmm_free a s = (false, s') → s' = s ∧ a ∉ pmm_used s;

  pmm_is_allocated_spec s a :
    pmm_inv s → pmm_is_allocated a s = bool_decide (a ∈ pmm_used s);
  pmm_total_spec s : pmm_inv s → pmm_total s = Z.of_nat (size (pmm_pool s));
  pmm_available_spec s :
    pmm_inv s → pmm_available s = Z.of_nat (size (pmm_pool s ∖ pmm_used s));
}.

Section client_lemmas.
Context `{PmmContract A}.

Lemma pmm_free_used s a :
  pmm_inv s → a ∈ pmm_used s → ∃ s', pmm_free a s = (true, s').
Proof.
  intros Hs Ha. destruct (pmm_free a s) as [[|] s'] eqn:Hf; [by eauto|].
  by apply pmm_free_false in Hf as [_ Hn].
Qed.

Lemma pmm_used_frame s a : pmm_inv s → a ∈ pmm_used s → frame a.
Proof. intros Hs Ha. eapply pmm_pool_frame; [done|]. by eapply pmm_used_pool. Qed.

Lemma pmm_alloc_available s :
  pmm_inv s → 0 < pmm_available s → ∃ a s', pmm_alloc s = (Some a, s').
Proof.
  intros Hs Hav. destruct (pmm_alloc s) as [[a|] s'] eqn:Ha; [by eauto|].
  apply pmm_alloc_none in Ha as [_ Hsub]; [|done].
  rewrite pmm_available_spec in Hav by done.
  assert (pmm_pool s ∖ pmm_used s = ∅) as He by set_solver.
  rewrite He, size_empty in Hav. lia.
Qed.

(** An allocation takes one page from those available, a release gives one
    back. *)
Lemma pmm_alloc_count s a s' :
  pmm_inv s → pmm_alloc s = (Some a, s') → pmm_available s' = pmm_available s - 1.
Proof.
  intros Hs Ha. apply pmm_alloc_some in Ha as (Hs' & Hin & Hpool & Hused); [|done].
  rewrite !pmm_available_spec, Hpool, Hused by done.
  assert (pmm_pool s ∖ ({[a]} ∪ pmm_used s) = pmm_pool s ∖ pmm_used s ∖ {[a]})
    as -> by set_solver.
  rewrite (size_difference (pmm_pool s ∖ pmm_used s)), size_singleton by set_solver.
  assert (size {[a]} ≤ size (pmm_pool s ∖ pmm_used s))%nat as Hsz
    by (apply subseteq_size; set_solver).
  rewrite size_singleton in Hsz. lia.
Qed.

Lemma pmm_free_count s a s' :
  pmm_inv s → pmm_free a s = (true, s') → pmm_available s' = pmm_available s + 1.
Proof.
  intros Hs Ha. apply pmm_free_true in Ha as (Hs' & Hin & Hpool & Hused); [|done].
  rewrite !pmm_available_spec, Hpool, Hused by done.
  pose proof (pmm_used_pool s Hs) as Hsub.
  assert (pmm_pool s ∖ (pmm_used s ∖ {[a]}) = {[a]} ∪ (pmm_pool s ∖ pmm_used s)) as ->.
  { apply set_eq. intros x. destruct (decide (x = a)); set_solver. }
  rewrite size_union by set_solver. rewrite size_singleton. lia.
Qed.

(** Releasing a page that was just handed out undoes the allocation. *)
Lemma pmm_alloc_free s a s1 :
  pmm_inv s → pmm_alloc s = (Some a, s1) →
  pmm_is_allocated a s = false ∧ pmm_is_allocated a s1 = true ∧
  pmm_available s1 = pmm_available s - 1 ∧
  ∃ s2, pmm_free a s1 = (true, s2) ∧ pmm_inv s2 ∧
        pmm_pool s2 = pmm_pool s ∧ pmm_used s2 = pmm_used s ∧
        pmm_available s2 = pmm_available s ∧ pmm_free a s2 = (false, s2).
Proof.
  intros Hs Ha. pose proof (pmm_alloc_count s a s1 Hs Ha) as Hc.
  apply pmm_alloc_some in Ha as (Hs1 & Hin & Hpool & Hused); [|done].
  apply elem_of_difference in Hin as [_ Hn].
  rewrite !pmm_is_allocated_spec by done.
  split; [by apply bool_decide_eq_false|].
  split; [apply bool_decide_eq_true; rewrite Hused; set_solver|]. split; [done|].
  destruct (pmm_free_used s1 a Hs1) as [s2 Hf]; [rewrite Hused; set_solver|].
  exists s2. split; [done|]. pose proof (pmm_free_count s1 a s2 Hs1 Hf) as Hc2.
  apply pmm_free_true in Hf as (Hs2 & _ & Hpool2 & Hused2); [|done].
  assert (pmm_used s2 = pmm_used s) as Hu by (rewrite Hused2, Hused; set_solver).
  split; [done|]. split; [congruence|]. split; [done|]. split; [lia|].
  destruct (pmm_free a s2) as [[|] s3] eqn:Hf3.
  - apply pmm_free_true in Hf3 as (_ & Hin & _); [|done]. by rewrite Hu in Hin.
  - by apply pmm_free_false in Hf3 as [-> _].
Qed.
End client_lemmas.
