(* ===== verification/Pmm.v ===== *)
(** * The physical page allocator: [kernel/pmm.c]

    State: two bitmaps over the 2^20 page frames below 4 GiB ([eligible],
    [allocated]), the two counters, the search cursor and the [ready] flag.
    One definition per C function. The abstraction [pages_of] reads a bitmap
    as a set of page numbers, [pmm_wf] is the invariant of an initialized
    allocator, and the instance [Pmm_contract] discharges the interface of
    [PmmInterface]. *)

From S2P Require Import Prelude BootInfo PmmInterface.

Module Pmm.

Definition PAGE_COUNT : Z := PMM_LIMIT / PMM_PAGE_SIZE.
Definition WORD_COUNT : Z := PAGE_COUNT / 64.

(** A [static uint64_t map[WORD_COUNT]] by word index; BSS is zero. *)
Abbreviation bitmap := (gmap Z Z).

Record PMM := {
  eligible : bitmap;
  allocated : bitmap;
  total_pages : Z;
  free_pages : Z;
  cursor : Z;
  ready : bool;
}.

(** The state of the static variables when the kernel is entered. *)
Definition pmm_bss : PMM := {|
  eligible := ∅; allocated := ∅; total_pages := 0; free_pages := 0; cursor := 0;
  ready := false |}.

Definition with_eligible (s : PMM) (m : bitmap) : PMM := {|
  eligible := m; allocated := allocated s; total_pages := total_pages s;
  free_pages := free_pages s; cursor := cursor s; ready := ready s |}.

(** ** Bitmap primitives *)

Definition word (m : bitmap) (i : Z) : Z := load m i.

Definition bit (m : bitmap) (page : Z) : bool :=
  has_bits (word m (page / 64)) (bit64 (page mod 64)).

Definition set (m : bitmap) (page : Z) : bitmap :=
  store m (page / 64) (Z.lor (word m (page / 64)) (bit64 (page mod 64))).

Definition clear (m : bitmap) (page : Z) : bitmap :=
  store m (page / 64) (Z.land (word m (page / 64)) (not64 (bit64 (page mod 64)))).

(** ** Validation of the boot information *)

Definition valid_range (base size : Z) : bool :=
  negb (size =? 0) && (base <=? UINT64_MAX - size).

Definition descriptor (m : ram) (info : BOOT_INFO) (index : Z) : BOOT_MEMORY_DESCRIPTOR :=
  read_descriptor m (u64 (memory_map info + u64 (index * descriptor_size info))).

(** [p] is the pointer, [info] the structure it points to. *)
Definition valid_boot_info (p : Z) (info : BOOT_INFO) : bool :=
  negb (p =? 0) && (magic info =? BOOT_INFO_MAGIC)
  && (version info =? BOOT_INFO_VERSION) && (info_size info =? sizeof_BOOT_INFO)
  && (flags info =? BOOT_SERVICES_EXITED)
  && negb (memory_map info =? 0) && (memory_map info mod 8 =? 0)
  && (sizeof_BOOT_MEMORY_DESCRIPTOR <=? descriptor_size info)
  && (descriptor_size info mod 8 =? 0) && (descriptor_version info =? 1)
  && valid_range (memory_map info) (memory_map_size info)
  && (memory_map_size info <=? 65536)
  && (memory_map_size info mod descriptor_size info =? 0)
  && valid_range (kernel_base info) (kernel_size info)
  && valid_range (stack_base info) (stack_size info)
  && valid_range p sizeof_BOOT_INFO.

Definition valid_descriptor (d : BOOT_MEMORY_DESCRIPTOR) : bool :=
  (physical_start d mod PMM_PAGE_SIZE =? 0) && negb (number_of_pages d =? 0)
  && (number_of_pages d <=? (UINT64_MAX - physical_start d) / PMM_PAGE_SIZE).

(** [d->physical_start + d->number_of_pages * 4096] *)
Definition descriptor_end (d : BOOT_MEMORY_DESCRIPTOR) : Z :=
  u64 (physical_start d + u64 (number_of_pages d * 4096)).

Definition descriptor_count (info : BOOT_INFO) : Z :=
  memory_map_size info / descriptor_size info.

(** The two nested loops; leaving either one returns [false]. *)
Definition valid_map_ranges (m : ram) (info : BOOT_INFO) : bool :=
  let count := descriptor_count info in
  match
    for_step 0 1 count (λ i (_ : unit),
      let d := descriptor m info i in
      if negb (valid_descriptor d) then Stop false
      else
        let end_ := descriptor_end d in
        for_step 0 1 i (λ j (_ : unit),
          let other := descriptor m info j in
          if (physical_start d <? descriptor_end other) && (physical_start other <? end_)
          then Stop false else Next tt) tt) tt
  with
  | Next _ => true
  | Stop r => r
  end.

(** ** Initialization *)

Definition reserve (base size : Z) (m : bitmap) : bitmap :=
  if PMM_LIMIT <=? base then m
  else
    let end_ := u64 (base + size) in
    let end_ := if PMM_LIMIT <? end_ then PMM_LIMIT else end_ in
    for_all (base / PMM_PAGE_SIZE) 1 ((end_ + 4095) / 4096) (λ page m, clear m page) m.

(** The range of pages [mark_usable_pages] sets for one descriptor. *)
Definition clamp_begin (d : BOOT_MEMORY_DESCRIPTOR) : Z :=
  let begin := physical_start d in
  if begin <? 0x100000 then 0x100000 else begin.
Definition clamp_end (d : BOOT_MEMORY_DESCRIPTOR) : Z :=
  let end_ := descriptor_end d in
  if PMM_LIMIT <? end_ then PMM_LIMIT else end_.

Definition mark_usable_pages (m : ram) (info : BOOT_INFO) (e : bitmap) : bitmap :=
  for_all 0 1 (descriptor_count info) (λ i e,
    let d := descriptor m info i in
    if negb (type d =? 7) || has_bits (attributes d) (bit64 63) then e
    else for_all (clamp_begin d / 4096) 1 (clamp_end d / 4096) (λ page e, set e page) e) e.

Definition reserve_boot_regions (p : Z) (info : BOOT_INFO) (e : bitmap) : bitmap :=
  let e := reserve (kernel_base info) (kernel_size info) e in
  let e := reserve p sizeof_BOOT_INFO e in
  let e := reserve (memory_map info) (memory_map_size info) e in
  reserve (stack_base info) (stack_size info) e.

Definition count_pages (e : bitmap) (total : Z) : Z :=
  for_all 0 1 PAGE_COUNT (λ page total, if bit e page then u64 (total + 1) else total) total.

Definition pmm_init (m : ram) (p : Z) (s : PMM) : bool * PMM :=
  let info := read_info m p in
  if ready s || negb (valid_boot_info p info) then (false, s)
  else if negb (valid_map_ranges m info) then (false, s)
  else
    let e := mark_usable_pages m info (eligible s) in
    let e := reserve_boot_regions p info e in
    let total := count_pages e (total_pages s) in
    (true, {| eligible := e; allocated := allocated s; total_pages := total;
              free_pages := total; cursor := cursor s; ready := true |}).

(** ** Allocation and release *)

(** [nonnull] is the truth value of the [address] pointer. *)
Definition pmm_alloc_at (nonnull : bool) (s : PMM) : option Z * PMM :=
  if negb (ready s) || negb nonnull || (free_pages s =? 0) then (None, s)
  else
    match
      for_step 0 1 PAGE_COUNT (λ scanned (_ : unit),
        let page := u64 (cursor s + scanned) mod PAGE_COUNT in
        if negb (bit (eligible s) page) || bit (allocated s) page then Next tt
        else
          Stop (u64 (page * 4096),
            {| eligible := eligible s; allocated := set (allocated s) page;
               total_pages := total_pages s; free_pages := u64 (free_pages s - 1);
               cursor := (page + 1) mod PAGE_COUNT; ready := ready s |})) tt
    with
    | Stop (address, s) => (Some address, s)
    | Next _ => (None, s)
    end.

Definition pmm_free (address : Z) (s : PMM) : bool * PMM :=
  if negb (ready s) || negb (address mod 4096 =? 0) || (PMM_LIMIT <=? address)
  then (false, s)
  else
    let page := address / 4096 in
    if negb (bit (eligible s) page) || negb (bit (allocated s) page) then (false, s)
    else
      (true,
       {| eligible := eligible s; allocated := clear (allocated s) page;
          total_pages := total_pages s; free_pages := u64 (free_pages s + 1);
          cursor := if page <? cursor s then page else cursor s; ready := ready s |}).

Definition pmm_total (s : PMM) : Z := total_pages s.
Definition pmm_available (s : PMM) : Z := free_pages s.

Definition pmm_is_allocated (address : Z) (s : PMM) : bool :=
  ready s && (address <? PMM_LIMIT) && (address mod 4096 =? 0)
  && bit (eligible s) (address / 4096) && bit (allocated s) (address / 4096).

(** The API as its callers use it, with a non-null output pointer. *)
#[export] Instance Pmm_api : PmmApi PMM := {|
  PmmInterface.pmm_alloc := pmm_alloc_at true;
  PmmInterface.pmm_free := pmm_free;
  PmmInterface.pmm_is_allocated := pmm_is_allocated;
  PmmInterface.pmm_total := pmm_total;
  PmmInterface.pmm_available := pmm_available;
|}.

(** ** Abstraction *)

(** The pages whose bit is set, as a set. *)
Definition word_pages (i w : Z) : list Z :=
  (λ b, 64 * i + b) <$> filter (λ b, Z.testbit (u64 w) b = true) (seqZ 0 64).
Definition pages_of (m : bitmap) : gset Z :=
  list_to_set (map_to_list m ≫= λ '(i, w), word_pages i w).

Definition eligible_pages (s : PMM) : gset Z := pages_of (eligible s).
Definition allocated_pages (s : PMM) : gset Z := pages_of (allocated s).
Definition vacant_pages (s : PMM) : gset Z := eligible_pages s ∖ allocated_pages s.

(** The address of a page, and the pages as sets of addresses. *)
Definition address_of (page : Z) : Z := page * 4096.
Definition addresses (X : gset Z) : gset Z := set_map address_of X.

(** The invariant of an initialized allocator. The last clause is what makes
    the next-fit cursor a first-fit search: no vacant page is below it. *)
Record pmm_wf (s : PMM) : Prop := {
  wf_ready : ready s = true;
  wf_eligible_range : ∀ q, q ∈ eligible_pages s → 256 ≤ q < PAGE_COUNT;
  wf_allocated : allocated_pages s ⊆ eligible_pages s;
  wf_total : total_pages s = Z.of_nat (size (eligible_pages s));
  wf_free : free_pages s = Z.of_nat (size (vacant_pages s));
  wf_cursor : 0 ≤ cursor s < PAGE_COUNT;
  wf_first : ∀ q, q ∈ vacant_pages s → cursor s ≤ q;
}.

(** What [pmm_init] is meant to select. A page overlaps a byte range; the
    descriptor's byte range, without wrap-around; a page is usable when a
    conventional, non-runtime descriptor contains it, between 1 MiB and
    4 GiB; it is reserved when it overlaps one of the four boot regions. *)
Definition overlaps (q base size : Z) : Prop :=
  q * 4096 < base + size ∧ base < (q + 1) * 4096.
Definition descriptor_limit (d : BOOT_MEMORY_DESCRIPTOR) : Z :=
  physical_start d + number_of_pages d * 4096.
Definition usable_descriptor (d : BOOT_MEMORY_DESCRIPTOR) : Prop :=
  type d = 7 ∧ Z.testbit (attributes d) 63 = false.
Definition contains_page (d : BOOT_MEMORY_DESCRIPTOR) (q : Z) : Prop :=
  physical_start d ≤ q * 4096 ∧ (q + 1) * 4096 ≤ descriptor_limit d.
Definition usable_page (m : ram) (info : BOOT_INFO) (q : Z) : Prop :=
  256 ≤ q < PAGE_COUNT ∧
  ∃ i, 0 ≤ i < descriptor_count info ∧
       usable_descriptor (descriptor m info i) ∧ contains_page (descriptor m info i) q.
Definition boot_reserved (p : Z) (info : BOOT_INFO) (q : Z) : Prop :=
  overlaps q (kernel_base info) (kernel_size info) ∨ overlaps q p sizeof_BOOT_INFO ∨
  overlaps q (memory_map info) (memory_map_size info) ∨
  overlaps q (stack_base info) (stack_size info).

(** The map [valid_map_ranges] accepts: every descriptor is page aligned, not
    empty and ends below 2^64, and no two overlap. *)
Definition well_formed_descriptor (d : BOOT_MEMORY_DESCRIPTOR) : Prop :=
  physical_start d mod 4096 = 0 ∧ 0 < number_of_pages d ∧ descriptor_limit d ≤ UINT64_MAX.
Definition disjoint_descriptors (d e : BOOT_MEMORY_DESCRIPTOR) : Prop :=
  descriptor_limit d ≤ physical_start e ∨ descriptor_limit e ≤ physical_start d.
Definition well_formed_map (m : ram) (info : BOOT_INFO) : Prop :=
  ∀ i, 0 ≤ i < descriptor_count info →
    well_formed_descriptor (descriptor m info i) ∧
    ∀ j, 0 ≤ j < i → disjoint_descriptors (descriptor m info i) (descriptor m info j).

(** The least element of a finite set of pages. *)
Definition least (X : gset Z) : option Z :=
  match elements X with
  | [] => None
  | x :: l => Some (foldr Z.min x l)
  end.

(** The bitmap [pmm_init] builds, and the part of a set below a bound. *)
Definition init_bitmap (m : ram) (p : Z) : bitmap :=
  reserve_boot_regions p (read_info m p) (mark_usable_pages m (read_info m p) ∅).
Definition below (X : gset Z) (i : Z) : gset Z := filter (λ q, q < i) X.

(** The state [pmm_alloc] leaves when it hands out page [q]. *)
Definition alloc_page (s : PMM) (q : Z) : PMM := {|
  eligible := eligible s; allocated := set (allocated s) q;
  total_pages := total_pages s; free_pages := u64 (free_pages s - 1);
  cursor := (q + 1) mod PAGE_COUNT; ready := ready s |}.

(** The state [pmm_free] leaves when it takes back page [q]. *)
Definition free_page (s : PMM) (q : Z) : PMM := {|
  eligible := eligible s; allocated := clear (allocated s) q;
  total_pages := total_pages s; free_pages := u64 (free_pages s + 1);
  cursor := if q <? cursor s then q else cursor s; ready := ready s |}.

(** ** Bitmaps are sets of pages *)

Lemma mod64_range p : 0 ≤ p mod 64 < 64.
Proof. apply Z.mod_pos_bound. lia. Qed.

Lemma word_range m i : is_u64 (word m i).
Proof. apply load_range. Qed.

Lemma bit_testbit m p : bit m p = Z.testbit (word m (p / 64)) (p mod 64).
Proof. apply has_bits_bit64, mod64_range. Qed.

Lemma elem_of_word_pages i w q :
  q ∈ word_pages i w ↔ q / 64 = i ∧ Z.testbit (u64 w) (q mod 64) = true.
Proof.
  unfold word_pages. rewrite list_elem_of_fmap. split.
  - intros (b & -> & Hb). apply list_elem_of_filter in Hb as [Hw Hb%elem_of_seqZ].
    replace (64 * i + b) with (b + i * 64) by lia.
    rewrite Z.div_add, Z.mod_add, Z.div_small, Z.mod_small by lia. by split; [lia|].
  - intros [Hi Hw]. exists (q mod 64). split.
    + rewrite <- Hi. apply Z.div_mod. lia.
    + apply list_elem_of_filter. split; [done|].
      apply elem_of_seqZ. pose proof (mod64_range q). lia.
Qed.

Lemma elem_of_pages_of m q : q ∈ pages_of m ↔ bit m q = true.
Proof.
  unfold pages_of. rewrite elem_of_list_to_set, list_elem_of_bind, bit_testbit.
  unfold word, load. split.
  - intros ([i w] & Hq%elem_of_word_pages & Hm%elem_of_map_to_list).
    destruct Hq as [-> Hq]. by rewrite Hm.
  - intros Hq. destruct (m !! (q / 64)) as [w|] eqn:Hm.
    + exists (q / 64, w). by rewrite elem_of_word_pages, elem_of_map_to_list.
    + simpl in Hq. by rewrite Z.bits_0 in Hq.
Qed.

Lemma not_elem_of_pages_of m q : q ∉ pages_of m ↔ bit m q = false.
Proof. rewrite elem_of_pages_of. by destruct (bit m q). Qed.

Lemma bit_bool_decide m q : bit m q = bool_decide (q ∈ pages_of m).
Proof.
  destruct (bit m q) eqn:Hq; symmetry.
  - by apply bool_decide_eq_true, elem_of_pages_of.
  - by apply bool_decide_eq_false, not_elem_of_pages_of.
Qed.

Lemma page_split p q : p = q ↔ p / 64 = q / 64 ∧ p mod 64 = q mod 64.
Proof. split; [by intros ->|]. intros []. zdm. Qed.

Lemma pages_of_empty : pages_of ∅ = ∅.
Proof. done. Qed.

Lemma pages_of_set m p : pages_of (set m p) = {[p]} ∪ pages_of m.
Proof.
  apply set_eq. intros q.
  rewrite elem_of_union, elem_of_singleton, !elem_of_pages_of, !bit_testbit, (page_split q p).
  unfold set, word. rewrite load_store. case_decide as Hd.
  - rewrite testbit_u64, Z.lor_spec, testbit_bit64, Hd by apply mod64_range.
    rewrite orb_true_iff, Z.eqb_eq. unfold word. intuition.
  - intuition.
Qed.

Lemma pages_of_clear m p : pages_of (clear m p) = pages_of m ∖ {[p]}.
Proof.
  apply set_eq. intros q.
  rewrite elem_of_difference, elem_of_singleton, !elem_of_pages_of, !bit_testbit,
    (page_split q p).
  unfold clear, word. rewrite load_store. case_decide as Hd.
  - rewrite testbit_u64, Z.land_spec, testbit_not64, testbit_bit64, Hd by apply mod64_range.
    rewrite andb_true_iff, negb_true_iff, Z.eqb_neq. unfold word. intuition.
  - intuition.
Qed.

(** ** The least element of a set *)

Lemma foldr_min x l :
  (foldr Z.min x l = x ∨ foldr Z.min x l ∈ l) ∧
  foldr Z.min x l ≤ x ∧ ∀ y, y ∈ l → foldr Z.min x l ≤ y.
Proof.
  induction l as [|z l (IHin & IHx & IHl)]; simpl.
  - split; [by left|]. split; [lia|]. set_solver.
  - split; [|split].
    + destruct (Z.min_spec z (foldr Z.min x l)) as [[_ ->]|[_ ->]]; set_solver.
    + lia.
    + intros y [->|Hy]%elem_of_cons; [lia|]. specialize (IHl y Hy). lia.
Qed.

Lemma least_Some X x : least X = Some x → x ∈ X ∧ ∀ y, y ∈ X → x ≤ y.
Proof.
  unfold least. destruct (elements X) as [|z l] eqn:Hel; [done|]. intros [= <-].
  assert (∀ y, y ∈ X ↔ y = z ∨ y ∈ l) as HX.
  { intros y. by rewrite <- elem_of_elements, Hel, elem_of_cons. }
  destruct (foldr_min z l) as (Hin & Hz & Hl). split.
  - apply HX. destruct Hin; auto.
  - intros y [->|Hy]%HX; auto.
Qed.

Lemma least_None X : least X = None → X = ∅.
Proof.
  unfold least. destruct (elements X) eqn:Hel; [|done]. intros _.
  apply leibniz_equiv, elements_empty_inv. by rewrite Hel.
Qed.

Lemma least_unique X x : x ∈ X → (∀ y, y ∈ X → x ≤ y) → least X = Some x.
Proof.
  intros Hx Hmin. destruct (least X) as [z|] eqn:Hl.
  - apply least_Some in Hl as [Hz Hle]. f_equal.
    specialize (Hmin z Hz). specialize (Hle x Hx). lia.
  - apply least_None in Hl. set_solver.
Qed.

(** ** Allocation *)

Lemma PAGE_COUNT_val : PAGE_COUNT = 1048576.
Proof. done. Qed.

Lemma vacant_spec s q :
  q ∈ vacant_pages s ↔ bit (eligible s) q = true ∧ bit (allocated s) q = false.
Proof.
  unfold vacant_pages, eligible_pages, allocated_pages.
  by rewrite elem_of_difference, elem_of_pages_of, not_elem_of_pages_of.
Qed.

Lemma vacant_range s q : pmm_wf s → q ∈ vacant_pages s → 256 ≤ q < PAGE_COUNT.
Proof. intros Hs Hq. apply (wf_eligible_range s Hs). set_solver. Qed.

Lemma free_pages_bound s : pmm_wf s → 0 ≤ free_pages s ≤ PAGE_COUNT.
Proof.
  intros Hs. rewrite (wf_free s Hs).
  assert (vacant_pages s ⊆ list_to_set (seqZ 0 PAGE_COUNT)) as Hsub.
  { intros q Hq%(vacant_range s _ Hs). rewrite elem_of_list_to_set, elem_of_seqZ. lia. }
  apply subseteq_size in Hsub. rewrite size_list_to_set in Hsub by apply NoDup_seqZ.
  rewrite length_seqZ in Hsub. rewrite PAGE_COUNT_val in *. lia.
Qed.

Lemma vacant_alloc_page s q : vacant_pages (alloc_page s q) = vacant_pages s ∖ {[q]}.
Proof.
  unfold vacant_pages, eligible_pages, allocated_pages. simpl. rewrite pages_of_set. set_solver.
Qed.

Lemma alloc_page_wf s q :
  pmm_wf s → least (vacant_pages s) = Some q → pmm_wf (alloc_page s q).
Proof.
  intros Hs [Hq Hmin]%least_Some. pose proof (vacant_range s q Hs Hq) as Hr.
  pose proof (free_pages_bound s Hs) as Hfb. pose proof (wf_free s Hs) as Hf.
  assert (size (vacant_pages s ∖ {[q]}) = size (vacant_pages s) - 1)%nat as Hsz.
  { rewrite size_difference, size_singleton by set_solver. done. }
  assert (0 < size (vacant_pages s))%nat as Hpos.
  { assert (size ({[q]} : gset Z) ≤ size (vacant_pages s))%nat as Hle
      by (apply subseteq_size; set_solver).
    rewrite size_singleton in Hle. lia. }
  split; try apply Hs.
  - unfold allocated_pages, eligible_pages. simpl. rewrite pages_of_set.
    pose proof (wf_allocated s Hs). unfold vacant_pages, eligible_pages, allocated_pages in *.
    set_solver.
  - rewrite vacant_alloc_page, Hsz. simpl. rewrite u64_small; [lia|].
    unfold is_u64. rewrite PAGE_COUNT_val in *. lia.
  - apply Z.mod_pos_bound. done.
  - intros y. rewrite vacant_alloc_page. intros [Hy Hne]%elem_of_difference. simpl.
    specialize (Hmin y Hy). pose proof (vacant_range s y Hs Hy).
    rewrite not_elem_of_singleton in Hne.
    rewrite Z.mod_small by lia. lia.
Qed.

Lemma pmm_alloc_at_least s q :
  pmm_wf s → least (vacant_pages s) = Some q →
  pmm_alloc_at true s = (Some (q * 4096), alloc_page s q).
Proof.
  intros Hs Hq. pose proof (least_Some _ _ Hq) as [Hin Hmin].
  pose proof (vacant_range s q Hs Hin) as Hr. pose proof (wf_cursor s Hs) as Hc.
  unfold pmm_alloc_at. rewrite (wf_ready s Hs). simpl.
  assert ((free_pages s =? 0) = false) as ->.
  { apply Z.eqb_neq. rewrite (wf_free s Hs). intros H0.
    apply (size_non_empty_iff (vacant_pages s)); [set_solver|lia]. }
  for_one (λ i (_ : unit), ∀ y, y ∈ vacant_pages s → cursor s + i ≤ y)
          (λ r : Z * PMM, r = (q * 4096, alloc_page s q)).
  - intros y Hy. pose proof (wf_first s Hs y Hy). lia.
  - intros i _ Hi Hlow. pose proof (Hlow q Hin). rewrite PAGE_COUNT_val in *.
    rewrite u64_small, Z.mod_small by (unfold is_u64; lia).
    destruct (negb _ || _) eqn:Hbits.
    + intros y Hy. specialize (Hlow y Hy). cut (y ≠ cursor s + i); [lia|]. intros ->.
      apply vacant_spec in Hy as [He Ha]. by rewrite He, Ha in Hbits.
    + zbool. assert (cursor s + i ∈ vacant_pages s) as Hv by by apply vacant_spec.
      assert (cursor s + i = q) as -> by (pose proof (Hmin _ Hv); lia).
      rewrite u64_small by (unfold is_u64; lia).
      unfold alloc_page. by rewrite (wf_ready s Hs).
  - specialize (Hloop q Hin). lia.
  - by subst.
Qed.

Lemma pmm_alloc_at_none s :
  pmm_wf s → vacant_pages s = ∅ → pmm_alloc_at true s = (None, s).
Proof.
  intros Hs Hv. unfold pmm_alloc_at.
  assert (free_pages s = 0) as ->; [by rewrite (wf_free s Hs), Hv, size_empty|].
  by rewrite orb_true_r.
Qed.

(** Both outcomes at once. *)
Lemma pmm_alloc_at_cases s :
  pmm_wf s →
  (∃ q, least (vacant_pages s) = Some q ∧
        pmm_alloc_at true s = (Some (q * 4096), alloc_page s q)) ∨
  (vacant_pages s = ∅ ∧ pmm_alloc_at true s = (None, s)).
Proof.
  intros Hs. destruct (least (vacant_pages s)) as [q|] eqn:Hq.
  - left. exists q. split; [done|]. by apply pmm_alloc_at_least.
  - right. apply least_None in Hq. split; [done|]. by apply pmm_alloc_at_none.
Qed.

(** ** Release *)

Lemma vacant_free_page s q :
  q ∈ eligible_pages s → vacant_pages (free_page s q) = {[q]} ∪ vacant_pages s.
Proof.
  unfold vacant_pages, eligible_pages, allocated_pages. simpl. rewrite pages_of_clear.
  intros Hq. apply set_eq. intros x. destruct (decide (x = q)); set_solver.
Qed.

Lemma free_page_wf s q : pmm_wf s → q ∈ allocated_pages s → pmm_wf (free_page s q).
Proof.
  intros Hs Hq. pose proof (wf_allocated s Hs q Hq) as He.
  pose proof (wf_eligible_range s Hs q He) as Hr. pose proof (wf_cursor s Hs) as Hc.
  assert (size (vacant_pages (free_page s q)) = S (size (vacant_pages s))) as Hsz.
  { rewrite vacant_free_page, size_union, size_singleton by (unfold vacant_pages; set_solver).
    done. }
  split; try apply Hs.
  - unfold allocated_pages, eligible_pages. simpl. rewrite pages_of_clear.
    pose proof (wf_allocated s Hs). unfold allocated_pages, eligible_pages in *. set_solver.
  - rewrite Hsz. pose proof (free_pages_bound s Hs) as Hfb. pose proof (wf_free s Hs) as Hf.
    simpl. rewrite u64_small; [lia|]. unfold is_u64. rewrite PAGE_COUNT_val in *. lia.
  - simpl. destruct (q <? cursor s); lia.
  - intros y. rewrite vacant_free_page by done.
    intros [->%elem_of_singleton|Hy]%elem_of_union; simpl; destruct (Z.ltb_spec q (cursor s));
      try lia; pose proof (wf_first s Hs y Hy); lia.
Qed.

Lemma pmm_free_page s q :
  pmm_wf s → q ∈ allocated_pages s → pmm_free (q * 4096) s = (true, free_page s q).
Proof.
  intros Hs Hq. pose proof (wf_allocated s Hs q Hq) as He.
  pose proof (wf_eligible_range s Hs q He) as Hr. rewrite PAGE_COUNT_val in Hr.
  unfold pmm_free. rewrite Z.mod_mul, Z.div_mul, (wf_ready s Hs) by lia. simpl.
  rewrite (proj2 (Z.leb_gt _ _)) by (unfold PMM_LIMIT; lia).
  apply elem_of_pages_of in He, Hq. rewrite He, Hq. simpl.
  unfold free_page. by rewrite (wf_ready s Hs).
Qed.

Lemma pmm_free_reject s a :
  pmm_wf s → a ∉ addresses (allocated_pages s) → pmm_free a s = (false, s).
Proof.
  intros Hs Ha. unfold pmm_free.
  destruct (negb (ready s) || _ || _) eqn:Hg; [done|]. zbool.
  destruct (negb (bit (eligible s) _) || _) eqn:Hb; [done|]. zbool.
  destruct Ha. apply elem_of_map. exists (a / 4096). unfold address_of. split; [zdm|].
  by apply elem_of_pages_of.
Qed.

Lemma elem_of_addresses X a : a ∈ addresses X ↔ a mod 4096 = 0 ∧ a / 4096 ∈ X.
Proof.
  unfold addresses, address_of. rewrite elem_of_map. split.
  - intros (q & -> & Hq). rewrite Z.mod_mul, Z.div_mul by lia. done.
  - intros [Hm Hq]. exists (a / 4096). split; [zdm|done].
Qed.

Lemma elem_of_addresses_mul X q : q * 4096 ∈ addresses X ↔ q ∈ X.
Proof. rewrite elem_of_addresses, Z.mod_mul, Z.div_mul by lia. intuition. Qed.

Lemma pmm_free_cases s a :
  pmm_wf s →
  (∃ q, a = q * 4096 ∧ q ∈ allocated_pages s ∧ pmm_free a s = (true, free_page s q)) ∨
  (a ∉ addresses (allocated_pages s) ∧ pmm_free a s = (false, s)).
Proof.
  intros Hs. destruct (decide (a ∈ addresses (allocated_pages s))) as [Ha|Ha].
  - left. unfold addresses in Ha. apply elem_of_map in Ha as (q & -> & Hq).
    exists q. split; [done|]. split; [done|]. by apply pmm_free_page.
  - right. split; [done|]. by apply pmm_free_reject.
Qed.

Lemma addresses_union X Y : addresses (X ∪ Y) = addresses X ∪ addresses Y.
Proof. apply set_map_union_L. Qed.

Lemma addresses_singleton q : addresses {[q]} = {[q * 4096]}.
Proof. apply (set_map_singleton_L address_of). Qed.

Lemma addresses_size X : size (addresses X) = size X.
Proof.
  induction X as [|q X Hq IH] using set_ind_L; [done|].
  rewrite addresses_union, addresses_singleton, !size_union, !size_singleton, IH.
  - done.
  - set_solver.
  - by rewrite disjoint_singleton_l, elem_of_addresses_mul.
Qed.

Lemma addresses_difference X Y : addresses (X ∖ Y) = addresses X ∖ addresses Y.
Proof.
  apply set_eq. intros a. rewrite elem_of_difference, !elem_of_addresses, elem_of_difference.
  tauto.
Qed.

(** ** The allocator keeps its contract *)

Lemma addresses_frame s a :
  pmm_wf s → a ∈ addresses (eligible_pages s) → frame a.
Proof.
  intros Hs [Hm Hq]%elem_of_addresses. pose proof (wf_eligible_range s Hs _ Hq) as Hr.
  rewrite PAGE_COUNT_val in Hr. split; [|done]. unfold PMM_LIMIT. zdm.
Qed.

Lemma pmm_is_allocated_wf s a :
  pmm_wf s → pmm_is_allocated a s = bool_decide (a ∈ addresses (allocated_pages s)).
Proof.
  intros Hs. unfold pmm_is_allocated. rewrite (wf_ready s Hs). simpl.
  symmetry. destruct (_ && _) eqn:Hb; zbool.
  - apply bool_decide_eq_true, elem_of_addresses. split; [done|]. by apply elem_of_pages_of.
  - apply bool_decide_eq_false. intros Ha. pose proof Ha as [Hm Hq]%elem_of_addresses.
    pose proof (wf_allocated s Hs _ Hq) as He.
    assert (frame a) as [[_ Hlt] _] by (apply (addresses_frame s); [done|]; by apply elem_of_addresses).
    apply elem_of_pages_of in Hq, He. rewrite Hq, He, Hm in Hb.
    rewrite (proj2 (Z.ltb_lt _ _)) in Hb by done. done.
Qed.

#[export] Program Instance Pmm_contract : PmmContract PMM := {|
  pmm_inv := pmm_wf;
  pmm_pool s := addresses (eligible_pages s);
  pmm_used s := addresses (allocated_pages s);
|}.
Next Obligation. apply addresses_frame. Qed.
Next Obligation.
  intros s Hs a [Hm Hq]%elem_of_addresses. apply elem_of_addresses. split; [done|].
  by apply (wf_allocated s Hs).
Qed.
Next Obligation.
  intros s a s' Hs. simpl.
  destruct (pmm_alloc_at_cases s Hs) as [(q & Hq & ->)|[_ ->]]; [|done].
  intros [= <- <-]. split; [by apply alloc_page_wf|].
  rewrite <- addresses_difference, elem_of_addresses_mul.
  split; [by apply least_Some in Hq as [? _]|]. split; [done|].
  unfold allocated_pages at 1. simpl. by rewrite pages_of_set, addresses_union, addresses_singleton.
Qed.
Next Obligation.
  intros s s' Hs. simpl.
  destruct (pmm_alloc_at_cases s Hs) as [(q & Hq & ->)|[Hv ->]]; [done|].
  intros [= <-]. split; [done|]. intros a [Hm Hq]%elem_of_addresses.
  apply elem_of_addresses. split; [done|].
  destruct (decide (a / 4096 ∈ allocated_pages s)) as [|Hn]; [done|].
  by destruct (not_elem_of_empty (C:=gset Z) (a / 4096)); rewrite <- Hv; apply elem_of_difference.
Qed.
Next Obligation.
  intros s a s' Hs. simpl.
  destruct (pmm_free_cases s a Hs) as [(q & -> & Hq & ->)|[_ ->]]; [|done].
  intros [= <-]. split; [by apply free_page_wf|].
  split; [by apply elem_of_addresses_mul|]. split; [done|].
  unfold allocated_pages at 1. simpl.
  by rewrite pages_of_clear, addresses_difference, addresses_singleton.
Qed.
Next Obligation.
  intros s a s' Hs. simpl.
  destruct (pmm_free_cases s a Hs) as [(q & -> & Hq & ->)|[Ha ->]]; [done|].
  by intros [= <-].
Qed.
Next Obligation. intros s a Hs. by apply pmm_is_allocated_wf. Qed.
Next Obligation. intros s Hs. simpl. rewrite addresses_size. apply Hs. Qed.
Next Obligation.
  intros s Hs. simpl. rewrite <- addresses_difference, addresses_size. apply Hs.
Qed.

(** ** Validation of the memory map *)

Lemma valid_range_spec base size :
  is_u64 base → is_u64 size →
  valid_range base size = true ↔ 0 < size ∧ base + size ≤ UINT64_MAX.
Proof.
  unfold valid_range, is_u64. intros Hb Hs.
  rewrite andb_true_iff, negb_true_iff, Z.eqb_neq, Z.leb_le. lia.
Qed.

Lemma valid_descriptor_spec d :
  is_u64 (physical_start d) → is_u64 (number_of_pages d) →
  valid_descriptor d = true ↔ well_formed_descriptor d.
Proof.
  unfold valid_descriptor, well_formed_descriptor, descriptor_limit, PMM_PAGE_SIZE, is_u64.
  intros Hs Hn. rewrite !andb_true_iff, negb_true_iff, Z.eqb_eq, Z.eqb_neq, Z.leb_le.
  unfold UINT64_MAX. split; intros; zdm.
Qed.

Lemma descriptor_u64 m info i :
  is_u64 (physical_start (descriptor m info i)) ∧
  is_u64 (number_of_pages (descriptor m info i)).
Proof. split; apply load_range. Qed.

Lemma descriptor_end_limit d :
  is_u64 (physical_start d) → is_u64 (number_of_pages d) →
  well_formed_descriptor d → descriptor_end d = descriptor_limit d.
Proof.
  unfold well_formed_descriptor, descriptor_end, descriptor_limit, UINT64_MAX.
  intros Hs Hn (_ & Hpos & Hle).
  rewrite (u64_small (_ * 4096)), u64_small by (unfold is_u64 in *; lia). done.
Qed.

(** The check [valid_map_ranges] makes of one pair. *)
Lemma overlap_test d e :
  is_u64 (physical_start d) → is_u64 (number_of_pages d) →
  is_u64 (physical_start e) → is_u64 (number_of_pages e) →
  well_formed_descriptor d → well_formed_descriptor e →
  (physical_start d <? descriptor_end e) && (physical_start e <? descriptor_end d) = false
  ↔ disjoint_descriptors d e.
Proof.
  intros ???? Hd He. rewrite !descriptor_end_limit by done. unfold disjoint_descriptors.
  rewrite andb_false_iff, !Z.ltb_ge. tauto.
Qed.

Lemma valid_map_ranges_spec m info :
  valid_map_ranges m info = true ↔ well_formed_map m info.
Proof.
  unfold valid_map_ranges.
  set (ok i := well_formed_descriptor (descriptor m info i) ∧
    ∀ j, 0 ≤ j < i → disjoint_descriptors (descriptor m info i) (descriptor m info j)).
  for_one (λ i (_ : unit), ∀ k, 0 ≤ k < i → ok k)
          (λ r : bool, r = false ∧ ¬ well_formed_map m info).
  - intros k Hk. lia.
  - intros i _ Hi Hprev.
    pose proof (descriptor_u64 m info i) as [Hsi Hni].
    pose proof (valid_descriptor_spec _ Hsi Hni) as Hvd.
    destruct (valid_descriptor (descriptor m info i)); simpl.
    2:{ split; [done|]. intros Hwf. destruct (Hwf i Hi) as [Hd _]. by apply Hvd in Hd. }
    assert (well_formed_descriptor (descriptor m info i)) as Hwi by by apply Hvd.
    for_one (λ j (_ : unit), ∀ k, 0 ≤ k < j →
              disjoint_descriptors (descriptor m info i) (descriptor m info k))
            (λ r : bool, r = false ∧ ¬ well_formed_map m info).
    + intros k Hk. lia.
    + intros j _ Hj Hdisj. pose proof (descriptor_u64 m info j) as [Hsj Hnj].
      destruct (Hprev j ltac:(lia)) as [Hwj _].
      pose proof (overlap_test _ _ Hsi Hni Hsj Hnj Hwi Hwj) as Ht.
      destruct (_ && _).
      * split; [done|]. intros Hwf. destruct (Hwf i Hi) as [_ Hd].
        specialize (Hd j ltac:(lia)). by apply Ht in Hd.
      * intros k Hk. destruct (decide (k = j)) as [->|]; [by apply Ht|apply Hdisj; lia].
    + intros k Hk. destruct (decide (k = i)) as [->|]; [|apply Hprev; lia].
      split; [done|]. intros j Hj. apply Hloop. lia.
    + done.
  - split; [|done]. intros _ i Hi. apply Hloop. lia.
  - destruct Hloop as [-> Hn]. by split.
Qed.

(** ** Initialization *)

Lemma set_range_spec lo hi m q :
  q ∈ pages_of (for_all lo 1 hi (λ page m, set m page) m) ↔ q ∈ pages_of m ∨ lo ≤ q < hi.
Proof.
  for_whole (λ i m', ∀ q, q ∈ pages_of m' ↔ q ∈ pages_of m ∨ lo ≤ q < i).
  - intros x. intuition lia.
  - intros i m' Hi HP x. rewrite pages_of_set, elem_of_union, elem_of_singleton, HP.
    intuition lia.
  - rewrite Hloop. intuition lia.
Qed.

Lemma clear_range_spec lo hi m q :
  q ∈ pages_of (for_all lo 1 hi (λ page m, clear m page) m) ↔
  q ∈ pages_of m ∧ ¬ (lo ≤ q < hi).
Proof.
  for_whole (λ i m', ∀ q, q ∈ pages_of m' ↔ q ∈ pages_of m ∧ ¬ (lo ≤ q < i)).
  - intros x. intuition lia.
  - intros i m' Hi HP x. rewrite pages_of_clear, elem_of_difference, elem_of_singleton, HP.
    intuition lia.
  - rewrite Hloop. intuition lia.
Qed.

Lemma reserve_spec base size m q :
  is_u64 base → 0 < size → base + size ≤ UINT64_MAX → q < PAGE_COUNT →
  q ∈ pages_of (reserve base size m) ↔ q ∈ pages_of m ∧ ¬ overlaps q base size.
Proof.
  intros Hb Hs Hle Hq. rewrite PAGE_COUNT_val in Hq.
  unfold reserve, overlaps, UINT64_MAX, PMM_LIMIT, PMM_PAGE_SIZE, is_u64 in *.
  destruct (Z.leb_spec 0x100000000 base) as [Hhi|Hlo].
  { intuition lia. }
  rewrite u64_small by (unfold is_u64; lia). rewrite clear_range_spec.
  assert (∀ e, base / 4096 ≤ q < (e + 4095) / 4096 ↔ q * 4096 < e ∧ base < (q + 1) * 4096)
    as He by (intros e; split; intros; zdm).
  rewrite He. destruct (Z.ltb_spec 0x100000000 (base + size)); intuition lia.
Qed.

Lemma clamp_spec d q :
  is_u64 (physical_start d) → is_u64 (number_of_pages d) → well_formed_descriptor d →
  clamp_begin d / 4096 ≤ q < clamp_end d / 4096 ↔ 256 ≤ q < PAGE_COUNT ∧ contains_page d q.
Proof.
  intros Hs Hn Hd. unfold clamp_begin, clamp_end, contains_page.
  rewrite descriptor_end_limit, PAGE_COUNT_val by done. destruct Hd as (Hal & Hpos & Hle).
  unfold descriptor_limit, PMM_LIMIT in *.
  destruct (Z.ltb_spec (physical_start d) 0x100000);
    destruct (Z.ltb_spec 0x100000000 (physical_start d + number_of_pages d * 4096));
    split; intros; zdm.
Qed.

Lemma mark_usable_pages_spec m info e q :
  well_formed_map m info →
  q ∈ pages_of (mark_usable_pages m info e) ↔ q ∈ pages_of e ∨ usable_page m info q.
Proof.
  intros Hwf. unfold mark_usable_pages.
  set (usable_below n := 256 ≤ q < PAGE_COUNT ∧ ∃ i, 0 ≤ i < n ∧
         usable_descriptor (descriptor m info i) ∧ contains_page (descriptor m info i) q).
  for_whole (λ i e', 0 ≤ i → (q ∈ pages_of e' ↔ q ∈ pages_of e ∨
      usable_below (Z.min i (descriptor_count info)))).
  - unfold usable_below. intros _. split; [by left|]. intros [?|(_ & i & ? & _)]; [done|lia].
  - intros i e' Hi HP _. specialize (HP ltac:(lia)). rewrite Z.min_l in * by lia.
    assert (usable_below (i + 1) ↔ usable_below i ∨ (256 ≤ q < PAGE_COUNT ∧
      usable_descriptor (descriptor m info i) ∧ contains_page (descriptor m info i) q)) as ->.
    { unfold usable_below. split.
      - intros (? & k & ? & ?). destruct (decide (k = i)) as [->|]; [by right|].
        left. split; [done|]. exists k. split; [lia|done].
      - intros [(? & k & ? & ?)|(? & ?)]; (split; [done|]); [exists k|exists i];
          (split; [lia|done]). }
    destruct (Hwf i Hi) as [Hd _]. pose proof (descriptor_u64 m info i) as [Hs Hn].
    cbv zeta. set (d := descriptor m info i) in *.
    rewrite has_bits_bit64 by lia. unfold usable_descriptor.
    destruct (Z.eqb_spec (type d) 7) as [Ht|Ht]; cbn [negb orb]; [|intuition].
    destruct (Z.testbit (attributes d) 63); [intuition congruence|].
    rewrite set_range_spec, HP, clamp_spec by done. intuition.
  - rewrite Hloop by lia. unfold usable_page, usable_below. rewrite Z.min_r by lia. done.
Qed.

Lemma below_step X i :
  below X (i + 1) = if decide (i ∈ X) then {[i]} ∪ below X i else below X i.
Proof.
  unfold below. case_decide as Hi; apply set_eq; intros q;
    rewrite ?elem_of_union, ?elem_of_singleton, !elem_of_filter.
  - destruct (decide (q = i)) as [->|]; intuition lia.
  - destruct (decide (q = i)) as [->|]; intuition lia.
Qed.

Lemma count_pages_spec e :
  (∀ q, q ∈ pages_of e → 0 ≤ q < PAGE_COUNT) →
  count_pages e 0 = Z.of_nat (size (pages_of e)).
Proof.
  intros Hr. unfold count_pages.
  for_whole (λ i total, total = Z.of_nat (size (below (pages_of e) i)) ∧ total ≤ i).
  - split; [|done]. assert (below (pages_of e) 0 = ∅) as ->; [|done].
    apply set_eq. intros q. unfold below. rewrite elem_of_filter.
    split; [intros [? Hq%Hr]; lia|set_solver].
  - intros i total Hi [-> Hle]. rewrite below_step, bit_bool_decide, PAGE_COUNT_val in *.
    destruct (decide (i ∈ pages_of e)) as [Hin|Hin].
    + rewrite bool_decide_eq_true_2 by done.
      rewrite size_union, size_singleton by (unfold below; set_solver by lia).
      rewrite u64_small by (unfold is_u64; lia). lia.
    + rewrite bool_decide_eq_false_2 by done. lia.
  - destruct Hloop as [-> _]. do 2 f_equal.
    apply set_eq. intros q. unfold below. rewrite elem_of_filter, PAGE_COUNT_val in *.
    split; [by intros []|]. intros Hq. split; [|done]. specialize (Hr q Hq). lia.
Qed.

Lemma valid_boot_info_spec m p :
  is_u64 p → let info := read_info m p in
  valid_boot_info p info = true →
  p ≠ 0 ∧ 0 < descriptor_size info ∧ memory_map_size info ≤ 65536 ∧
  memory_map info mod 8 = 0 ∧ descriptor_size info mod 8 = 0 ∧ 40 ≤ descriptor_size info ∧
  memory_map_size info mod descriptor_size info = 0 ∧
  (0 < kernel_size info ∧ kernel_base info + kernel_size info ≤ UINT64_MAX) ∧
  (0 < stack_size info ∧ stack_base info + stack_size info ≤ UINT64_MAX) ∧
  (0 < memory_map_size info ∧ memory_map info + memory_map_size info ≤ UINT64_MAX) ∧
  p + sizeof_BOOT_INFO ≤ UINT64_MAX.
Proof.
  intros Hp info. pose proof (read_info_range m p) as (?&?&?&?&?&?&?).
  fold info in H, H0, H1, H2, H3, H4, H5.
  unfold valid_boot_info, sizeof_BOOT_MEMORY_DESCRIPTOR. intros Hv.
  rewrite !andb_true_iff, !negb_true_iff, !valid_range_spec, ?Z.eqb_eq, ?Z.eqb_neq, ?Z.leb_le
    in Hv by (done || (unfold is_u64, sizeof_BOOT_INFO; lia)).
  intuition lia.
Qed.

Lemma init_bitmap_spec m p q :
  is_u64 p → valid_boot_info p (read_info m p) = true →
  valid_map_ranges m (read_info m p) = true →
  q ∈ pages_of (init_bitmap m p) ↔
  usable_page m (read_info m p) q ∧ ¬ boot_reserved p (read_info m p) q.
Proof.
  intros Hp Hv Hm%valid_map_ranges_spec. pose proof (valid_boot_info_spec m p Hp Hv) as Hf.
  pose proof (read_info_range m p) as Hr. unfold init_bitmap, reserve_boot_regions.
  cbv zeta in *. set (info := read_info m p) in *.
  destruct (decide (q < PAGE_COUNT)) as [Hq|Hq].
  - rewrite !reserve_spec, mark_usable_pages_spec, pages_of_empty; try tauto.
    2: unfold sizeof_BOOT_INFO; lia.
    unfold boot_reserved. rewrite elem_of_empty. tauto.
  - assert (∀ base size e, q ∈ pages_of (reserve base size e) → q ∈ pages_of e) as Hmono.
    { intros base size e. unfold reserve. destruct (_ <=? _); [done|].
      rewrite clear_range_spec. tauto. }
    split.
    + intros H. do 4 apply Hmono in H. rewrite mark_usable_pages_spec in H by done.
      destruct H as [H|[H _]]; [by rewrite pages_of_empty in H|lia].
    + intros [[H _] _]. lia.
Qed.

(** The state a successful [pmm_init] leaves, with the pages counted. *)
Lemma pmm_init_eq m p :
  is_u64 p → valid_boot_info p (read_info m p) = true →
  valid_map_ranges m (read_info m p) = true →
  pmm_init m p pmm_bss =
    (true, {| eligible := init_bitmap m p; allocated := ∅;
              total_pages := Z.of_nat (size (pages_of (init_bitmap m p)));
              free_pages := Z.of_nat (size (pages_of (init_bitmap m p)));
              cursor := 0; ready := true |}).
Proof.
  intros Hp Hv Hm. unfold pmm_init. rewrite Hv, Hm. cbn [ready pmm_bss orb negb].
  change (eligible pmm_bss) with (∅ : bitmap). change (total_pages pmm_bss) with 0.
  change (reserve_boot_regions p _ _) with (init_bitmap m p).
  assert (count_pages (init_bitmap m p) 0 = Z.of_nat (size (pages_of (init_bitmap m p)))) as ->.
  { apply count_pages_spec. intros q [[[Hq1 Hq2] _] _]%init_bitmap_spec; [lia|done..]. }
  done.
Qed.

(** A successful [pmm_init] in full; the counters come with [pmm_wf]. *)
Lemma pmm_init_true m p s :
  is_u64 p → pmm_init m p pmm_bss = (true, s) →
  valid_boot_info p (read_info m p) = true ∧ valid_map_ranges m (read_info m p) = true ∧
  pmm_wf s ∧ allocated_pages s = ∅ ∧ eligible s = init_bitmap m p.
Proof.
  intros Hp. unfold pmm_init. cbn [ready pmm_bss orb].
  destruct (valid_boot_info p (read_info m p)) eqn:Hv; [|done].
  destruct (valid_map_ranges m (read_info m p)) eqn:Hm; [|done].
  cbn [negb]. change (eligible pmm_bss) with (∅ : bitmap).
  change (reserve_boot_regions p _ _) with (init_bitmap m p). intros [= <-].
  assert (∀ q, q ∈ pages_of (init_bitmap m p) → 256 ≤ q < PAGE_COUNT) as Hr.
  { intros q [[? _] _]%init_bitmap_spec; done. }
  assert (count_pages (init_bitmap m p) 0 =
          Z.of_nat (size (pages_of (init_bitmap m p)))) as Hc.
  { apply count_pages_spec. intros q Hq%Hr. lia. }
  do 2 (split; [done|]). change (total_pages pmm_bss) with 0.
  revert Hr Hc. generalize (init_bitmap m p). intros e Hr.
  generalize (count_pages e 0). intros n ->.
  split; [|done]. split; unfold vacant_pages, eligible_pages, allocated_pages;
    cbn [eligible allocated total_pages free_pages cursor ready pmm_bss];
    rewrite ?pages_of_empty, ?difference_empty_L; try done.
  intros q Hq%Hr. lia.
Qed.

Lemma pmm_init_ok m p :
  is_u64 p → valid_boot_info p (read_info m p) = true →
  valid_map_ranges m (read_info m p) = true →
  ∃ s, pmm_init m p pmm_bss = (true, s) ∧
       pmm_wf s ∧ allocated_pages s = ∅ ∧ eligible s = init_bitmap m p.
Proof.
  intros Hp Hv Hm. destruct (pmm_init m p pmm_bss) as [b s] eqn:Hi.
  assert (b = true) as ->.
  { unfold pmm_init in Hi. rewrite Hv, Hm in Hi. simpl in Hi. by injection Hi as <- _. }
  exists s. split; [done|]. by apply pmm_init_true in Hi as (_ & _ & ? & ? & ?).
Qed.

(** The invariant is decidable, so that it can be evaluated on a state. *)
#[export] Instance pmm_wf_dec s : Decision (pmm_wf s).
Proof.
  refine (cast_if (decide (
    ready s = true ∧
    set_Forall (λ q, 256 ≤ q ∧ q < PAGE_COUNT) (eligible_pages s) ∧
    allocated_pages s ⊆ eligible_pages s ∧
    total_pages s = Z.of_nat (size (eligible_pages s)) ∧
    free_pages s = Z.of_nat (size (vacant_pages s)) ∧
    (0 ≤ cursor s ∧ cursor s < PAGE_COUNT) ∧
    set_Forall (λ q, cursor s ≤ q) (vacant_pages s))));
    abstract (unfold set_Forall in *; first
      [ split; intuition
      | intros [? ? ? ? ? ? ?]; intuition auto; naive_solver ]).
Defined.

End Pmm.
