(* ===== verification/PmmSpec.v ===== *)
(** * What the page allocator promises

    An abstract pool of pages with a first-fit allocation, sequences of API
    calls on both levels, the refinement between them, and the properties of
    [kernel/pmm.c] as seen by its callers. *)

From S2P Require Import Prelude BootInfo PmmInterface Pmm.
Import Pmm.

Module PmmSpec.

(** ** The abstract pool *)

(** The managed pages, and those handed out. *)
Record Pool := { pool_pages : gset Z; pool_used : gset Z }.

(** One call of the API of [pmm.h] with its result. *)
Inductive call :=
  | Alloc
  | AllocNull
  | Free (address : Z)
  | IsAllocated (address : Z)
  | Total
  | Available.

Inductive answer :=
  | Address (a : option Z)
  | Flag (b : bool)
  | Count (n : Z).

(** The reference semantics: allocation takes the least page not in use. *)
Definition pool_call (c : call) (P : Pool) : answer * Pool :=
  match c with
  | Alloc =>
      match least (pool_pages P ∖ pool_used P) with
      | Some q =>
          (Address (Some (q * 4096)),
           {| pool_pages := pool_pages P; pool_used := {[q]} ∪ pool_used P |})
      | None => (Address None, P)
      end
  | AllocNull => (Address None, P)
  | Free a =>
      if decide (a ∈ addresses (pool_used P)) then
        (Flag true,
         {| pool_pages := pool_pages P; pool_used := pool_used P ∖ {[a / 4096]} |})
      else (Flag false, P)
  | IsAllocated a => (Flag (bool_decide (a ∈ addresses (pool_used P))), P)
  | Total => (Count (Z.of_nat (size (pool_pages P))), P)
  | Available => (Count (Z.of_nat (size (pool_pages P ∖ pool_used P))), P)
  end.

(** The same call of the C code. *)
Definition pmm_call (c : call) (s : PMM) : answer * PMM :=
  match c with
  | Alloc => let '(a, s) := pmm_alloc_at true s in (Address a, s)
  | AllocNull => let '(a, s) := pmm_alloc_at false s in (Address a, s)
  | Free a => let '(b, s) := pmm_free a s in (Flag b, s)
  | IsAllocated a => (Flag (pmm_is_allocated a s), s)
  | Total => (Count (pmm_total s), s)
  | Available => (Count (pmm_available s), s)
  end.

(** The pool an allocator state stands for. *)
Definition abstract (s : PMM) : Pool :=
  {| pool_pages := eligible_pages s; pool_used := allocated_pages s |}.

(** Every bitmap word lies inside its array and fits its type. *)
Definition bitmap_ok (m : bitmap) : Prop :=
  map_Forall (λ i w, 0 ≤ i < WORD_COUNT ∧ is_u64 w) m.

(** *** A small instance *)

(** The boot image of the host test of the allocator: a memory map of four
    descriptors with a stride of 48 bytes, out of order, one of them a
    runtime region, one reaching over 4 GiB and one starting below 1 MiB. *)
Definition words (base : Z) (l : list Z) : ram :=
  list_to_map (imap (λ i w, (base + 8 * Z.of_nat i, w)) l).

Definition info_at : Z := 0x50000.
Definition map_at : Z := 0x51000.
Definition boot_ram : ram :=
  words info_at
    [BOOT_INFO_MAGIC; 2 + Z.shiftl 88 32; map_at; 192; 48; 1; 0x102001; 4096;
     0x106000; 4096; 1]
  ∪ words map_at
    ([7; 0xfffff000; 0; 3; 0; 0xdeadbeef] ++ [4; 0x108000; 0; 2; 0; 0xdeadbeef] ++
     [7; 0xff000; 0; 9; 0; 0xdeadbeef] ++ [7; 0x200000; 0; 2; Z.shiftl 1 63; 0xdeadbeef]).

(** An allocator with three managed pages, the second of them in use. *)
Definition small_pmm : PMM := {|
  eligible := set (set (set ∅ 256) 257) 260; allocated := set ∅ 257;
  total_pages := 3; free_pages := 2; cursor := 256; ready := true |}.

(** ** Simulation *)

Lemma pmm_call_refines c s :
  pmm_wf s →
  let '(a, s') := pmm_call c s in
  pool_call c (abstract s) = (a, abstract s') ∧ pmm_wf s' ∧ eligible s' = eligible s.
Proof.
  intros Hs. destruct c as [| |a|a| |]; simpl.
  - change (eligible_pages s ∖ allocated_pages s) with (vacant_pages s).
    destruct (pmm_alloc_at_cases s Hs) as [(q & Hq & ->)|[Hv ->]].
    + rewrite Hq. split; [|by split; [apply alloc_page_wf|]].
      unfold abstract, allocated_pages, eligible_pages. simpl. by rewrite pages_of_set.
    + by rewrite Hv.
  - unfold pmm_alloc_at. simpl. by rewrite orb_true_r.
  - destruct (pmm_free_cases s a Hs) as [(q & -> & Hq & ->)|[Ha ->]].
    + rewrite decide_True by by apply elem_of_addresses_mul. rewrite Z.div_mul by lia.
      split; [|by split; [apply free_page_wf|]].
      unfold abstract, allocated_pages, eligible_pages. simpl. by rewrite pages_of_clear.
    + by rewrite decide_False.
  - by rewrite pmm_is_allocated_wf.
  - split; [|done]. by rewrite <- (wf_total s Hs).
  - split; [|done]. unfold pmm_available. by rewrite (wf_free s Hs).
Qed.

Lemma run_refines cs s :
  pmm_wf s →
  let '(l, s') := run pmm_call cs s in
  run pool_call cs (abstract s) = (l, abstract s') ∧ pmm_wf s' ∧ eligible s' = eligible s.
Proof.
  revert s. induction cs as [|c cs IH]; intros s Hs; simpl; [done|].
  pose proof (pmm_call_refines c s Hs) as Hc.
  destruct (pmm_call c s) as [a s1]. destruct Hc as (-> & Hs1 & He).
  specialize (IH s1 Hs1). destruct (run pmm_call cs s1) as [l s2].
  destruct IH as (-> & Hs2 & He2). by rewrite He2.
Qed.

(** The abstract pool only hands out its own pages. *)
Lemma pool_run_addresses cs P l P' a :
  run pool_call cs P = (l, P') → Address (Some a) ∈ l →
  ∃ q, a = q * 4096 ∧ q ∈ pool_pages P.
Proof.
  revert P l. induction cs as [|c cs IH]; simpl; intros P l.
  { intros [= <- <-] H. by apply not_elem_of_nil in H. }
  destruct (pool_call c P) as [x P1] eqn:Hc.
  destruct (run pool_call cs P1) as [l1 P2] eqn:Hr. intros [= <- <-].
  assert (pool_pages P1 = pool_pages P) as Hp.
  { destruct c; simpl in Hc; repeat case_match; by simplify_eq. }
  intros [Hx|Hl]%elem_of_cons; [|rewrite <- Hp; by eapply IH].
  subst x. destruct c; simpl in Hc; repeat case_match; simplify_eq.
  exists z. split; [done|].
  match goal with H : least _ = Some _ |- _ => apply least_Some in H as [H _] end.
  set_solver.
Qed.

(** ** Bounds *)

Lemma bitmap_store_ok m page w :
  bitmap_ok m → 0 ≤ page < PAGE_COUNT → is_u64 w → bitmap_ok (store m (page / 64) w).
Proof.
  intros Hm Hp Hw. apply map_Forall_insert_2; [|done]. split; [|done].
  unfold WORD_COUNT. rewrite PAGE_COUNT_val in *. change (1048576 / 64) with 16384. zdm.
Qed.

Lemma bitmap_set_ok m page : bitmap_ok m → 0 ≤ page < PAGE_COUNT → bitmap_ok (set m page).
Proof.
  intros. apply bitmap_store_ok; [done..|]. apply is_u64_lor; [apply word_range|apply u64_range].
Qed.

Lemma bitmap_clear_ok m page :
  bitmap_ok m → 0 ≤ page < PAGE_COUNT → bitmap_ok (clear m page).
Proof.
  intros. apply bitmap_store_ok; [done..|]. apply is_u64_land; [apply word_range|].
  apply u64_range.
Qed.

Lemma reserve_ok base size m : is_u64 base → bitmap_ok m → bitmap_ok (reserve base size m).
Proof.
  intros Hb Hm. unfold reserve, PMM_LIMIT, PMM_PAGE_SIZE.
  destruct (Z.leb_spec 0x100000000 base); [done|]. cbv zeta. unfold is_u64 in Hb.
  for_whole (λ (i : Z) m', bitmap_ok m'); [done| |done].
  intros i m' Hi Hm'. apply bitmap_clear_ok; [done|]. rewrite PAGE_COUNT_val.
  destruct (Z.ltb_spec 0x100000000 (u64 (base + size))); zdm.
Qed.

Lemma mark_usable_pages_ok m info e :
  bitmap_ok e → bitmap_ok (mark_usable_pages m info e).
Proof.
  intros He. unfold mark_usable_pages.
  for_whole (λ (i : Z) e', bitmap_ok e'); [done| |done].
  intros i e' Hi He'. cbv zeta. destruct (_ || _); [done|].
  for_whole (λ (k : Z) e', bitmap_ok e'); [done| |done].
  intros k e2 Hk He2. apply bitmap_set_ok; [done|]. rewrite PAGE_COUNT_val.
  unfold clamp_begin, clamp_end, PMM_LIMIT in Hk.
  destruct (Z.ltb_spec (physical_start (descriptor m info i)) 0x100000);
    destruct (Z.ltb_spec 0x100000000 (descriptor_end (descriptor m info i)));
    zdm.
Qed.

Lemma init_bitmap_ok m p : is_u64 p → bitmap_ok (init_bitmap m p).
Proof.
  intros Hp. pose proof (read_info_range m p) as (?&?&?&?&?&?&?).
  unfold init_bitmap, reserve_boot_regions.
  do 4 (apply reserve_ok; [done|]). by apply mark_usable_pages_ok, map_Forall_empty.
Qed.

Lemma pmm_call_ok c s :
  pmm_wf s → bitmap_ok (allocated s) → bitmap_ok (allocated (snd (pmm_call c s))).
Proof.
  intros Hs Ha. destruct c as [| |a|a| |]; simpl; try done.
  - destruct (pmm_alloc_at_cases s Hs) as [(q & Hq & ->)|[Hv ->]]; [|done].
    apply least_Some in Hq as [Hq _]. apply bitmap_set_ok; [done|].
    pose proof (vacant_range s q Hs Hq). lia.
  - unfold pmm_alloc_at. simpl. by rewrite orb_true_r.
  - destruct (pmm_free_cases s a Hs) as [(q & -> & Hq & ->)|[_ ->]]; [|done].
    apply bitmap_clear_ok; [done|].
    pose proof (wf_eligible_range s Hs q (wf_allocated s Hs q Hq)). lia.
Qed.

Lemma run_ok cs s :
  pmm_wf s → bitmap_ok (allocated s) → bitmap_ok (allocated (snd (run pmm_call cs s))).
Proof.
  revert s. induction cs as [|c cs IH]; intros s Hs Ha; simpl; [done|].
  pose proof (pmm_call_ok c s Hs Ha) as Ha1. pose proof (pmm_call_refines c s Hs) as Hc.
  destruct (pmm_call c s) as [a s1]. destruct Hc as (_ & Hs1 & _).
  specialize (IH s1 Hs1 Ha1). by destruct (run pmm_call cs s1).
Qed.

Lemma addresses_inj X Y : addresses X = addresses Y → X = Y.
Proof.
  intros H. apply set_eq. intros q. by rewrite <- (elem_of_addresses_mul X q), <- (elem_of_addresses_mul Y q), H.
Qed.

Lemma pmm_init_allocated m p s : pmm_init m p pmm_bss = (true, s) → allocated s = ∅.
Proof.
  unfold pmm_init. cbv zeta. destruct (_ || _); [done|]. destruct (negb _); [done|].
  generalize (count_pages (reserve_boot_regions p (read_info m p)
    (mark_usable_pages m (read_info m p) (eligible pmm_bss))) (total_pages pmm_bss)).
  by intros n [= <-].
Qed.

(** ** The small boot image *)

Lemma boot_ram_init :
  ∃ s, pmm_init boot_ram info_at pmm_bss = (true, s) ∧ pmm_wf s ∧
       least (vacant_pages s) = Some 256.
Proof.
  assert (is_u64 info_at) as Hp by (unfold is_u64, info_at; lia).
  assert (valid_boot_info info_at (read_info boot_ram info_at) = true) as Hv by by vm_compute.
  assert (valid_map_ranges boot_ram (read_info boot_ram info_at) = true) as Hm by by vm_compute.
  destruct (pmm_init_ok boot_ram info_at Hp Hv Hm) as (s & Hi & Hs & Ha & He).
  exists s. split; [done|]. split; [done|].
  apply least_unique; [|intros y Hy; by apply (vacant_range s y Hs)].
  unfold vacant_pages, eligible_pages. rewrite Ha, He, difference_empty_L.
  apply init_bitmap_spec; [done..|]. split.
  - clear. split; [done|]. exists 2. vm_compute. repeat split; discriminate.
  - clear. intros H. vm_compute in H. naive_solver.
Qed.

(** ** Properties *)

(** C2: any sequence of allocator calls answers exactly as the first-fit pool
    does - the next-fit cursor of [pmm_alloc] is an optimisation that no caller
    can see - and the state it leaves stands for the pool's state. *)
Theorem pmm_refines_first_fit_pool cs s :
  pmm_wf s →
  run pool_call cs (abstract s) =
    (fst (run pmm_call cs s), abstract (snd (run pmm_call cs s))) ∧
  pmm_wf (snd (run pmm_call cs s)).
Proof.
  intros Hs. pose proof (run_refines cs s Hs) as H.
  destruct (run pmm_call cs s) as [l s']. by destruct H as (-> & ? & _).
Qed.

Lemma pmm_refines_first_fit_pool_witness :
  run pool_call [Alloc; Free (257 * 4096); Alloc; Alloc; Alloc] (abstract small_pmm) =
    (fst (run pmm_call [Alloc; Free (257 * 4096); Alloc; Alloc; Alloc] small_pmm),
     abstract (snd (run pmm_call [Alloc; Free (257 * 4096); Alloc; Alloc; Alloc] small_pmm)))
  ∧ pmm_wf (snd (run pmm_call [Alloc; Free (257 * 4096); Alloc; Alloc; Alloc] small_pmm)).
Proof.
  apply (pmm_refines_first_fit_pool _ small_pmm). apply (bool_decide_unpack _). by vm_compute.
Defined.

(** C10: on acceptable boot information and a memory map of valid, pairwise
    disjoint descriptors, [pmm_init] succeeds; the managed pages are exactly
    the pages of conventional non-runtime memory between 1 MiB and 4 GiB that
    overlap neither the kernel, the boot information, the memory map nor the
    stack; none is in use and both counters are their number. *)
Theorem pmm_init_selects_usable_pages m p :
  is_u64 p →
  valid_boot_info p (read_info m p) = true →
  well_formed_map m (read_info m p) →
  ∃ s, pmm_init m p pmm_bss = (true, s) ∧
    pmm_wf s ∧ allocated_pages s = ∅ ∧
    (∀ q, q ∈ eligible_pages s ↔
          usable_page m (read_info m p) q ∧ ¬ boot_reserved p (read_info m p) q) ∧
    pmm_total s = pmm_available s ∧
    pmm_total s = Z.of_nat (size (eligible_pages s)).
Proof.
  intros Hp Hv Hm%valid_map_ranges_spec.
  destruct (pmm_init_ok m p Hp Hv Hm) as (s & Hi & Hs & Ha & He).
  exists s. do 3 (split; [done|]). split.
  - intros q. unfold eligible_pages. rewrite He. by apply init_bitmap_spec.
  - split; [|by apply wf_total]. unfold pmm_total, pmm_available.
    rewrite (wf_total s Hs), (wf_free s Hs). unfold vacant_pages.
    by rewrite Ha, difference_empty_L.
Qed.

Lemma pmm_init_selects_usable_pages_witness :
  ∃ s, pmm_init boot_ram info_at pmm_bss = (true, s) ∧
    pmm_wf s ∧ allocated_pages s = ∅ ∧
    (∀ q, q ∈ eligible_pages s ↔
          usable_page boot_ram (read_info boot_ram info_at) q ∧
          ¬ boot_reserved info_at (read_info boot_ram info_at) q) ∧
    pmm_total s = pmm_available s ∧
    pmm_total s = Z.of_nat (size (eligible_pages s)).
Proof.
  apply (pmm_init_selects_usable_pages boot_ram info_at).
  - unfold is_u64, info_at. lia.
  - by vm_compute.
  - apply valid_map_ranges_spec. by vm_compute.
Defined.

(** A repeated initialization, unacceptable boot information or a memory
    map with a malformed or overlapping descriptor is refused, and the
    allocator's state is left exactly as it was. *)
Theorem pmm_init_refusal_changes_nothing m p s :
  ready s = true ∨ valid_boot_info p (read_info m p) = false ∨
    ¬ well_formed_map m (read_info m p) →
  pmm_init m p s = (false, s).
Proof.
  rewrite <- valid_map_ranges_spec. intros H. unfold pmm_init.
  destruct (ready s); [done|]. destruct (valid_boot_info _ _); [|done].
  destruct (valid_map_ranges _ _); [|done]. naive_solver.
Qed.

(** C11: after a successful initialization no sequence of calls ever hands out
    a page that overlaps the kernel image, the boot information, the memory
    map or the boot stack, or one outside conventional RAM. *)
Theorem pmm_never_hands_out_boot_memory m p s cs a :
  is_u64 p → pmm_init m p pmm_bss = (true, s) →
  Address (Some a) ∈ fst (run pmm_call cs s) →
  frame a ∧ usable_page m (read_info m p) (a / 4096) ∧
  ¬ boot_reserved p (read_info m p) (a / 4096).
Proof.
  intros Hp Hi Ha. apply pmm_init_true in Hi as (Hv & Hm & Hs & _ & He); [|done].
  pose proof (run_refines cs s Hs) as Hr. destruct (run pmm_call cs s) as [l s'].
  destruct Hr as (Hr & _ & _). eapply pool_run_addresses in Hr as (q & -> & Hq); [|done].
  rewrite Z.div_mul by lia. simpl in Hq. split.
  - apply (addresses_frame s); [done|]. by apply elem_of_addresses_mul.
  - unfold eligible_pages in Hq. rewrite He in Hq. by apply init_bitmap_spec in Hq.
Qed.

Lemma pmm_never_hands_out_boot_memory_witness :
  frame (256 * 4096) ∧ usable_page boot_ram (read_info boot_ram info_at) (256 * 4096 / 4096) ∧
  ¬ boot_reserved info_at (read_info boot_ram info_at) (256 * 4096 / 4096).
Proof.
  destruct boot_ram_init as (s & Hi & Hs & Hl).
  apply (pmm_never_hands_out_boot_memory boot_ram info_at s [Alloc]).
  - unfold is_u64, info_at. lia.
  - done.
  - unfold run, pmm_call. rewrite (pmm_alloc_at_least s 256 Hs Hl). by apply list_elem_of_here.
Defined.

(** C12: a page that was handed out is marked in use, can be released exactly
    once, and releasing it restores the sets of managed and used pages and
    the number of available ones. *)
Theorem pmm_alloc_free_roundtrip s a s1 :
  pmm_wf s → pmm_alloc_at true s = (Some a, s1) →
  pmm_is_allocated a s = false ∧ pmm_is_allocated a s1 = true ∧
  pmm_available s1 = pmm_available s - 1 ∧
  ∃ s2, pmm_free a s1 = (true, s2) ∧ abstract s2 = abstract s ∧
        pmm_available s2 = pmm_available s ∧ pmm_free a s2 = (false, s2).
Proof.
  intros Hs Ha.
  pose proof (pmm_alloc_free (A:=PMM) s a s1 Hs Ha) as (Hb & Hb1 & Hc & s2 & Hf & _ & Hp & Hu & Hc2 & Hf2).
  split; [exact Hb|]. split; [exact Hb1|]. split; [exact Hc|].
  exists s2. split; [exact Hf|]. split; [|by split].
  unfold abstract. by rewrite (addresses_inj _ _ Hp), (addresses_inj _ _ Hu).
Qed.

Lemma pmm_alloc_free_roundtrip_witness :
  pmm_is_allocated (256 * 4096) small_pmm = false ∧
  pmm_is_allocated (256 * 4096) (alloc_page small_pmm 256) = true ∧
  pmm_available (alloc_page small_pmm 256) = pmm_available small_pmm - 1 ∧
  ∃ s2, pmm_free (256 * 4096) (alloc_page small_pmm 256) = (true, s2) ∧
        abstract s2 = abstract small_pmm ∧
        pmm_available s2 = pmm_available small_pmm ∧ pmm_free (256 * 4096) s2 = (false, s2).
Proof.
  apply (pmm_alloc_free_roundtrip small_pmm).
  - apply (bool_decide_unpack _). by vm_compute.
  - by vm_compute.
Defined.

(** No access of the allocator is out of bounds or truncated: from the
    zeroed BSS through initialization and any sequence of calls, every word of
    both bitmaps lies inside its array and is a [uint64_t]. *)
Theorem pmm_bitmaps_stay_in_bounds m p s cs :
  is_u64 p → pmm_init m p pmm_bss = (true, s) →
  bitmap_ok (eligible (snd (run pmm_call cs s))) ∧
  bitmap_ok (allocated (snd (run pmm_call cs s))).
Proof.
  intros Hp Hi. pose proof (pmm_init_allocated m p s Hi) as Ha.
  apply pmm_init_true in Hi as (_ & _ & Hs & _ & He); [|done].
  pose proof (run_refines cs s Hs) as Hr. pose proof (run_ok cs s Hs) as Hok.
  destruct (run pmm_call cs s) as [l s']. destruct Hr as (_ & _ & He').
  split; simpl in *.
  - rewrite He', He. by apply init_bitmap_ok.
  - apply Hok. rewrite Ha. apply map_Forall_empty.
Qed.

End PmmSpec.
