(* ===== verification/PmmCheck.v ===== *)
(** * The allocator's boot-time self-test: [kernel/pmm_check.c]

    [pmm_boot_check] on the allocator and the RAM it writes through. It is
    shown to succeed on every initialized allocator with three available
    pages, to leave the allocator's pool as it found it, and to write to no
    memory but the pages it was handed. *)

From S2P Require Import Prelude BootInfo PmmInterface Pmm PmmSpec.
Import Pmm PmmSpec.

Module PmmCheck.

(** [for (j = 0; j < 512; ++j) memory[j] = page ^ j] *)
Definition fill_page (page : Z) (m : ram) : ram :=
  for_all 0 1 512 (λ j m, store m (page + 8 * j) (Z.lxor page j)) m.

(** The read-back loop of one page. *)
Definition page_filled (m : ram) (page : Z) : bool :=
  match
    for_step 0 1 512 (λ j (_ : unit),
      if load m (page + 8 * j) =? Z.lxor page j then Next tt else Stop tt) tt
  with
  | Next _ => true
  | Stop _ => false
  end.

(** The loop that takes and fills three distinct pages. *)
Definition take_pages (s : PMM) (m : ram) : ctl (list Z * PMM * ram) (PMM * ram) :=
  foreach [0; 1; 2] (λ (_ : Z) '(pages, s, m),
    match pmm_alloc_at true s with
    | (None, s) => Stop (s, m)
    | (Some page, s) =>
        if existsb (Z.eqb page) pages then Stop (s, m)
        else Next (pages ++ [page], s, fill_page page m)
    end) ([], s, m).

(** The checks that follow, on the three pages: each [return false] keeps the
    state reached so far. *)
Definition release_checks (before p0 p1 p2 : Z) (s : PMM) : bool * PMM :=
  if negb (pmm_available s =? before - 3) then (false, s) else
  let '(r, s) := pmm_free (p0 + 1) s in if r then (false, s) else
  let '(r, s) := pmm_free 0 s in if r then (false, s) else
  let '(r, s) := pmm_free p1 s in if negb r then (false, s) else
  let '(r, s) := pmm_free p1 s in if r then (false, s) else
  match pmm_alloc_at true s with
  | (None, s) => (false, s)
  | (Some again, s) =>
      if negb (again =? p1) then (false, s) else
      let '(r, s) := pmm_free p0 s in if negb r then (false, s) else
      let '(r, s) := pmm_free again s in if negb r then (false, s) else
      let '(r, s) := pmm_free p2 s in if negb r then (false, s) else
      (pmm_available s =? before, s)
  end.

Definition pmm_boot_check (s : PMM) (m : ram) : bool * PMM * ram :=
  let before := pmm_available s in
  if before <? 3 then (false, s, m)
  else
    match take_pages s m with
    | Stop (s, m) => (false, s, m)
    | Next ([p0; p1; p2] as pages, s, m) =>
        if negb (forallb (page_filled m) pages) then (false, s, m)
        else let '(r, s) := release_checks before p0 p1 p2 s in (r, s, m)
    | Next (_, s, m) => (false, s, m)
    end.

(** The three least vacant pages, taken one after the other. *)
Record three_least (s : PMM) (q0 q1 q2 : Z) : Prop := {
  least0 : least (vacant_pages s) = Some q0;
  least1 : least (vacant_pages (alloc_page s q0)) = Some q1;
  least2 : least (vacant_pages (alloc_page (alloc_page s q0) q1)) = Some q2;
}.

Definition take_three (s : PMM) (q0 q1 q2 : Z) : PMM :=
  alloc_page (alloc_page (alloc_page s q0) q1) q2.

(** ** The memory writes *)

Lemma load_fill_page page m x :
  is_u64 page →
  load (fill_page page m) x =
  if decide (in_words page x) then Z.lxor page ((x - page) / 8) else load m x.
Proof.
  intros Hp. apply (load_store_words page (Z.lxor page)).
  intros j Hj. apply is_u64_lxor; [done|]. unfold is_u64. lia.
Qed.

Lemma page_filled_spec m page :
  page_filled m page = true ↔ ∀ j, 0 ≤ j < 512 → load m (page + 8 * j) = Z.lxor page j.
Proof.
  unfold page_filled.
  for_one (λ i (_ : unit), ∀ j, 0 ≤ j < i → load m (page + 8 * j) = Z.lxor page j)
          (λ _ : unit, ¬ ∀ j, 0 ≤ j < 512 → load m (page + 8 * j) = Z.lxor page j).
  - lia.
  - intros i _ Hi Hlow. destruct (Z.eqb_spec (load m (page + 8 * i)) (Z.lxor page i)) as [He|Hn].
    + intros j Hj. destruct (decide (j = i)) as [->|]; [done|apply Hlow; lia].
    + intros H. by apply Hn, H.
  - by split.
  - by split.
Qed.

(** A page that was filled stays filled when a disjoint page is filled. *)
Lemma fill_page_same m q :
  is_u64 (q * 4096) → page_filled (fill_page (q * 4096) m) (q * 4096) = true.
Proof.
  intros Hq. apply page_filled_spec. intros j Hj.
  rewrite load_fill_page, decide_True by (done || by apply index_in_words).
  by replace ((q * 4096 + 8 * j - q * 4096) / 8) with j by zdm.
Qed.

Lemma fill_page_frame m q x :
  is_u64 (q * 4096) → x / 4096 ≠ q → load (fill_page (q * 4096) m) x = load m x.
Proof.
  intros Hq Hne. rewrite load_fill_page, decide_False; [done| |done].
  intros [? _]. apply Hne. zdm.
Qed.

Lemma fill_page_other m q r :
  is_u64 (q * 4096) → q ≠ r → page_filled m (r * 4096) = true →
  page_filled (fill_page (q * 4096) m) (r * 4096) = true.
Proof.
  intros Hq Hne. rewrite !page_filled_spec. intros H j Hj.
  rewrite fill_page_frame; [by apply H|done|].
  replace ((r * 4096 + 8 * j) / 4096) with r by zdm. done.
Qed.

(** ** The allocator through the test *)

(** An allocator with [n] vacant pages hands out the least one and keeps the
    others. *)
Lemma vacant_least s n :
  pmm_wf s → pmm_available s = n → 0 < n →
  ∃ q, least (vacant_pages s) = Some q ∧ q ∈ vacant_pages s ∧ 256 ≤ q < PAGE_COUNT.
Proof.
  intros Hs Ha Hn. destruct (least (vacant_pages s)) as [q|] eqn:Hq.
  - pose proof (least_Some _ _ Hq) as [Hin _]. exists q.
    split; [done|]. split; [done|]. by apply (vacant_range s).
  - apply least_None in Hq. unfold pmm_available in Ha.
    rewrite (wf_free s Hs), Hq, size_empty in Ha. lia.
Qed.

Lemma alloc_page_available s q :
  pmm_wf s → least (vacant_pages s) = Some q →
  pmm_available (alloc_page s q) = pmm_available s - 1.
Proof.
  intros Hs Hq.
  exact (@pmm_alloc_count PMM _ Pmm_contract s _ _ Hs (pmm_alloc_at_least s q Hs Hq)).
Qed.

Lemma free_page_available s q :
  pmm_wf s → q ∈ allocated_pages s → pmm_available (free_page s q) = pmm_available s + 1.
Proof.
  intros Hs Hq.
  exact (@pmm_free_count PMM _ Pmm_contract s _ _ Hs (pmm_free_page s q Hs Hq)).
Qed.

Lemma allocated_alloc_page s q : allocated_pages (alloc_page s q) = {[q]} ∪ allocated_pages s.
Proof. apply pages_of_set. Qed.

Lemma allocated_free_page s q : allocated_pages (free_page s q) = allocated_pages s ∖ {[q]}.
Proof. apply pages_of_clear. Qed.

Lemma pmm_free_unaligned s q : pmm_wf s → pmm_free (q * 4096 + 1) s = (false, s).
Proof.
  intros Hs. apply pmm_free_reject; [done|]. rewrite elem_of_addresses. intros [H _]. zdm.
Qed.

Lemma pmm_free_zero s : pmm_wf s → pmm_free 0 s = (false, s).
Proof.
  intros Hs. apply pmm_free_reject; [done|]. intros [_ H%(wf_allocated s Hs)]%elem_of_addresses.
  apply (wf_eligible_range s Hs) in H. change (0 / 4096) with 0 in H. lia.
Qed.

Lemma pmm_free_vacant s q : pmm_wf s → q ∉ allocated_pages s → pmm_free (q * 4096) s = (false, s).
Proof. intros Hs Hq. apply pmm_free_reject; [done|]. by rewrite elem_of_addresses_mul. Qed.

Lemma three_least_facts s q0 q1 q2 :
  pmm_wf s → three_least s q0 q1 q2 →
  pmm_wf (take_three s q0 q1 q2) ∧
  pmm_available (take_three s q0 q1 q2) = pmm_available s - 3 ∧
  allocated_pages (take_three s q0 q1 q2) = {[q2]} ∪ ({[q1]} ∪ ({[q0]} ∪ allocated_pages s)) ∧
  (256 ≤ q0 ∧ q0 < q1 ∧ q1 < q2 ∧ q2 < PAGE_COUNT) ∧
  (q0 ∉ allocated_pages s ∧ q1 ∉ allocated_pages s ∧ q2 ∉ allocated_pages s) ∧
  ∀ y, y ∈ vacant_pages (take_three s q0 q1 q2) → q1 ≤ y.
Proof.
  intros Hs [H0 H1 H2]. unfold take_three.
  pose proof (alloc_page_wf s q0 Hs H0) as Hs1.
  pose proof (alloc_page_wf _ q1 Hs1 H1) as Hs2.
  pose proof (alloc_page_wf _ q2 Hs2 H2) as Hs3.
  rewrite !alloc_page_available by done. rewrite !allocated_alloc_page.
  apply least_Some in H0 as [Hin0 Hm0], H1 as [Hin1 Hm1], H2 as [Hin2 Hm2].
  pose proof (vacant_range s q0 Hs Hin0) as Hr0.
  pose proof (vacant_range _ q2 Hs2 Hin2) as Hr2.
  rewrite vacant_alloc_page in *.
  apply elem_of_difference in Hin1 as [Hin1 Hn1]. rewrite not_elem_of_singleton in Hn1.
  pose proof (Hm0 q1 Hin1) as Hle01.
  apply elem_of_difference in Hin2 as [Hin2 Hn2]. rewrite not_elem_of_singleton in Hn2.
  rewrite vacant_alloc_page in Hin2. pose proof (Hm1 q2 Hin2) as Hle12.
  apply elem_of_difference in Hin2 as [Hin2 _].
  apply elem_of_difference in Hin0 as [_ ?], Hin1 as [_ ?], Hin2 as [_ ?].
  split; [done|]. split; [lia|]. split; [done|]. split; [lia|]. split; [done|].
  intros y Hy. rewrite !vacant_alloc_page in Hy. apply Hm1.
  by do 2 apply elem_of_difference in Hy as [Hy _].
Qed.

Lemma take_pages_spec s m :
  pmm_wf s → 3 ≤ pmm_available s →
  ∃ q0 q1 q2, three_least s q0 q1 q2 ∧
    take_pages s m =
      Next ([q0 * 4096; q1 * 4096; q2 * 4096], take_three s q0 q1 q2,
            fill_page (q2 * 4096) (fill_page (q1 * 4096) (fill_page (q0 * 4096) m))).
Proof.
  intros Hs Hav.
  destruct (vacant_least s _ Hs eq_refl ltac:(lia)) as (q0 & H0 & _).
  pose proof (alloc_page_wf s q0 Hs H0) as Hs1.
  pose proof (alloc_page_available s q0 Hs H0) as Hav1.
  destruct (vacant_least _ _ Hs1 eq_refl ltac:(lia)) as (q1 & H1 & _).
  pose proof (alloc_page_wf _ q1 Hs1 H1) as Hs2.
  pose proof (alloc_page_available _ q1 Hs1 H1) as Hav2.
  destruct (vacant_least _ _ Hs2 eq_refl ltac:(lia)) as (q2 & H2 & _).
  assert (three_least s q0 q1 q2) as Ht by by split.
  exists q0, q1, q2. split; [done|].
  pose proof (three_least_facts s q0 q1 q2 Hs Ht) as (_ & _ & _ & Hr & _).
  unfold take_pages, foreach. cbv beta iota zeta.
  rewrite (pmm_alloc_at_least s q0 Hs H0). cbn [existsb app].
  rewrite (pmm_alloc_at_least _ q1 Hs1 H1). cbn [existsb app].
  rewrite (proj2 (Z.eqb_neq (q1 * 4096) (q0 * 4096))) by lia. cbn [orb].
  rewrite (pmm_alloc_at_least _ q2 Hs2 H2). cbn [existsb app].
  rewrite (proj2 (Z.eqb_neq (q2 * 4096) (q0 * 4096))),
    (proj2 (Z.eqb_neq (q2 * 4096) (q1 * 4096))) by lia. done.
Qed.

(** Three pages in use can be released one after the other. *)
Lemma release_three s q0 q1 q2 A :
  pmm_wf s → q0 < q1 → q1 < q2 → q0 ∉ A → q1 ∉ A → q2 ∉ A →
  allocated_pages s = {[q2]} ∪ ({[q1]} ∪ ({[q0]} ∪ A)) →
  ∃ s1 s2 s3,
    pmm_free (q0 * 4096) s = (true, s1) ∧ pmm_free (q1 * 4096) s1 = (true, s2) ∧
    pmm_free (q2 * 4096) s2 = (true, s3) ∧
    pmm_wf s3 ∧ allocated_pages s3 = A ∧ eligible s3 = eligible s ∧
    pmm_available s3 = pmm_available s + 3.
Proof.
  intros Hs ?? Hn0 Hn1 Hn2 HA.
  assert (q0 ∈ allocated_pages s) as Hq0 by set_solver.
  pose proof (free_page_wf s q0 Hs Hq0) as Hs1.
  assert (q1 ∈ allocated_pages (free_page s q0)) as Hq1.
  { rewrite allocated_free_page. apply elem_of_difference. split; [set_solver|].
    rewrite not_elem_of_singleton. lia. }
  pose proof (free_page_wf _ q1 Hs1 Hq1) as Hs2.
  assert (q2 ∈ allocated_pages (free_page (free_page s q0) q1)) as Hq2.
  { rewrite !allocated_free_page. rewrite !elem_of_difference, !elem_of_singleton.
    split; [split; [set_solver|lia]|lia]. }
  exists (free_page s q0), (free_page (free_page s q0) q1),
    (free_page (free_page (free_page s q0) q1) q2).
  do 3 (split; [by apply pmm_free_page|]). split; [by apply free_page_wf|].
  rewrite !allocated_free_page, !free_page_available by done.
  split; [|split; [done|lia]].
  rewrite HA. apply set_eq. intros x. rewrite !elem_of_difference, !elem_of_union, !elem_of_singleton.
  split; [tauto|]. intros Hx. assert (x ≠ q0 ∧ x ≠ q1 ∧ x ≠ q2) by naive_solver. tauto.
Qed.

Lemma release_checks_spec s q0 q1 q2 :
  pmm_wf s → three_least s q0 q1 q2 →
  ∃ s', release_checks (pmm_available s) (q0 * 4096) (q1 * 4096) (q2 * 4096)
          (take_three s q0 q1 q2) = (true, s') ∧
        pmm_wf s' ∧ abstract s' = abstract s ∧ pmm_available s' = pmm_available s.
Proof.
  intros Hs Ht. destruct (three_least_facts s q0 q1 q2 Hs Ht)
    as (Hs3 & Hav3 & Hal3 & (? & ? & ? & ?) & (Hn0 & Hn1 & Hn2) & Hlow).
  assert (eligible (take_three s q0 q1 q2) = eligible s) as He by done.
  revert Hs3 Hav3 Hal3 Hlow He. generalize (take_three s q0 q1 q2) as s3.
  intros s3 Hs3 Hav3 Hal3 Hlow He. unfold release_checks.
  rewrite (proj2 (Z.eqb_eq _ _)) by done. cbn [negb].
  rewrite pmm_free_unaligned, pmm_free_zero by done.
  (* release q1 *)
  assert (q1 ∈ allocated_pages s3) as Hq1 by set_solver.
  rewrite (pmm_free_page s3 q1 Hs3 Hq1). cbn [negb].
  pose proof (free_page_wf s3 q1 Hs3 Hq1) as Hs4.
  pose proof (free_page_available s3 q1 Hs3 Hq1) as Hav4.
  assert (q1 ∉ allocated_pages (free_page s3 q1)) as Hq1' by (rewrite allocated_free_page; set_solver).
  rewrite (pmm_free_vacant _ q1 Hs4 Hq1').
  (* take it again *)
  assert (least (vacant_pages (free_page s3 q1)) = Some q1) as Hl4.
  { rewrite vacant_free_page by by apply (wf_allocated s3 Hs3).
    apply least_unique; [set_solver|]. intros y [->%elem_of_singleton|Hy%Hlow]%elem_of_union; lia. }
  rewrite (pmm_alloc_at_least _ q1 Hs4 Hl4), Z.eqb_refl. cbn [negb].
  pose proof (alloc_page_wf _ q1 Hs4 Hl4) as Hs5.
  pose proof (alloc_page_available _ q1 Hs4 Hl4) as Hav5.
  destruct (release_three (alloc_page (free_page s3 q1) q1) q0 q1 q2 (allocated_pages s))
    as (s6 & s7 & s8 & -> & Hf1 & Hf2 & Hs8 & Hal & Hel & Hav); try done.
  { rewrite allocated_alloc_page, allocated_free_page, Hal3. apply set_eq. intros x.
    destruct (decide (x = q1)); set_solver. }
  cbn [negb]. rewrite Hf1. cbn [negb]. rewrite Hf2. cbn [negb].
  exists s8. assert (pmm_available s8 = pmm_available s) as Ha by lia.
  split; [by rewrite Ha, Z.eqb_refl|]. split; [done|]. split; [|done].
  unfold abstract. rewrite Hal. unfold eligible_pages. rewrite Hel. by rewrite <- He.
Qed.

(** ** Properties *)

Lemma boot_check_spec s m :
  pmm_wf s → 3 ≤ pmm_available s →
  ∃ s' m', pmm_boot_check s m = (true, s', m') ∧
    pmm_wf s' ∧ abstract s' = abstract s ∧ pmm_available s' = pmm_available s ∧
    ∃ q0 q1 q2, three_least s q0 q1 q2 ∧
      ∀ x, x / 4096 ∉ [q0; q1; q2] → load m' x = load m x.
Proof.
  intros Hs Hav. unfold pmm_boot_check. rewrite (proj2 (Z.ltb_ge _ _)) by done.
  destruct (take_pages_spec s m Hs Hav) as (q0 & q1 & q2 & Ht & ->).
  destruct (three_least_facts s q0 q1 q2 Hs Ht) as (_ & _ & _ & Hr & _).
  rewrite PAGE_COUNT_val in Hr.
  assert (is_u64 (q0 * 4096) ∧ is_u64 (q1 * 4096) ∧ is_u64 (q2 * 4096)) as (? & ? & ?)
    by (unfold is_u64; lia).
  set (m3 := fill_page (q2 * 4096) _).
  assert (page_filled m3 (q0 * 4096) = true) as F0.
  { do 2 (apply fill_page_other; [done|lia|]). by apply fill_page_same. }
  assert (page_filled m3 (q1 * 4096) = true) as F1.
  { apply fill_page_other; [done|lia|]. by apply fill_page_same. }
  assert (page_filled m3 (q2 * 4096) = true) as F2 by by apply fill_page_same.
  cbn [forallb]. rewrite F0, F1, F2. clear F0 F1 F2.
  cbn [andb negb].
  destruct (release_checks_spec s q0 q1 q2 Hs Ht) as (s' & -> & Hs' & Habs & Ha).
  eexists s', _. split; [done|]. do 3 (split; [done|]). exists q0, q1, q2. split; [done|].
  intros x Hx. rewrite !not_elem_of_cons in Hx. unfold m3. by rewrite !fill_page_frame by naive_solver.
Qed.

(** The check in full: it needs three pages, and writes to vacant ones only. *)
Lemma boot_check_cases s m :
  pmm_wf s →
  match pmm_boot_check s m with
  | (true, s', m') =>
      3 ≤ pmm_available s ∧ pmm_wf s' ∧ abstract s' = abstract s ∧
      pmm_available s' = pmm_available s ∧
      ∀ x, x / 4096 ∉ vacant_pages s → load m' x = load m x
  | (false, s', m') => pmm_available s < 3
  end.
Proof.
  intros Hs. destruct (Z.lt_ge_cases (pmm_available s) 3) as [Hlt|Hge].
  - unfold pmm_boot_check. by rewrite (proj2 (Z.ltb_lt _ _)).
  - destruct (boot_check_spec s m Hs Hge)
      as (s' & m' & -> & Hs' & Ha & Hav & q0 & q1 & q2 & Ht & Hm).
    split; [done|]. split; [done|]. split; [done|]. split; [done|]. intros x Hx. apply Hm.
    destruct Ht as [H0 H1 H2].
    apply least_Some in H0 as [H0 _], H1 as [H1 _], H2 as [H2 _].
    rewrite !vacant_alloc_page in *. set_solver.
Qed.

(** On an initialized allocator with at least three available pages the
    boot check succeeds: every word it writes reads back, the page released
    from the middle is the one handed out next, misaligned, unmanaged and
    repeated releases are refused; and it leaves the sets of managed and used
    pages as they were, and all memory outside three vacant pages. *)
Theorem pmm_boot_check_succeeds s m :
  pmm_wf s → 3 ≤ pmm_available s →
  ∃ s' m', pmm_boot_check s m = (true, s', m') ∧
    pmm_wf s' ∧ abstract s' = abstract s ∧ pmm_available s' = pmm_available s ∧
    ∃ q0 q1 q2, three_least s q0 q1 q2 ∧
      ∀ x, x / 4096 ∉ [q0; q1; q2] → load m' x = load m x.
Proof. apply boot_check_spec. Qed.

End PmmCheck.
