(* ===== verification/RxBuffer.v ===== *)
(** * The receive ring: [kernel/rx_buffer.c]

    The buffer between the UART interrupt handler and [serial_read]: a ring
    of 256 bytes of which 255 are usable, with a sticky failure flag that
    stands for lost input. Refines [Channel]: a queue of at most 255 bytes,
    or the fact that input was lost and not yet reported. *)

From S2P Require Import Prelude.

Module RxBuffer.

Definition RX_CAPACITY : Z := 256.

Record RX_BUFFER := {
  data : list Z;
  head : Z;
  tail : Z;
  failed : bool;
}.

(** The zeroed [static RX_BUFFER receive_buffer]. *)
Definition rx_bss : RX_BUFFER :=
  {| data := replicate 256 0; head := 0; tail := 0; failed := false |}.

(** [buffer->data[i]] *)
Definition cell (l : list Z) (i : Z) : Z := default 0 (l !! Z.to_nat i).

Definition rx_reset (b : RX_BUFFER) : RX_BUFFER :=
  {| data := data b; head := 0; tail := 0; failed := false |}.

Definition rx_fail (b : RX_BUFFER) : RX_BUFFER :=
  {| data := data b; head := 0; tail := 0; failed := true |}.

Definition rx_push (byte : Z) (b : RX_BUFFER) : bool * RX_BUFFER :=
  if failed b then (false, b)
  else
    let next := u32 (head b + 1) mod RX_CAPACITY in
    if next =? tail b then (false, rx_fail b)
    else
      (true, {| data := <[Z.to_nat (head b) := byte]> (data b);
                head := next; tail := tail b; failed := failed b |}).

(** The [int] returned and the byte stored through the pointer, if one is. *)
Definition rx_read (b : RX_BUFFER) : Z * option Z * RX_BUFFER :=
  if failed b then (-1, None, rx_reset b)
  else if head b =? tail b then (0, None, b)
  else
    (1, Some (cell (data b) (tail b)),
     {| data := data b; head := head b; tail := u32 (tail b + 1) mod RX_CAPACITY;
        failed := failed b |}).

(** ** The channel *)

(** A queue of received bytes, or lost input to be reported. *)
Inductive Channel :=
  | Queue (l : list Z)
  | Lost.

Inductive event :=
  | Reset
  | Fail
  | Push (byte : Z)
  | Read.

Inductive outcome :=
  | Done
  | Accepted (b : bool)
  | Got (status : Z) (byte : option Z).

Definition channel_step (e : event) (c : Channel) : outcome * Channel :=
  match e, c with
  | Reset, _ => (Done, Queue [])
  | Fail, _ => (Done, Lost)
  | Push x, Queue l =>
      if (length l <? 255)%nat then (Accepted true, Queue (l ++ [x])) else (Accepted false, Lost)
  | Push _, Lost => (Accepted false, Lost)
  | Read, Lost => (Got (-1) None, Queue [])
  | Read, Queue [] => (Got 0 None, Queue [])
  | Read, Queue (x :: l) => (Got 1 (Some x), Queue l)
  end.

Definition ring_step (e : event) (b : RX_BUFFER) : outcome * RX_BUFFER :=
  match e with
  | Reset => (Done, rx_reset b)
  | Fail => (Done, rx_fail b)
  | Push x => let '(r, b) := rx_push x b in (Accepted r, b)
  | Read => let '(r, x, b) := rx_read b in (Got r x, b)
  end.

(** The number of queued bytes and the bytes themselves, oldest first. *)
Definition queued (b : RX_BUFFER) : Z := (head b - tail b) mod RX_CAPACITY.
Definition contents (b : RX_BUFFER) : list Z :=
  (λ i, cell (data b) ((tail b + i) mod RX_CAPACITY)) <$> seqZ 0 (queued b).

Definition channel_of (b : RX_BUFFER) : Channel :=
  if failed b then Lost else Queue (contents b).

(** Indices in range, and the array of the declared size. *)
Record rx_wf (b : RX_BUFFER) : Prop := {
  rx_data : length (data b) = 256%nat;
  rx_head : 0 ≤ head b < RX_CAPACITY;
  rx_tail : 0 ≤ tail b < RX_CAPACITY;
}.

(** ** Lemmas *)

Lemma contents_length b : length (contents b) = Z.to_nat (queued b).
Proof. unfold contents. by rewrite length_fmap, length_seqZ. Qed.

Lemma queued_range b : 0 ≤ queued b < 256.
Proof. apply Z.mod_pos_bound. done. Qed.

Lemma next_index i : 0 ≤ i < RX_CAPACITY → u32 (i + 1) mod RX_CAPACITY = (i + 1) mod RX_CAPACITY.
Proof. unfold RX_CAPACITY, u32. intros H. rewrite (Z.mod_small (i + 1)); [done|lia]. Qed.

(** The ring is full exactly when 255 bytes are queued. *)
Lemma full_iff b :
  rx_wf b → (head b + 1) mod RX_CAPACITY = tail b ↔ queued b = 255.
Proof. intros [_ Hh Ht]. unfold queued, RX_CAPACITY in *. split; intros; zdm. Qed.

Lemma cell_insert l i j x :
  0 ≤ i < Z.of_nat (length l) → 0 ≤ j →
  cell (<[Z.to_nat i := x]> l) j = if decide (i = j) then x else cell l j.
Proof.
  intros Hi Hj. unfold cell. case_decide as Hd.
  - subst. by rewrite list_lookup_insert_eq by lia.
  - by rewrite list_lookup_insert_ne by lia.
Qed.

Lemma contents_push b x f :
  rx_wf b → queued b < 255 →
  contents {| data := <[Z.to_nat (head b) := x]> (data b);
              head := (head b + 1) mod RX_CAPACITY; tail := tail b; failed := f |}
  = contents b ++ [x].
Proof.
  intros [Hl Hh Ht] Hq. pose proof (queued_range b) as Hr.
  unfold contents. cbn [data head tail].
  assert (queued {| data := <[Z.to_nat (head b) := x]> (data b);
              head := (head b + 1) mod RX_CAPACITY; tail := tail b; failed := f |}
          = queued b + 1) as ->.
  { unfold queued, RX_CAPACITY in *. cbn [head tail]. zdm. }
  rewrite seqZ_app by lia. rewrite Z.add_0_l, fmap_app. f_equal.
  - apply list_fmap_ext. intros k i Hk. apply lookup_seqZ in Hk as [-> Hk].
    rewrite cell_insert by (rewrite ?Hl; unfold RX_CAPACITY in *; zdm).
    apply decide_False. unfold queued, RX_CAPACITY in *. zdm.
  - rewrite seqZ_cons by lia. cbn [seqZ fmap list_fmap]. f_equal.
    rewrite cell_insert by (rewrite ?Hl; unfold RX_CAPACITY in *; zdm).
    apply decide_True. unfold queued, RX_CAPACITY in *. zdm.
Qed.

Lemma contents_read b f :
  rx_wf b → head b ≠ tail b →
  contents b = cell (data b) (tail b) ::
    contents {| data := data b; head := head b; tail := (tail b + 1) mod RX_CAPACITY;
                failed := f |}.
Proof.
  intros [Hl Hh Ht] Hne. pose proof (queued_range b) as Hr.
  unfold contents. cbn [data tail].
  assert (queued {| data := data b; head := head b; tail := (tail b + 1) mod RX_CAPACITY;
                    failed := f |} = queued b - 1) as ->.
  { unfold queued, RX_CAPACITY in *. cbn [head tail]. zdm. }
  assert (queued b ≠ 0) by (unfold queued, RX_CAPACITY in *; zdm).
  rewrite seqZ_cons by lia. cbn [fmap list_fmap]. f_equal.
  - rewrite Z.add_0_r, Z.mod_small by done. done.
  - change (Z.succ 0) with (1 + 0). rewrite <- fmap_add_seqZ, <- list_fmap_compose.
    replace (Z.pred (queued b)) with (queued b - 1) by lia.
    apply list_fmap_ext. intros k i _. simpl. f_equal. unfold RX_CAPACITY in *. zdm.
Qed.

Lemma contents_empty b : head b = tail b → contents b = [].
Proof. intros H. unfold contents, queued. by rewrite H, Z.sub_diag. Qed.

Lemma ring_step_refines e b :
  rx_wf b →
  let '(o, b') := ring_step e b in
  channel_step e (channel_of b) = (o, channel_of b') ∧ rx_wf b'.
Proof.
  intros Hb. pose proof Hb as [Hl Hh Ht]. destruct e as [| |x|]; simpl.
  - unfold channel_of. simpl. rewrite contents_empty by done. by repeat split.
  - by repeat split.
  - unfold rx_push, channel_of. destruct (failed b) eqn:Hf; [by rewrite Hf|].
    rewrite next_index by done. rewrite contents_length.
    pose proof (queued_range b). destruct (Z.eqb_spec ((head b + 1) mod RX_CAPACITY) (tail b)) as [He|He].
    + apply full_iff in He; [|done]. rewrite He. by repeat split.
    + rewrite full_iff in He by done. rewrite (proj2 (Nat.ltb_lt _ _)) by lia.
      cbn [failed]. rewrite <- (contents_push b x false) by (done || lia). split; [done|].
      split; cbn [data head tail]; [by rewrite length_insert|apply Z.mod_pos_bound; done|done].
  - unfold rx_read, channel_of. destruct (failed b) eqn:Hf; simpl.
    { rewrite contents_empty by done. by repeat split. }
    destruct (Z.eqb_spec (head b) (tail b)) as [He|He].
    + by rewrite Hf, contents_empty.
    + rewrite (contents_read b false Hb He), next_index by done. cbn [failed]. split; [done|].
      split; cbn [data head tail]; [done|done|apply Z.mod_pos_bound; done].
Qed.

Lemma steps_refine es b :
  rx_wf b →
  let '(l, b') := run ring_step es b in
  run channel_step es (channel_of b) = (l, channel_of b') ∧ rx_wf b'.
Proof.
  revert b. induction es as [|e es IH]; intros b Hb; simpl; [done|].
  pose proof (ring_step_refines e b Hb) as He. destruct (ring_step e b) as [o b1].
  destruct He as [-> Hb1]. specialize (IH b1 Hb1).
  destruct (run ring_step es b1) as [l b2]. by destruct IH as [-> ?].
Qed.

Lemma rx_bss_wf : rx_wf rx_bss.
Proof. by split. Qed.

(** The channel side of the round trip. *)
Lemma channel_pushes l q :
  (length q + length l ≤ 255)%nat →
  run channel_step (Push <$> l) (Queue q) = (replicate (length l) (Accepted true), Queue (q ++ l)).
Proof.
  revert q. induction l as [|x l IH]; intros q Hq; simpl; [by rewrite app_nil_r|].
  simpl in Hq. rewrite (proj2 (Nat.ltb_lt _ _)) by lia.
  rewrite IH by (rewrite length_app; simpl; lia). by rewrite <- app_assoc.
Qed.

Lemma channel_reads q :
  run channel_step (replicate (length q) Read) (Queue q) = (Got 1 ∘ Some <$> q, Queue []).
Proof. induction q as [|x q IH]; simpl; [done|]. by rewrite IH. Qed.

Lemma channel_lost_pushes l :
  run channel_step (Push <$> l) Lost = (replicate (length l) (Accepted false), Lost).
Proof.
  induction l as [|x l IH]; [done|]. rewrite fmap_cons. cbn [run channel_step].
  by rewrite IH.
Qed.

Lemma steps_app {S} (f : event → S → outcome * S) es1 es2 s :
  run f (es1 ++ es2) s =
  let '(l1, s1) := run f es1 s in
  let '(l2, s2) := run f es2 s1 in (l1 ++ l2, s2).
Proof.
  revert s. induction es1 as [|e es1 IH]; intros s; simpl; [by destruct (run f es2 s)|].
  destruct (f e s) as [o s1]. rewrite IH. destruct (run f es1 s1) as [l1 s2].
  by destruct (run f es2 s2).
Qed.

(** What the ring answers is what its channel answers. *)
Lemma ring_answers es b :
  rx_wf b → fst (run ring_step es b) = fst (run channel_step es (channel_of b)).
Proof.
  intros Hb. pose proof (steps_refine es b Hb) as H.
  destruct (run ring_step es b) as [l b']. by destruct H as [-> _].
Qed.

(** ** Properties *)

(** C25: through any sequence of resets, failures, pushes and reads the ring
    answers as a queue of at most 255 bytes that turns into a single loss
    report when it overflows; the indices stay inside the array. *)
Theorem rx_refines_bounded_queue es b :
  rx_wf b →
  run channel_step es (channel_of b) =
    (fst (run ring_step es b), channel_of (snd (run ring_step es b))) ∧
  rx_wf (snd (run ring_step es b)) ∧
  (length (contents (snd (run ring_step es b))) ≤ 255)%nat.
Proof.
  intros Hb. pose proof (steps_refine es b Hb) as H.
  destruct (run ring_step es b) as [l b']. destruct H as [-> Hb']. simpl.
  do 2 (split; [done|]). rewrite contents_length. pose proof (queued_range b'). lia.
Qed.

Lemma rx_refines_bounded_queue_witness :
  run channel_step [Push 65; Read; Read; Fail; Push 66; Read; Push 67; Read] (channel_of rx_bss) =
    (fst (run ring_step [Push 65; Read; Read; Fail; Push 66; Read; Push 67; Read] rx_bss),
     channel_of (snd (run ring_step [Push 65; Read; Read; Fail; Push 66; Read; Push 67; Read] rx_bss)))
  ∧ rx_wf (snd (run ring_step [Push 65; Read; Read; Fail; Push 66; Read; Push 67; Read] rx_bss))
  ∧ (length (contents (snd (run ring_step
       [Push 65; Read; Read; Fail; Push 66; Read; Push 67; Read] rx_bss))) ≤ 255)%nat.
Proof. apply (rx_refines_bounded_queue _ rx_bss). by split. Defined.

(** Bytes come out in the order they went in: on a ring that has not
    failed, wherever its indices stand, up to 255 bytes in total can be
    pushed, and as many reads return first the queued bytes, then the pushed
    ones. *)
Theorem rx_push_read_roundtrip b l :
  rx_wf b → failed b = false → (length (contents b) + length l ≤ 255)%nat →
  fst (run ring_step
    ((Push <$> l) ++ replicate (length (contents b ++ l)) Read) b) =
  replicate (length l) (Accepted true) ++ (Got 1 ∘ Some <$> contents b ++ l).
Proof.
  intros Hb Hf Hl. rewrite ring_answers by done. unfold channel_of. rewrite Hf.
  by rewrite steps_app, channel_pushes, channel_reads by done.
Qed.

(** A push onto a full ring is refused and discards everything queued;
    every later push is refused too, until one read reports the loss with -1
    and stores nothing, after which the ring is empty and accepts input
    again. *)
Theorem rx_overflow_reported_once b x l y :
  rx_wf b → failed b = false → length (contents b) = 255%nat →
  fst (run ring_step
    ([Push x] ++ (Push <$> l) ++ [Read; Read; Push y; Read]) b) =
  [Accepted false] ++ replicate (length l) (Accepted false) ++
  [Got (-1) None; Got 0 None; Accepted true; Got 1 (Some y)].
Proof.
  intros Hb Hf Hl. rewrite ring_answers by done. unfold channel_of. rewrite Hf.
  rewrite steps_app. cbn [run channel_step]. rewrite Hl. cbn [Nat.ltb Nat.leb].
  by rewrite steps_app, channel_lost_pushes.
Qed.

End RxBuffer.
