(* ===== verification/X86.v ===== *)
(** * The processor: [include/x86.h]

    The registers the kernel's inline assembly reads and writes, one
    definition per [x86_*] function. The translation cache is part of the
    state: [tlb] maps a virtual page number to the leaf entry the processor
    may still use for it, and the instructions that drop cached translations
    ([invlpg], writes to CR3 and CR4) do so as the architecture defines. *)

From S2P Require Import Prelude.

Module X86.

Record X86_CPUID_RESULT := { eax : Z; ebx : Z; ecx : Z; edx : Z }.

Record CPU := {
  rflags : Z;
  cr0 : Z;
  cr3 : Z;
  cr4 : Z;
  msr : gmap Z Z;
  cpuid : Z → Z → X86_CPUID_RESULT;
  tlb : gmap Z Z;
}.

(** The 36-bit number of the page a virtual address lies in. *)
Definition vpn (address : Z) : Z := (address / 4096) mod 2 ^ 36.

Definition IF_BIT : Z := 0x200.
Definition PGE : Z := 0x80.
Definition GLOBAL : Z := 0x100.

Definition with_rflags (c : CPU) (v : Z) : CPU := {|
  rflags := v; cr0 := cr0 c; cr3 := cr3 c; cr4 := cr4 c; msr := msr c;
  cpuid := cpuid c; tlb := tlb c |}.
Definition with_cr (c : CPU) (v0 v3 v4 : Z) : CPU := {|
  rflags := rflags c; cr0 := v0; cr3 := v3; cr4 := v4; msr := msr c;
  cpuid := cpuid c; tlb := tlb c |}.
Definition with_msr (c : CPU) (m : gmap Z Z) : CPU := {|
  rflags := rflags c; cr0 := cr0 c; cr3 := cr3 c; cr4 := cr4 c; msr := m;
  cpuid := cpuid c; tlb := tlb c |}.
Definition with_tlb (c : CPU) (t : gmap Z Z) : CPU := {|
  rflags := rflags c; cr0 := cr0 c; cr3 := cr3 c; cr4 := cr4 c; msr := msr c;
  cpuid := cpuid c; tlb := t |}.

Definition x86_read_rflags (c : CPU) : Z := rflags c.

Definition x86_disable_interrupts (c : CPU) : CPU :=
  with_rflags c (Z.land (rflags c) (not64 IF_BIT)).
Definition x86_enable_interrupts (c : CPU) : CPU :=
  with_rflags c (Z.lor (rflags c) IF_BIT).

Definition x86_irq_save (c : CPU) : Z * CPU :=
  (x86_read_rflags c, x86_disable_interrupts c).
Definition x86_irq_restore (flags : Z) (c : CPU) : CPU :=
  if has_bits flags 0x200 then x86_enable_interrupts c else c.

Definition x86_cpuid (leaf subleaf : Z) (c : CPU) : X86_CPUID_RESULT := cpuid c leaf subleaf.

(** RDMSR and WRMSR move the two halves through 32-bit registers. *)
Definition x86_read_msr (index : Z) (c : CPU) : Z :=
  let value := default 0 (msr c !! index) in
  Z.lor (Z.shiftl (u32 (Z.shiftr value 32)) 32) (u32 value).
Definition x86_write_msr (index value : Z) (c : CPU) : CPU :=
  with_msr c (<[index := Z.lor (Z.shiftl (u32 (Z.shiftr value 32)) 32) (u32 value)]> (msr c)).

Definition x86_read_cr0 (c : CPU) : Z := cr0 c.
Definition x86_write_cr0 (v : Z) (c : CPU) : CPU := with_cr c v (cr3 c) (cr4 c).

Definition x86_read_cr3 (c : CPU) : Z := cr3 c.
(** Loading CR3 drops every cached translation but the global ones, and those
    too when CR4.PGE is off. *)
Definition x86_write_cr3 (v : Z) (c : CPU) : CPU :=
  with_tlb (with_cr c (cr0 c) v (cr4 c))
    (if has_bits (cr4 c) PGE then filter (λ x, has_bits (snd x) GLOBAL = true) (tlb c) else ∅).

Definition x86_read_cr4 (c : CPU) : Z := cr4 c.
(** Changing CR4.PGE drops every cached translation. *)
Definition x86_write_cr4 (v : Z) (c : CPU) : CPU :=
  with_tlb (with_cr c (cr0 c) (cr3 c) v)
    (if Bool.eqb (has_bits (cr4 c) PGE) (has_bits v PGE) then tlb c else ∅).

Definition x86_invalidate_page (address : Z) (c : CPU) : CPU :=
  with_tlb c (delete (vpn address) (tlb c)).

(** ** Lemmas *)

(** The registers without the cached translations. *)
Definition registers (c : CPU) : CPU := with_tlb c ∅.

Lemma registers_invalidate a c : registers (x86_invalidate_page a c) = registers c.
Proof. done. Qed.

Lemma tlb_invalidate a c : tlb (x86_invalidate_page a c) = delete (vpn a) (tlb c).
Proof. done. Qed.

Lemma read_write_msr i v c : x86_read_msr i (x86_write_msr i v c) = u64 v.
Proof.
  unfold x86_read_msr, x86_write_msr. cbn [msr with_msr]. rewrite lookup_insert_eq.
  change (default 0 (Some ?x)) with x. rewrite !u64_halves. apply u64_small, u64_range.
Qed.

Lemma vpn_range a : 0 ≤ vpn a < 2 ^ 36.
Proof. apply Z.mod_pos_bound. lia. Qed.

End X86.
