(* ===== verification/Paging.v ===== *)
(** * Page tables: [kernel/paging.c], the data and the dynamic operations

    The module's static variables with the allocator, the RAM the tables live
    in and the processor, and one definition per function of the dynamic
    interface ([paging_map], [paging_unmap], [paging_protect],
    [paging_query]) and of the helpers they share. The allocator is any
    implementation of [PmmApi]. *)

From S2P Require Import Prelude PmmInterface X86.
Import X86.

Module Paging.

Definition ADDRESS_MASK : Z := 0x000ffffffffff000.
Definition FLAGS : Z := 3.
Definition MAX_TABLES : Z := 4096.
Definition NX : Z := bit64 63.

Definition PAGING_DYNAMIC_BASE : Z := 0xffff800000000000.
Definition PAGING_DYNAMIC_SIZE : Z := bit64 39.
Definition PAGING_WRITE : Z := 1.
Definition PAGING_EXEC : Z := 2.

Record PAGING (A : Type) := {
  pmm : A;
  mem : ram;
  table_pages : gmap Z Z;
  paging_table_count : Z;
  paging_root : Z;
  paging_previous_cr3 : Z;
  active : bool;
  cpu : CPU;
}.
Arguments Build_PAGING {A}.
Arguments pmm {A}.
Arguments mem {A}.
Arguments table_pages {A}.
Arguments paging_table_count {A}.
Arguments paging_root {A}.
Arguments paging_previous_cr3 {A}.
Arguments active {A}.
Arguments cpu {A}.

Section operations.
Context {A : Type} `{!PmmApi A}.
Implicit Types (k : PAGING A).

Definition with_pmm k (p : A) : PAGING A :=
  Build_PAGING p (mem k) (table_pages k) (paging_table_count k) (paging_root k)
    (paging_previous_cr3 k) (active k) (cpu k).
Definition with_mem k (m : ram) : PAGING A :=
  Build_PAGING (pmm k) m (table_pages k) (paging_table_count k) (paging_root k)
    (paging_previous_cr3 k) (active k) (cpu k).
Definition with_tables k (t : gmap Z Z) (n : Z) : PAGING A :=
  Build_PAGING (pmm k) (mem k) t n (paging_root k) (paging_previous_cr3 k) (active k) (cpu k).
Definition with_cpu k (c : CPU) : PAGING A :=
  Build_PAGING (pmm k) (mem k) (table_pages k) (paging_table_count k) (paging_root k)
    (paging_previous_cr3 k) (active k) c.

(** [table_pages[i]] *)
Definition table_page k (i : Z) : Z := default 0 (table_pages k !! i).

(** [(address >> shift) & 511], and the byte address of [table[index]]. *)
Definition index (address shift : Z) : Z := Z.land (Z.shiftr address shift) 511.
Definition entry_at (table i : Z) : Z := table + 8 * i.

Definition read_entry k (at_ : Z) : Z := load (mem k) at_.
Definition write_entry k (at_ v : Z) : PAGING A := with_mem k (store (mem k) at_ v).
Definition invalidate k (address : Z) : PAGING A :=
  with_cpu k (x86_invalidate_page address (cpu k)).

(** Zero stands for failure: no table is at address 0. *)
Definition new_table k : Z * PAGING A :=
  if paging_table_count k =? MAX_TABLES then (0, k)
  else
    match pmm_alloc (pmm k) with
    | (None, p) => (0, with_pmm k p)
    | (Some address, p) =>
        let k := with_pmm k p in
        let k := with_tables k (<[paging_table_count k := address]> (table_pages k))
                   (paging_table_count k + 1) in
        (address,
         with_mem k (for_all 0 1 512 (λ i m, store m (entry_at address i) 0) (mem k)))
    end.

Definition dynamic_address k (address : Z) : bool :=
  let flags := x86_read_rflags (cpu k) in
  active k && negb (has_bits flags 0x200) && negb (has_bits address 4095)
  && (PAGING_DYNAMIC_BASE <=? address)
  && (u64 (address - PAGING_DYNAMIC_BASE) <? PAGING_DYNAMIC_SIZE).

Definition release_table k (address : Z) : PAGING A :=
  match
    for_step 0 1 (paging_table_count k) (λ i (_ : unit),
      if negb (table_page k i =? address) then Next tt
      else
        let count := paging_table_count k - 1 in
        let k := with_tables k (<[i := table_page k count]> (table_pages k)) count in
        Stop (with_pmm k (snd (pmm_free address (pmm k))))) tt
  with
  | Next _ => k
  | Stop k => k
  end.

Definition leaf_flags (flags : Z) : Z :=
  Z.lor (Z.lor 1 (if has_bits flags PAGING_WRITE then 2 else 0))
    (if has_bits flags PAGING_EXEC then 0 else NX).

(** The existing path: [tables[level]] and [indices[level]] for the four
    levels, when every entry on it is present. *)
Definition path k (address : Z) : option (list (Z * Z)) :=
  match
    foreach [0; 1; 2; 3] (λ level '(table, acc),
      let i := index address (39 - level * 9) in
      let entry := read_entry k (entry_at table i) in
      if negb (has_bits entry 1) then Stop tt
      else Next (Z.land entry ADDRESS_MASK, acc ++ [(table, i)])) (paging_root k, [])
  with
  | Next (_, acc) => Some acc
  | Stop _ => None
  end.

Definition table_of (tables : list (Z * Z)) (level : nat) : Z := (nth level tables (0, 0)).1.
Definition index_of (tables : list (Z * Z)) (level : nat) : Z := (nth level tables (0, 0)).2.

(** [flags & ~(PAGING_WRITE | PAGING_EXEC)] *)
Definition bad_flags (flags : Z) : bool :=
  has_bits flags (u32 (Z.lnot (Z.lor PAGING_WRITE PAGING_EXEC))).

(** Some recorded table page is [physical]. *)
Definition is_table_page k (physical : Z) : bool :=
  match
    for_step 0 1 (paging_table_count k) (λ i (_ : unit),
      if table_page k i =? physical then Stop tt else Next tt) tt
  with
  | Next _ => false
  | Stop _ => true
  end.

(** The clean-up of a failed map: [created] lists the entries written and the
    tables they link, the newest first. *)
Fixpoint unwind (address : Z) (created : list (Z * Z)) k : PAGING A :=
  match created with
  | [] => k
  | (link, table) :: created =>
      let k := write_entry k link 0 in
      let k := invalidate k address in
      unwind address created (release_table k table)
  end.

(** One turn of the descent: the table the entry links, created if the entry
    is not present. *)
Definition map_level (address shift : Z) '((k, table, created) : PAGING A * Z * list (Z * Z))
    : ctl (PAGING A * Z * list (Z * Z)) (PAGING A) :=
  let entry := entry_at table (index address shift) in
  if negb (has_bits (read_entry k entry) 1) then
    let '(child, k) := new_table k in
    if child =? 0 then Stop (unwind address created k)
    else
      let k := write_entry k entry (Z.lor child FLAGS) in
      Next (k, Z.land (read_entry k entry) ADDRESS_MASK, (entry, child) :: created)
  else Next (k, Z.land (read_entry k entry) ADDRESS_MASK, created).

Definition paging_map (address physical flags : Z) k : bool * PAGING A :=
  if negb (dynamic_address k address) || bad_flags flags
     || negb (pmm_is_allocated physical (pmm k)) then (false, k)
  else if is_table_page k physical then (false, k)
  else
    match foreach [39; 30; 21] (map_level address) (k, paging_root k, []) with
    | Stop k => (false, k)
    | Next (k, table, _) =>
        let leaf := entry_at table (index address 12) in
        if has_bits (read_entry k leaf) 1 then (false, k)
        else
          let k := write_entry k leaf (Z.lor physical (leaf_flags flags)) in
          (true, invalidate k address)
    end.

(** All 512 entries of a table are zero. *)
Definition table_empty k (table : Z) : bool :=
  match
    for_step 0 1 512 (λ i (_ : unit),
      if negb (read_entry k (entry_at table i) =? 0) then Stop tt else Next tt) tt
  with
  | Next _ => true
  | Stop _ => false
  end.

Definition paging_unmap (address : Z) k : bool * PAGING A :=
  if negb (dynamic_address k address) then (false, k)
  else
    match path k address with
    | None => (false, k)
    | Some tables =>
        let k := write_entry k (entry_at (table_of tables 3) (index_of tables 3)) 0 in
        let k := invalidate k address in
        match
          foreach [3; 2; 1]%nat (λ level k,
            if negb (table_empty k (table_of tables level)) then Stop k
            else
              let k := write_entry k
                (entry_at (table_of tables (level - 1)) (index_of tables (level - 1))) 0 in
              let k := invalidate k address in
              Next (release_table k (table_of tables level))) k
        with
        | Next k => (true, k)
        | Stop k => (true, k)
        end
    end.

Definition paging_protect (address flags : Z) k : bool * PAGING A :=
  if negb (dynamic_address k address) || bad_flags flags then (false, k)
  else
    match path k address with
    | None => (false, k)
    | Some tables =>
        let leaf := entry_at (table_of tables 3) (index_of tables 3) in
        let k := write_entry k leaf
          (Z.lor (Z.land (read_entry k leaf) ADDRESS_MASK) (leaf_flags flags)) in
        (true, invalidate k address)
    end.

(** [outputs] is the truth value of both output pointers; the physical address
    and the flags are what is stored through them. *)
Definition paging_query (address : Z) (outputs : bool) k : option (Z * Z) :=
  if negb (dynamic_address k address) || negb outputs then None
  else
    match path k address with
    | None => None
    | Some tables =>
        let entry := read_entry k (entry_at (table_of tables 3) (index_of tables 3)) in
        Some (Z.land entry ADDRESS_MASK,
              Z.lor (if has_bits entry 2 then PAGING_WRITE else 0)
                (if has_bits entry NX then 0 else PAGING_EXEC))
    end.

End operations.

End Paging.
