(* ===== verification/PagingBits.v ===== *)
(** * Bits of page-table entries and of virtual addresses

    The index a virtual address selects at each level, as a digit of its page
    number in base 512, and what the address mask and the flag tests see of
    an entry built from a page frame and flags. *)

From S2P Require Import Prelude PmmInterface X86 Paging.
Import X86 Paging.

Module PagingBits.

(** ** Bits of entries *)

(** The part of the virtual page number [p] that selects the table of a
    level: nothing at level 0, all of it at level 4. *)
Definition prefix (p level : Z) : Z := p / 512 ^ (4 - level).

Lemma land_511 x : Z.land x 511 = x mod 512.
Proof. change 511 with (Z.ones 9). by rewrite Z.land_ones. Qed.

Lemma index_div a s : 0 ≤ s → index a s = (a / 2 ^ s) mod 512.
Proof. intros H. unfold index. by rewrite land_511, Z.shiftr_div_pow2. Qed.

Ltac prefix_case :=
  unfold prefix, vpn; rewrite index_div by lia;
  repeat match goal with
  | |- context [512 ^ (4 - ?l)] => let x := eval vm_compute in (512 ^ (4 - l)) in
      change (512 ^ (4 - l)) with x
  | |- context [2 ^ ?l] => let x := eval vm_compute in (2 ^ l) in change (2 ^ l) with x
  end; zdm.

Lemma index_39 a : index a 39 = prefix (vpn a) 1 mod 512.
Proof. prefix_case. Qed.
Lemma index_30 a : index a 30 = prefix (vpn a) 2 mod 512.
Proof. prefix_case. Qed.
Lemma index_21 a : index a 21 = prefix (vpn a) 3 mod 512.
Proof. prefix_case. Qed.
Lemma index_12 a : index a 12 = prefix (vpn a) 4 mod 512.
Proof. prefix_case. Qed.

Lemma index_prefix a l : 0 ≤ l < 4 → index a (39 - 9 * l) = prefix (vpn a) (l + 1) mod 512.
Proof.
  intros H. assert (l = 0 ∨ l = 1 ∨ l = 2 ∨ l = 3) as [->|[->|[->| ->]]] by lia.
  - apply index_39.
  - apply index_30.
  - apply index_21.
  - apply index_12.
Qed.

Lemma prefix_parent p l : 0 ≤ l < 4 → prefix p (l + 1) / 512 = prefix p l.
Proof.
  intros H. unfold prefix. rewrite Z.div_div by (try apply Z.pow_nonzero; lia).
  f_equal. replace (4 - l) with (4 - (l + 1) + 1) by lia. rewrite Z.pow_add_r; lia.
Qed.

Lemma prefix_step p l :
  0 ≤ l < 4 → prefix p l * 512 + prefix p (l + 1) mod 512 = prefix p (l + 1).
Proof. intros H. rewrite <- (prefix_parent p l H). zdm. Qed.

Lemma prefix_0 p : 0 ≤ p < 2 ^ 36 → prefix p 0 = 0.
Proof. intros H. apply Z.div_small. change (512 ^ (4 - 0)) with (2 ^ 36). done. Qed.

Lemma prefix_4 p : prefix p 4 = p.
Proof. apply Z.div_1_r. Qed.

Lemma mod512_range x : 0 ≤ x mod 512 < 512.
Proof. apply Z.mod_pos_bound. lia. Qed.

Lemma frame_is_u64 c : frame c → is_u64 c.
Proof. unfold frame, PMM_LIMIT, is_u64. lia. Qed.

Lemma frame_bits c i : frame c → 0 ≤ i → Z.testbit c i = true → 12 ≤ i < 32.
Proof.
  intros [[Hlo Hhi] Hal] Hi Hb. unfold PMM_LIMIT, PMM_PAGE_SIZE in *.
  destruct (decide (i < 12)).
  - replace c with (c / 4096 * 2 ^ 12) in Hb by zdm.
    by rewrite Z.mul_pow2_bits_low in Hb.
  - destruct (decide (32 ≤ i)); [|lia].
    rewrite <- (Z.mod_small c (2 ^ 32)), Z.mod_pow2_bits_high in Hb by lia. done.
Qed.

Lemma mask_bits i : 0 ≤ i → Z.testbit ADDRESS_MASK i = (12 <=? i) && (i <? 52).
Proof.
  intros Hi. change ADDRESS_MASK with (Z.shiftl (Z.ones 40) 12).
  rewrite Z.shiftl_spec by done.
  destruct (Z.leb_spec 12 i).
  - rewrite Z.testbit_ones_nonneg by lia. simpl.
    destruct (Z.ltb_spec (i - 12) 40), (Z.ltb_spec i 52); lia || done.
  - by rewrite Z.testbit_neg_r by lia.
Qed.

Lemma has_bits_1 x : has_bits x 1 = Z.testbit x 0.
Proof. apply (has_bits_bit64 x 0). lia. Qed.
Lemma has_bits_2 x : has_bits x 2 = Z.testbit x 1.
Proof. apply (has_bits_bit64 x 1). lia. Qed.
Lemma has_bits_NX x : has_bits x NX = Z.testbit x 63.
Proof. apply (has_bits_bit64 x 63). lia. Qed.

(** Masking recovers the frame an entry was built from, whatever the flags
    outside the address field. *)
Lemma mask_entry c g :
  frame c → (∀ i, 12 ≤ i < 52 → Z.testbit g i = false) → Z.land (Z.lor c g) ADDRESS_MASK = c.
Proof.
  intros Hc Hg. apply Z.bits_inj'. intros i Hi.
  rewrite Z.land_spec, Z.lor_spec, mask_bits by done.
  destruct (Z.testbit c i) eqn:Hb.
  - apply frame_bits in Hb; [|done..].
    rewrite (proj2 (Z.leb_le _ _)), (proj2 (Z.ltb_lt _ _)) by lia. done.
  - destruct (Z.leb_spec 12 i), (Z.ltb_spec i 52); simpl; rewrite ?andb_false_r; try done.
    by rewrite Hg.
Qed.

Lemma flags_bits i : 0 ≤ i → Z.testbit FLAGS i = (i <? 2).
Proof.
  intros Hi. change FLAGS with (Z.ones 2). rewrite Z.testbit_ones_nonneg by lia. done.
Qed.

Lemma leaf_flags_bits f i :
  0 ≤ i → Z.testbit (leaf_flags f) i =
  (i =? 0) || has_bits f PAGING_WRITE && (i =? 1) || negb (has_bits f PAGING_EXEC) && (i =? 63).
Proof.
  intros Hi. unfold leaf_flags. rewrite !Z.lor_spec.
  change 1 with (bit64 0) at 1. change 2 with (bit64 1). unfold NX.
  destruct (has_bits f PAGING_WRITE), (has_bits f PAGING_EXEC);
    rewrite ?testbit_bit64, ?Z.bits_0 by lia; done.
Qed.

Lemma leaf_flags_u64 f : is_u64 (leaf_flags f).
Proof.
  unfold leaf_flags. repeat apply is_u64_lor; [done|by destruct (has_bits _ _)|].
  by destruct (has_bits _ _).
Qed.

Lemma table_entry_mask c : frame c → Z.land (Z.lor c FLAGS) ADDRESS_MASK = c.
Proof.
  intros Hc. apply mask_entry; [done|]. intros i Hi. rewrite flags_bits by lia.
  apply Z.ltb_ge. lia.
Qed.

Lemma table_entry_present c : has_bits (Z.lor c FLAGS) 1 = true.
Proof. rewrite has_bits_1, Z.lor_spec. by rewrite orb_true_r. Qed.

Lemma leaf_entry_mask c f : frame c → Z.land (Z.lor c (leaf_flags f)) ADDRESS_MASK = c.
Proof.
  intros Hc. apply mask_entry; [done|]. intros i Hi. rewrite leaf_flags_bits by lia.
  rewrite (proj2 (Z.eqb_neq i 0)), (proj2 (Z.eqb_neq i 1)), (proj2 (Z.eqb_neq i 63)) by lia.
  by rewrite !andb_false_r.
Qed.

Lemma leaf_entry_bit c f i :
  frame c → 0 ≤ i → i < 12 ∨ 32 ≤ i →
  Z.testbit (Z.lor c (leaf_flags f)) i = Z.testbit (leaf_flags f) i.
Proof.
  intros Hc Hi Hr. rewrite Z.lor_spec. destruct (Z.testbit c i) eqn:Hb; [|done].
  apply frame_bits in Hb; [lia|done..].
Qed.

Lemma leaf_entry_present c f : Z.testbit (Z.lor c (leaf_flags f)) 0 = true.
Proof. rewrite Z.lor_spec, leaf_flags_bits by lia. by rewrite orb_true_r. Qed.

Lemma has_bits_0 x : has_bits 0 x = false.
Proof. done. Qed.

(** Entries of distinct tables, or with distinct indices, are distinct words. *)
Lemma entry_at_inj t t' i j :
  frame t → frame t' → 0 ≤ i < 512 → 0 ≤ j < 512 → entry_at t i = entry_at t' j → t = t' ∧ i = j.
Proof. unfold frame, entry_at, PMM_PAGE_SIZE. intros [_ ?] [_ ?] ???. zdm. Qed.

Lemma entry_in_words t i : 0 ≤ i < 512 → in_words t (entry_at t i).
Proof. apply index_in_words. Qed.

End PagingBits.
