(* ===== verification/PagingModel.v ===== *)
(** * The page-table tree as an abstract address space

    A radix tree: which table serves each prefix of the virtual page number,
    and the leaf entry of each mapped page. [rep] relates the words in RAM
    and the module's static variables to it; [stable] is what every dynamic
    operation keeps. The lemmas say how linking a new table, unlinking an
    empty one and writing a leaf change the tree. *)

From S2P Require Import Prelude PmmInterface X86 Paging PagingBits.
Import X86 Paging PagingBits.

Module PagingModel.

(** The tables by level and prefix, the leaf entries by page number. *)
Record radix := Radix { tab : gmap (Z * Z) Z; leaf : gmap Z Z }.

(** The entry at index [i] of the table for prefix [q] at level [l]. *)
Definition entry_of (r : radix) (l q i : Z) : Z :=
  if l <? 3 then
    match tab r !! (l + 1, q * 512 + i) with
    | Some c => Z.lor c FLAGS
    | None => 0
    end
  else default 0 (leaf r !! (q * 512 + i)).

(** The page an address lies in. *)
Definition page_of (a : Z) : Z := a - a mod 4096.

Section model.
Context {A : Type} `{!PmmApi A} `{!PmmContract A}.
Implicit Types (k : PAGING A) (r : radix).

(** The recorded table pages. *)
Definition table_list k : list Z := table_page k <$> seqZ 0 (paging_table_count k).

(** The state represents the tree: every table is an allocated page of its
    own, holds exactly the entries of the tree, and is recorded once. *)
Record rep k r : Prop := {
  rep_pmm : pmm_inv (pmm k);
  rep_root : tab r !! (0, 0) = Some (paging_root k);
  rep_key l q t : tab r !! (l, q) = Some t → 0 ≤ l ≤ 3 ∧ 0 ≤ q ∧ (l = 0 → q = 0);
  rep_inj x y t : tab r !! x = Some t → tab r !! y = Some t → x = y;
  rep_used x t : tab r !! x = Some t → t ∈ pmm_used (pmm k);
  rep_entry l q t i :
    tab r !! (l, q) = Some t → 0 ≤ i < 512 → read_entry k (entry_at t i) = entry_of r l q i;
  rep_parent l q t : tab r !! (l + 1, q) = Some t → 0 ≤ l → is_Some (tab r !! (l, q / 512));
  rep_leaf_parent p e : leaf r !! p = Some e → is_Some (tab r !! (3, p / 512));
  rep_leaf_entry p e : leaf r !! p = Some e → is_u64 e ∧ Z.testbit e 0 = true;
  rep_nodup : NoDup (table_list k);
  rep_list t : t ∈ table_list k ↔ ∃ x, tab r !! x = Some t;
  rep_count : 0 ≤ paging_table_count k ≤ MAX_TABLES;
}.

(** The pages in use that are not page tables: those of the callers. *)
Definition others k : gset Z := pmm_used (pmm k) ∖ list_to_set (table_list k).

(** What every dynamic operation leaves alone: the pool and the callers'
    pages, the root, the registers, and all memory but the tables and the
    pages nobody uses. Cached translations are only ever dropped. *)
Record stable k k' : Prop := {
  st_pool : pmm_pool (pmm k') = pmm_pool (pmm k);
  st_others : others k' = others k;
  st_root : paging_root k' = paging_root k;
  st_active : active k' = active k;
  st_previous : paging_previous_cr3 k' = paging_previous_cr3 k;
  st_registers : registers (cpu k') = registers (cpu k);
  st_tlb : tlb (cpu k') ⊆ tlb (cpu k);
  st_memory a :
    page_of a ∉ pmm_pool (pmm k) ∖ others k → load (mem k') a = load (mem k) a;
}.

#[export] Instance stable_preorder : PreOrder stable.
Proof.
  split.
  - intros k. by split.
  - intros k1 k2 k3 [] []. split; try congruence.
    + by etrans.
    + intros a Ha. rewrite <- st_memory0 by done. apply st_memory1. congruence.
Qed.

(** The tree with a table linked or unlinked at entry [i] of table [(l, q)]. *)
Definition link r (l q i c : Z) : radix := Radix (<[(l + 1, q * 512 + i) := c]> (tab r)) (leaf r).
Definition unlink r (l q i : Z) : radix := Radix (delete (l + 1, q * 512 + i) (tab r)) (leaf r).

(** The state [new_table] leaves when the allocator hands out [c]. *)
Definition fresh_table k (c : Z) (p : A) : PAGING A :=
  with_mem
    (with_tables (with_pmm k p) (<[paging_table_count k := c]> (table_pages k))
       (paging_table_count k + 1))
    (for_all 0 1 512 (λ i m, store m (entry_at c i) 0) (mem k)).

(** ... and after the new table is linked from entry [i] of table [t]. *)
Definition link_table k (t i c : Z) (p : A) : PAGING A :=
  write_entry (fresh_table k c p) (entry_at t i) (Z.lor c FLAGS).

(** The sequence that takes a table out: clear the entry, drop the cached
    translation, give the page back. *)
Definition unlink_table k (link c address : Z) : PAGING A :=
  release_table (invalidate (write_entry k link 0) address) c.

(** ** The list of tables *)

Lemma table_list_elem k t :
  t ∈ table_list k ↔ ∃ i, 0 ≤ i < paging_table_count k ∧ table_page k i = t.
Proof.
  unfold table_list. rewrite list_elem_of_fmap. split.
  - intros (i & -> & Hi%elem_of_seqZ). exists i. split; [lia|done].
  - intros (i & Hi & <-). exists i. split; [done|]. apply elem_of_seqZ. lia.
Qed.

Lemma table_list_nodup k :
  NoDup (table_list k) ↔
  ∀ i j, 0 ≤ i < paging_table_count k → 0 ≤ j < paging_table_count k →
    table_page k i = table_page k j → i = j.
Proof.
  unfold table_list. split.
  - intros Hnd i j Hi Hj Heq.
    assert (∀ i, 0 ≤ i < paging_table_count k →
      (table_page k <$> seqZ 0 (paging_table_count k)) !! Z.to_nat i = Some (table_page k i)) as Hl.
    { intros x Hx. rewrite list_lookup_fmap, lookup_seqZ_lt by lia. simpl. do 2 f_equal. lia. }
    pose proof (proj1 (NoDup_alt _) Hnd (Z.to_nat i) (Z.to_nat j) (table_page k i)) as H.
    rewrite !Hl in H by done. specialize (H eq_refl). rewrite Heq in H. specialize (H eq_refl). lia.
  - intros Hinj. apply NoDup_fmap_2_strong; [|apply NoDup_seqZ].
    intros i j Hi%elem_of_seqZ Hj%elem_of_seqZ Heq. apply Hinj; [lia|lia|done].
Qed.

Lemma table_list_push k t :
  0 ≤ paging_table_count k →
  table_list (with_tables k (<[paging_table_count k := t]> (table_pages k))
                (paging_table_count k + 1)) = table_list k ++ [t].
Proof.
  intros Hn. unfold table_list. cbn [paging_table_count with_tables].
  rewrite seqZ_app, fmap_app by lia. f_equal.
  - apply list_fmap_ext. intros n i Hi. apply lookup_seqZ in Hi as [-> Hi].
    unfold table_page, with_tables. cbn [table_pages]. by rewrite lookup_insert_ne by lia.
  - rewrite seqZ_cons by lia. cbn [seqZ fmap list_fmap]. f_equal.
    unfold table_page, with_tables. cbn [table_pages]. by rewrite Z.add_0_l, lookup_insert_eq.
Qed.

Lemma is_table_page_spec k p : is_table_page k p = bool_decide (p ∈ table_list k).
Proof.
  unfold is_table_page.
  for_one (λ i (_ : unit), ∀ j, 0 ≤ j < i → table_page k j ≠ p)
          (λ _ : unit, p ∈ table_list k).
  - lia.
  - intros i _ Hi Hlow. destruct (Z.eqb_spec (table_page k i) p) as [He|Hne].
    + apply table_list_elem. by exists i.
    + intros j Hj. destruct (decide (j = i)) as [->|]; [done|apply Hlow; lia].
  - symmetry. apply bool_decide_eq_false. intros (i & Hi & Heq)%table_list_elem.
    apply (Hloop i); [lia|done].
  - symmetry. by apply bool_decide_eq_true.
Qed.

(** [release_table] on a recorded table fills its slot with the last one. *)
Definition drop_slot k (i : Z) : PAGING A :=
  with_tables k (<[i := table_page k (paging_table_count k - 1)]> (table_pages k))
    (paging_table_count k - 1).

Lemma release_table_eq k t :
  t ∈ table_list k →
  ∃ i, 0 ≤ i < paging_table_count k ∧ table_page k i = t ∧
       release_table k t = with_pmm (drop_slot k i) (snd (pmm_free t (pmm k))).
Proof.
  intros (i0 & Hi0 & Ht)%table_list_elem. unfold release_table.
  for_one (λ i (_ : unit), ∀ j, 0 ≤ j < i → table_page k j ≠ t)
    (λ k', ∃ i, 0 ≤ i < paging_table_count k ∧ table_page k i = t ∧
       k' = with_pmm (drop_slot k i) (snd (pmm_free t (pmm k)))).
  - lia.
  - intros i _ Hi Hlow. destruct (Z.eqb_spec (table_page k i) t) as [He|Hne]; cbn [negb].
    + exists i. split; [lia|]. by split.
    + intros j Hj. destruct (decide (j = i)) as [->|]; [done|apply Hlow; lia].
  - exfalso. apply (Hloop i0); [lia|done].
  - done.
Qed.

Lemma drop_slot_page k i j :
  0 ≤ j < paging_table_count k - 1 →
  table_page (drop_slot k i) j =
  if decide (j = i) then table_page k (paging_table_count k - 1) else table_page k j.
Proof.
  intros Hj. unfold table_page at 1, drop_slot, with_tables. cbn [table_pages].
  rewrite lookup_insert. by destruct (decide (i = j)), (decide (j = i)); subst.
Qed.

Lemma drop_slot_list k i :
  NoDup (table_list k) → 0 ≤ i < paging_table_count k →
  NoDup (table_list (drop_slot k i)) ∧
  ∀ t, t ∈ table_list (drop_slot k i) ↔ t ∈ table_list k ∧ t ≠ table_page k i.
Proof.
  rewrite !table_list_nodup. intros Hinj Hi. split.
  - intros a b Ha Hb. cbn [drop_slot with_tables paging_table_count] in Ha, Hb.
    rewrite !drop_slot_page by done.
    destruct (decide (a = i)), (decide (b = i)); subst; intros Heq; apply Hinj in Heq; lia.
  - intros t. rewrite !table_list_elem. cbn [drop_slot with_tables paging_table_count]. split.
    + intros (a & Ha & Ht). rewrite drop_slot_page in Ht by done.
      destruct (decide (a = i)); subst.
      * split; [eexists; split; [|done]; lia|]. intros Heq. apply Hinj in Heq; lia.
      * split; [eexists; split; [|done]; lia|]. intros Heq. apply Hinj in Heq; lia.
    + intros [(a & Ha & <-) Hne]. destruct (decide (a = paging_table_count k - 1)) as [->|].
      * exists i. assert (i ≠ paging_table_count k - 1) by (intros ->; done).
        split; [lia|]. rewrite drop_slot_page by lia. by rewrite decide_True.
      * exists a. split; [lia|]. rewrite drop_slot_page by lia.
        rewrite decide_False; [done|]. by intros ->.
Qed.

(** ** Frames and entries *)

Lemma rep_frame k r x t : rep k r → tab r !! x = Some t → frame t.
Proof. intros Hr Ht. eapply pmm_used_frame; [apply Hr|]. by eapply (rep_used k r Hr). Qed.

Lemma child_key q i : 0 ≤ i < 512 → (q * 512 + i) / 512 = q ∧ (q * 512 + i) mod 512 = i.
Proof. intros H. split; zdm. Qed.

Lemma read_write_eq k a v : is_u64 v → read_entry (write_entry k a v) a = v.
Proof. apply load_store_eq. Qed.

Lemma read_write_ne k a b v : a ≠ b → read_entry (write_entry k a v) b = read_entry k b.
Proof. apply load_store_ne. Qed.

Lemma frame_entry_u64 c : frame c → is_u64 (Z.lor c FLAGS).
Proof. intros Hc. apply is_u64_lor; [by apply frame_is_u64|]. unfold is_u64, FLAGS. lia. Qed.

Lemma frame_entry_nonzero c : Z.lor c FLAGS ≠ 0.
Proof. intros H. pose proof (table_entry_present c) as Hp. by rewrite H in Hp. Qed.

(** A prefix without a table has no tables or leaves below it. *)
Lemma entry_of_missing k r l q j :
  rep k r → 0 ≤ l ≤ 3 → tab r !! (l, q) = None → 0 ≤ j < 512 → entry_of r l q j = 0.
Proof.
  intros Hr Hl Hn Hj. unfold entry_of. destruct (child_key q j Hj) as [Hd _].
  destruct (Z.ltb_spec l 3).
  - destruct (tab r !! (l + 1, q * 512 + j)) as [c|] eqn:Hc; [|done].
    apply (rep_parent k r Hr) in Hc; [|lia]. rewrite Hd, Hn in Hc. by destruct Hc.
  - destruct (leaf r !! (q * 512 + j)) as [e|] eqn:He; [|done].
    apply (rep_leaf_parent k r Hr) in He as [t Ht]. rewrite Hd in Ht.
    assert (l = 3) as -> by lia. by rewrite Hn in Ht.
Qed.

(** A table whose entries are all zero has no tables or leaves below it. *)
Lemma entry_of_empty k r l q c q' :
  rep k r → tab r !! (l, q) = Some c → (∀ j, 0 ≤ j < 512 → entry_of r l q j = 0) →
  q' / 512 = q → tab r !! (l + 1, q') = None ∧ (l = 3 → leaf r !! q' = None).
Proof.
  intros Hr Hc Hz Hq. pose proof (rep_key k r Hr _ _ _ Hc) as (Hl & _).
  specialize (Hz (q' mod 512) (mod512_range q')). unfold entry_of in Hz.
  replace (q * 512 + q' mod 512) with q' in Hz by (subst q; zdm).
  destruct (Z.ltb_spec l 3).
  - split; [|lia]. destruct (tab r !! (l + 1, q')) as [t|]; [|done]. by apply frame_entry_nonzero in Hz.
  - split.
    + destruct (tab r !! (l + 1, q')) as [t|] eqn:Ht; [|done].
      apply (rep_key k r Hr) in Ht. lia.
    + intros _. destruct (leaf r !! q') as [e|] eqn:He; [|done].
      apply (rep_leaf_entry k r Hr) in He as [_ He]. simpl in Hz. by rewrite Hz in He.
Qed.

Lemma page_of_words t a : frame t → in_words t a → page_of a = t.
Proof. unfold frame, in_words, page_of, PMM_PAGE_SIZE. intros [_ ?] [? _]. zdm. Qed.

Lemma table_not_other k r x t :
  rep k r → tab r !! x = Some t → t ∈ pmm_pool (pmm k) ∖ others k.
Proof.
  intros Hr Ht. pose proof (rep_used k r Hr _ _ Ht) as Hu.
  pose proof (pmm_used_pool (pmm k) (rep_pmm k r Hr) t Hu) as Hp.
  apply elem_of_difference. split; [done|]. unfold others. intros [_ Hn]%elem_of_difference.
  apply Hn, elem_of_list_to_set, (rep_list k r Hr). by exists x.
Qed.

(** ** Creating a table *)

Lemma new_table_cases k r :
  rep k r →
  (new_table k = (0, k) ∧
   (paging_table_count k = MAX_TABLES ∨ pmm_available (pmm k) = 0)) ∨
  (∃ c p, pmm_alloc (pmm k) = (Some c, p) ∧ paging_table_count k < MAX_TABLES ∧
          new_table k = (c, fresh_table k c p)).
Proof.
  intros Hr. pose proof (rep_count k r Hr). unfold new_table.
  destruct (Z.eqb_spec (paging_table_count k) MAX_TABLES) as [Hm|Hm]; [left; auto|].
  destruct (pmm_alloc (pmm k)) as [[c|] p] eqn:Ha.
  - right. exists c, p. split; [done|]. split; [lia|done].
  - left. pose proof Ha as [-> Hsub]%pmm_alloc_none; [|apply Hr]. split; [by destruct k|right].
    rewrite pmm_available_spec by apply Hr.
    assert (pmm_pool (pmm k) ∖ pmm_used (pmm k) = ∅) as -> by set_solver. done.
Qed.

Lemma read_fresh_table k c p t i :
  frame c → frame t → 0 ≤ i < 512 →
  read_entry (fresh_table k c p) (entry_at t i) =
  if decide (t = c) then 0 else read_entry k (entry_at t i).
Proof.
  intros Hc Ht Hi. unfold read_entry, fresh_table. cbn [mem with_mem].
  unfold entry_at at 1. rewrite (load_store_words c (λ _, 0)) by (intros; by vm_compute).
  unfold frame, PMM_PAGE_SIZE in *. destruct Hc as [_ Hc], Ht as [_ Ht].
  destruct (decide (t = c)) as [->|Hne].
  - by rewrite decide_True by by apply entry_in_words.
  - rewrite decide_False; [done|]. unfold entry_at. intros [? _]. zdm.
Qed.

(** [entry_of] only looks at the children of its own table. *)
Lemma entry_of_insert r l q c x j :
  0 ≤ j < 512 →
  entry_of (Radix (<[(l + 1, q) := c]> (tab r)) (leaf r)) (fst x) (snd x) j =
  if decide (fst x = l ∧ fst x < 3 ∧ snd x * 512 + j = q) then Z.lor c FLAGS
  else entry_of r (fst x) (snd x) j.
Proof.
  intros Hj. destruct x as [l' q']. cbn [fst snd]. unfold entry_of. cbn [tab leaf].
  destruct (Z.ltb_spec l' 3); [|by rewrite decide_False by lia].
  rewrite lookup_insert. case_decide as Hd.
  - injection Hd as ??. rewrite decide_True by lia. done.
  - rewrite decide_False; [done|]. intros (-> & _ & Hq). by rewrite Hq in Hd.
Qed.

Lemma entry_of_delete r l q x j :
  0 ≤ j < 512 →
  entry_of (Radix (delete (l + 1, q) (tab r)) (leaf r)) (fst x) (snd x) j =
  if decide (fst x = l ∧ fst x < 3 ∧ snd x * 512 + j = q) then 0
  else entry_of r (fst x) (snd x) j.
Proof.
  intros Hj. destruct x as [l' q']. cbn [fst snd]. unfold entry_of. cbn [tab leaf].
  destruct (Z.ltb_spec l' 3); [|by rewrite decide_False by lia].
  rewrite lookup_delete. case_decide as Hd.
  - injection Hd as ??. rewrite decide_True by lia. done.
  - rewrite decide_False; [done|]. intros (-> & _ & Hq). by rewrite Hq in Hd.
Qed.

Section linking.
Context k r (l q t i c : Z) (p : A).
Context (Hr : rep k r) (Ht : tab r !! (l, q) = Some t) (Hl : 0 ≤ l < 3) (Hi : 0 ≤ i < 512)
  (Hn : tab r !! (l + 1, q * 512 + i) = None)
  (Ha : pmm_alloc (pmm k) = (Some c, p)) (Hc : paging_table_count k < MAX_TABLES).

Lemma fresh_facts :
  pmm_inv p ∧ c ∈ pmm_pool (pmm k) ∧ c ∉ pmm_used (pmm k) ∧
  pmm_pool p = pmm_pool (pmm k) ∧ pmm_used p = {[c]} ∪ pmm_used (pmm k) ∧ frame c ∧
  (∀ x, tab r !! x ≠ Some c).
Proof.
  pose proof (rep_pmm k r Hr) as Hp. pose proof Ha as (Hp' & Hin & Hpool & Hused)%pmm_alloc_some; [|done].
  apply elem_of_difference in Hin as [Hin Hnot].
  do 5 (split; [done|]). split; [by apply (pmm_pool_frame (pmm k))|].
  intros x Hx. by apply (rep_used k r Hr) in Hx.
Qed.

Lemma link_table_list : table_list (link_table k t i c p) = table_list k ++ [c].
Proof. exact (table_list_push k c (proj1 (rep_count k r Hr))). Qed.

Lemma link_read x t' j :
  tab r !! x = Some t' → 0 ≤ j < 512 →
  read_entry (link_table k t i c p) (entry_at t' j) = entry_of (link r l q i c) (fst x) (snd x) j.
Proof.
  intros Hx Hj. destruct fresh_facts as (_ & _ & _ & _ & _ & Hfc & Hnc).
  pose proof (rep_frame k r _ _ Hr Ht) as Hft. pose proof (rep_frame k r _ _ Hr Hx) as Hft'.
  unfold link. rewrite entry_of_insert by done.
  destruct (decide (x = (l, q) ∧ j = i)) as [[-> ->]|Hne].
  - assert (t' = t) as -> by congruence.
    rewrite decide_True by (simpl; lia). apply read_write_eq. by apply frame_entry_u64.
  - rewrite decide_False.
    + unfold link_table. rewrite read_write_ne, read_fresh_table by (done || (intros Heq;
        apply entry_at_inj in Heq as [-> ->]; try done; apply Hne; split; [|done];
        by eapply (rep_inj k r Hr))).
      rewrite decide_False by (intros ->; by apply (Hnc x)).
      destruct x as [l' q']. by apply (rep_entry k r Hr).
    + destruct x as [l' q']. simpl. intros (-> & _ & Hq). apply Hne.
      pose proof (child_key q' j Hj). pose proof (child_key q i Hi).
      assert (q' = q ∧ j = i) as [-> ->]; [|done]. rewrite Hq in H. lia.
Qed.

Lemma link_rep : rep (link_table k t i c p) (link r l q i c).
Proof.
  destruct fresh_facts as (Hp' & Hin & Hnot & Hpool & Hused & Hfc & Hnc).
  pose proof (rep_frame k r _ _ Hr Ht) as Hft.
  assert (t ≠ c) as Htc by (intros ->; by apply (Hnc (l, q))).
  destruct (child_key q i Hi) as [Hdiv Hmod].
  assert (∀ x t', tab (link r l q i c) !! x = Some t' →
            x = (l + 1, q * 512 + i) ∧ t' = c ∨ tab r !! x = Some t') as Hinv.
  { intros x t'. unfold link. cbn [tab]. rewrite lookup_insert. case_decide; [|by right].
    intros [= <-]. by left. }
  assert (∀ x, is_Some (tab r !! x) → is_Some (tab (link r l q i c) !! x)) as Hmono.
  { intros x Hx. unfold link. cbn [tab]. rewrite lookup_insert. by case_decide. }
  split.
  - done.
  - unfold link. cbn [tab]. rewrite lookup_insert_ne by (intros [= ? ?]; lia). apply Hr.
  - intros l' q' t' [([= -> ->] & _)|Hx]%Hinv; [|by apply (rep_key k r Hr) in Hx].
    pose proof (rep_key k r Hr _ _ _ Ht). lia.
  - intros x y t' [(-> & ->)|Hx]%Hinv [(-> & Heq)|Hy]%Hinv; try done.
    + by apply Hnc in Hy.
    + subst. by apply Hnc in Hx.
    + by eapply (rep_inj k r Hr).
  - intros x t' [(-> & ->)|Hx]%Hinv; cbn [link_table pmm write_entry with_mem fresh_table with_tables with_pmm];
      rewrite Hused; [set_solver|]. apply (rep_used k r Hr) in Hx. set_solver.
  - intros l' q' t' j [([= -> ->] & ->)|Hx]%Hinv Hj.
    + unfold link_table. rewrite read_write_ne, read_fresh_table, decide_True
        by (done || (intros Heq; by apply entry_at_inj in Heq as [? _])).
      unfold link. rewrite (entry_of_insert r l _ c (l + 1, q * 512 + i)) by done.
      rewrite decide_False by (simpl; lia). symmetry.
      apply (entry_of_missing k); [done|simpl; lia|done|done].
    + by apply (link_read (l', q')).
  - intros l' q' t' [([= Hl' Hq'] & _)|Hx]%Hinv Hl0; apply Hmono.
    + assert (l' = l) as -> by lia. rewrite Hq', Hdiv. by eexists.
    + by eapply (rep_parent k r Hr).
  - intros p' e He. apply Hmono. by eapply (rep_leaf_parent k r Hr).
  - apply (rep_leaf_entry k r Hr).
  - rewrite link_table_list. apply NoDup_app. split; [apply Hr|]. split; [|apply NoDup_singleton].
    intros x Hx ->%list_elem_of_singleton. apply (rep_list k r Hr) in Hx as [y Hy]. by apply Hnc in Hy.
  - intros t'. rewrite link_table_list, elem_of_app, list_elem_of_singleton, (rep_list k r Hr). split.
    + intros [[x Hx]| ->].
      * exists x. unfold link. cbn [tab]. rewrite lookup_insert_ne; [done|]. intros <-. by rewrite Hn in Hx.
      * exists (l + 1, q * 512 + i). unfold link. cbn [tab]. by rewrite lookup_insert_eq.
    + intros [x [(_ & ->)|Hx]%Hinv]; [by right|left; by exists x].
  - pose proof (rep_count k r Hr). cbn. lia.
Qed.

Lemma link_stable : stable k (link_table k t i c p).
Proof.
  destruct fresh_facts as (Hp' & Hin & Hnot & Hpool & Hused & Hfc & Hnc).
  assert (others (link_table k t i c p) = others k) as Ho.
  { unfold others. rewrite link_table_list, list_to_set_app_L.
    cbn [link_table write_entry with_mem fresh_table with_tables with_pmm pmm].
    rewrite Hused. simpl. set_solver. }
  split; try done.
  intros a Ha'. unfold link_table, write_entry. cbn [mem with_mem].
  pose proof (rep_frame k r _ _ Hr Ht) as Hft.
  rewrite load_store_ne.
  - unfold fresh_table. cbn [mem with_mem].
    rewrite (load_store_words c (λ _, 0)) by (intros; by vm_compute).
    rewrite decide_False; [done|]. intros Hw. apply Ha'.
    rewrite (page_of_words c a Hfc Hw). unfold others. set_solver.
  - intros <-. apply Ha'. rewrite page_of_words with (t := t) by (done || by apply entry_in_words).
    by apply (table_not_other k r (l, q)).
Qed.

End linking.

(** ** Removing a table *)

Section unlinking.
Context k r (l q t i c address : Z).
Context (Hr : rep k r) (Ht : tab r !! (l, q) = Some t) (Hl : 0 ≤ l < 3) (Hi : 0 ≤ i < 512)
  (Hc : tab r !! (l + 1, q * 512 + i) = Some c)
  (Hz : ∀ j, 0 ≤ j < 512 → entry_of r (l + 1) (q * 512 + i) j = 0).

Let k0 := invalidate (write_entry k (entry_at t i) 0) address.

(** The clean-up steps in terms of the slot they free. *)
Lemma unlink_table_eq :
  ∃ s p, 0 ≤ s < paging_table_count k ∧ table_page k s = c ∧ pmm_free c (pmm k) = (true, p) ∧
         unlink_table k (entry_at t i) c address = with_pmm (drop_slot k0 s) p.
Proof.
  destruct (release_table_eq k0 c) as (s & Hs & Hsc & Heq).
  { apply (rep_list k r Hr). by exists (l + 1, q * 512 + i). }
  destruct (pmm_free_used (pmm k) c) as [p Hp]; [apply Hr|by apply (rep_used k r Hr) in Hc|].
  exists s, p. do 3 (split; [done|]). unfold unlink_table. fold k0. rewrite Heq.
  change (pmm k0) with (pmm k). by rewrite Hp.
Qed.

Lemma unlink_facts p :
  pmm_free c (pmm k) = (true, p) →
  pmm_inv p ∧ pmm_pool p = pmm_pool (pmm k) ∧ pmm_used p = pmm_used (pmm k) ∖ {[c]} ∧
  frame c ∧ c ≠ t.
Proof.
  intros (Hp' & Hin & Hpool & Hused)%pmm_free_true; [|apply Hr].
  do 3 (split; [done|]). split; [by apply (rep_frame k r _ _ Hr Hc)|].
  intros ->. pose proof (rep_inj k r Hr _ _ _ Hc Ht) as [= ? _]. lia.
Qed.

Lemma unlink_inv x t' :
  tab (unlink r l q i) !! x = Some t' → x ≠ (l + 1, q * 512 + i) ∧ tab r !! x = Some t'.
Proof.
  unfold unlink. cbn [tab]. rewrite lookup_delete. case_decide as Hd; [done|].
  intros Hx. split; [by intros ->|done].
Qed.

(** Nothing hangs below the removed table. *)
Lemma unlink_parent l' q' :
  (l', q' / 512) = (l + 1, q * 512 + i) →
  tab r !! (l' + 1, q') = None ∧ (l' = 3 → leaf r !! q' = None).
Proof.
  intros [= -> Hq]. by apply (entry_of_empty k r (l + 1) (q * 512 + i) c).
Qed.

Lemma unlink_keeps x :
  x ≠ (l + 1, q * 512 + i) → is_Some (tab r !! x) → is_Some (tab (unlink r l q i) !! x).
Proof. intros Hx. unfold unlink. cbn [tab]. by rewrite lookup_delete_ne. Qed.

Lemma unlink_read x t' j :
  tab r !! x = Some t' → x ≠ (l + 1, q * 512 + i) → 0 ≤ j < 512 →
  read_entry (write_entry k (entry_at t i) 0) (entry_at t' j) =
  entry_of (unlink r l q i) (fst x) (snd x) j.
Proof.
  intros Hx Hne Hj. pose proof (rep_frame k r _ _ Hr Ht) as Hft.
  pose proof (rep_frame k r _ _ Hr Hx) as Hft'. unfold unlink. rewrite entry_of_delete by done.
  destruct (decide (x = (l, q) ∧ j = i)) as [[-> ->]|Hn].
  - assert (t' = t) as -> by congruence.
    rewrite decide_True by (simpl; lia). by apply read_write_eq.
  - rewrite decide_False.
    + rewrite read_write_ne; [destruct x; by apply (rep_entry k r Hr)|].
      intros Heq. apply entry_at_inj in Heq as [-> ->]; try done.
      apply Hn. split; [|done]. by eapply (rep_inj k r Hr).
    + destruct x as [l' q']. simpl. intros (-> & _ & Hq). apply Hn.
      pose proof (child_key q' j Hj). pose proof (child_key q i Hi).
      assert (q' = q ∧ j = i) as [-> ->]; [|done]. rewrite Hq in H. lia.
Qed.

Lemma unlink_rep : rep (unlink_table k (entry_at t i) c address) (unlink r l q i).
Proof.
  destruct unlink_table_eq as (s & p & Hs & Hsc & Hf & ->).
  destruct (unlink_facts p Hf) as (Hp' & Hpool & Hused & Hfc & Hct).
  destruct (drop_slot_list k0 s (rep_nodup k r Hr) Hs) as [Hnd Hlist].
  change (table_list (with_pmm (drop_slot k0 s) p)) with (table_list (drop_slot k0 s)).
  split.
  - done.
  - unfold unlink. cbn [tab]. rewrite lookup_delete_ne by (intros [= ? ?]; lia). apply Hr.
  - intros l' q' t' [_ Hx]%unlink_inv. by apply (rep_key k r Hr) in Hx.
  - intros x y t' [_ Hx]%unlink_inv [_ Hy]%unlink_inv. by eapply (rep_inj k r Hr).
  - intros x t' [Hne Hx]%unlink_inv. cbn [pmm with_pmm]. rewrite Hused.
    pose proof (rep_used k r Hr _ _ Hx). apply elem_of_difference. split; [done|].
    intros ->%elem_of_singleton. apply Hne. by eapply (rep_inj k r Hr).
  - intros l' q' t' j [Hne Hx]%unlink_inv Hj. by apply (unlink_read (l', q')).
  - intros l' q' t' [Hne Hx]%unlink_inv Hl0. apply unlink_keeps; [|by eapply (rep_parent k r Hr)].
    intros Heq. apply unlink_parent in Heq as [Hnone _]. by rewrite Hx in Hnone.
  - intros p' e He. apply unlink_keeps; [|by eapply (rep_leaf_parent k r Hr)].
    intros Heq. apply unlink_parent in Heq as [_ Hnone].
    change (leaf (unlink r l q i)) with (leaf r) in He. by rewrite Hnone in He.
  - apply (rep_leaf_entry k r Hr).
  - done.
  - intros t'. rewrite Hlist. change (table_list k0) with (table_list k).
    change (table_page k0 s) with (table_page k s). rewrite Hsc, (rep_list k r Hr). split.
    + intros [[x Hx] Hne]. exists x. unfold unlink. cbn [tab].
      rewrite lookup_delete_ne; [done|]. intros <-. congruence.
    + intros [x [Hne Hx]%unlink_inv]. split; [by exists x|]. intros ->.
      apply Hne. by eapply (rep_inj k r Hr).
  - pose proof (rep_count k r Hr). cbn. lia.
Qed.

Lemma unlink_stable :
  stable k (unlink_table k (entry_at t i) c address) ∧
  tlb (cpu (unlink_table k (entry_at t i) c address)) = delete (vpn address) (tlb (cpu k)).
Proof.
  destruct unlink_table_eq as (s & p & Hs & Hsc & Hf & ->). split; [|done].
  destruct (unlink_facts p Hf) as (Hp' & Hpool & Hused & Hfc & Hct).
  destruct (drop_slot_list k0 s (rep_nodup k r Hr) Hs) as [Hnd Hlist].
  assert (c ∈ table_list k) as Hcl by (apply (rep_list k r Hr); by eexists).
  split; try done.
  - unfold others. change (table_list (with_pmm (drop_slot k0 s) p)) with (table_list (drop_slot k0 s)).
    cbn [pmm with_pmm]. rewrite Hused. apply set_eq. intros x.
    rewrite !elem_of_difference, !elem_of_list_to_set, Hlist, elem_of_singleton.
    change (table_list k0) with (table_list k). change (table_page k0 s) with (table_page k s).
    rewrite Hsc. destruct (decide (x = c)) as [->|]; tauto.
  - apply delete_subseteq.
  - intros a Ha. apply load_store_ne. intros <-. apply Ha.
    rewrite page_of_words with (t := t)
      by ((by apply (rep_frame k r _ _ Hr Ht)) || by apply entry_in_words).
    by apply (table_not_other k r (l, q)).
Qed.

End unlinking.

(** ** Writing a leaf *)

Section leaves.
Context k r (q t i v : Z) (f : gmap Z Z).
Context (Hr : rep k r) (Ht : tab r !! (3, q) = Some t) (Hi : 0 ≤ i < 512) (Hv : is_u64 v)
  (Hf : default 0 (f !! (q * 512 + i)) = v)
  (Hp : ∀ e, f !! (q * 512 + i) = Some e → Z.testbit e 0 = true)
  (Hne : ∀ p, p ≠ q * 512 + i → f !! p = leaf r !! p).

Lemma write_leaf_rep : rep (write_entry k (entry_at t i) v) (Radix (tab r) f).
Proof.
  destruct (child_key q i Hi) as [Hdiv Hmod]. pose proof (rep_frame k r _ _ Hr Ht) as Hft.
  split; cbn [tab leaf]; try apply Hr.
  - intros l' q' t' j Hx Hj. pose proof (rep_frame k r _ _ Hr Hx) as Hft'.
    unfold entry_of. cbn [tab leaf].
    destruct (decide ((l', q') = (3, q) ∧ j = i)) as [[[= -> ->] ->]|Hn].
    + assert (t' = t) as -> by congruence. simpl. rewrite Hf. by apply read_write_eq.
    + rewrite read_write_ne.
      2:{ intros Heq. apply entry_at_inj in Heq as [-> ->]; try done. apply Hn.
          split; [|done]. by eapply (rep_inj k r Hr). }
      rewrite (rep_entry k r Hr _ _ _ _ Hx Hj). unfold entry_of.
      destruct (Z.ltb_spec l' 3); [done|]. rewrite Hne; [done|].
      intros Heq. apply Hn. pose proof (rep_key k r Hr _ _ _ Hx).
      pose proof (child_key q' j Hj). rewrite Heq in H1.
      assert (l' = 3 ∧ q' = q ∧ j = i) as (-> & -> & ->) by lia. done.
  - intros p e He. destruct (decide (p = q * 512 + i)) as [->|Hpe].
    + rewrite Hdiv. by eexists.
    + rewrite Hne in He by done. by eapply (rep_leaf_parent k r Hr).
  - intros p e He. destruct (decide (p = q * 512 + i)) as [->|Hpe].
    + split; [|by apply Hp]. rewrite He in Hf. simpl in Hf. by subst.
    + rewrite Hne in He by done. by apply (rep_leaf_entry k r Hr) in He.
Qed.

Lemma write_leaf_stable : stable k (write_entry k (entry_at t i) v).
Proof.
  split; try done. intros a Ha. apply load_store_ne. intros <-. apply Ha.
  rewrite page_of_words with (t := t)
    by ((by apply (rep_frame k r _ _ Hr Ht)) || by apply entry_in_words).
  by apply (table_not_other k r (3, q)).
Qed.

End leaves.

(** Dropping a cached translation does not touch the tree. *)
Lemma invalidate_rep k r address : rep k r → rep (invalidate k address) r.
Proof. intros []. by split. Qed.

Lemma invalidate_stable k address :
  stable k (invalidate k address) ∧
  tlb (cpu (invalidate k address)) !! vpn address = None.
Proof.
  split; [|apply lookup_delete_eq]. split; try done. apply delete_subseteq.
Qed.

End model.

End PagingModel.
