(* ===== verification/PagingOps.v ===== *)
(** * The dynamic page-table operations on the tree

    What [path], the descent of [paging_map], its clean-up and the reclaiming
    loop of [paging_unmap] do to the represented tree. *)

From S2P Require Import Prelude PmmInterface X86 Paging PagingBits PagingModel.
Import X86 Paging PagingBits PagingModel.

Module PagingOps.

(** The tables on the path of page [p]. *)
Record chain (r : radix) (p t0 t1 t2 t3 : Z) : Prop := {
  chain0 : tab r !! (0, prefix p 0) = Some t0;
  chain1 : tab r !! (1, prefix p 1) = Some t1;
  chain2 : tab r !! (2, prefix p 2) = Some t2;
  chain3 : tab r !! (3, prefix p 3) = Some t3;
}.

(** The shifts of the last [n] levels above the leaves, and how many tables
    are missing on them. *)
Fixpoint shifts (n : nat) : list Z :=
  match n with
  | O => []
  | S m => (12 + 9 * Z.of_nat n) :: shifts m
  end.

Fixpoint missing (r : radix) (p : Z) (n : nat) : Z :=
  match n with
  | O => 0
  | S m =>
      match tab r !! (3 - Z.of_nat m, prefix p (3 - Z.of_nat m)) with
      | Some _ => 0
      | None => 1
      end + missing r p m
  end.

(** Descending on the path of [a], the list [cs] of tables was added to [r0],
    giving [r]. *)
Inductive created_on (r0 : radix) (a : Z) : list (Z * Z) → radix → Prop :=
  | created_none : created_on r0 a [] r0
  | created_one r l t c cs :
      created_on r0 a cs r →
      tab r !! (l, prefix (vpn a) l) = Some t → 0 ≤ l < 3 →
      tab r !! (l + 1, prefix (vpn a) (l + 1)) = None →
      (∀ j, 0 ≤ j < 512 → entry_of r (l + 1) (prefix (vpn a) (l + 1)) j = 0) →
      created_on r0 a ((entry_at t (index a (39 - 9 * l)), c) :: cs)
        (link r l (prefix (vpn a) l) (index a (39 - 9 * l)) c).

(** [x] is a table key off the path of page [p]. *)
Definition off_path (p : Z) (x : Z * Z) : Prop :=
  ∀ l, 1 ≤ l ≤ 3 → x ≠ (l, prefix p l).

(** Every table on the path of [p] but the root has an entry. *)
Definition tight (r : radix) (p : Z) : Prop :=
  ∀ l t, 1 ≤ l ≤ 3 → tab r !! (l, prefix p l) = Some t →
    ∃ j, 0 ≤ j < 512 ∧ entry_of r l (prefix p l) j ≠ 0.

Section ops.
Context {A : Type} `{!PmmApi A} `{!PmmContract A}.
Implicit Types (k : PAGING A) (r : radix).

Lemma index_range a s : 0 ≤ s → 0 ≤ index a s < 512.
Proof. intros H. rewrite index_div by done. apply mod512_range. Qed.

Lemma child_prefix a l :
  0 ≤ l < 4 → prefix (vpn a) l * 512 + index a (39 - 9 * l) = prefix (vpn a) (l + 1).
Proof. intros H. rewrite index_prefix by done. by apply prefix_step. Qed.

(** ** Reading the path *)

Lemma read_level k r a l t :
  rep k r → tab r !! (l, prefix (vpn a) l) = Some t → 0 ≤ l < 3 →
  read_entry k (entry_at t (index a (39 - 9 * l))) =
  match tab r !! (l + 1, prefix (vpn a) (l + 1)) with
  | Some c => Z.lor c FLAGS
  | None => 0
  end.
Proof.
  intros Hr Ht Hl. rewrite (rep_entry k r Hr _ _ _ _ Ht) by (apply index_range; lia).
  unfold entry_of. rewrite (proj2 (Z.ltb_lt l 3)), child_prefix by lia. done.
Qed.

Lemma read_leaf k r a t :
  rep k r → tab r !! (3, prefix (vpn a) 3) = Some t →
  read_entry k (entry_at t (index a 12)) = default 0 (leaf r !! vpn a).
Proof.
  intros Hr Ht. rewrite (rep_entry k r Hr _ _ _ _ Ht) by (apply index_range; lia).
  unfold entry_of. pose proof (child_prefix a 3 ltac:(lia)) as Hc.
  change (39 - 9 * 3) with 12 in Hc. change (3 + 1) with 4 in Hc. rewrite prefix_4 in Hc.
  by rewrite Hc.
Qed.

Lemma leaf_present k r p e : rep k r → leaf r !! p = Some e → has_bits e 1 = true.
Proof. intros Hr He. rewrite has_bits_1. by apply (rep_leaf_entry k r Hr) in He as [_ ?]. Qed.

(** The parents of a table on the path are on the path. *)
Lemma path_parent k r p l t :
  rep k r → 0 ≤ l < 3 → tab r !! (l + 1, prefix p (l + 1)) = Some t →
  is_Some (tab r !! (l, prefix p l)).
Proof.
  intros Hr Hl Ht. rewrite <- prefix_parent by lia. by eapply (rep_parent k r Hr); [|lia].
Qed.

Lemma leaf_chain k r p e :
  rep k r → leaf r !! p = Some e → ∃ t0 t1 t2 t3, chain r p t0 t1 t2 t3.
Proof.
  intros Hr He.
  assert (is_Some (tab r !! (3, prefix p 3))) as [t3 H3].
  { rewrite <- prefix_parent, prefix_4 by lia. by eapply (rep_leaf_parent k r Hr). }
  destruct (path_parent k r p 2 t3 Hr ltac:(lia) H3) as [t2 H2].
  destruct (path_parent k r p 1 t2 Hr ltac:(lia) H2) as [t1 H1].
  destruct (path_parent k r p 0 t1 Hr ltac:(lia) H1) as [t0 H0].
  by exists t0, t1, t2, t3.
Qed.

Lemma rep_root_prefix k r a :
  rep k r → tab r !! (0, prefix (vpn a) 0) = Some (paging_root k).
Proof. intros Hr. rewrite prefix_0 by apply vpn_range. apply Hr. Qed.

(** The path of an address, by levels. *)
Definition path_entries (a t0 t1 t2 t3 : Z) : list (Z * Z) :=
  [(t0, index a 39); (t1, index a 30); (t2, index a 21); (t3, index a 12)].

Lemma path_cases k r a :
  rep k r →
  match leaf r !! vpn a with
  | Some e => ∃ t0 t1 t2 t3,
      chain r (vpn a) t0 t1 t2 t3 ∧ path k a = Some (path_entries a t0 t1 t2 t3) ∧
      read_entry k (entry_at t3 (index a 12)) = e
  | None => path k a = None
  end.
Proof.
  intros Hr. pose proof (rep_root_prefix k r a Hr) as H0. unfold path.
  cbn [foreach]. change (39 - 0 * 9) with 39. change (39 - 1 * 9) with 30.
  change (39 - 2 * 9) with 21. change (39 - 3 * 9) with 12.
  pose proof (read_level k r a 0 _ Hr H0 ltac:(lia)) as R0.
  pose proof (λ t H, read_level k r a 1 t Hr H ltac:(lia)) as R1.
  pose proof (λ t H, read_level k r a 2 t Hr H ltac:(lia)) as R2.
  pose proof (λ t H, read_leaf k r a t Hr H) as R3.
  change (39 - 9 * 0) with 39 in R0. change (39 - 9 * 1) with 30 in R1.
  change (39 - 9 * 2) with 21 in R2.
  change (0 + 1) with 1 in R0. change (1 + 1) with 2 in R1. change (2 + 1) with 3 in R2.
  destruct (leaf r !! vpn a) as [e|] eqn:He.
  - destruct (leaf_chain k r _ _ Hr He) as (t0 & t1 & t2 & t3 & C).
    destruct C as [C0 C1 C2 C3]. assert (t0 = paging_root k) as -> by congruence.
    exists (paging_root k), t1, t2, t3. split; [by split|].
    pose proof (rep_frame k r _ _ Hr C1) as F1. pose proof (rep_frame k r _ _ Hr C2) as F2.
    pose proof (rep_frame k r _ _ Hr C3) as F3. pose proof (R3 _ C3) as R3'. simpl in R3'.
    rewrite R0, C1, table_entry_present. cbn [negb].
    rewrite table_entry_mask, (R1 _ C1), C2, table_entry_present by done. cbn [negb].
    rewrite table_entry_mask, (R2 _ C2), C3, table_entry_present by done. cbn [negb].
    rewrite table_entry_mask, R3', (leaf_present k r _ _ Hr He) by done. cbn [negb app].
    done.
  - rewrite R0. destruct (tab r !! (1, prefix (vpn a) 1)) as [t1|] eqn:C1; [|done].
    pose proof (rep_frame k r _ _ Hr C1) as F1.
    rewrite table_entry_present. cbn [negb].
    rewrite table_entry_mask, (R1 _ eq_refl) by done. cbn [negb].
    destruct (tab r !! (2, prefix (vpn a) 2)) as [t2|] eqn:C2; [|done].
    pose proof (rep_frame k r _ _ Hr C2) as F2.
    rewrite table_entry_present. cbn [negb].
    rewrite table_entry_mask, (R2 _ eq_refl) by done. cbn [negb].
    destruct (tab r !! (3, prefix (vpn a) 3)) as [t3|] eqn:C3; [|done].
    pose proof (rep_frame k r _ _ Hr C3) as F3.
    rewrite table_entry_present. cbn [negb].
    rewrite table_entry_mask, (R3 _ eq_refl) by done. done.
Qed.

(** ** Creating and undoing a path *)

Lemma link_prefix r a l c :
  0 ≤ l < 3 →
  link r l (prefix (vpn a) l) (index a (39 - 9 * l)) c =
  Radix (<[(l + 1, prefix (vpn a) (l + 1)) := c]> (tab r)) (leaf r).
Proof. intros Hl. unfold link. by rewrite child_prefix by lia. Qed.

Lemma map_level_spec k r a l t cs :
  rep k r → tab r !! (l, prefix (vpn a) l) = Some t → 0 ≤ l < 3 →
  match map_level a (39 - 9 * l) (k, t, cs) with
  | Next (k', t', cs') =>
      (tab r !! (l + 1, prefix (vpn a) (l + 1)) = Some t' ∧ k' = k ∧ cs' = cs) ∨
      (tab r !! (l + 1, prefix (vpn a) (l + 1)) = None ∧
       ∃ p, pmm_alloc (pmm k) = (Some t', p) ∧ paging_table_count k < MAX_TABLES ∧
            k' = link_table k t (index a (39 - 9 * l)) t' p ∧
            cs' = (entry_at t (index a (39 - 9 * l)), t') :: cs)
  | Stop k' =>
      tab r !! (l + 1, prefix (vpn a) (l + 1)) = None ∧ k' = unwind a cs k ∧
      (paging_table_count k = MAX_TABLES ∨ pmm_available (pmm k) = 0)
  end.
Proof.
  intros Hr Ht Hl. unfold map_level. rewrite (read_level k r a l t Hr Ht Hl).
  destruct (tab r !! (l + 1, prefix (vpn a) (l + 1))) as [c|] eqn:Hc.
  - rewrite table_entry_present. cbn [negb]. left. rewrite table_entry_mask; [done|].
    by apply (rep_frame k r _ _ Hr Hc).
  - cbn [negb has_bits]. destruct (new_table_cases k r Hr) as [[-> Hno]|(c & p & Ha & Hcount & ->)].
    + done.
    + assert (frame c) as Hfc.
      { pose proof Ha as (_ & Hin & _)%pmm_alloc_some; [|apply Hr].
        apply elem_of_difference in Hin as [Hin _].
        apply (pmm_pool_frame (pmm k)); [apply Hr|done]. }
      rewrite (proj2 (Z.eqb_neq c 0)) by (destruct Hfc as [? _]; lia).
      right. split; [done|]. rewrite read_write_eq by by apply frame_entry_u64.
      rewrite table_entry_mask by done. by exists p.
Qed.

(** The clean-up undoes exactly the tables that were created. *)
Lemma unwind_spec k r r0 a cs :
  rep k r → created_on r0 a cs r → rep (unwind a cs k) r0 ∧ stable k (unwind a cs k).
Proof.
  intros Hr Hcs. revert k Hr. induction Hcs as [|r l t c cs Hcs IH Ht Hl Hn Hz]; intros k Hr.
  { by split. }
  cbn [unwind]. fold (unlink_table k (entry_at t (index a (39 - 9 * l))) c a).
  pose proof (index_range a (39 - 9 * l) ltac:(lia)) as Hi.
  pose proof (child_prefix a l ltac:(lia)) as Hcp.
  set (r1 := link r l (prefix (vpn a) l) (index a (39 - 9 * l)) c) in *.
  assert (tab r1 !! (l, prefix (vpn a) l) = Some t) as Ht1.
  { unfold r1. rewrite link_prefix by done. cbn [tab].
    rewrite lookup_insert_ne by (intros [= ? ?]; lia). done. }
  assert (tab r1 !! (l + 1, prefix (vpn a) l * 512 + index a (39 - 9 * l)) = Some c) as Hc1.
  { unfold r1, link. cbn [tab]. by rewrite lookup_insert_eq. }
  assert (∀ j, 0 ≤ j < 512 →
    entry_of r1 (l + 1) (prefix (vpn a) l * 512 + index a (39 - 9 * l)) j = 0) as Hz1.
  { intros j Hj. rewrite Hcp. unfold r1. rewrite link_prefix by done.
    rewrite (entry_of_insert r l _ c (l + 1, prefix (vpn a) (l + 1))) by done.
    rewrite decide_False by (simpl; lia). by apply Hz. }
  pose proof (unlink_rep k r1 l _ t _ c a Hr Ht1 Hl Hi Hc1 Hz1) as Hr'.
  pose proof (unlink_stable k r1 l _ t _ c a Hr Ht1 Hl Hi Hc1) as [Hst _].
  assert (unlink r1 l (prefix (vpn a) l) (index a (39 - 9 * l)) = r) as Heq.
  { unfold unlink, r1, link. cbn [tab leaf]. rewrite Hcp, delete_insert_id by done. by destruct r. }
  rewrite Heq in Hr'. destruct (IH _ Hr') as [Hrep Hst']. split; [done|]. by etrans.
Qed.

Lemma missing_nonneg r p n : 0 ≤ missing r p n.
Proof. induction n as [|n IH]; simpl; [done|]. case_match; lia. Qed.

(** Nothing is missing above a mapped page. *)
Lemma missing_mapped k r p e : rep k r → leaf r !! p = Some e → missing r p 3 = 0.
Proof.
  intros Hr He. destruct (leaf_chain k r p e Hr He) as (t0 & t1 & t2 & t3 & [C0 C1 C2 C3]).
  cbn [missing]. change (3 - Z.of_nat 2) with 1. change (3 - Z.of_nat 1) with 2.
  change (3 - Z.of_nat 0) with 3. by rewrite C1, C2, C3.
Qed.

(** Linking a table does not change what is missing below it. *)
Lemma missing_insert r p n x c :
  fst x + Z.of_nat n ≤ 3 → missing (Radix (<[x := c]> (tab r)) (leaf r)) p n = missing r p n.
Proof.
  intros Hx. induction n as [|n IH]; [done|]. cbn [missing tab].
  rewrite IH by lia. rewrite lookup_insert_ne; [done|]. intros ->. simpl in Hx. lia.
Qed.

(** The descent over the last [n] levels: all missing tables are created, or
    every trace of the attempt is undone. *)
Lemma map_levels_spec n k r r0 a t cs :
  (n ≤ 3)%nat → rep k r → created_on r0 a cs r →
  tab r !! (3 - Z.of_nat n, prefix (vpn a) (3 - Z.of_nat n)) = Some t →
  match foreach (shifts n) (map_level a) (k, t, cs) with
  | Next (k', t', cs') =>
      ∃ r', rep k' r' ∧ stable k k' ∧ created_on r0 a cs' r' ∧
        tab r' !! (3, prefix (vpn a) 3) = Some t' ∧ leaf r' = leaf r ∧
        tab r ⊆ tab r' ∧ (∀ x, off_path (vpn a) x → tab r' !! x = tab r !! x) ∧
        pmm_available (pmm k') = pmm_available (pmm k) - missing r (vpn a) n ∧
        paging_table_count k' = paging_table_count k + missing r (vpn a) n ∧
        Z.of_nat (length cs') = Z.of_nat (length cs) + missing r (vpn a) n
  | Stop k' =>
      rep k' r0 ∧ stable k k' ∧
      (pmm_available (pmm k) < missing r (vpn a) n ∨
       MAX_TABLES < paging_table_count k + missing r (vpn a) n)
  end.
Proof.
  revert k r t cs. induction n as [|n IH]; intros k r t cs Hn Hr Hcs Ht.
  { cbn. exists r. repeat (split; [done || lia|]). simpl. lia. }
  cbn [shifts foreach]. set (l := 3 - Z.of_nat (S n)) in *.
  replace (12 + 9 * Z.of_nat (S n)) with (39 - 9 * l) by lia.
  pose proof (map_level_spec k r a l t cs Hr Ht ltac:(lia)) as Hstep.
  cbn [missing]. replace (3 - Z.of_nat n) with (l + 1) in * by lia.
  pose proof (missing_nonneg r (vpn a) n) as Hnn.
  destruct (map_level a (39 - 9 * l) (k, t, cs)) as [[[k1 t1] cs1]|k1].
  - destruct Hstep as [(Ht1 & -> & ->)|(Hnone & p & Ha & Hcount & -> & ->)].
    + rewrite Ht1.
      specialize (IH k r t1 cs ltac:(lia) Hr Hcs Ht1). by destruct (foreach _ _ _) as [[[? ?] ?]|?].
    + rewrite Hnone. pose proof (index_range a (39 - 9 * l) ltac:(lia)) as Hi.
      pose proof (child_prefix a l ltac:(lia)) as Hcp.
      assert (tab r !! (l + 1, prefix (vpn a) l * 512 + index a (39 - 9 * l)) = None) as Hnone'
        by by rewrite Hcp.
      pose proof (link_rep k r l _ t _ t1 p Hr Ht ltac:(lia) Hi Hnone' Ha Hcount) as Hr1.
      pose proof (link_stable k r l _ t _ t1 p Hr Ht ltac:(lia) Hi Hnone' Ha Hcount) as Hst1.
      pose proof (pmm_alloc_count (pmm k) t1 p (rep_pmm k r Hr) Ha) as Hav.
      set (k1 := link_table k t (index a (39 - 9 * l)) t1 p) in *.
      assert (pmm_available (pmm k1) = pmm_available (pmm k) - 1) as Hav1 by done.
      assert (paging_table_count k1 = paging_table_count k + 1) as Hcount1 by done.
      set (r1 := link r l (prefix (vpn a) l) (index a (39 - 9 * l)) t1) in *.
      assert (created_on r0 a ((entry_at t (index a (39 - 9 * l)), t1) :: cs) r1) as Hcs1.
      { apply created_one; try done; [lia|]. intros j Hj.
        apply (entry_of_missing k r); [done|lia|done|done]. }
      assert (r1 = Radix (<[(l + 1, prefix (vpn a) (l + 1)) := t1]> (tab r)) (leaf r)) as Hr1eq
        by (apply link_prefix; lia).
      assert (tab r1 !! (l + 1, prefix (vpn a) (l + 1)) = Some t1) as Ht1.
      { rewrite Hr1eq. cbn [tab].
        by rewrite lookup_insert_eq. }
      specialize (IH k1 r1 t1 _ ltac:(lia) Hr1 Hcs1 Ht1).
      assert (missing r1 (vpn a) n = missing r (vpn a) n) as Hm.
      { rewrite Hr1eq. apply missing_insert. simpl. lia. }
      rewrite Hm in IH.
      destruct (foreach (shifts n) (map_level a) _) as [[[k2 t2] cs2]|k2].
      * destruct IH as (r' & Hr' & Hst & Hcs' & Ht' & Hleaf & Hsub & Hoff & Hav' & Hcount' & Hlen).
        exists r'. split; [done|]. split; [by etrans|]. do 2 (split; [done|]).
        split; [rewrite Hleaf, Hr1eq; done|]. split.
        { etrans; [|exact Hsub]. rewrite Hr1eq. by apply insert_subseteq. }
        split.
        { intros x Hx. rewrite Hoff by done. rewrite Hr1eq. cbn [tab].
          apply lookup_insert_ne. intros <-. by apply (Hx (l + 1)); [lia|]. }
        cbn [length] in Hlen. lia.
      * destruct IH as (Hr' & Hst & Hno). split; [done|]. split; [by etrans|]. lia.
  - destruct Hstep as (Hnone & -> & Hno). rewrite Hnone.
    destruct (unwind_spec k r r0 a cs Hr Hcs) as [Hr' Hst]. split; [done|]. split; [done|]. lia.
Qed.

End ops.

End PagingOps.
