(* ===== verification/PagingStep.v ===== *)
(** * One dynamic page-table operation at a time

    For each function of the dynamic interface, every outcome and what it
    does to the represented tree: the lemmas the properties of the address
    space are proved from. *)

From S2P Require Import Prelude PmmInterface X86 Paging PagingBits PagingModel PagingOps.
Import X86 Paging PagingBits PagingModel PagingOps.

Module PagingStep.

(** The tree of a lone, empty root. *)
Definition bare (root : Z) : radix := Radix {[(0, 0) := root]} ∅.

Lemma bare_lookup root x t : tab (bare root) !! x = Some t → x = (0, 0) ∧ t = root.
Proof. unfold bare. cbn [tab]. by intros [<- <-]%lookup_singleton_Some. Qed.

Section step.
Context {A : Type} `{!PmmApi A} `{!PmmContract A}.
Implicit Types (k : PAGING A) (r : radix).

(** ** Addresses *)

Lemma dynamic_address_range k a :
  is_u64 a → dynamic_address k a = true →
  PAGING_DYNAMIC_BASE ≤ a < PAGING_DYNAMIC_BASE + PAGING_DYNAMIC_SIZE ∧ a mod 4096 = 0.
Proof.
  intros Ha. unfold dynamic_address. rewrite !andb_true_iff, !negb_true_iff, Z.leb_le, Z.ltb_lt.
  intros [[[_ Hal] Hlo] Hhi]. unfold u64 in Hhi. unfold is_u64 in Ha.
  unfold PAGING_DYNAMIC_BASE in *. rewrite Z.mod_small in Hhi by lia. split; [lia|].
  unfold has_bits in Hal. apply negb_false_iff, Z.eqb_eq in Hal.
  change 4095 with (Z.ones 12) in Hal. by rewrite Z.land_ones in Hal.
Qed.

Lemma dynamic_address_stable k k' a : stable k k' → dynamic_address k' a = dynamic_address k a.
Proof.
  intros Hst. unfold dynamic_address, x86_read_rflags. rewrite (st_active k k' Hst).
  replace (rflags (cpu k')) with (rflags (cpu k)); [done|].
  by injection (st_registers k k' Hst).
Qed.

(** Distinct page-aligned dynamic addresses are distinct pages. *)
Lemma dynamic_vpn_inj k a b :
  is_u64 a → is_u64 b → dynamic_address k a = true → dynamic_address k b = true →
  vpn a = vpn b → a = b.
Proof.
  intros Ha Hb [Ra Ma]%dynamic_address_range [Rb Mb]%dynamic_address_range; [|done..].
  unfold vpn, PAGING_DYNAMIC_BASE in *. change PAGING_DYNAMIC_SIZE with (2 ^ 39) in *. zdm.
Qed.

(** ** Counting *)

Lemma table_list_used k r : rep k r → list_to_set (table_list k) ⊆ pmm_used (pmm k).
Proof.
  intros Hr t [x Hx]%elem_of_list_to_set%(rep_list k r Hr). by apply (rep_used k r Hr) in Hx.
Qed.

Lemma table_list_size k r :
  rep k r → size (list_to_set (C:=gset Z) (table_list k)) = Z.to_nat (paging_table_count k).
Proof.
  intros Hr. rewrite size_list_to_set by apply (rep_nodup k r Hr).
  unfold table_list. by rewrite length_fmap, length_seqZ.
Qed.

(** The frames of the pool are the callers', the tables and those available. *)
Lemma available_tables k r :
  rep k r →
  pmm_available (pmm k) + paging_table_count k =
  Z.of_nat (size (pmm_pool (pmm k))) - Z.of_nat (size (others k)).
Proof.
  intros Hr. pose proof (rep_pmm k r Hr) as Hp. rewrite pmm_available_spec by done.
  pose proof (pmm_used_pool (pmm k) Hp) as Hup. pose proof (table_list_used k r Hr) as Htu.
  pose proof (table_list_size k r Hr) as Hs. pose proof (rep_count k r Hr).
  unfold others. rewrite size_difference by done. rewrite size_difference by done. rewrite Hs.
  apply subseteq_size in Hup, Htu. lia.
Qed.

Lemma available_stable k r k' r' :
  rep k r → rep k' r' → stable k k' →
  pmm_available (pmm k') + paging_table_count k' = pmm_available (pmm k) + paging_table_count k.
Proof.
  intros Hr Hr' Hst. rewrite (available_tables k r Hr), (available_tables k' r' Hr').
  by rewrite (st_pool k k' Hst), (st_others k k' Hst).
Qed.

(** Representing the same tree means having the same pages in use. *)
Lemma same_tables_used k r k' r' :
  rep k r → rep k' r' → stable k k' → tab r' = tab r → pmm_used (pmm k') = pmm_used (pmm k).
Proof.
  intros Hr Hr' Hst Htab.
  assert (∀ k0 r0, rep k0 r0 → pmm_used (pmm k0) = others k0 ∪ list_to_set (table_list k0)) as Hu.
  { intros k0 r0 H0. unfold others. rewrite union_comm_L.
    apply union_difference_L. by apply (table_list_used k0 r0). }
  rewrite (Hu k r Hr), (Hu k' r' Hr'), (st_others k k' Hst). f_equal.
  apply set_eq. intros t. rewrite !elem_of_list_to_set, (rep_list k r Hr), (rep_list k' r' Hr').
  by rewrite Htab.
Qed.

Lemma same_tree_available k r k' :
  rep k r → rep k' r → stable k k' →
  pmm_available (pmm k') = pmm_available (pmm k) ∧ paging_table_count k' = paging_table_count k.
Proof.
  intros Hr Hr' Hst. pose proof (same_tables_used k r k' r Hr Hr' Hst eq_refl) as Hu.
  pose proof (available_stable k r k' r Hr Hr' Hst).
  rewrite !pmm_available_spec in * by (by apply Hr || by apply Hr').
  rewrite Hu, (st_pool k k' Hst) in *. lia.
Qed.

(** ** [paging_map] *)

(** What [paging_map] checks before it touches a table. *)
Definition map_guard k (a physical flags : Z) : bool :=
  dynamic_address k a && negb (bad_flags flags) && bool_decide (physical ∈ others k).

Lemma map_guard_eq k r a physical flags :
  rep k r →
  map_guard k a physical flags =
  negb (negb (dynamic_address k a) || bad_flags flags || negb (pmm_is_allocated physical (pmm k)))
  && negb (is_table_page k physical).
Proof.
  intros Hr. unfold map_guard. rewrite is_table_page_spec, pmm_is_allocated_spec by apply Hr.
  destruct (dynamic_address k a); [|done]. destruct (bad_flags flags); [done|].
  cbn [negb andb orb]. rewrite negb_involutive. unfold others.
  rewrite (bool_decide_ext (physical ∈ pmm_used (pmm k) ∖ list_to_set (table_list k))
    (physical ∈ pmm_used (pmm k) ∧ physical ∉ table_list k))
    by by rewrite elem_of_difference, elem_of_list_to_set.
  by rewrite bool_decide_and, bool_decide_not.
Qed.

(** The budget of new tables. *)
Definition tables_left k : Z :=
  Z.min (pmm_available (pmm k)) (MAX_TABLES - paging_table_count k).

Lemma others_frame k r x : rep k r → x ∈ others k → frame x.
Proof.
  unfold others. intros Hr [Hx _]%elem_of_difference.
  by apply (pmm_used_frame (pmm k)); [apply Hr|].
Qed.

(** A mapping is added: the new leaf, and the tables its path missed. *)
Record mapped_to k r k' r' (a physical flags : Z) : Prop := {
  mt_rep : rep k' r';
  mt_stable : stable k k';
  mt_leaf : leaf r' = <[vpn a := Z.lor physical (leaf_flags flags)]> (leaf r);
  mt_sub : tab r ⊆ tab r';
  mt_off x : off_path (vpn a) x → tab r' !! x = tab r !! x;
  mt_tlb : tlb (cpu k') !! vpn a = None;
  mt_count : paging_table_count k' = paging_table_count k + missing r (vpn a) 3;
}.

Lemma paging_map_cases k r a physical flags :
  rep k r →
  match paging_map a physical flags k with
  | (true, k') =>
      map_guard k a physical flags = true ∧ leaf r !! vpn a = None ∧
      missing r (vpn a) 3 ≤ tables_left k ∧
      ∃ r', mapped_to k r k' r' a physical flags
  | (false, k') =>
      rep k' r ∧ stable k k' ∧
      (map_guard k a physical flags = false ∨ is_Some (leaf r !! vpn a) ∨
       tables_left k < missing r (vpn a) 3)
  end.
Proof.
  intros Hr. unfold paging_map. pose proof (map_guard_eq k r a physical flags Hr) as Hg.
  destruct (negb (dynamic_address k a) || bad_flags flags || negb (pmm_is_allocated _ _));
    [by split; [|split; [|left]]|].
  destruct (is_table_page k physical); [by split; [|split; [|left]]|].
  cbn [negb andb] in Hg.
  pose proof (map_levels_spec 3 k r r a (paging_root k) [] ltac:(lia) Hr (created_none r a)
    (rep_root_prefix k r a Hr)) as Hd.
  change (shifts 3) with [39; 30; 21] in Hd. unfold tables_left.
  destruct (foreach _ _ _) as [[[k1 t] cs]|k1].
  2:{ destruct Hd as (Hr' & Hst & Hno). split; [done|]. split; [done|]. right. right. lia. }
  destruct Hd as (r1 & Hr1 & Hst & Hcs & Ht & Hleaf & Hsub & Hoff & Hav & Hcount & Hlen).
  rewrite (read_leaf k1 r1 a t Hr1 Ht), Hleaf.
  pose proof (rep_count k1 r1 Hr1).
  destruct (leaf r !! vpn a) as [e|] eqn:He.
  { simpl. rewrite (leaf_present k r _ _ Hr He).
    rewrite (missing_mapped k r _ _ Hr He) in Hlen, Hav. destruct cs; [|simpl in Hlen; lia].
    inversion Hcs; subst. split; [done|]. split; [done|]. right. left. by eexists. }
  cbn [default has_bits Z.land Z.eqb negb]. split; [done|]. split; [done|].
  split.
  { rewrite pmm_available_spec in Hav by apply Hr1. lia. }
  assert (physical ∈ others k) as Hph.
  { unfold map_guard in Hg. apply andb_true_iff in Hg as [_ Hg]. by apply bool_decide_eq_true in Hg. }
  pose proof (others_frame k r physical Hr Hph) as Hfr.
  pose proof (child_prefix a 3 ltac:(lia)) as Hcp. change (39 - 9 * 3) with 12 in Hcp.
  change (3 + 1) with 4 in Hcp. rewrite prefix_4 in Hcp.
  pose proof (index_range a 12 ltac:(lia)) as Hi.
  assert (is_u64 (Z.lor physical (leaf_flags flags))) as Hu
    by (apply is_u64_lor; [by apply frame_is_u64|apply leaf_flags_u64]).
  eexists (Radix (tab r1) (<[vpn a := Z.lor physical (leaf_flags flags)]> (leaf r))).
  destruct (invalidate_stable (write_entry k1 (entry_at t (index a 12))
    (Z.lor physical (leaf_flags flags))) a) as [Hst3 Htlb].
  split; try done.
  - apply invalidate_rep, (write_leaf_rep k1 r1 (prefix (vpn a) 3)); try done; rewrite Hcp.
    + by rewrite lookup_insert_eq.
    + intros e. rewrite lookup_insert_eq. intros [= <-]. apply leaf_entry_present.
    + intros p Hp. by rewrite Hleaf, lookup_insert_ne.
  - etrans; [exact Hst|]. etrans; [|exact Hst3].
    by apply (write_leaf_stable k1 r1 (prefix (vpn a) 3)).
Qed.

(** ** [paging_unmap] *)

(** Some entry of the table is in use. *)
Definition occupied r (l q : Z) : Prop := ∃ j, 0 ≤ j < 512 ∧ entry_of r l q j ≠ 0.

Lemma table_empty_spec k r l q t :
  rep k r → tab r !! (l, q) = Some t →
  if table_empty k t then ∀ j, 0 ≤ j < 512 → entry_of r l q j = 0 else occupied r l q.
Proof.
  intros Hr Ht. unfold table_empty.
  for_one (λ i (_ : unit), ∀ j, 0 ≤ j < i → entry_of r l q j = 0) (λ _ : unit, occupied r l q).
  - lia.
  - intros i _ Hi Hlow. rewrite (rep_entry k r Hr _ _ _ _ Ht Hi).
    destruct (Z.eqb_spec (entry_of r l q i) 0) as [He|Hne]; cbn [negb]; [|by exists i].
    intros j Hj. destruct (decide (j = i)) as [->|]; [done|apply Hlow; lia].
  - done.
  - done.
Qed.

(** The levels [n], ..., 1. *)
Fixpoint levels (n : nat) : list nat :=
  match n with
  | O => []
  | S m => n :: levels m
  end.

(** One turn of the reclaiming loop. *)
Definition reclaim (a : Z) (tables : list (Z * Z)) (level : nat) (k : PAGING A)
    : ctl (PAGING A) (PAGING A) :=
  if negb (table_empty k (table_of tables level)) then Stop k
  else Next (unlink_table k
               (entry_at (table_of tables (level - 1)) (index_of tables (level - 1)))
               (table_of tables level) a).

(** A table that links another one is occupied. *)
Lemma occupied_parent r p l t :
  0 ≤ l < 3 → tab r !! (l + 1, prefix p (l + 1)) = Some t → occupied r l (prefix p l).
Proof.
  intros Hl Ht. exists (prefix p (l + 1) mod 512). split; [apply mod512_range|].
  unfold entry_of. rewrite (proj2 (Z.ltb_lt l 3)), prefix_step, Ht by lia.
  apply frame_entry_nonzero.
Qed.

(** The tables above an occupied one are occupied. *)
Lemma tight_above k r p n t :
  rep k r → 1 ≤ n ≤ 3 → tab r !! (n, prefix p n) = Some t → occupied r n (prefix p n) →
  (∀ l, n < l ≤ 3 → tab r !! (l, prefix p l) = None) → tight r p.
Proof.
  intros Hr Hn Ht Ho Hnone l t' Hl Ht'.
  destruct (decide (l = n)) as [->|Hne]; [done|].
  destruct (decide (n < l)) as [Hlt|Hge]; [by rewrite Hnone in Ht' by lia|].
  assert (∀ m, 1 ≤ m → 0 ≤ n - m → is_Some (tab r !! (n - m + 1, prefix p (n - m + 1)))) as Hup.
  { intros m Hm. pattern m. apply Zlt_lower_bound_ind with (z := 1); [|done].
    intros x IH Hx H0. destruct (decide (x = 1)) as [->|].
    - replace (n - 1 + 1) with n by lia. by eexists.
    - destruct (IH (x - 1) ltac:(lia) ltac:(lia)) as [u Hu].
      replace (n - (x - 1) + 1) with (n - x + 1 + 1) in Hu by lia.
      eapply path_parent; [done| |exact Hu]. lia. }
  destruct (Hup (n - l) ltac:(lia) ltac:(lia)) as [u Hu].
  replace (n - (n - l) + 1) with (l + 1) in Hu by lia.
  by eapply occupied_parent; [lia|].
Qed.

Lemma missing_delete r p l c :
  1 ≤ l ≤ 3 → tab r !! (l, prefix p l) = Some c →
  missing (Radix (delete (l, prefix p l) (tab r)) (leaf r)) p 3 = missing r p 3 + 1.
Proof.
  intros Hl Hc. cbn [missing tab]. change (3 - Z.of_nat 2) with 1.
  change (3 - Z.of_nat 1) with 2. change (3 - Z.of_nat 0) with 3.
  assert (∀ x, delete (l, prefix p l) (tab r) !! (x, prefix p x) =
    if decide (x = l) then None else tab r !! (x, prefix p x)) as H.
  { intros x. rewrite lookup_delete. destruct (decide (x = l)) as [->|Hne].
    - by rewrite decide_True.
    - by rewrite decide_False by congruence. }
  rewrite !H. assert (l = 1 ∨ l = 2 ∨ l = 3) as [->|[->| ->]] by lia; rewrite Hc; simpl; lia.
Qed.

(** Tables were only removed from the path, and none is empty there. *)
Record reclaimed_to k r (a : Z) k' r' : Prop := {
  rt_rep : rep k' r';
  rt_stable : stable k k';
  rt_leaf : leaf r' = leaf r;
  rt_sub : tab r' ⊆ tab r;
  rt_off x : off_path (vpn a) x → tab r' !! x = tab r !! x;
  rt_tight : tight r' (vpn a);
  rt_count : paging_table_count k' + missing r' (vpn a) 3 =
    paging_table_count k + missing r (vpn a) 3;
}.

Lemma reclaim_spec n k r a tables :
  (n ≤ 3)%nat → rep k r →
  (∀ l, (l ≤ n)%nat →
    tab r !! (Z.of_nat l, prefix (vpn a) (Z.of_nat l)) = Some (table_of tables l)) →
  (∀ l, (l < 3)%nat → index_of tables l = index a (39 - 9 * Z.of_nat l)) →
  (∀ l, Z.of_nat n < l ≤ 3 → tab r !! (l, prefix (vpn a) l) = None) →
  match foreach (levels n) (reclaim a tables) k with
  | Next k' | Stop k' => ∃ r', reclaimed_to k r a k' r'
  end.
Proof.
  revert k r. induction n as [|n IH]; intros k r Hn Hr Htab Hidx Hnone.
  { exists r. split; try done. intros l t Hl Ht. by rewrite Hnone in Ht by lia. }
  cbn [levels foreach]. unfold reclaim at 1.
  set (l := Z.of_nat (S n)) in *. pose proof (Htab (S n) ltac:(lia)) as Ht. fold l in Ht.
  pose proof (table_empty_spec k r _ _ _ Hr Ht) as Hz.
  destruct (table_empty _ _); cbn [negb].
  2:{ exists r. split; try done. by apply (tight_above k r _ l _ Hr ltac:(lia) Ht). }
  replace (S n - 1)%nat with n by lia. pose proof (Htab n ltac:(lia)) as Hup.
  rewrite Hidx by lia.
  set (m := Z.of_nat n) in *. replace l with (m + 1) in * by lia.
  pose proof (index_range a (39 - 9 * m) ltac:(lia)) as Hi.
  pose proof (child_prefix a m ltac:(lia)) as Hcp. rewrite <- Hcp in Ht, Hz.
  pose proof (unlink_rep k r m _ _ _ _ a Hr Hup ltac:(lia) Hi Ht Hz) as Hr'.
  pose proof (unlink_stable k r m _ _ _ _ a Hr Hup ltac:(lia) Hi Ht) as [Hst _].
  destruct (unlink_table_eq k r m _ (table_of tables n) _ _ a Hr Ht) as (s & pm & _ & _ & _ & Hueq).
  assert (paging_table_count (unlink_table k (entry_at (table_of tables n)
    (index a (39 - 9 * m))) (table_of tables (S n)) a) = paging_table_count k - 1) as Hc1
    by by rewrite Hueq.
  clear Hueq. pose proof Ht as Hm. rewrite Hcp in Hm. apply missing_delete in Hm; [|lia].
  set (r1 := unlink r m (prefix (vpn a) m) (index a (39 - 9 * m))) in *.
  set (k1 := unlink_table _ _ _ _) in *.
  assert (∀ x, x ≠ (m + 1, prefix (vpn a) (m + 1)) → tab r1 !! x = tab r !! x) as Hun.
  { intros x Hx. unfold r1, unlink. cbn [tab]. rewrite Hcp. by apply lookup_delete_ne. }
  assert (match foreach (levels n) (reclaim a tables) k1 with
    | Next k' | Stop k' => ∃ r', reclaimed_to k1 r1 a k' r' end) as Hrest.
  { apply IH; try done; [lia| |].
    - intros l' Hl'. rewrite Hun; [apply Htab; lia|]. intros [= ? _]. lia.
    - intros l' Hl'. destruct (decide (l' = m + 1)) as [->|].
      + unfold r1, unlink. cbn [tab]. by rewrite Hcp, lookup_delete_eq.
      + rewrite Hun by (intros [= ? _]; lia). apply Hnone. lia. }
  assert (∀ k', (∃ r', reclaimed_to k1 r1 a k' r') → ∃ r', reclaimed_to k r a k' r') as Hlift.
  { intros k' (r' & []). exists r'. split; try done; [by etrans| | |].
    - etrans; [done|]. apply delete_subseteq.
    - intros x Hx. rewrite rt_off0 by done. apply Hun, Hx. lia.
    - rewrite rt_count0. unfold r1, unlink. rewrite Hcp, Hm. lia. }
  destruct (foreach (levels n) (reclaim a tables) k1); by apply Hlift.
Qed.

(** A mapping is removed with the tables it leaves empty. *)
Record unmapped_to k r k' r' (a : Z) : Prop := {
  ut_rep : rep k' r';
  ut_stable : stable k k';
  ut_leaf : leaf r' = delete (vpn a) (leaf r);
  ut_sub : tab r' ⊆ tab r;
  ut_off x : off_path (vpn a) x → tab r' !! x = tab r !! x;
  ut_tight : tight r' (vpn a);
  ut_tlb : tlb (cpu k') !! vpn a = None;
  ut_count : paging_table_count k' + missing r' (vpn a) 3 = paging_table_count k;
}.

Lemma paging_unmap_cases k r a :
  rep k r →
  match paging_unmap a k with
  | (true, k') =>
      dynamic_address k a = true ∧ is_Some (leaf r !! vpn a) ∧ ∃ r', unmapped_to k r k' r' a
  | (false, k') => k' = k ∧ (dynamic_address k a = false ∨ leaf r !! vpn a = None)
  end.
Proof.
  intros Hr. unfold paging_unmap. destruct (dynamic_address k a); cbn [negb]; [|auto].
  pose proof (path_cases k r a Hr) as Hp.
  destruct (leaf r !! vpn a) as [e|] eqn:He; [|rewrite Hp; auto].
  destruct Hp as (t0 & t1 & t2 & t3 & [C0 C1 C2 C3] & -> & Hread).
  change (table_of (path_entries a t0 t1 t2 t3) 3) with t3.
  change (index_of (path_entries a t0 t1 t2 t3) 3) with (index a 12).
  set (k1 := invalidate _ _).
  pose proof (child_prefix a 3 ltac:(lia)) as Hcp. change (39 - 9 * 3) with 12 in Hcp.
  change (3 + 1) with 4 in Hcp. rewrite prefix_4 in Hcp.
  pose proof (index_range a 12 ltac:(lia)) as Hi.
  destruct (invalidate_stable (write_entry k (entry_at t3 (index a 12)) 0) a) as [Hst1 Htlb].
  assert (stable k k1) as Hst.
  { etrans; [|exact Hst1]. by apply (write_leaf_stable k r (prefix (vpn a) 3)). }
  assert (rep k1 (Radix (tab r) (delete (vpn a) (leaf r)))) as Hr1.
  { apply invalidate_rep, (write_leaf_rep k r (prefix (vpn a) 3)); try done; rewrite Hcp.
    - by rewrite lookup_delete_eq.
    - intros e'. by rewrite lookup_delete_eq.
    - intros p Hp. by rewrite lookup_delete_ne. }
  pose proof (reclaim_spec 3 k1 _ a (path_entries a t0 t1 t2 t3) ltac:(lia) Hr1) as Hrec.
  assert (match foreach (levels 3) (reclaim a (path_entries a t0 t1 t2 t3)) k1 with
    | Next k' | Stop k' =>
        ∃ r', reclaimed_to k1 (Radix (tab r) (delete (vpn a) (leaf r))) a k' r' end) as Hend.
  { apply Hrec; clear Hrec.
    - intros l Hl. destruct l as [|[|[|[|l]]]]; [done..|lia].
    - intros l Hl. destruct l as [|[|[|l]]]; [done..|lia].
    - lia. }
  assert (∀ k', (∃ r', reclaimed_to k1 (Radix (tab r) (delete (vpn a) (leaf r))) a k' r') →
    true = true ∧ is_Some (Some e) ∧ ∃ r', unmapped_to k r k' r' a) as Hlift.
  { intros k' (r' & []). split; [done|]. split; [by eexists|]. exists r'. split; try done.
    - by etrans.
    - apply eq_None_not_Some. intros [x Hx].
      pose proof (lookup_weaken _ _ _ _ Hx (st_tlb k1 k' rt_stable0)) as Hc.
      by rewrite (Htlb : tlb (cpu k1) !! vpn a = None) in Hc.
    - rewrite rt_count0. change (paging_table_count k1) with (paging_table_count k).
      pose proof (missing_mapped k r _ _ Hr He) as Hm.
      change (missing (Radix (tab r) (delete (vpn a) (leaf r))) (vpn a) 3)
        with (missing r (vpn a) 3). lia. }
  unfold reclaim, unlink_table in Hend. change (levels 3) with [3; 2; 1]%nat in Hend.
  destruct (foreach [3; 2; 1]%nat _ k1); by apply Hlift.
Qed.

(** ** [paging_protect] and [paging_query] *)

Record protected_to k r k' r' (a flags : Z) : Prop := {
  pt_rep : rep k' r';
  pt_stable : stable k k';
  pt_leaf e : leaf r !! vpn a = Some e →
    leaf r' = <[vpn a := Z.lor (Z.land e ADDRESS_MASK) (leaf_flags flags)]> (leaf r);
  pt_tab : tab r' = tab r;
  pt_tlb : tlb (cpu k') !! vpn a = None;
}.

Lemma paging_protect_cases k r a flags :
  rep k r →
  match paging_protect a flags k with
  | (true, k') =>
      dynamic_address k a = true ∧ bad_flags flags = false ∧ is_Some (leaf r !! vpn a) ∧
      ∃ r', protected_to k r k' r' a flags
  | (false, k') =>
      k' = k ∧ (dynamic_address k a = false ∨ bad_flags flags = true ∨ leaf r !! vpn a = None)
  end.
Proof.
  intros Hr. unfold paging_protect.
  destruct (dynamic_address k a); cbn [negb orb]; [|auto].
  destruct (bad_flags flags); [auto|].
  pose proof (path_cases k r a Hr) as Hp.
  destruct (leaf r !! vpn a) as [e|] eqn:He; [|rewrite Hp; auto].
  destruct Hp as (t0 & t1 & t2 & t3 & [C0 C1 C2 C3] & -> & Hread).
  change (table_of (path_entries a t0 t1 t2 t3) 3) with t3.
  change (index_of (path_entries a t0 t1 t2 t3) 3) with (index a 12).
  rewrite Hread. do 2 (split; [done|]). split; [by eexists|].
  set (v := Z.lor (Z.land e ADDRESS_MASK) (leaf_flags flags)).
  pose proof (child_prefix a 3 ltac:(lia)) as Hcp. change (39 - 9 * 3) with 12 in Hcp.
  change (3 + 1) with 4 in Hcp. rewrite prefix_4 in Hcp.
  pose proof (index_range a 12 ltac:(lia)) as Hi.
  assert (is_u64 v) as Hu.
  { apply is_u64_lor; [|apply leaf_flags_u64]. apply is_u64_land; [|done].
    by apply (rep_leaf_entry k r Hr) in He as [? _]. }
  destruct (invalidate_stable (write_entry k (entry_at t3 (index a 12)) v) a) as [Hst1 Htlb].
  exists (Radix (tab r) (<[vpn a := v]> (leaf r))). split; try done.
  - apply invalidate_rep, (write_leaf_rep k r (prefix (vpn a) 3)); try done; rewrite Hcp.
    + by rewrite lookup_insert_eq.
    + intros e'. rewrite lookup_insert_eq. intros [= <-]. unfold v.
      rewrite Z.lor_spec, leaf_flags_bits by lia. by rewrite orb_true_r.
    + intros p Hp. by rewrite lookup_insert_ne.
  - etrans; [|exact Hst1]. by apply (write_leaf_stable k r (prefix (vpn a) 3)).
  - intros e' He'. by simplify_eq.
Qed.

(** What [paging_query] stores through its pointers for a leaf entry. *)
Definition decode (e : Z) : Z * Z :=
  (Z.land e ADDRESS_MASK,
   Z.lor (if has_bits e 2 then PAGING_WRITE else 0) (if has_bits e NX then 0 else PAGING_EXEC)).

Lemma paging_query_eq k r a :
  rep k r →
  paging_query a true k =
  if dynamic_address k a then decode <$> leaf r !! vpn a else None.
Proof.
  intros Hr. unfold paging_query. destruct (dynamic_address k a); cbn [negb orb]; [|done].
  pose proof (path_cases k r a Hr) as Hp.
  destruct (leaf r !! vpn a) as [e|]; [|by rewrite Hp].
  destruct Hp as (t0 & t1 & t2 & t3 & _ & -> & Hread).
  change (table_of (path_entries a t0 t1 t2 t3) 3) with t3.
  change (index_of (path_entries a t0 t1 t2 t3) 3) with (index a 12).
  by rewrite Hread.
Qed.

(** ** An empty root *)

Lemma bare_rep k :
  pmm_inv (pmm k) → paging_root k ∈ pmm_used (pmm k) → paging_table_count k = 1 →
  table_page k 0 = paging_root k →
  (∀ i, 0 ≤ i < 512 → read_entry k (entry_at (paging_root k) i) = 0) →
  rep k (bare (paging_root k)).
Proof.
  intros Hp Hu Hc Ht Hz.
  assert (table_list k = [paging_root k]) as Hl.
  { unfold table_list. rewrite Hc. change (seqZ 0 1) with [0]. simpl. by rewrite Ht. }
  split; try done.
  - intros l q t [[= -> ->] _]%bare_lookup. lia.
  - by intros x y t [-> _]%bare_lookup [-> _]%bare_lookup.
  - by intros x t [-> ->]%bare_lookup.
  - intros l q t i [[= -> ->] ->]%bare_lookup Hi. rewrite Hz by done. unfold entry_of, bare. cbn [tab].
    change (0 <? 3) with true. cbv iota. by rewrite lookup_singleton_ne by (intros [= ? _]; lia).
  - intros l q t [[= ? _] _]%bare_lookup Hl0. lia.
  - rewrite Hl. apply NoDup_singleton.
  - intros t. rewrite Hl, list_elem_of_singleton. split.
    + intros ->. exists (0, 0). unfold bare. cbn [tab]. by rewrite lookup_singleton_eq.
    + by intros [x [_ ->]%bare_lookup].
  - rewrite Hc. unfold MAX_TABLES. lia.
Qed.

End step.

End PagingStep.
