(* ===== verification/PagingSpace.v ===== *)
(** * The address space the page tables implement

    The abstract space the callers of [kernel/paging.c] see (a map from pages
    to a frame and permissions, the callers' own pages, the budget of
    tables), the processor's walk of the tables and its cached translations,
    and the step-by-step refinement between the two. *)

From S2P Require Import Prelude PmmInterface X86 Paging PagingBits PagingModel PagingOps PagingStep.
Import X86 Paging PagingBits PagingModel PagingOps PagingStep.

Module PagingSpace.

(** ** The processor's view *)

(** A leaf entry with the permissions of the tables above it: writable and
    executable only where every level allows it. *)
Definition effective (e : Z) (w x : bool) : Z :=
  Z.lor (if w then e else Z.land e (not64 2)) (if x then 0 else NX).

(** A large-page or reserved bit in an upper level. *)
Definition PS : Z := 0x80.

Section hardware.
Context {A : Type}.
Implicit Types (k : PAGING A).

(** The four-level walk from CR3 to a 4 KiB page. *)
Definition walk k (a : Z) : option Z :=
  match
    foreach [39; 30; 21] (λ shift '(table, w, x),
      let e := read_entry k (entry_at table (index a shift)) in
      if negb (has_bits e 1) || has_bits e PS then Stop tt
      else Next (Z.land e ADDRESS_MASK, w && has_bits e 2, x && negb (has_bits e NX)))
      (Z.land (cr3 (cpu k)) ADDRESS_MASK, true, true)
  with
  | Stop _ => None
  | Next (table, w, x) =>
      let e := read_entry k (entry_at table (index a 12)) in
      if has_bits e 1 then Some (effective e w x) else None
  end.

(** A memory access: the cached translation if there is one, and otherwise the
    walk's, which is then cached. *)
Definition access (a : Z) k : option (Z * Z) * PAGING A :=
  match tlb (cpu k) !! vpn a with
  | Some e => (Some (decode e), k)
  | None =>
      match walk k a with
      | Some e => (Some (decode e), with_cpu k (with_tlb (cpu k) (<[vpn a := e]> (tlb (cpu k)))))
      | None => (None, k)
      end
  end.

(** The processor may drop a cached translation at any time. *)
Definition evict (p : Z) k : PAGING A :=
  with_cpu k (with_tlb (cpu k) (delete p (tlb (cpu k)))).

End hardware.

(** ** The abstract space *)

Record space := Space {
  (** dynamic paging is active and interrupts are off *)
  sp_enabled : bool;
  (** the pages in use that are not tables *)
  sp_callers : gset Z;
  (** frame and permissions of each mapped page *)
  sp_map : gmap Z (Z * Z);
  (** free frames, and frames used for tables *)
  sp_frames : Z;
  sp_tables : Z;
}.

(** Some mapped page lies under the same table of level [l]. *)
Definition shared {X} (m : gmap Z X) (p l : Z) : bool :=
  bool_decide (map_Exists (λ q _, prefix q l = prefix p l) m).

(** The number of tables page [p] needs for itself, beside those shared with
    the pages of [m]. *)
Definition needed {X} (m : gmap Z X) (p : Z) : Z :=
  Z.of_nat (length (filter (λ l, shared m p l = false) [1; 2; 3])).

Definition in_window (a : Z) : bool :=
  negb (has_bits a 4095) && (PAGING_DYNAMIC_BASE <=? a)
  && (u64 (a - PAGING_DYNAMIC_BASE) <? PAGING_DYNAMIC_SIZE).

(** Permissions are any combination of write and execute. *)
Definition good_flags (f : Z) : bool := (0 <=? f) && (f <? 4).

Inductive event :=
  | Map (a physical flags : Z)
  | Unmap (a : Z)
  | Protect (a flags : Z)
  | Query (a : Z)
  | Access (a : Z)
  | Evict (p : Z).

Inductive answer :=
  | Answer (b : bool)
  | Translation (t : option (Z * Z))
  | Silent.

Definition space_step (e : event) (s : space) : answer * space :=
  match e with
  | Map a ph fl =>
      let n := needed (sp_map s) (vpn a) in
      if sp_enabled s && in_window a && good_flags fl && bool_decide (ph ∈ sp_callers s)
         && bool_decide (sp_map s !! vpn a = None)
         && (n <=? Z.min (sp_frames s) (MAX_TABLES - sp_tables s))
      then (Answer true,
            Space (sp_enabled s) (sp_callers s) (<[vpn a := (ph, fl)]> (sp_map s))
              (sp_frames s - n) (sp_tables s + n))
      else (Answer false, s)
  | Unmap a =>
      if sp_enabled s && in_window a && bool_decide (is_Some (sp_map s !! vpn a)) then
        let m := delete (vpn a) (sp_map s) in
        let n := needed m (vpn a) in
        (Answer true, Space (sp_enabled s) (sp_callers s) m (sp_frames s + n) (sp_tables s - n))
      else (Answer false, s)
  | Protect a fl =>
      if sp_enabled s && in_window a && good_flags fl then
        match sp_map s !! vpn a with
        | Some (ph, _) =>
            (Answer true,
             Space (sp_enabled s) (sp_callers s) (<[vpn a := (ph, fl)]> (sp_map s))
               (sp_frames s) (sp_tables s))
        | None => (Answer false, s)
        end
      else (Answer false, s)
  | Query a =>
      (Translation (if sp_enabled s && in_window a then sp_map s !! vpn a else None), s)
  | Access a => (Translation (sp_map s !! vpn a), s)
  | Evict _ => (Silent, s)
  end.

(** Arguments of the declared C types. *)
Definition typed (e : event) : Prop :=
  match e with
  | Map a _ fl | Protect a fl => is_u64 a ∧ 0 ≤ fl < 2 ^ 32
  | Unmap a | Query a | Access a => is_u64 a
  | Evict _ => True
  end.

Section space.
Context {A : Type} `{!PmmApi A} `{!PmmContract A}.
Implicit Types (k : PAGING A) (r : radix).

Definition kernel_step (e : event) k : answer * PAGING A :=
  match e with
  | Map a ph fl => let '(b, k) := paging_map a ph fl k in (Answer b, k)
  | Unmap a => let '(b, k) := paging_unmap a k in (Answer b, k)
  | Protect a fl => let '(b, k) := paging_protect a fl k in (Answer b, k)
  | Query a => (Translation (paging_query a true k), k)
  | Access a => let '(t, k) := access a k in (Translation t, k)
  | Evict p => (Silent, evict p k)
  end.

(** The pages of the dynamic window: one entry of the root. *)
Definition dynamic_page (p : Z) : Prop := prefix p 1 = 256.

(** The invariant: a represented tree without empty tables in the window,
    well-formed leaves there, and cached translations that agree with it. *)
Record good k r : Prop := {
  g_rep : rep k r;
  g_lean p : dynamic_page p → tight r p;
  g_leaf p e : dynamic_page p → leaf r !! p = Some e →
    ∃ ph fl, frame ph ∧ 0 ≤ fl < 4 ∧ e = Z.lor ph (leaf_flags fl);
  g_tlb : tlb (cpu k) ⊆ leaf r;
  g_root : Z.land (cr3 (cpu k)) ADDRESS_MASK = paging_root k;
}.

Definition enabled k : bool :=
  active k && negb (has_bits (x86_read_rflags (cpu k)) 0x200).

Definition abstract k r : space :=
  Space (enabled k) (others k) (decode <$> leaf r) (pmm_available (pmm k)) (paging_table_count k).

(** ** Flags and addresses *)

Lemma dynamic_address_split k a : dynamic_address k a = enabled k && in_window a.
Proof. unfold dynamic_address, enabled, in_window. by rewrite !andb_assoc. Qed.

Lemma in_window_page a : is_u64 a → in_window a = true → dynamic_page (vpn a).
Proof.
  intros Ha. unfold in_window. rewrite !andb_true_iff, Z.leb_le, Z.ltb_lt.
  intros [[_ Hlo] Hhi]. unfold u64 in Hhi. unfold is_u64 in Ha.
  unfold PAGING_DYNAMIC_BASE in *. rewrite Z.mod_small in Hhi by lia.
  unfold dynamic_page, prefix, vpn. change PAGING_DYNAMIC_SIZE with 549755813888 in Hhi.
  change (512 ^ (4 - 1)) with 134217728. change (2 ^ 36) with 68719476736. zdm.
Qed.

Lemma dynamic_address_page k a :
  is_u64 a → dynamic_address k a = true → dynamic_page (vpn a).
Proof.
  rewrite dynamic_address_split. intros Ha [_ Hw]%andb_true_iff. by apply in_window_page.
Qed.

Lemma good_flags_eq fl : 0 ≤ fl < 2 ^ 32 → good_flags fl = negb (bad_flags fl).
Proof.
  intros Hf. unfold good_flags, bad_flags, has_bits. rewrite negb_involutive.
  set (c := u32 (Z.lnot (Z.lor PAGING_WRITE PAGING_EXEC))).
  assert (fl = Z.lor (Z.land fl 3) (Z.land fl c)) as Hsplit.
  { rewrite <- Z.land_lor_distr_r. change (Z.lor 3 c) with (Z.ones 32).
    by rewrite Z.land_ones, Z.mod_small. }
  change 3 with (Z.ones 2) in Hsplit. rewrite Z.land_ones in Hsplit by lia.
  destruct (Z.eqb_spec (Z.land fl c) 0) as [He|Hne].
  - rewrite He, Z.lor_0_r in Hsplit. pose proof (Z.mod_pos_bound fl (2 ^ 2)).
    destruct (Z.leb_spec 0 fl), (Z.ltb_spec fl 4); try done; lia.
  - destruct (Z.leb_spec 0 fl), (Z.ltb_spec fl 4); try done. exfalso. apply Hne.
    assert (fl = 0 ∨ fl = 1 ∨ fl = 2 ∨ fl = 3) as [->|[->|[->| ->]]] by lia; done.
Qed.

Lemma good_flags_range fl : 0 ≤ fl < 2 ^ 32 → bad_flags fl = false → 0 ≤ fl < 4.
Proof.
  intros Hf Hb. pose proof (good_flags_eq fl Hf) as H. rewrite Hb in H. unfold good_flags in H.
  apply andb_true_iff in H as [? ?]. lia.
Qed.

Lemma decode_entry ph fl :
  frame ph → 0 ≤ fl < 4 → decode (Z.lor ph (leaf_flags fl)) = (ph, fl).
Proof.
  intros Hph Hfl. unfold decode. rewrite leaf_entry_mask, has_bits_2, has_bits_NX by done.
  rewrite !leaf_entry_bit, !leaf_flags_bits by (done || lia).
  assert (fl = 0 ∨ fl = 1 ∨ fl = 2 ∨ fl = 3) as [->|[->|[->| ->]]] by lia; done.
Qed.

(** ** The walk follows the tree *)

Lemma table_entry_flags c :
  frame c → has_bits (Z.lor c FLAGS) PS = false ∧ has_bits (Z.lor c FLAGS) 2 = true ∧
  has_bits (Z.lor c FLAGS) NX = false.
Proof.
  intros Hc.
  assert (∀ i, 0 ≤ i → i < 12 ∨ 32 ≤ i → Z.testbit (Z.lor c FLAGS) i = (i <? 2)) as Hb.
  { intros i Hi Hr. rewrite Z.lor_spec, flags_bits by done.
    destruct (Z.testbit c i) eqn:Hci; [|done]. apply frame_bits in Hci; [lia|done..]. }
  change PS with (bit64 7). rewrite has_bits_2, has_bits_NX, has_bits_bit64 by lia.
  rewrite !Hb by lia. done.
Qed.

Lemma walk_leaf k r a : good k r → walk k a = leaf r !! vpn a.
Proof.
  intros [Hr _ _ _ Hroot]. pose proof (rep_root_prefix k r a Hr) as H0. unfold walk.
  rewrite Hroot. cbn [foreach].
  pose proof (read_level k r a 0 _ Hr H0 ltac:(lia)) as R0.
  pose proof (λ t H, read_level k r a 1 t Hr H ltac:(lia)) as R1.
  pose proof (λ t H, read_level k r a 2 t Hr H ltac:(lia)) as R2.
  pose proof (λ t H, read_leaf k r a t Hr H) as R3.
  change (39 - 9 * 0) with 39 in R0. change (39 - 9 * 1) with 30 in R1.
  change (39 - 9 * 2) with 21 in R2.
  change (0 + 1) with 1 in R0. change (1 + 1) with 2 in R1. change (2 + 1) with 3 in R2.
  assert (∀ x t, tab r !! x = Some t →
    has_bits (Z.lor t FLAGS) 1 = true ∧ Z.land (Z.lor t FLAGS) ADDRESS_MASK = t ∧
    has_bits (Z.lor t FLAGS) PS = false ∧ has_bits (Z.lor t FLAGS) 2 = true ∧
    has_bits (Z.lor t FLAGS) NX = false) as Hent.
  { intros x t Hx. pose proof (rep_frame k r _ _ Hr Hx) as Hf. split; [apply table_entry_present|].
    split; [by apply table_entry_mask|]. by apply table_entry_flags. }
  assert (leaf r !! vpn a ≠ None → ∀ l, 1 ≤ l ≤ 3 → tab r !! (l, prefix (vpn a) l) ≠ None) as Hup.
  { intros Hl l Hlr. destruct (leaf r !! vpn a) as [e|] eqn:He; [|done].
    destruct (leaf_chain k r _ _ Hr He) as (? & ? & ? & ? & [C0 C1 C2 C3]).
    assert (l = 1 ∨ l = 2 ∨ l = 3) as [->|[->| ->]] by lia; congruence. }
  assert (∀ l, 1 ≤ l ≤ 3 → tab r !! (l, prefix (vpn a) l) = None → None = leaf r !! vpn a) as Hno.
  { intros l Hl Hn. destruct (leaf r !! vpn a); [|done]. by destruct (Hup ltac:(done) l Hl). }
  rewrite R0. destruct (tab r !! (1, prefix (vpn a) 1)) as [t1|] eqn:C1; [|by apply (Hno 1)].
  destruct (Hent _ _ C1) as (-> & -> & -> & -> & ->). cbn [negb orb andb].
  rewrite (R1 _ eq_refl). destruct (tab r !! (2, prefix (vpn a) 2)) as [t2|] eqn:C2; [|by apply (Hno 2)].
  destruct (Hent _ _ C2) as (-> & -> & -> & -> & ->). cbn [negb orb andb].
  rewrite (R2 _ eq_refl). destruct (tab r !! (3, prefix (vpn a) 3)) as [t3|] eqn:C3; [|by apply (Hno 3)].
  destruct (Hent _ _ C3) as (-> & -> & -> & -> & ->). cbn [negb orb andb].
  rewrite (R3 _ eq_refl). destruct (leaf r !! vpn a) as [e|] eqn:He; [|done].
  change (default 0 (Some e)) with e.
  rewrite (leaf_present k r _ _ Hr He). unfold effective. by rewrite Z.lor_0_r.
Qed.

(** ** The tables a page needs *)

Lemma occupied_shared n k r p :
  rep k r → (∀ q, dynamic_page q → tight r q) → dynamic_page p → (n ≤ 2)%nat →
  is_Some (tab r !! (3 - Z.of_nat n, prefix p (3 - Z.of_nat n))) →
  ∃ q e, leaf r !! q = Some e ∧ prefix q (3 - Z.of_nat n) = prefix p (3 - Z.of_nat n).
Proof.
  intros Hr Hlean. revert p. induction n as [|n IH]; intros p Hp Hn [t Ht];
    (edestruct (Hlean p Hp) as (j & Hj & Hne); [|exact Ht|]; [lia|]).
  - change (3 - Z.of_nat 0) with 3 in *. unfold entry_of in Hne. simpl in Hne.
    destruct (leaf r !! _) as [e|] eqn:He; [|done]. do 2 eexists. split; [exact He|].
    unfold prefix at 1. change (512 ^ (4 - 3)) with 512. by apply child_key.
  - set (l := 3 - Z.of_nat (S n)) in *. unfold entry_of in Hne.
    rewrite (proj2 (Z.ltb_lt l 3)) in Hne by lia.
    destruct (tab r !! (l + 1, prefix p l * 512 + j)) as [c|] eqn:Hc; [|done].
    set (q := (prefix p l * 512 + j) * 512 ^ (3 - l)).
    assert (prefix q (l + 1) = prefix p l * 512 + j) as Hq.
    { unfold prefix at 1, q. replace (4 - (l + 1)) with (3 - l) by lia.
      apply Z.div_mul. apply Z.pow_nonzero; lia. }
    assert (prefix q l = prefix p l) as Hql.
    { rewrite <- (prefix_parent q l), Hq by lia. by apply child_key. }
    assert (dynamic_page q) as Hdq.
    { unfold dynamic_page in *. rewrite <- Hp. destruct (decide (l = 1)) as [He|].
      - by rewrite He in Hql.
      - assert (l = 2) as He by lia. rewrite He in Hql.
        rewrite <- (prefix_parent q 1), <- (prefix_parent p 1) by lia.
        change (1 + 1) with 2. by rewrite Hql. }
    destruct (IH q Hdq ltac:(lia)) as (q' & e & He & Hpre).
    { replace (3 - Z.of_nat n) with (l + 1) by lia. rewrite Hq. by eexists. }
    replace (3 - Z.of_nat n) with (l + 1) in Hpre by lia.
    exists q', e. split; [done|].
    by rewrite <- Hql, <- (prefix_parent q' l), <- (prefix_parent q l), Hpre by lia.
Qed.

(** In the window, a table exists exactly when a mapped page is under it. *)
Lemma table_shared k r p l :
  good k r → dynamic_page p → 1 ≤ l ≤ 3 →
  shared (leaf r) p l = bool_decide (is_Some (tab r !! (l, prefix p l))).
Proof.
  intros [Hr Hlean _ _ _] Hp Hl. unfold shared. apply bool_decide_ext. split.
  - intros (q & e & He & Hpre). destruct (leaf_chain k r q e Hr He) as (t0 & t1 & t2 & t3 & []).
    rewrite <- Hpre. assert (l = 1 ∨ l = 2 ∨ l = 3) as [->|[->| ->]] by lia; by eexists.
  - intros Ht. pose proof (occupied_shared (Z.to_nat (3 - l)) k r p Hr Hlean Hp ltac:(lia)) as Ho.
    replace (3 - Z.of_nat (Z.to_nat (3 - l))) with l in Ho by lia.
    destruct (Ho Ht) as (q & e & He & Hpre). by exists q, e.
Qed.

Lemma shared_fmap {X Y} (f : X → Y) (m : gmap Z X) p l : shared (f <$> m) p l = shared m p l.
Proof.
  unfold shared. apply bool_decide_ext. split; intros (q & e & He & Hpre).
  - apply lookup_fmap_Some in He as (x & _ & Hx). by exists q, x.
  - exists q, (f e). split; [|done]. by rewrite lookup_fmap, He.
Qed.

Lemma missing_needed k r p :
  good k r → dynamic_page p → missing r p 3 = needed (decode <$> leaf r) p.
Proof.
  intros Hg Hp. unfold needed. cbn [filter list_filter missing].
  change (3 - Z.of_nat 2) with 1. change (3 - Z.of_nat 1) with 2. change (3 - Z.of_nat 0) with 3.
  rewrite !shared_fmap.
  assert (∀ l, 1 ≤ l ≤ 3 →
    shared (leaf r) p l = match tab r !! (l, prefix p l) with Some _ => true | None => false end) as H.
  { intros l Hl. rewrite (table_shared k r p l Hg Hp Hl).
    destruct (tab r !! (l, prefix p l)); [by apply bool_decide_true|].
    by apply bool_decide_false; intros [? ?]. }
  rewrite !H by lia.
  by destruct (tab r !! (1, prefix p 1)), (tab r !! (2, prefix p 2)), (tab r !! (3, prefix p 3)).
Qed.

(** ** Every operation keeps the invariant *)

(** The entries of a table only grow when the tree does. *)
Lemma occupied_mono k' r r' l q :
  rep k' r' → tab r ⊆ tab r' → (∀ p, is_Some (leaf r !! p) → is_Some (leaf r' !! p)) →
  occupied r l q → occupied r' l q.
Proof.
  intros Hr' Hsub Hleaf (j & Hj & Hne). exists j. split; [done|]. unfold entry_of in *.
  destruct (l <? 3).
  - destruct (tab r !! (l + 1, q * 512 + j)) as [c|] eqn:Hc; [|done].
    rewrite (lookup_weaken _ _ _ _ Hc Hsub). apply frame_entry_nonzero.
  - destruct (leaf r !! (q * 512 + j)) as [e|] eqn:He; [|done].
    destruct (Hleaf (q * 512 + j)) as [e' He']; [by eexists|]. rewrite He'.
    change (default 0 (Some e')) with e'. intros ->.
    by apply (rep_leaf_entry k' r' Hr') in He' as [_ ?].
Qed.

(** The path of a mapped page has no empty table. *)
Lemma mapped_tight k r p e : rep k r → leaf r !! p = Some e → tight r p.
Proof.
  intros Hr He l t Hl Ht. destruct (leaf_chain k r p e Hr He) as (t0 & t1 & t2 & t3 & [C0 C1 C2 C3]).
  assert (l = 1 ∨ l = 2 ∨ l = 3) as [->|[->| ->]] by lia.
  - by apply (occupied_parent r p 1 t2).
  - by apply (occupied_parent r p 2 t3).
  - exists (prefix p 4 mod 512). split; [apply mod512_range|]. unfold entry_of. cbn [Z.ltb].
    change 4 with (3 + 1). rewrite prefix_step by lia. change (3 + 1) with 4.
    rewrite prefix_4. change (3 <? 3) with false. cbv iota. rewrite He.
    change (default 0 (Some e)) with e. intros ->.
    by apply (rep_leaf_entry k r Hr) in He as [_ ?].
Qed.

Lemma off_path_dec p x : { l | x = (l, prefix p l) ∧ 1 ≤ l ≤ 3 } + { off_path p x }.
Proof.
  destruct x as [l q]. destruct (decide (q = prefix p l ∧ 1 ≤ l ≤ 3)) as [[-> Hl]|Hn].
  - left. by exists l.
  - right. intros l' Hl' [= -> ->]. by apply Hn.
Qed.

(** If the page's own path has no empty table, and elsewhere tables keep
    their entries, no path has an empty table. *)
Lemma tight_elsewhere r r' p p' :
  tight r' p → tight r p' →
  (∀ x, off_path p x → tab r' !! x = tab r !! x) →
  (∀ l q, 1 ≤ l ≤ 3 → off_path p (l, q) → occupied r l q → occupied r' l q) →
  tight r' p'.
Proof.
  intros Hp Hp' Hoff Hocc l t Hl Ht.
  destruct (off_path_dec p (l, prefix p' l)) as [(l' & [= <- Heq] & _)|Ho].
  - rewrite Heq in *. by eapply Hp.
  - apply Hocc; [done..|]. rewrite Hoff in Ht by done. by eapply Hp'.
Qed.

Lemma occupied_unmap r r' p l q :
  leaf r' = delete p (leaf r) → (∀ x, off_path p x → tab r' !! x = tab r !! x) →
  1 ≤ l ≤ 3 → off_path p (l, q) → occupied r l q → occupied r' l q.
Proof.
  intros Hleaf Hoff Hl Ho (j & Hj & Hne). exists j. split; [done|]. unfold entry_of in *.
  destruct (child_key q j Hj) as [Hdiv _].
  destruct (Z.ltb_spec l 3).
  - rewrite Hoff; [done|]. intros l' Hl' [= <- Hq]. apply (Ho l); [lia|].
    by rewrite <- Hdiv, Hq, prefix_parent by lia.
  - rewrite Hleaf, lookup_delete_ne; [done|]. intros Hq. apply (Ho l); [lia|].
    assert (l = 3) as -> by lia. rewrite <- (prefix_parent p 3) by lia.
    change (3 + 1) with 4. by rewrite prefix_4, <- Hdiv, Hq.
Qed.

Lemma tlb_insert k r k' p e :
  good k r → stable k k' → tlb (cpu k') !! p = None → tlb (cpu k') ⊆ <[p := e]> (leaf r).
Proof.
  intros Hg Hst Hnone. apply map_subseteq_spec. intros x v Hx.
  destruct (decide (x = p)) as [->|Hne]; [by rewrite Hnone in Hx|].
  rewrite lookup_insert_ne by done. eapply lookup_weaken; [|apply (g_tlb k r Hg)].
  by eapply lookup_weaken; [|apply (st_tlb k k' Hst)].
Qed.

Lemma tlb_delete k r k' p :
  good k r → stable k k' → tlb (cpu k') !! p = None → tlb (cpu k') ⊆ delete p (leaf r).
Proof.
  intros Hg Hst Hnone. apply map_subseteq_spec. intros x v Hx.
  destruct (decide (x = p)) as [->|Hne]; [by rewrite Hnone in Hx|].
  rewrite lookup_delete_ne by done. eapply lookup_weaken; [|apply (g_tlb k r Hg)].
  by eapply lookup_weaken; [|apply (st_tlb k k' Hst)].
Qed.

Lemma root_stable k r k' :
  good k r → stable k k' → Z.land (cr3 (cpu k')) ADDRESS_MASK = paging_root k'.
Proof.
  intros Hg Hst. rewrite (st_root k k' Hst), <- (g_root k r Hg). f_equal.
  by injection (st_registers k k' Hst).
Qed.

Lemma same_good k r k' : good k r → rep k' r → stable k k' → good k' r.
Proof.
  intros Hg Hr' Hst. split; [done|apply Hg|apply Hg| |by eapply root_stable].
  etrans; [apply (st_tlb k k' Hst)|apply Hg].
Qed.

Lemma map_good k r k' r' a ph fl :
  good k r → mapped_to k r k' r' a ph fl → leaf r !! vpn a = None →
  frame ph → 0 ≤ fl < 4 → good k' r'.
Proof.
  intros Hg Hm Hn Hph Hfl. pose proof Hm as [Hr' Hst Hleaf Hsub Hoff Htlb _].
  assert (leaf r' !! vpn a = Some (Z.lor ph (leaf_flags fl))) as He
    by by rewrite Hleaf, lookup_insert_eq.
  split; [done| | | |by eapply root_stable].
  - intros p Hp. apply (tight_elsewhere r r' (vpn a)); [by eapply mapped_tight|by apply Hg|done|].
    intros l q _ _. apply (occupied_mono k'); [done..|]. rewrite Hleaf. intros x Hx.
    by rewrite lookup_insert_is_Some'; right.
  - intros p e Hp. rewrite Hleaf, lookup_insert. case_decide; [|by apply Hg].
    intros [= <-]. by exists ph, fl.
  - rewrite Hleaf. by eapply tlb_insert.
Qed.

Lemma unmap_good k r k' r' a :
  good k r → unmapped_to k r k' r' a → good k' r'.
Proof.
  intros Hg [Hr' Hst Hleaf Hsub Hoff Ht Htlb _].
  split; [done| | | |by eapply root_stable].
  - intros p Hp. apply (tight_elsewhere r r' (vpn a)); [done|by apply Hg|done|].
    intros l q. by apply occupied_unmap.
  - intros p e Hp. rewrite Hleaf, lookup_delete. case_decide; [done|]. by apply Hg.
  - rewrite Hleaf. by eapply tlb_delete.
Qed.

Lemma protect_good k r k' r' a e fl :
  good k r → protected_to k r k' r' a fl → leaf r !! vpn a = Some e →
  dynamic_page (vpn a) → 0 ≤ fl < 4 →
  good k' r' ∧ leaf r' = <[vpn a := Z.lor (fst (decode e)) (leaf_flags fl)]> (leaf r).
Proof.
  intros Hg [Hr' Hst Hleaf Htab Htlb] He Hd Hfl. specialize (Hleaf e He). split; [|done].
  destruct (g_leaf k r Hg _ e Hd He) as (ph & fl0 & Hph & Hfl0 & Hent).
  split; [done| | | |by eapply root_stable].
  - intros p Hp l t Hl Ht. rewrite Htab in Ht. apply (occupied_mono k' r); [done|by rewrite Htab| |].
    + intros x Hx. rewrite Hleaf. by rewrite lookup_insert_is_Some'; right.
    + by eapply (g_lean k r Hg).
  - intros p e' Hp. rewrite Hleaf, lookup_insert. case_decide; [|by apply Hg].
    intros [= <-]. exists ph, fl. by rewrite Hent, leaf_entry_mask.
  - rewrite Hleaf. by eapply tlb_insert.
Qed.

Lemma access_good k r a :
  good k r → good (snd (access a k)) r ∧ fst (access a k) = decode <$> leaf r !! vpn a.
Proof.
  intros Hg. unfold access. destruct (tlb (cpu k) !! vpn a) as [e|] eqn:Ht.
  { split; [done|]. by rewrite (lookup_weaken _ _ _ _ Ht (g_tlb k r Hg)). }
  rewrite (walk_leaf k r a Hg). destruct (leaf r !! vpn a) as [e|] eqn:He; [|done].
  split; [|done]. destruct Hg as [[] ? ? Htlb ?]. split; try done.
  by apply insert_subseteq_l.
Qed.

Lemma evict_good k r p : good k r → good (evict p k) r.
Proof.
  intros [[] ? ? Htlb ?]. split; try done. etrans; [|exact Htlb]. apply delete_subseteq.
Qed.

(** ** Simulation *)

(** What no operation and no access changes: the pool and the callers' pages,
    the root, the registers, and all memory but tables and free pages. *)
Record preserved k k' : Prop := {
  pr_pool : pmm_pool (pmm k') = pmm_pool (pmm k);
  pr_others : others k' = others k;
  pr_root : paging_root k' = paging_root k;
  pr_active : active k' = active k;
  pr_previous : paging_previous_cr3 k' = paging_previous_cr3 k;
  pr_registers : registers (cpu k') = registers (cpu k);
  pr_memory a :
    page_of a ∉ pmm_pool (pmm k) ∖ others k → load (mem k') a = load (mem k) a;
}.

#[export] Instance preserved_preorder : PreOrder preserved.
Proof.
  split.
  - intros k. by split.
  - intros k1 k2 k3 [] []. split; try congruence.
    intros a Ha. rewrite <- pr_memory0 by done. apply pr_memory1. congruence.
Qed.

Lemma stable_preserved k k' : stable k k' → preserved k k'.
Proof. intros []. by split. Qed.

Lemma enabled_preserved k k' : preserved k k' → enabled k' = enabled k.
Proof.
  intros Hp. unfold enabled, x86_read_rflags. rewrite (pr_active k k' Hp).
  by injection (pr_registers k k' Hp) as ->.
Qed.

Lemma abstract_preserved k r k' r' :
  preserved k k' →
  abstract k' r' =
  Space (enabled k) (others k) (decode <$> leaf r') (pmm_available (pmm k')) (paging_table_count k').
Proof.
  intros Hp. unfold abstract. by rewrite (enabled_preserved k k' Hp), (pr_others k k' Hp).
Qed.

(** A refused operation leaves the abstract space as it was. *)
Lemma same_abstract k r k' :
  rep k r → rep k' r → stable k k' → abstract k' r = abstract k r.
Proof.
  intros Hr Hr' Hst. destruct (same_tree_available k r k' Hr Hr' Hst) as [Hav Hc].
  rewrite (abstract_preserved k r) by by apply stable_preserved. by rewrite Hav, Hc.
Qed.

Definition simulates k r (e : event) : Prop :=
  ∃ r', good (snd (kernel_step e k)) r' ∧
    space_step e (abstract k r) =
      (fst (kernel_step e k), abstract (snd (kernel_step e k)) r') ∧
    preserved k (snd (kernel_step e k)).

Lemma map_simulates k r a ph fl :
  is_u64 a → 0 ≤ fl < 2 ^ 32 → good k r → simulates k r (Map a ph fl).
Proof.
  intros Ha Hfl Hg. pose proof (g_rep k r Hg) as Hr. unfold simulates. cbn [kernel_step space_step].
  pose proof (paging_map_cases k r a ph fl Hr) as Hc.
  assert (map_guard k a ph fl =
    enabled k && in_window a && good_flags fl && bool_decide (ph ∈ others k)) as Hgd.
  { unfold map_guard. by rewrite dynamic_address_split, <- good_flags_eq. }
  assert (enabled k && in_window a = true → missing r (vpn a) 3 = needed (decode <$> leaf r) (vpn a)) as Hmn.
  { intros Hd. apply (missing_needed k); [done|]. apply (dynamic_address_page k); [done|].
    by rewrite dynamic_address_split. }
  assert (bool_decide ((decode <$> leaf r) !! vpn a = None) = bool_decide (leaf r !! vpn a = None)) as Hbn
    by (apply bool_decide_ext; by rewrite lookup_fmap, fmap_None).
  cbn [abstract sp_enabled sp_callers sp_map sp_frames sp_tables]. rewrite Hbn, <- Hgd.
  destruct (paging_map a ph fl k) as [[|] k']; cbn [fst snd].
  - destruct Hc as (Hgt & Hn & Hle & r' & Hm). pose proof Hm as [Hr' Hst Hleaf _ _ _ Hcount].
    pose proof Hgt as Hb. unfold map_guard in Hb. rewrite !andb_true_iff, negb_true_iff in Hb.
    destruct Hb as [[Hd Hbf] Hph]. apply bool_decide_eq_true in Hph.
    pose proof (others_frame k r ph Hr Hph) as Hf.
    pose proof (good_flags_range fl Hfl Hbf) as Hr4.
    rewrite dynamic_address_split in Hd. rewrite <- (Hmn Hd), Hgt, Hn.
    exists r'. split; [by eapply map_good|]. split; [|by apply stable_preserved].
    rewrite bool_decide_true by done. unfold tables_left in Hle. rewrite (proj2 (Z.leb_le _ _)) by done.
    cbn [andb]. rewrite (abstract_preserved k r) by by apply stable_preserved.
    pose proof (available_stable k r k' r' Hr Hr' Hst).
    rewrite Hleaf, fmap_insert, decode_entry by done. do 2 f_equal; lia.
  - destruct Hc as (Hr' & Hst & Hno). exists r. split; [by apply (same_good k)|].
    split; [|by apply stable_preserved]. rewrite (same_abstract k r k') by done.
    destruct (map_guard k a ph fl) eqn:Hgt; [|done]. cbn [andb].
    destruct (bool_decide (leaf r !! vpn a = None)) eqn:Hbd; [|done]. cbn [andb].
    apply bool_decide_eq_true in Hbd. destruct Hno as [|[[? Hs]|Hlt]]; [done|congruence|].
    rewrite <- Hmn by by destruct (enabled k && in_window a).
    unfold tables_left in Hlt. by rewrite (proj2 (Z.leb_gt _ _)).
Qed.

Lemma unmap_simulates k r a : is_u64 a → good k r → simulates k r (Unmap a).
Proof.
  intros Ha Hg. pose proof (g_rep k r Hg) as Hr. unfold simulates. cbn [kernel_step space_step].
  pose proof (paging_unmap_cases k r a Hr) as Hc.
  cbn [abstract sp_enabled sp_callers sp_map sp_frames sp_tables].
  rewrite (bool_decide_ext _ (is_Some (leaf r !! vpn a)))
    by (by rewrite lookup_fmap, fmap_is_Some).
  rewrite <- dynamic_address_split.
  destruct (paging_unmap a k) as [[|] k']; cbn [fst snd].
  - destruct Hc as (Hd & Hs & r' & Hu). pose proof Hu as [Hr' Hst Hleaf _ _ _ _ Hcount].
    pose proof (unmap_good k r k' r' a Hg Hu) as Hg'.
    pose proof (dynamic_address_page k a Ha Hd) as Hp.
    exists r'. split; [done|]. split; [|by apply stable_preserved].
    rewrite Hd, bool_decide_true by done. cbn [andb].
    rewrite (abstract_preserved k r) by by apply stable_preserved.
    pose proof (available_stable k r k' r' Hr Hr' Hst).
    rewrite (missing_needed k' r' _ Hg' Hp), Hleaf in Hcount.
    rewrite Hleaf, <- fmap_delete. do 2 f_equal; lia.
  - destruct Hc as [-> Hno]. exists r. split; [done|]. split; [|done].
    destruct (dynamic_address k a); [|done]. destruct Hno as [|Hn]; [done|].
    rewrite bool_decide_false; [done|]. rewrite Hn. by intros [? ?].
Qed.

Lemma protect_simulates k r a fl :
  is_u64 a → 0 ≤ fl < 2 ^ 32 → good k r → simulates k r (Protect a fl).
Proof.
  intros Ha Hfl Hg. pose proof (g_rep k r Hg) as Hr. unfold simulates. cbn [kernel_step space_step].
  pose proof (paging_protect_cases k r a fl Hr) as Hc.
  cbn [abstract sp_enabled sp_callers sp_map sp_frames sp_tables].
  rewrite <- dynamic_address_split, good_flags_eq, lookup_fmap by done.
  destruct (paging_protect a fl k) as [[|] k']; cbn [fst snd].
  - destruct Hc as (Hd & Hbf & [e He] & r' & Hpt). pose proof Hpt as [Hr' Hst _ Htab _].
    destruct (protect_good k r k' r' a e fl Hg Hpt He) as [Hg' Hleaf];
      [by apply (dynamic_address_page k)|by apply good_flags_range|].
    exists r'. split; [done|]. split; [|by apply stable_preserved].
    rewrite Hd, Hbf, He. cbn [andb negb fmap option_fmap option_map].
    rewrite (abstract_preserved k r) by by apply stable_preserved.
    destruct (g_leaf k r Hg _ e (dynamic_address_page k a Ha Hd) He) as (ph & fl0 & Hph & Hf0 & Hent).
    assert (decode e = (ph, fl0)) as Hdec by by rewrite Hent, decode_entry.
    rewrite Hleaf, Hdec, fmap_insert. cbn [fst].
    rewrite decode_entry by (done || by apply good_flags_range).
    pose proof (same_tables_used k r k' r' Hr Hr' Hst Htab) as Hused.
    pose proof (available_stable k r k' r' Hr Hr' Hst) as Hsum.
    rewrite !pmm_available_spec in * by (by apply Hr || by apply Hr').
    rewrite Hused, (st_pool k k' Hst) in *. do 2 f_equal; lia.
  - destruct Hc as [-> Hno]. exists r. split; [done|]. split; [|done].
    destruct (dynamic_address k a); [|done]. destruct (bad_flags fl); [done|].
    destruct Hno as [|[|Hn]]; [done..|]. by rewrite Hn.
Qed.

Lemma kernel_step_simulates e k r : typed e → good k r → simulates k r e.
Proof.
  intros He Hg. destruct e as [a ph fl|a|a fl|a|a|p]; simpl in He.
  - destruct He. by apply map_simulates.
  - by apply unmap_simulates.
  - destruct He. by apply protect_simulates.
  - exists r. split; [done|]. split; [|done]. cbn [kernel_step space_step fst snd].
    rewrite (paging_query_eq k r a (g_rep k r Hg)), dynamic_address_split.
    cbn [abstract sp_enabled sp_map]. by rewrite lookup_fmap.
  - destruct (access_good k r a Hg) as [Hg' Ht]. exists r. unfold simulates. cbn [kernel_step space_step].
    assert (preserved k (snd (access a k)) ∧ abstract (snd (access a k)) r = abstract k r) as [Hp Heq].
    { unfold access. destruct (tlb (cpu k) !! vpn a); [done|]. by destruct (walk k a). }
    destruct (access a k) as [t k']. simpl in *. subst. split; [done|]. split; [|done].
    by rewrite lookup_fmap, Heq.
  - exists r. split; [by apply evict_good|]. by split.
Qed.

End space.

End PagingSpace.
