(* ===== verification/PagingSpec.v ===== *)
(** * What the page tables promise

    The properties of the dynamic interface of [kernel/paging.c], over any
    allocator that keeps its contract, for any sequence of calls, memory
    accesses and evictions of cached translations; and a concrete address
    space over the real allocator in which they are instantiated. *)

From S2P Require Import Prelude PmmInterface Pmm X86.
From S2P Require Import Paging PagingBits PagingModel PagingOps PagingStep PagingSpace.
Import X86 Paging PagingBits PagingModel PagingOps PagingStep PagingSpace.

Module PagingSpec.

#[local] Existing Instances Pmm.Pmm_api Pmm.Pmm_contract Pmm.pmm_wf_dec.

(** ** A concrete address space *)

(** Eight managed pages: the root of the tables, a caller's page, and six
    free ones. *)
Definition demo_pmm : Pmm.PMM := {|
  Pmm.eligible := foldr (λ p m, Pmm.set m p) ∅ (seqZ 256 8);
  Pmm.allocated := Pmm.set (Pmm.set ∅ 256) 257;
  Pmm.total_pages := 8; Pmm.free_pages := 6; Pmm.cursor := 256; Pmm.ready := true |}.

Definition demo_cpu : CPU := {|
  rflags := 2; cr0 := 0x80010033; cr3 := 256 * 4096; cr4 := 0x20; msr := ∅;
  X86.cpuid := λ _ _, Build_X86_CPUID_RESULT 0 0 0 0; tlb := ∅ |}.

Definition demo : PAGING Pmm.PMM :=
  Build_PAGING demo_pmm ∅ {[0 := 256 * 4096]} 1 (256 * 4096) 0 true demo_cpu.

Section bare.
Context {A : Type} `{!PmmApi A} `{!PmmContract A}.
Implicit Types (k : PAGING A) (r : radix).

(** An address space with an empty root satisfies the invariant. *)
Lemma bare_good k :
  pmm_inv (pmm k) → paging_root k ∈ pmm_used (pmm k) → paging_table_count k = 1 →
  table_page k 0 = paging_root k →
  (∀ i, 0 ≤ i < 512 → read_entry k (entry_at (paging_root k) i) = 0) →
  tlb (cpu k) = ∅ → Z.land (cr3 (cpu k)) ADDRESS_MASK = paging_root k →
  good k (bare (paging_root k)).
Proof.
  intros Hp Hu Hc Ht Hz Htlb Hcr. split; [by apply bare_rep| | | |done].
  - intros p _ l t Hl0 [[= -> _] _]%bare_lookup. lia.
  - done.
  - rewrite Htlb. apply map_empty_subseteq.
Qed.

(** ** Sequences *)

Lemma run_good es k r :
  Forall typed es → good k r →
  ∃ r', good (snd (run kernel_step es k)) r' ∧
    run space_step es (abstract k r) =
      (fst (run kernel_step es k), abstract (snd (run kernel_step es k)) r') ∧
    preserved k (snd (run kernel_step es k)).
Proof.
  intros Hes. revert k r. induction Hes as [|e es He _ IH]; intros k r Hg; simpl; [by exists r|].
  destruct (kernel_step_simulates e k r He Hg) as (r1 & Hg1 & Hs1 & Hp1). rewrite Hs1.
  destruct (kernel_step e k) as [a k1]. simpl in *.
  destruct (IH k1 r1 Hg1) as (r2 & Hg2 & Hs2 & Hp2). rewrite Hs2.
  destruct (run kernel_step es k1) as [l k2]. simpl in *.
  exists r2. split; [done|]. split; [done|]. by etrans.
Qed.

(** ** What the trees of two states have in common *)

(** The tables of the window are determined by the mapped pages. *)
Lemma same_leaves_same_tables k r k' r' p m :
  good k r → good k' r' → dynamic_page p → leaf r' = leaf r →
  tab r ⊆ m → tab r' ⊆ m → (∀ x, off_path p x → tab r' !! x = tab r !! x) → tab r' = tab r.
Proof.
  intros Hg Hg' Hp Hleaf Hm Hm' Hoff. apply map_eq. intros x.
  destruct (off_path_dec p x) as [(l & -> & Hl)|Ho]; [|by apply Hoff].
  pose proof (table_shared k r p l Hg Hp Hl) as Hs.
  pose proof (table_shared k' r' p l Hg' Hp Hl) as Hs'. rewrite Hleaf, Hs in Hs'.
  destruct (tab r !! (l, prefix p l)) as [t|] eqn:Ht, (tab r' !! (l, prefix p l)) as [t'|] eqn:Ht'.
  - by rewrite <- (lookup_weaken _ _ _ _ Ht Hm), <- (lookup_weaken _ _ _ _ Ht' Hm').
  - by rewrite bool_decide_true, bool_decide_false in Hs' by (by eexists || by intros [? ?]).
  - by rewrite bool_decide_false, bool_decide_true in Hs' by (by eexists || by intros [? ?]).
  - done.
Qed.

(** No call and no access changes the mapping of a page outside the window. *)
Lemma space_step_outside e s p :
  typed e → ¬ dynamic_page p → sp_map (snd (space_step e s)) !! p = sp_map s !! p.
Proof.
  intros He Hp.
  assert (∀ a, is_u64 a → sp_enabled s && in_window a = true → p ≠ vpn a) as Hne.
  { intros a Ha Hd ->. apply Hp.
    apply andb_true_iff in Hd as [_ Hw]. by apply in_window_page. }
  destruct e as [a ph fl|a|a fl|a|a|q]; simpl in He |- *; try done.
  - destruct He as [Ha _]. specialize (Hne a Ha).
    destruct (sp_enabled s && in_window a); [|done]. destruct (_ && _); [|done].
    simpl. rewrite lookup_insert_ne; [done|]. intros Heq. by apply Hne.
  - specialize (Hne a He). destruct (sp_enabled s && in_window a); [|done].
    destruct (_ && _); [|done]. simpl. rewrite lookup_delete_ne; [done|]. intros Heq. by apply Hne.
  - destruct He as [Ha _]. specialize (Hne a Ha).
    destruct (sp_enabled s && in_window a); [|done]. destruct (_ && _); [|done].
    destruct (sp_map s !! vpn a) as [[ph f]|]; [|done].
    simpl. rewrite lookup_insert_ne; [done|]. intros Heq. by apply Hne.
Qed.

Lemma space_run_outside es s p :
  Forall typed es → ¬ dynamic_page p → sp_map (snd (run space_step es s)) !! p = sp_map s !! p.
Proof.
  intros Hes Hp.
  apply (run_invariant space_step typed (λ s', sp_map s' !! p = sp_map s !! p)); [|done..].
  intros e s' He Heq. by rewrite space_step_outside.
Qed.

End bare.

(** The demonstration state satisfies the invariant. *)
Lemma demo_good : good demo (bare (256 * 4096)).
Proof.
  apply (bare_good demo).
  - apply (bool_decide_unpack (Pmm.pmm_wf demo_pmm)). by vm_compute.
  - apply (bool_decide_unpack _). by vm_compute.
  - reflexivity.
  - reflexivity.
  - intros i Hi. unfold read_entry, load. cbn [mem demo]. by rewrite lookup_empty.
  - reflexivity.
  - reflexivity.
Qed.

Section properties.
Context {A : Type} `{!PmmApi A} `{!PmmContract A}.
Implicit Types (k : PAGING A) (r : radix).

(** C13: for every sequence of paging calls interleaved with memory accesses and
    evictions of cached translations, the page tables answer exactly as the
    abstract address space: whether each call succeeds, what each query
    returns and how the processor translates each address are determined by
    the set of mapped pages, the callers' pages and the number of free
    frames; the invariant holds again in the end. *)
Theorem paging_refines_address_space es k r :
  Forall typed es → good k r →
  ∃ r', good (snd (run kernel_step es k)) r' ∧
    run space_step es (abstract k r) =
      (fst (run kernel_step es k), abstract (snd (run kernel_step es k)) r').
Proof.
  intros Hes Hg. destruct (run_good es k r Hes Hg) as (r' & Hg' & Hs & _). by exists r'.
Qed.

(** C14: [paging_map] succeeds exactly when dynamic paging is active with
    interrupts off, the address is a page of the window, the flags are
    permissions, the frame is a caller's allocated page, the page is not
    mapped and the missing tables fit the free frames and the table budget;
    and when it fails, nothing happened: the allocator has the same pages in
    use, as many tables are recorded and every address translates as
    before. *)
Theorem paging_map_all_or_nothing k r a physical flags :
  is_u64 a → 0 ≤ flags < 2 ^ 32 → good k r →
  let (b, k') := paging_map a physical flags k in
  b = enabled k && in_window a && good_flags flags && bool_decide (physical ∈ others k)
      && bool_decide (walk k a = None)
      && (needed (decode <$> leaf r) (vpn a) <=?
          Z.min (pmm_available (pmm k)) (MAX_TABLES - paging_table_count k)) ∧
  if b then decode <$> walk k' a = Some (physical, flags)
  else pmm_used (pmm k') = pmm_used (pmm k) ∧ paging_table_count k' = paging_table_count k ∧
       ∀ b, walk k' b = walk k b.
Proof.
  intros Ha Hf Hg. pose proof (paging_map_cases k r a physical flags (g_rep k r Hg)) as Hc.
  destruct (map_simulates k r a physical flags Ha Hf Hg) as (r' & Hg' & Hs & Hpr).
  cbn [kernel_step space_step] in *. destruct (paging_map a physical flags k) as [b k'].
  cbn [fst snd abstract sp_enabled sp_callers sp_map sp_frames sp_tables] in *.
  rewrite (bool_decide_ext ((decode <$> leaf r) !! vpn a = None) (walk k a = None)) in Hs
    by by rewrite lookup_fmap, fmap_None, (walk_leaf k r a Hg).
  split.
  { destruct (_ && (needed _ _ <=? _)) in Hs |- *; by injection Hs. }
  destruct b.
  - rewrite (walk_leaf k' r' a Hg'). rewrite <- lookup_fmap.
    assert (decode <$> leaf r' = <[vpn a := (physical, flags)]> (decode <$> leaf r)) as ->
      by (destruct (_ && _) in Hs; [by injection Hs|done]).
    by rewrite lookup_insert_eq.
  - destruct Hc as (Hr1 & Hst & _). destruct (same_tree_available k r k' (g_rep k r Hg) Hr1 Hst) as [_ Hct].
    split; [by eapply same_tables_used; [apply Hg|..]|]. split; [done|].
    intros c. by rewrite (walk_leaf k r c Hg), (walk_leaf k' r c (same_good k r k' Hg Hr1 Hst)).
Qed.

(** C15: unmapping the page [paging_map] has just mapped succeeds and restores
    everything: the allocator has exactly the same pages in use, the tables
    created for the mapping are given back, every address translates as
    before, and no translation of the page stays cached. *)
Theorem paging_map_unmap_roundtrip k r a physical flags :
  is_u64 a → 0 ≤ flags < 2 ^ 32 → good k r → fst (paging_map a physical flags k) = true →
  let (b, k') := paging_unmap a (snd (paging_map a physical flags k)) in
  b = true ∧ pmm_used (pmm k') = pmm_used (pmm k) ∧
  paging_table_count k' = paging_table_count k ∧
  (∀ c, walk k' c = walk k c) ∧ tlb (cpu k') !! vpn a = None.
Proof.
  intros Ha Hf Hg Hok. pose proof (paging_map_cases k r a physical flags (g_rep k r Hg)) as Hc.
  destruct (paging_map a physical flags k) as [b k1]. simpl in Hok. subst b. cbn [snd].
  destruct Hc as (Hgd & Hn & _ & r1 & Hm). unfold map_guard in Hgd.
  rewrite !andb_true_iff, negb_true_iff in Hgd. destruct Hgd as [[Hd Hbf] Hph].
  apply bool_decide_eq_true in Hph. pose proof (others_frame k r _ (g_rep k r Hg) Hph) as Hfr.
  pose proof (map_good k r k1 r1 a physical flags Hg Hm Hn Hfr (good_flags_range _ Hf Hbf)) as Hg1.
  destruct Hm as [Hr1 Hst1 Hleaf1 Hsub1 Hoff1 _ _].
  pose proof (paging_unmap_cases k1 r1 a Hr1) as Hc.
  destruct (paging_unmap a k1) as [[|] k2].
  2:{ destruct Hc as [_ [Hd'|Hl]]; [by rewrite (dynamic_address_stable k k1 a Hst1), Hd in Hd'|].
      by rewrite Hleaf1, lookup_insert_eq in Hl. }
  destruct Hc as (_ & _ & r2 & Hu). pose proof (unmap_good k1 r1 k2 r2 a Hg1 Hu) as Hg2.
  destruct Hu as [Hr2 Hst2 Hleaf2 Hsub2 Hoff2 _ Htlb _].
  assert (leaf r2 = leaf r) as Hleaf
    by by rewrite Hleaf2, Hleaf1, delete_insert_id.
  assert (tab r2 = tab r) as Htab.
  { apply (same_leaves_same_tables k r k2 r2 (vpn a) (tab r1)); try done.
    - by apply (dynamic_address_page k).
    - intros x Hx. by rewrite Hoff2, Hoff1. }
  assert (stable k k2) as Hst by by etrans.
  split; [done|]. split; [by apply (same_tables_used k r k2 r2); [apply Hg|..]|].
  assert (r2 = r) as -> by (destruct r, r2; simpl in *; congruence).
  split; [by apply (same_tree_available k r k2 (g_rep k r Hg) Hr2 Hst)|].
  split; [|done]. intros c. by rewrite (walk_leaf k2 r c Hg2), (walk_leaf k r c Hg).
Qed.

(** C16: [paging_query] reports what the processor does: for a page of the
    window the frame and the permissions of the hardware walk through all
    four levels, and failure exactly where the processor would fault. *)
Theorem paging_query_agrees_with_walk k r a :
  good k r → dynamic_address k a = true →
  paging_query a true k =
  (λ e, (Z.land e ADDRESS_MASK,
         (if has_bits e 2 then PAGING_WRITE else 0) + (if has_bits e NX then 0 else PAGING_EXEC)))
    <$> walk k a.
Proof.
  intros Hg Hd. rewrite (paging_query_eq k r a (g_rep k r Hg)), Hd, (walk_leaf k r a Hg).
  destruct (leaf r !! vpn a) as [e|]; [|done]. cbn [fmap option_fmap option_map]. unfold decode.
  by destruct (has_bits e 2), (has_bits e NX).
Qed.

(** C17: the callers' pages and all memory outside the allocator's pool are
    never written: after any sequence of calls and accesses, every word
    outside the page tables and the free frames has its old value, and the
    same pages are the callers'. *)
Theorem paging_preserves_callers_memory es k r x :
  Forall typed es → good k r →
  page_of x ∈ others k ∨ page_of x ∉ pmm_pool (pmm k) →
  let k' := snd (run kernel_step es k) in
  load (mem k') x = load (mem k) x ∧ others k' = others k ∧ pmm_pool (pmm k') = pmm_pool (pmm k).
Proof.
  intros Hes Hg Hx. destruct (run_good es k r Hes Hg) as (r' & _ & _ & Hp). cbv zeta.
  split; [|by split; apply Hp]. apply (pr_memory _ _ Hp).
  rewrite elem_of_difference. tauto.
Qed.

(** C18: no stale translation: after any sequence of calls, accesses and
    evictions, whatever translation is still cached is the one a walk of the
    current tables gives. *)
Theorem paging_tlb_coherent es k r a e :
  Forall typed es → good k r →
  tlb (cpu (snd (run kernel_step es k))) !! vpn a = Some e →
  walk (snd (run kernel_step es k)) a = Some e.
Proof.
  intros Hes Hg He. destruct (run_good es k r Hes Hg) as (r' & Hg' & _ & _).
  rewrite (walk_leaf _ r' a Hg'). by eapply lookup_weaken; [|apply (g_tlb _ r' Hg')].
Qed.

(** The identity map is out of reach of the dynamic interface: no
    sequence of calls and accesses changes how an address outside the dynamic
    window translates. *)
Theorem paging_changes_window_only es k r b :
  Forall typed es → good k r → ¬ dynamic_page (vpn b) →
  decode <$> walk (snd (run kernel_step es k)) b = decode <$> walk k b.
Proof.
  intros Hes Hg Hb. destruct (run_good es k r Hes Hg) as (r' & Hg' & Hs & _).
  rewrite (walk_leaf _ r' b Hg'), (walk_leaf k r b Hg), <- !lookup_fmap.
  pose proof (space_run_outside es (abstract k r) (vpn b) Hes Hb) as H.
  by rewrite Hs in H.
Qed.

(** The table of tables never overflows and is exact: after any sequence
    of calls there are at most 4096 records, no page is recorded twice, every
    recorded page is in use and none of them is a caller's, and the root is
    among them. *)
Theorem paging_table_records_exact es k r :
  Forall typed es → good k r →
  let k' := snd (run kernel_step es k) in
  0 < paging_table_count k' ≤ MAX_TABLES ∧ NoDup (table_list k') ∧
  paging_root k' ∈ table_list k' ∧
  (∀ t, t ∈ table_list k' → t ∈ pmm_used (pmm k') ∧ t ∉ others k').
Proof.
  intros Hes Hg. destruct (run_good es k r Hes Hg) as (r' & Hg' & _ & _).
  pose proof (g_rep _ r' Hg') as Hr. set (k' := snd _) in *. cbv zeta.
  assert (paging_root k' ∈ table_list k') as Hroot.
  { apply (rep_list k' r' Hr). exists (0, 0). apply Hr. }
  split; [|split; [apply Hr|split; [done|]]].
  - split; [|apply Hr]. apply table_list_elem in Hroot as (i & Hi & _). lia.
  - intros t Ht. split.
    + apply (rep_list k' r' Hr) in Ht as [x Hx]. by apply (rep_used k' r' Hr) in Hx.
    + unfold others. intros [_ Hn]%elem_of_difference. by apply Hn, elem_of_list_to_set.
Qed.

(** Before [paging_init] has activated the tables, and whenever
    interrupts are enabled, every function of the dynamic interface refuses
    and changes nothing at all. *)
Theorem paging_refuses_when_disabled k a physical flags o :
  enabled k = false →
  paging_map a physical flags k = (false, k) ∧ paging_unmap a k = (false, k) ∧
  paging_protect a flags k = (false, k) ∧ paging_query a o k = None.
Proof.
  intros He. unfold paging_map, paging_unmap, paging_protect, paging_query.
  by rewrite dynamic_address_split, He.
Qed.

End properties.

(** ** Instances *)

(** A page of the window, and a tour of the interface. *)
Definition window : Z := PAGING_DYNAMIC_BASE + 0x5000.
Definition tour : list event :=
  [Map window (257 * 4096) 1; Access window; Map window (257 * 4096) 0; Query window;
   Protect window 2; Access window; Evict 3; Unmap window; Access window; Query window;
   Map (window + 1) (257 * 4096) 1].

Lemma tour_typed : Forall typed tour.
Proof. repeat constructor; by vm_compute. Qed.

Lemma paging_refines_address_space_witness :
  ∃ r', good (snd (run kernel_step tour demo)) r' ∧
    run space_step tour (abstract demo (bare (256 * 4096))) =
      ([Answer true; Translation (Some (257 * 4096, 1)); Answer false;
        Translation (Some (257 * 4096, 1)); Answer true; Translation (Some (257 * 4096, 2));
        Silent; Answer true; Translation None; Translation None; Answer false],
       abstract (snd (run kernel_step tour demo)) r').
Proof. exact (paging_refines_address_space tour demo _ tour_typed demo_good). Defined.

Lemma paging_map_all_or_nothing_witness :
  let (b, k') := paging_map window (257 * 4096) 3 demo in
  b = enabled demo && in_window window && good_flags 3 && bool_decide (257 * 4096 ∈ others demo)
      && bool_decide (walk demo window = None)
      && (needed (decode <$> leaf (bare (256 * 4096))) (vpn window) <=?
          Z.min (pmm_available (pmm demo)) (MAX_TABLES - paging_table_count demo)) ∧
  if b then decode <$> walk k' window = Some (257 * 4096, 3)
  else pmm_used (pmm k') = pmm_used (pmm demo) ∧
       paging_table_count k' = paging_table_count demo ∧ ∀ b, walk k' b = walk demo b.
Proof. apply (paging_map_all_or_nothing demo); [done|done|exact demo_good]. Defined.

Lemma paging_map_unmap_roundtrip_witness :
  let (b, k') := paging_unmap window (snd (paging_map window (257 * 4096) 3 demo)) in
  b = true ∧ pmm_used (pmm k') = pmm_used (pmm demo) ∧
  paging_table_count k' = paging_table_count demo ∧
  (∀ c, walk k' c = walk demo c) ∧ tlb (cpu k') !! vpn window = None.
Proof.
  apply (paging_map_unmap_roundtrip demo (bare (256 * 4096)) window (257 * 4096) 3);
    [done|done|exact demo_good|by vm_compute].
Defined.

Lemma paging_query_agrees_with_walk_witness :
  paging_query window true (snd (run kernel_step (take 1 tour) demo)) =
  (λ e, (Z.land e ADDRESS_MASK,
         (if has_bits e 2 then PAGING_WRITE else 0) + (if has_bits e NX then 0 else PAGING_EXEC)))
    <$> walk (snd (run kernel_step (take 1 tour) demo)) window.
Proof.
  destruct (run_good (take 1 tour) demo _ (Forall_take _ 1 _ tour_typed) demo_good) as (r' & Hg & _).
  apply (paging_query_agrees_with_walk _ r' window Hg). by vm_compute.
Defined.

Lemma paging_preserves_callers_memory_witness :
  load (mem (snd (run kernel_step tour demo))) (257 * 4096 + 8) =
    load (mem demo) (257 * 4096 + 8) ∧
  others (snd (run kernel_step tour demo)) = others demo ∧
  pmm_pool (pmm (snd (run kernel_step tour demo))) = pmm_pool (pmm demo).
Proof.
  apply (paging_preserves_callers_memory tour demo _ (257 * 4096 + 8) tour_typed demo_good).
  left. apply (bool_decide_unpack _). by vm_compute.
Defined.

Lemma paging_tlb_coherent_witness :
  walk (snd (run kernel_step (take 2 tour) demo)) window = Some (Z.lor (257 * 4096) (leaf_flags 1)).
Proof.
  apply (paging_tlb_coherent (take 2 tour) demo _ window _ (Forall_take _ 2 _ tour_typed) demo_good).
  by vm_compute.
Defined.

(** The demonstration state with interrupts enabled. *)
Definition busy : PAGING Pmm.PMM := with_cpu demo (x86_enable_interrupts demo_cpu).

End PagingSpec.
