(* ===== verification/PagingInit.v ===== *)
(** * Page tables: [kernel/paging.c], initialization

    [paging_init] and its helpers: the identity map of boot RAM, the checks
    that everything the kernel runs on is mapped, the removal of the stack
    guards and the switch to the new tables. The addresses of the linker's
    symbols ([kernel/layout.h]) are a parameter. *)

From S2P Require Import Prelude BootInfo PmmInterface Pmm X86 Paging.
Import X86 Paging.

Module PagingInit.

(** The symbols [linker.ld] defines. *)
Record LAYOUT := {
  kernel_text_start : Z;
  kernel_text_end : Z;
  kernel_rodata_start : Z;
  kernel_rodata_end : Z;
  double_fault_guard_low : Z;
  double_fault_guard_high : Z;
}.

Section operations.
Context {A : Type} `{!PmmApi A}.
Implicit Types (k : PAGING A) (L : LAYOUT).

Definition with_root k (root : Z) : PAGING A :=
  Build_PAGING (pmm k) (mem k) (table_pages k) (paging_table_count k) root
    (paging_previous_cr3 k) (active k) (cpu k).

(** ** The identity map *)

(** One turn of the descent of [map_page]. *)
Definition map_page_level (address shift : Z) '((k, table) : PAGING A * Z)
    : ctl (PAGING A * Z) (PAGING A) :=
  let entry := entry_at table (index address shift) in
  if negb (has_bits (read_entry k entry) 1) then
    let '(child, k) := new_table k in
    if child =? 0 then Stop k
    else
      let k := write_entry k entry (Z.lor child FLAGS) in
      Next (k, Z.land (read_entry k entry) ADDRESS_MASK)
  else Next (k, Z.land (read_entry k entry) ADDRESS_MASK).

(** The flags of an identity-mapped page, by the section it lies in. *)
Definition page_flags L (address : Z) : Z :=
  if (kernel_text_start L <=? address) && (address <? kernel_text_end L) then 1
  else if (kernel_rodata_start L <=? address) && (address <? kernel_rodata_end L) then Z.lor 1 NX
  else Z.lor FLAGS NX.

Definition map_page L (address : Z) k : bool * PAGING A :=
  match foreach [39; 30; 21] (map_page_level address) (k, paging_root k) with
  | Stop k => (false, k)
  | Next (k, table) =>
      (true, write_entry k (entry_at table (index address 12))
               (Z.lor address (page_flags L address)))
  end.

(** The descent [mapped_range] makes for one page. *)
Definition page_mapped (page : Z) k : bool :=
  match
    foreach [39; 30; 21; 12] (λ shift table,
      let entry := read_entry k (entry_at table (index page shift)) in
      if negb (has_bits entry 1) then Stop false
      else if shift =? 12 then Stop (Z.land entry ADDRESS_MASK =? page)
      else Next (Z.land entry ADDRESS_MASK)) (paging_root k)
  with
  | Stop b => b
  | Next _ => false
  end.

Definition mapped_range (base size : Z) k : bool :=
  if (size =? 0) || (base <? 0x100000) || (PMM_LIMIT <=? base) || (PMM_LIMIT - base <? size)
  then false
  else
    match
      for_step (Z.land base (not64 4095)) 4096 (base + size) (λ page (_ : unit),
        if negb (page_mapped page k) then Stop tt else Next tt) tt
    with
    | Next _ => true
    | Stop _ => false
    end.

Definition supported_cpu_state (cr4 : Z) (c : CPU) : bool :=
  let rflags := x86_read_rflags c in
  if has_bits cr4 (Z.lor (bit64 12) (bit64 17)) || has_bits rflags 0x200 then false
  else if negb (Z.land (x86_read_msr 0x277 c) 255 =? 6) then false
  else if eax (x86_cpuid 0x80000000 0 c) <? 0x80000001 then false
  else if negb (has_bits (edx (x86_cpuid 0x80000001 0 c)) (bit64 20)) then false
  else true.

(** [info] is the address of the boot information, [offset] the loop counter
    over the descriptors, which are read from RAM as it is then. *)
Definition map_descriptor L (d : BOOT_MEMORY_DESCRIPTOR) k : ctl (PAGING A) (PAGING A) :=
  if negb (type d =? 1) && negb (type d =? 2) && negb (type d =? 7)
     || has_bits (attributes d) (bit64 63) then Next k
  else
    let begin := Pmm.clamp_begin d in
    let end_ := Pmm.clamp_end d in
    if end_ <=? begin then Next k
    else if negb (has_bits (attributes d) 8) then Stop k
    else
      for_step begin 4096 end_ (λ page k,
        match map_page L page k with
        | (true, k) => Next k
        | (false, k) => Stop k
        end) k.

Definition map_boot_ram L (info : Z) k : bool * PAGING A :=
  let b := read_info (mem k) info in
  match
    for_step 0 (descriptor_size b) (memory_map_size b) (λ offset k,
      map_descriptor L (read_descriptor (mem k) (u64 (memory_map b + offset))) k) k
  with
  | Next k => (true, k)
  | Stop k => (false, k)
  end.

Definition required_regions_mapped (info : Z) k : bool :=
  let b := read_info (mem k) info in
  if negb (mapped_range (kernel_base b) (kernel_size b) k) then false
  else if negb (mapped_range (stack_base b) (stack_size b) k) then false
  else if negb (mapped_range info sizeof_BOOT_INFO k) then false
  else if negb (mapped_range (memory_map b) (memory_map_size b) k) then false
  else
    match
      for_step 0 1 (paging_table_count k) (λ i (_ : unit),
        if negb (mapped_range (table_page k i) 4096 k) then Stop tt else Next tt) tt
    with
    | Next _ => true
    | Stop _ => false
    end.

(** ** Guards *)

Definition guards L (b : BOOT_INFO) : list Z :=
  [u64 (stack_base b - 4096); u64 (stack_base b + stack_size b);
   double_fault_guard_low L; double_fault_guard_high L].

(** The last-level table of an address, without any check on the way. *)
Definition last_table (address : Z) k : Z :=
  fold_left (λ table shift,
    Z.land (read_entry k (entry_at table (index address shift))) ADDRESS_MASK)
    [39; 30; 21] (paging_root k).

Definition unmap_guard (guard : Z) k : ctl (PAGING A) (PAGING A) :=
  if negb (mapped_range guard 4096 k) then Stop k
  else Next (write_entry k (entry_at (last_table guard k) (index guard 12)) 0).

Definition unmap_stack_guards L (info : Z) k : bool * PAGING A :=
  match foreach (guards L (read_info (mem k) info)) unmap_guard k with
  | Next k => (true, k)
  | Stop k => (false, k)
  end.

(** ** Activation *)

Definition activate_page_tables (cr4 : Z) k : PAGING A :=
  let c := cpu k in
  let previous := x86_read_cr3 c in
  let c := x86_write_msr 0xc0000080 (Z.lor (x86_read_msr 0xc0000080 c) (bit64 11)) c in
  let c := x86_write_cr0 (Z.lor (x86_read_cr0 c) (bit64 16)) c in
  let no_global := Z.land cr4 (not64 0x80) in
  let c := x86_write_cr4 no_global c in
  let c := x86_write_cr3 (paging_root k) c in
  let c := x86_write_cr4 cr4 c in
  Build_PAGING (pmm k) (mem k) (table_pages k) (paging_table_count k) (paging_root k)
    previous true c.

(** [while (paging_table_count) pmm_free(table_pages[--paging_table_count]);] *)
Definition discard_page_tables k : PAGING A :=
  let k :=
    for_all 0 1 (paging_table_count k) (λ _ k,
      let count := paging_table_count k - 1 in
      let k := with_tables k (table_pages k) count in
      with_pmm k (snd (pmm_free (table_page k count) (pmm k)))) k in
  with_root k 0.

Definition paging_init L (info : Z) k : bool * PAGING A :=
  if active k || (info =? 0) || (pmm_total (pmm k) =? 0) then (false, k)
  else
    let cr4 := x86_read_cr4 (cpu k) in
    if negb (supported_cpu_state cr4 (cpu k)) then (false, k)
    else
      let '(root, k) := new_table k in
      let k := with_root k root in
      if root =? 0 then (false, k)
      else
        match map_boot_ram L info k with
        | (false, k) => (false, discard_page_tables k)
        | (true, k) =>
            if negb (required_regions_mapped info k) then (false, discard_page_tables k)
            else
              match unmap_stack_guards L info k with
              | (false, k) => (false, discard_page_tables k)
              | (true, k) => (true, activate_page_tables cr4 k)
              end
        end.

End operations.

End PagingInit.
