(* ===== verification/PagingInitStep.v ===== *)
(** * The identity map as a tree

    What the steps of [paging_init] do to the represented tree: mapping a
    page, mapping a descriptor, checking a range, removing a guard. *)

From S2P Require Import Prelude BootInfo PmmInterface Pmm X86.
From S2P Require Import Paging PagingBits PagingModel PagingOps PagingStep PagingInit.
Import X86 Paging PagingBits PagingModel PagingOps PagingStep PagingInit.

Module PagingInitStep.

(** The entry of an identity-mapped page. *)
Definition id_entry (L : LAYOUT) (q : Z) : Z := Z.lor (q * 4096) (page_flags L (q * 4096)).

Lemma page_flags_leaf L a :
  ∃ f, 0 ≤ f < 4 ∧ page_flags L a = leaf_flags f ∧ ¬ (has_bits f 1 = true ∧ has_bits f 2 = true).
Proof.
  unfold page_flags. destruct (_ && _); [|destruct (_ && _)].
  - exists 2. by vm_compute; intuition.
  - exists 0. by vm_compute; intuition.
  - exists 1. by vm_compute; intuition.
Qed.

Lemma vpn_page q : 0 ≤ q < 2 ^ 36 → vpn (q * 4096) = q.
Proof. intros H. unfold vpn. rewrite Z.div_mul, Z.mod_small by lia. done. Qed.

Lemma id_entry_u64 L q : 0 ≤ q < 2 ^ 20 → is_u64 (id_entry L q).
Proof.
  intros H. destruct (page_flags_leaf L (q * 4096)) as (f & _ & Hf & _).
  unfold id_entry. rewrite Hf. apply is_u64_lor; [unfold is_u64; lia|apply leaf_flags_u64].
Qed.

Lemma id_entry_present L q : Z.testbit (id_entry L q) 0 = true.
Proof.
  destruct (page_flags_leaf L (q * 4096)) as (f & _ & Hf & _). unfold id_entry. rewrite Hf.
  apply leaf_entry_present.
Qed.

Section boot.
Context {A : Type} `{!PmmApi A} `{!PmmContract A}.
Context (L : LAYOUT).
Implicit Types (k : PAGING A) (r : radix) (S : Z → Prop).

(** The state represents a tree that maps exactly the pages of [S] to
    themselves, with no table above the first 512 GiB. *)
Record boot_tree k r S : Prop := {
  bt_rep : rep k r;
  bt_leaf q e : leaf r !! q = Some e ↔ S q ∧ e = id_entry L q;
  bt_low q t : tab r !! (1, q) = Some t → q = 0;
  bt_range q : S q → 256 ≤ q < 2 ^ 20;
}.

Lemma boot_tree_ext k r S S' : (∀ q, S q ↔ S' q) → boot_tree k r S → boot_tree k r S'.
Proof.
  intros HS [Hr Hl Ht Hrg]. split; [done| |done|].
  - intros q e. by rewrite Hl, HS.
  - intros q Hq. by apply Hrg, HS.
Qed.

(** ** Room

    [P] is what is to be mapped in the end: tables are only made on the way to
    one of its pages, so that a failure to make one means that they cannot all
    be made. *)

Definition within (P : Z → Prop) r : Prop :=
  ∀ l x t, tab r !! (l, x) = Some t → l = 0 ∨ 1 ≤ l ≤ 3 ∧ ∃ q, P q ∧ x = prefix q l.

Record exhausted (P : Z → Prop) k r : Prop := {
  ex_within : within P r;
  ex_missing : ∃ q l, P q ∧ 1 ≤ l ≤ 3 ∧ tab r !! (l, prefix q l) = None;
  ex_none : paging_table_count k = MAX_TABLES ∨ pmm_available (pmm k) = 0;
}.

(** ** Mapping *)

Lemma map_page_level_eq a s k t :
  map_page_level a s (k, t) =
  match map_level a s (k, t, []) with
  | Next (k, t, _) => Next (k, t)
  | Stop k => Stop k
  end.
Proof.
  unfold map_page_level, map_level. destruct (has_bits _ 1); cbn [negb]; [done|].
  destruct (new_table k) as [c k']. by destruct (c =? 0).
Qed.

Lemma map_page_levels (P : Z → Prop) n k r q t S :
  (n ≤ 3)%nat → 0 ≤ q < 2 ^ 20 → P q → boot_tree k r S → within P r →
  tab r !! (3 - Z.of_nat n, prefix q (3 - Z.of_nat n)) = Some t →
  match foreach (shifts n) (map_page_level (q * 4096)) (k, t) with
  | Next (k', t') =>
      ∃ r', boot_tree k' r' S ∧ stable k k' ∧ within P r' ∧ tab r' !! (3, prefix q 3) = Some t'
  | Stop k' => ∃ r', boot_tree k' r' S ∧ stable k k' ∧ exhausted P k' r'
  end.
Proof.
  intros Hn Hq HP. revert k r t. induction n as [|n IH]; intros k r t [Hr Hleaf Hlow Hrg] Hin Ht.
  { by exists r. }
  cbn [shifts foreach]. set (l := 3 - Z.of_nat (Datatypes.S n)) in *.
  replace (12 + 9 * Z.of_nat (Datatypes.S n)) with (39 - 9 * l) by lia.
  rewrite map_page_level_eq. pose proof (vpn_page q ltac:(lia)) as Hv.
  pose proof (map_level_spec k r (q * 4096) l t [] Hr) as Hstep. rewrite Hv in Hstep.
  specialize (Hstep Ht ltac:(lia)).
  destruct (map_level _ _ _) as [[[k1 t1] cs1]|k1].
  - replace (3 - Z.of_nat n) with (l + 1) in IH by lia.
    destruct Hstep as [(Ht1 & -> & _)|(Hnone & p & Ha & Hcount & -> & _)].
    + by apply (IH ltac:(lia) k r t1).
    + pose proof (index_range (q * 4096) (39 - 9 * l) ltac:(lia)) as Hi.
      pose proof (child_prefix (q * 4096) l ltac:(lia)) as Hcp. rewrite Hv in Hcp.
      rewrite <- Hcp in Hnone.
      pose proof (link_rep k r l _ t _ t1 p Hr Ht ltac:(lia) Hi Hnone Ha Hcount) as Hr1.
      pose proof (link_stable k r l _ t _ t1 p Hr Ht ltac:(lia) Hi Hnone Ha Hcount) as Hst1.
      set (k1 := link_table _ _ _ _ _) in *.
      set (r1 := link r l (prefix q l) (index (q * 4096) (39 - 9 * l)) t1) in *.
      assert (boot_tree k1 r1 S) as Hb1.
      { split; [done|done| |done]. intros x u. unfold r1, link. cbn [tab]. rewrite lookup_insert.
        case_decide as Hd; [|by apply Hlow]. intros _. injection Hd as Hl0 <-.
        rewrite Hcp. assert (l = 0) as -> by lia. unfold prefix.
        change (512 ^ (4 - (0 + 1))) with (2 ^ 27). apply Z.div_small. lia. }
      assert (tab r1 !! (l + 1, prefix q (l + 1)) = Some t1) as Ht1.
      { unfold r1, link. cbn [tab]. by rewrite Hcp, lookup_insert_eq. }
      assert (within P r1) as Hin1.
      { intros l' x u. unfold r1, link. cbn [tab]. rewrite lookup_insert.
        case_decide as Hd; [|by apply Hin]. intros _. injection Hd as <- <-. right.
        split; [lia|]. exists q. by rewrite Hcp. }
      specialize (IH ltac:(lia) k1 r1 t1 Hb1 Hin1 Ht1).
      destruct (foreach _ _ _) as [[k2 t2]|k2].
      * destruct IH as (r2 & Hb2 & Hst2 & Hin2 & Ht2). exists r2. split; [done|]. split; [by etrans|done].
      * destruct IH as (r2 & Hb2 & Hst2 & Hex). exists r2. split; [done|]. split; [by etrans|done].
  - destruct Hstep as (Hnone & -> & Hno). exists r. do 2 (split; [done|]). split; [done| |exact Hno].
    exists q, (l + 1). split; [done|]. split; [lia|done].
Qed.

Lemma map_page_spec (P : Z → Prop) k r q S :
  256 ≤ q < 2 ^ 20 → P q → boot_tree k r S → within P r →
  let '(b, k') := map_page L (q * 4096) k in
  ∃ r', boot_tree k' r' (λ x, S x ∨ b = true ∧ x = q) ∧ stable k k' ∧
    if b then within P r' else exhausted P k' r'.
Proof.
  intros Hq HP Hb Hin. pose proof (bt_rep k r S Hb) as Hr. unfold map_page.
  pose proof (rep_root_prefix k r (q * 4096) Hr) as H0. rewrite vpn_page in H0 by lia.
  pose proof (map_page_levels P 3 k r q (paging_root k) S ltac:(lia) ltac:(lia) HP Hb Hin H0) as Hd.
  change (shifts 3) with [39; 30; 21] in Hd.
  destruct (foreach _ _ _) as [[k1 t]|k1].
  2:{ destruct Hd as (r1 & Hb1 & Hst & Hex). exists r1. split; [|done].
      apply (boot_tree_ext _ _ S); [naive_solver|done]. }
  destruct Hd as (r1 & Hb1 & Hst & Hin1 & Ht). pose proof (bt_rep k1 r1 S Hb1) as Hr1.
  pose proof (child_prefix (q * 4096) 3 ltac:(lia)) as Hcp. rewrite vpn_page in Hcp by lia.
  change (39 - 9 * 3) with 12 in Hcp. change (3 + 1) with 4 in Hcp. rewrite prefix_4 in Hcp.
  pose proof (index_range (q * 4096) 12 ltac:(lia)) as Hi.
  change (Z.lor (q * 4096) (page_flags L (q * 4096))) with (id_entry L q).
  exists (Radix (tab r1) (<[q := id_entry L q]> (leaf r1))). split; [|split; [|exact Hin1]].
  - split; [|intros x e; cbn [leaf]|apply (bt_low k1 r1 S Hb1)|].
    + apply (write_leaf_rep k1 r1 (prefix q 3)); try done;
        [apply id_entry_u64; lia|..]; rewrite Hcp.
      * by rewrite lookup_insert_eq.
      * intros e. rewrite lookup_insert_eq. intros [= <-]. apply id_entry_present.
      * intros x Hx. by rewrite lookup_insert_ne.
    + rewrite lookup_insert. case_decide as Hx; [subst x|rewrite (bt_leaf k1 r1 S Hb1)]; naive_solver.
    + intros x [Hx|[_ ->]]; [by apply (bt_range k1 r1 S Hb1)|done].
  - etrans; [done|]. by apply (write_leaf_stable k1 r1 (prefix q 3)).
Qed.

(** The pages [map_descriptor] maps. *)
Definition mappable (d : BOOT_MEMORY_DESCRIPTOR) : Prop :=
  (type d = 1 ∨ type d = 2 ∨ type d = 7) ∧ Z.testbit (attributes d) 63 = false.
Definition descriptor_page (d : BOOT_MEMORY_DESCRIPTOR) (q : Z) : Prop :=
  mappable d ∧ 256 ≤ q < 2 ^ 20 ∧ Pmm.contains_page d q.

Lemma clamp_aligned d :
  is_u64 (physical_start d) → is_u64 (number_of_pages d) → Pmm.well_formed_descriptor d →
  ∃ b e, Pmm.clamp_begin d = b * 4096 ∧ Pmm.clamp_end d = e * 4096 ∧ 256 ≤ b ∧ e ≤ 2 ^ 20 ∧
         ∀ q, b ≤ q < e ↔ 256 ≤ q < 2 ^ 20 ∧ Pmm.contains_page d q.
Proof.
  intros Hs Hn Hd. pose proof (λ q, Pmm.clamp_spec d q Hs Hn Hd) as Hc.
  exists (Pmm.clamp_begin d / 4096), (Pmm.clamp_end d / 4096).
  unfold Pmm.clamp_begin, Pmm.clamp_end in *. rewrite Pmm.descriptor_end_limit in * by done.
  destruct Hd as (Hal & Hpos & Hle). unfold Pmm.descriptor_limit, PMM_LIMIT in *.
  split; [destruct (Z.ltb_spec (physical_start d) 0x100000); zdm|].
  split; [destruct (Z.ltb_spec 0x100000000 (physical_start d + number_of_pages d * 4096)); zdm|].
  split; [destruct (Z.ltb_spec (physical_start d) 0x100000); zdm|].
  split; [destruct (Z.ltb_spec 0x100000000 (physical_start d + number_of_pages d * 4096)); zdm|].
  exact Hc.
Qed.

(** Only pages that can be cached are mapped. *)
Definition cacheable (d : BOOT_MEMORY_DESCRIPTOR) : Prop :=
  (∃ q, descriptor_page d q) → has_bits (attributes d) 8 = true.

Lemma map_descriptor_spec (P : Z → Prop) d k r S :
  is_u64 (physical_start d) → is_u64 (number_of_pages d) → Pmm.well_formed_descriptor d →
  (∀ q, descriptor_page d q → P q) → boot_tree k r S → within P r →
  match map_descriptor L d k with
  | Next k' => ∃ r', boot_tree k' r' (λ q, S q ∨ descriptor_page d q) ∧ stable k k' ∧
      within P r' ∧ cacheable d
  | Stop k' => ∃ r' S', boot_tree k' r' S' ∧ stable k k' ∧ (¬ cacheable d ∨ exhausted P k' r')
  end.
Proof.
  intros Hs Hn Hd HP Hb Hin. unfold map_descriptor.
  destruct (clamp_aligned d Hs Hn Hd) as (b & e & -> & -> & Hb256 & He & Hpages).
  rewrite has_bits_bit64 by lia.
  assert (∀ k', ¬ mappable d → k' = k →
    ∃ r', boot_tree k' r' (λ q, S q ∨ descriptor_page d q) ∧ stable k k' ∧
      within P r' ∧ cacheable d) as Hskip.
  { intros k' Hm ->. exists r. split; [|split; [done|split; [done|by intros (q & ? & _)]]].
    apply (boot_tree_ext _ _ S); [|done]. unfold descriptor_page. tauto. }
  destruct (negb (type d =? 1) && _ && _) eqn:Ht; cbn [orb].
  { apply Hskip; [|done]. intros [Ht' _]. rewrite !andb_true_iff, !negb_true_iff, !Z.eqb_neq in Ht. lia. }
  destruct (Z.testbit (attributes d) 63) eqn:Ha.
  { apply Hskip; [|done]. intros [_ Ha']. congruence. }
  assert (mappable d) as Hm.
  { split; [|done]. rewrite !andb_false_iff, !negb_false_iff, !Z.eqb_eq in Ht. tauto. }
  destruct (Z.leb_spec (e * 4096) (b * 4096)) as [Hle|Hlt].
  { exists r. split; [|split; [done|split; [done|]]].
    - apply (boot_tree_ext _ _ S); [|done].
      intros q. split; [by left|]. intros [?|(_ & Hq)]; [done|]. apply Hpages in Hq. lia.
    - intros (q & _ & Hq). apply Hpages in Hq. lia. }
  assert (∀ q, b ≤ q < e → descriptor_page d q) as Hdp by (intros q Hq; by split; [|apply Hpages]).
  destruct (has_bits (attributes d) 8) eqn:Hwb; cbn [negb].
  2:{ exists r, S. do 2 (split; [done|]). left. intros Hc. rewrite Hc in Hwb; [done|].
      exists b. apply Hdp. lia. }
  for_stride (λ i k', ∃ r', boot_tree k' r' (λ q, S q ∨ b ≤ q < i) ∧ stable k k' ∧ within P r')
    (λ k', ∃ r' S', boot_tree k' r' S' ∧ stable k k' ∧ exhausted P k' r') b e.
  - lia.
  - lia.
  - exists r. split; [|done]. apply (boot_tree_ext _ _ S); [|done]. intuition lia.
  - intros q k1 Hq (r1 & Hb1 & Hst1 & Hin1).
    pose proof (map_page_spec P k1 r1 q _ ltac:(lia) (HP q (Hdp q Hq)) Hb1 Hin1) as Hmp.
    destruct (map_page L (q * 4096) k1) as [[|] k2]; destruct Hmp as (r2 & Hb2 & Hst2 & Hr2).
    + exists r2. split; [|split; [by etrans|done]]. eapply boot_tree_ext; [|done]. simpl. intuition lia.
    + do 2 eexists. split; [done|]. split; [by etrans|done].
  - destruct Hloop as (r' & Hb' & Hst & Hin'). exists r'. split; [|split; [done|split; [done|by intros _]]].
    eapply boot_tree_ext; [|done]. intros q. simpl. rewrite Z.max_r by lia.
    unfold descriptor_page. rewrite Hpages. tauto.
  - destruct Hloop as (r' & S' & Hb' & Hst & Hex). exists r', S'. do 2 (split; [done|]). by right.
Qed.

(** The loader's data is out of reach of the tables: neither the boot
    information nor the memory map lies in a free page of the pool. *)
Record boot_data_safe k (info : Z) : Prop := {
  bs_info x : info ≤ x < info + sizeof_BOOT_INFO → page_of x ∉ pmm_pool (pmm k) ∖ others k;
  bs_map x :
    memory_map (read_info (mem k) info) ≤ x <
      memory_map (read_info (mem k) info) + memory_map_size (read_info (mem k) info) →
    page_of x ∉ pmm_pool (pmm k) ∖ others k;
}.

(** What the validation of the boot information gives for the map. *)
Record map_shape (b : BOOT_INFO) : Prop := {
  ms_stride : sizeof_BOOT_MEMORY_DESCRIPTOR ≤ descriptor_size b;
  ms_size : memory_map_size b = Pmm.descriptor_count b * descriptor_size b;
  ms_start : 0 ≤ memory_map b;
  ms_end : memory_map b + memory_map_size b ≤ UINT64_MAX;
  ms_small : 0 ≤ memory_map_size b ≤ 65536;
}.

Lemma read_info_stable k k' info :
  boot_data_safe k info → stable k k' → read_info (mem k') info = read_info (mem k) info.
Proof.
  intros Hs Hst. apply read_info_agree. intros j Hj. apply (st_memory k k' Hst).
  apply (bs_info k info Hs). unfold sizeof_BOOT_INFO. lia.
Qed.

Lemma read_map_stable k k' info i :
  boot_data_safe k info → map_shape (read_info (mem k) info) → stable k k' →
  0 ≤ i < Pmm.descriptor_count (read_info (mem k) info) →
  read_descriptor (mem k') (u64 (memory_map (read_info (mem k) info) +
    i * descriptor_size (read_info (mem k) info))) =
  Pmm.descriptor (mem k) (read_info (mem k) info) i.
Proof.
  intros Hs [Hds Hsz Hlo Hhi Hsm] Hst Hi. set (b := read_info (mem k) info) in *.
  unfold sizeof_BOOT_MEMORY_DESCRIPTOR, UINT64_MAX in *.
  assert (0 ≤ i * descriptor_size b ∧ i * descriptor_size b + descriptor_size b ≤ memory_map_size b)
    as [Hil Hih] by nia.
  unfold Pmm.descriptor. rewrite (u64_small (i * _)) by (unfold is_u64; lia).
  rewrite u64_small by (unfold is_u64; lia). apply read_descriptor_agree. intros j Hj.
  apply (st_memory k k' Hst). apply (bs_map k info Hs). fold b. lia.
Qed.

Lemma boot_data_safe_stable k k' info :
  boot_data_safe k info → stable k k' → boot_data_safe k' info.
Proof.
  intros Hs Hst. pose proof (read_info_stable k k' info Hs Hst) as He. destruct Hs as [Hi Hm].
  split; intros x; rewrite ?He, (st_pool k k' Hst), (st_others k k' Hst); auto.
Qed.

(** The pages of boot RAM. *)
Definition ram_page (m : ram) (b : BOOT_INFO) (q : Z) : Prop :=
  ∃ i, 0 ≤ i < Pmm.descriptor_count b ∧ descriptor_page (Pmm.descriptor m b i) q.

Definition ram_cacheable (m : ram) (b : BOOT_INFO) : Prop :=
  ∀ i, 0 ≤ i < Pmm.descriptor_count b → cacheable (Pmm.descriptor m b i).

Lemma map_boot_ram_spec info k r S :
  boot_data_safe k info → map_shape (read_info (mem k) info) →
  Pmm.well_formed_map (mem k) (read_info (mem k) info) →
  boot_tree k r S → within (ram_page (mem k) (read_info (mem k) info)) r →
  let b := read_info (mem k) info in
  let '(ok, k') := map_boot_ram L info k in
  ∃ r' S', boot_tree k' r' S' ∧ stable k k' ∧
    if ok then (∀ q, S' q ↔ S q ∨ ram_page (mem k) b q) ∧ ram_cacheable (mem k) b ∧
      within (ram_page (mem k) b) r'
    else ¬ ram_cacheable (mem k) b ∨ exhausted (ram_page (mem k) b) k' r'.
Proof.
  intros Hs Hsh Hwf Hb Hin. cbv zeta. unfold map_boot_ram. set (b := read_info (mem k) info) in *.
  pose proof Hsh as [Hds Hsz _ _ _]. unfold sizeof_BOOT_MEMORY_DESCRIPTOR in Hds.
  set (below n q := ∃ i, 0 ≤ i < n ∧ descriptor_page (Pmm.descriptor (mem k) b i) q).
  set (P := ram_page (mem k) b) in *.
  for_stride (λ i k', ∃ r', boot_tree k' r' (λ q, S q ∨ below i q) ∧ stable k k' ∧ within P r' ∧
      ∀ j, 0 ≤ j < i → cacheable (Pmm.descriptor (mem k) b j))
    (λ k', ∃ r' S', boot_tree k' r' S' ∧ stable k k' ∧ (¬ ram_cacheable (mem k) b ∨ exhausted P k' r'))
    0 (Pmm.descriptor_count b).
  - lia.
  - intros q. rewrite Hsz. nia.
  - exists r. split; [|split; [done|split; [done|lia]]]. apply (boot_tree_ext _ _ S); [|done].
    intros q. split; [by left|]. intros [?|(i & ? & _)]; [done|lia].
  - intros i k1 Hi (r1 & Hb1 & Hst1 & Hin1 & Hc1).
    pose proof (read_map_stable k k1 info i Hs Hsh Hst1 Hi) as He.
    fold b in He. rewrite He. clear He.
    set (d := Pmm.descriptor (mem k) b i).
    pose proof (Pmm.descriptor_u64 (mem k) b i) as [Hu1 Hu2]. destruct (Hwf i Hi) as [Hd _].
    assert (∀ q, descriptor_page d q → P q) as HP by (intros q Hq; by exists i).
    pose proof (map_descriptor_spec P d k1 r1 _ Hu1 Hu2 Hd HP Hb1 Hin1) as Hmd.
    destruct (map_descriptor L d k1) as [k2|k2].
    + destruct Hmd as (r2 & Hb2 & Hst2 & Hin2 & Hc). exists r2.
      split; [|split; [by etrans|split; [done|]]].
      * eapply boot_tree_ext; [|done]. intros q. unfold below. simpl. split.
        -- intros [[?|(j & ? & ?)]|?]; [by left|right; exists j; split; [lia|done]|].
           right. exists i. split; [lia|done].
        -- intros [?|(j & ? & Hj)]; [by left; left|]. destruct (decide (j = i)) as [->|]; [by right|].
           left. right. exists j. split; [lia|done].
      * intros j Hj. destruct (decide (j = i)) as [->|]; [done|]. apply Hc1. lia.
    + destruct Hmd as (r2 & S2 & Hb2 & Hst2 & Hwhy). exists r2, S2. split; [done|].
      split; [by etrans|]. destruct Hwhy as [Hn|?]; [left|by right]. intros Hc. by apply Hn, Hc.
  - destruct Hloop as (r' & Hb' & Hst & Hin' & Hc). exists r', (λ q, S q ∨ below (Z.max 0 (Pmm.descriptor_count b)) q).
    split; [done|]. split; [done|]. split.
    + intros q. unfold below, P, ram_page.
      split; (intros [?|(i & ? & ?)]; [by left|right; exists i; split; [lia|done]]).
    + split; [|done]. intros i Hi. apply Hc. lia.
  - destruct Hloop as (r' & S' & Hb' & Hst & Hwhy). by exists r', S'.
Qed.

(** ** Checking *)

Lemma page_mapped_spec k r S q :
  0 ≤ q < 2 ^ 20 → boot_tree k r S →
  page_mapped (q * 4096) k = true ↔ S q.
Proof.
  intros Hq [Hr Hleaf _ Hrg]. set (a := q * 4096).
  assert (vpn a = q) as Hv by (apply vpn_page; lia).
  pose proof (rep_root_prefix k r a Hr) as H0. unfold page_mapped. cbn [foreach].
  change (39 =? 12) with false. change (30 =? 12) with false. change (21 =? 12) with false.
  change (12 =? 12) with true.
  pose proof (read_level k r a 0 _ Hr H0 ltac:(lia)) as R0.
  pose proof (λ t H, read_level k r a 1 t Hr H ltac:(lia)) as R1.
  pose proof (λ t H, read_level k r a 2 t Hr H ltac:(lia)) as R2.
  pose proof (λ t H, read_leaf k r a t Hr H) as R3.
  change (39 - 9 * 0) with 39 in R0. change (39 - 9 * 1) with 30 in R1.
  change (39 - 9 * 2) with 21 in R2.
  change (0 + 1) with 1 in R0. change (1 + 1) with 2 in R1. change (2 + 1) with 3 in R2.
  assert (∀ l, 1 ≤ l ≤ 3 → tab r !! (l, prefix (vpn a) l) = None → false = true ↔ S q) as Hno.
  { intros l Hl Hn. split; [done|]. intros HS.
    assert (leaf r !! vpn a = Some (id_entry L q)) as He by (rewrite Hv; by apply Hleaf).
    destruct (leaf_chain k r _ _ Hr He) as (? & ? & ? & ? & [C0 C1 C2 C3]).
    assert (l = 1 ∨ l = 2 ∨ l = 3) as [->|[->| ->]] by lia; congruence. }
  rewrite R0. destruct (tab r !! (1, prefix (vpn a) 1)) as [t1|] eqn:C1; [|by apply (Hno 1)].
  rewrite table_entry_present, table_entry_mask by by apply (rep_frame k r _ _ Hr C1).
  cbn [negb]. rewrite (R1 _ eq_refl).
  destruct (tab r !! (2, prefix (vpn a) 2)) as [t2|] eqn:C2; [|by apply (Hno 2)].
  rewrite table_entry_present, table_entry_mask by by apply (rep_frame k r _ _ Hr C2).
  cbn [negb]. rewrite (R2 _ eq_refl).
  destruct (tab r !! (3, prefix (vpn a) 3)) as [t3|] eqn:C3; [|by apply (Hno 3)].
  rewrite table_entry_present, table_entry_mask by by apply (rep_frame k r _ _ Hr C3).
  cbn [negb]. rewrite (R3 _ eq_refl), Hv. clear Hno R0 R1 R2 R3.
  destruct (leaf r !! q) as [e|] eqn:He.
  - apply Hleaf in He as [HS ->]. change (default 0 (Some (id_entry L q))) with (id_entry L q).
    rewrite has_bits_1, id_entry_present. cbn [negb].
    destruct (page_flags_leaf L a) as (f & _ & Hf & _). unfold id_entry. fold a. rewrite Hf.
    rewrite leaf_entry_mask by (specialize (Hrg q HS); unfold frame, PMM_LIMIT, PMM_PAGE_SIZE, a; zdm).
    by rewrite Z.eqb_refl.
  - split; [done|]. intros HS. assert (leaf r !! q = Some (id_entry L q)) by by apply Hleaf.
    congruence.
Qed.

(** A range of addresses all of whose pages are in [S]. *)
Definition covered S (base size : Z) : Prop :=
  0 < size ∧ 0x100000 ≤ base ∧ base + size ≤ PMM_LIMIT ∧ ∀ q, Pmm.overlaps q base size → S q.

Lemma covered_ext S S' base size :
  (∀ q, S q ↔ S' q) → covered S base size ↔ covered S' base size.
Proof. intros HS. unfold covered. by setoid_rewrite HS. Qed.

Lemma mapped_range_spec k r S base size :
  boot_tree k r S → 0 ≤ size →
  mapped_range base size k = true ↔ covered S base size.
Proof.
  intros Hb Hsz. unfold covered, mapped_range.
  destruct (Z.eqb_spec size 0); [cbn [orb]; intuition lia|].
  destruct (Z.ltb_spec base 0x100000); [cbn [orb]; intuition lia|].
  destruct (Z.leb_spec PMM_LIMIT base); [cbn [orb]; intuition lia|].
  destruct (Z.ltb_spec (PMM_LIMIT - base) size); cbn [orb]; [intuition lia|].
  unfold PMM_LIMIT, Pmm.overlaps in *.
  assert (Z.land base (not64 4095) = base / 4096 * 4096) as ->.
  { apply land_page_mask. unfold is_u64. lia. }
  for_stride (λ i (_ : unit), ∀ q, base / 4096 ≤ q < i → S q)
    (λ _ : unit, ∃ q, base / 4096 ≤ q < (base + size + 4095) / 4096 ∧ ¬ S q)
    (base / 4096) ((base + size + 4095) / 4096).
  - lia.
  - intros q. split; intros; zdm.
  - lia.
  - intros q _ Hq Hprev.
    pose proof (page_mapped_spec k r S q ltac:(zdm) Hb) as Hpm.
    destruct (page_mapped (q * 4096) k); cbn [negb].
    + intros x Hx. destruct (decide (x = q)) as [->|]; [by apply Hpm|apply Hprev; lia].
    + exists q. split; [done|]. intros HS. by apply Hpm in HS.
  - split; [|done]. intros _. split; [lia|]. split; [lia|]. split; [lia|].
    intros q Hq. apply Hloop. zdm.
  - split; [done|]. intros (_ & _ & _ & Hall). destruct Hloop as (q & Hq & Hn).
    destruct Hn. apply Hall. zdm.
Qed.

(** The regions the kernel runs on. *)
Definition runs_on S (info : Z) (b : BOOT_INFO) : Prop :=
  covered S (kernel_base b) (kernel_size b) ∧ covered S (stack_base b) (stack_size b) ∧
  covered S info sizeof_BOOT_INFO ∧ covered S (memory_map b) (memory_map_size b).

Lemma required_regions_spec info k r S :
  boot_tree k r S →
  required_regions_mapped info k = true ↔
  runs_on S info (read_info (mem k) info) ∧ ∀ t, t ∈ table_list k → covered S t 4096.
Proof.
  intros Hb. set (b := read_info (mem k) info).
  pose proof (read_info_range (mem k) info) as Hrg. cbv zeta in Hrg. fold b in Hrg. unfold is_u64 in Hrg.
  unfold required_regions_mapped, runs_on. fold b.
  pose proof (λ base size H, mapped_range_spec k r S base size Hb H) as Hm.
  rewrite <- !Hm by (unfold sizeof_BOOT_INFO; lia).
  destruct (mapped_range (kernel_base b) _ k); cbn [negb]; [|naive_solver].
  destruct (mapped_range (stack_base b) _ k); cbn [negb]; [|naive_solver].
  destruct (mapped_range info _ k); cbn [negb]; [|naive_solver].
  destruct (mapped_range (memory_map b) _ k); cbn [negb]; [|naive_solver].
  pose proof (rep_count k r (bt_rep k r S Hb)) as Hcount.
  for_one (λ i (_ : unit), ∀ j, 0 ≤ j < i → covered S (table_page k j) 4096)
    (λ _ : unit, ∃ j, 0 ≤ j < paging_table_count k ∧ ¬ covered S (table_page k j) 4096).
  - lia.
  - intros j _ Hj Hprev. pose proof (Hm (table_page k j) 4096 ltac:(lia)) as Hmj.
    destruct (mapped_range (table_page k j) 4096 k); cbn [negb].
    + intros x Hx. destruct (decide (x = j)) as [->|]; [by apply Hmj|apply Hprev; lia].
    + exists j. split; [done|]. intros Hc. by apply Hmj in Hc.
  - split; [|done]. intros _. split; [done|]. intros t (j & Hj & <-)%table_list_elem. apply Hloop. lia.
  - split; [done|]. intros [_ Hall]. destruct Hloop as (j & Hj & []). apply Hall, table_list_elem. eauto.
Qed.

(** ** Guards *)

Lemma last_table_spec k r a t0 t1 t2 t3 :
  rep k r → chain r (vpn a) t0 t1 t2 t3 → last_table a k = t3.
Proof.
  intros Hr [C0 C1 C2 C3]. pose proof (rep_root_prefix k r a Hr) as H0.
  assert (t0 = paging_root k) as -> by congruence. unfold last_table. cbn [fold_left].
  pose proof (read_level k r a 0 _ Hr C0 ltac:(lia)) as R0.
  pose proof (read_level k r a 1 _ Hr C1 ltac:(lia)) as R1.
  pose proof (read_level k r a 2 _ Hr C2 ltac:(lia)) as R2.
  change (39 - 9 * 0) with 39 in R0. change (39 - 9 * 1) with 30 in R1.
  change (39 - 9 * 2) with 21 in R2. change (0 + 1) with 1 in R0. change (1 + 1) with 2 in R1.
  change (2 + 1) with 3 in R2. rewrite R0, C1, table_entry_mask by by apply (rep_frame k r _ _ Hr C1).
  rewrite R1, C2, table_entry_mask by by apply (rep_frame k r _ _ Hr C2).
  by rewrite R2, C3, table_entry_mask by by apply (rep_frame k r _ _ Hr C3).
Qed.

Lemma unmap_guard_spec g k r S :
  boot_tree k r S →
  match unmap_guard g k with
  | Next k' => covered S g 4096 ∧
      ∃ r', boot_tree k' r' (λ q, S q ∧ q ≠ g / 4096) ∧ stable k k' ∧ tab r' = tab r
  | Stop k' => k' = k ∧ ¬ covered S g 4096
  end.
Proof.
  intros Hb. pose proof Hb as [Hr Hleaf Hlow Hrg]. unfold unmap_guard.
  pose proof (mapped_range_spec k r S g 4096 Hb ltac:(lia)) as Hm.
  destruct (mapped_range g 4096 k); cbn [negb]; [|split; [done|by intros ?%Hm]].
  pose proof (proj1 Hm eq_refl) as Hc. split; [done|].
  destruct Hc as (_ & Hlo & Hhi & Hall). unfold PMM_LIMIT, Pmm.overlaps in *.
  set (q := g / 4096). assert (S q) as HS by (apply Hall; unfold q; zdm).
  assert (vpn g = q) as Hv by (unfold vpn, q; rewrite Z.mod_small; [done|zdm]).
  assert (leaf r !! vpn g = Some (id_entry L q)) as He by (rewrite Hv; by apply Hleaf).
  destruct (leaf_chain k r _ _ Hr He) as (t0 & t1 & t2 & t3 & C).
  rewrite (last_table_spec k r g t0 t1 t2 t3 Hr C). destruct C as [_ _ _ C3].
  pose proof (child_prefix g 3 ltac:(lia)) as Hcp. rewrite Hv in Hcp, C3.
  change (39 - 9 * 3) with 12 in Hcp. change (3 + 1) with 4 in Hcp. rewrite prefix_4 in Hcp.
  pose proof (index_range g 12 ltac:(lia)) as Hi.
  exists (Radix (tab r) (delete q (leaf r))). split; [split|split; [|done]].
  - apply (write_leaf_rep k r (prefix q 3)); try done; rewrite Hcp.
    + by rewrite lookup_delete_eq.
    + intros e. by rewrite lookup_delete_eq.
    + intros p Hp. by rewrite lookup_delete_ne.
  - intros x e. cbn [leaf]. rewrite lookup_delete. case_decide as Hx; [subst x|rewrite Hleaf]; naive_solver.
  - done.
  - intros x [Hx _]. by apply Hrg.
  - by apply (write_leaf_stable k r (prefix q 3)).
Qed.

(** The pages of a list of guard addresses. *)
Definition guard_page (l : list Z) (q : Z) : Prop := q ∈ ((λ g, g / 4096) <$> l).

(** Each guard is among the pages that are left. *)
Fixpoint guardable S (l : list Z) : Prop :=
  match l with
  | [] => True
  | g :: l => covered S g 4096 ∧ guardable (λ q, S q ∧ q ≠ g / 4096) l
  end.

Lemma guardable_ext S S' l : (∀ q, S q ↔ S' q) → guardable S l ↔ guardable S' l.
Proof.
  revert S S'. induction l as [|g l IH]; intros S S' HS; [done|]. cbn [guardable].
  rewrite (covered_ext S S' g 4096 HS). rewrite (IH _ (λ q, S' q ∧ q ≠ g / 4096)); [done|].
  intros q. by rewrite HS.
Qed.

Lemma guardable_page S l q : guardable S l → guard_page l q → S q.
Proof.
  revert S. induction l as [|g l IH]; intros S; unfold guard_page; [by intros _ ?%elem_of_nil|].
  intros [(_ & _ & _ & Hg) Hl]. rewrite fmap_cons, elem_of_cons. intros [->|Hq].
  - apply Hg. unfold Pmm.overlaps. zdm.
  - by apply (IH _ Hl).
Qed.

Lemma unmap_guards_spec l k r S :
  boot_tree k r S →
  match foreach l unmap_guard k with
  | Next k' => guardable S l ∧
      ∃ r', boot_tree k' r' (λ q, S q ∧ ¬ guard_page l q) ∧ stable k k' ∧ tab r' = tab r
  | Stop k' => ¬ guardable S l ∧ ∃ r' S', boot_tree k' r' S' ∧ stable k k'
  end.
Proof.
  revert k r S. induction l as [|g l IH]; intros k r S Hb; cbn [foreach guardable].
  { split; [done|]. exists r. split; [|done].
    apply (boot_tree_ext _ _ S); [|done]. intros q. unfold guard_page. simpl.
    rewrite elem_of_nil. tauto. }
  pose proof (unmap_guard_spec g k r S Hb) as Hg.
  destruct (unmap_guard g k) as [k1|k1].
  2:{ destruct Hg as [-> Hg]. split; [tauto|]. by exists r, S. }
  destruct Hg as (HS & r1 & Hb1 & Hst1 & Ht1). specialize (IH k1 r1 _ Hb1).
  destruct (foreach l unmap_guard k1) as [k2|k2].
  - destruct IH as (HSl & r2 & Hb2 & Hst2 & Ht2). split; [done|].
    exists r2. split; [|split; [by etrans|congruence]]. eapply boot_tree_ext; [|done].
    intros q. simpl. unfold guard_page. rewrite fmap_cons, elem_of_cons. tauto.
  - destruct IH as (HSl & r2 & S2 & Hb2 & Hst2). split; [tauto|]. exists r2, S2. split; [done|]. by etrans.
Qed.

(** ** Discarding *)

Lemma discard_spec k r :
  rep k r →
  let k' := discard_page_tables k in
  pmm_inv (pmm k') ∧ pmm_pool (pmm k') = pmm_pool (pmm k) ∧ pmm_used (pmm k') = others k ∧
  paging_table_count k' = 0 ∧ paging_root k' = 0 ∧ mem k' = mem k ∧ cpu k' = cpu k ∧
  active k' = active k ∧ paging_previous_cr3 k' = paging_previous_cr3 k.
Proof.
  intros Hr. cbv zeta. unfold discard_page_tables. set (n := paging_table_count k).
  pose proof (rep_count k r Hr) as Hn. fold n in Hn.
  pose proof (proj1 (table_list_nodup k) (rep_nodup k r Hr)) as Hinj.
  for_whole (λ i k', pmm_inv (pmm k') ∧ pmm_pool (pmm k') = pmm_pool (pmm k) ∧
    (∀ t, t ∈ pmm_used (pmm k') ↔ t ∈ pmm_used (pmm k) ∧
       ∀ j, n - i ≤ j < n → table_page k j ≠ t) ∧
    paging_table_count k' = n - i ∧ table_pages k' = table_pages k ∧ mem k' = mem k ∧
    cpu k' = cpu k ∧ active k' = active k ∧ paging_previous_cr3 k' = paging_previous_cr3 k).
  - split; [apply Hr|]. split; [done|]. split; [|unfold n; repeat split; lia].
    intros t. split; [|tauto]. intros Ht. split; [done|]. lia.
  - intros i k1 Hi (Hp & Hpool & Hused & Hc & Ht & Hm & Hcpu & Hact & Hprev).
    cbn [pmm with_pmm with_tables table_pages paging_table_count mem cpu active paging_previous_cr3].
    rewrite Hc. set (t := table_page _ (n - i - 1)).
    assert (t = table_page k (n - i - 1)) as Htk by (unfold t, table_page; cbn; by rewrite Ht).
    assert (t ∈ pmm_used (pmm k1)) as Htu.
    { apply Hused. split.
      - apply (table_list_used k r Hr), elem_of_list_to_set, table_list_elem.
        exists (n - i - 1). split; [fold n; lia|done].
      - intros j Hj Heq. rewrite Htk in Heq. apply Hinj in Heq; fold n; lia. }
    destruct (pmm_free_used (pmm k1) t Hp Htu) as [p Hfree]. rewrite Hfree. cbn [snd].
    apply pmm_free_true in Hfree as (Hp' & _ & Hpool' & Hused'); [|done].
    split; [done|]. split; [congruence|]. split; [|repeat split; try done; lia].
    intros x. rewrite Hused', elem_of_difference, elem_of_singleton, Hused. split.
    + intros [[Hx Hj] Hne]. split; [done|]. intros j Hjr.
      destruct (decide (j = n - i - 1)) as [->|]; [by rewrite <- Htk|apply Hj; lia].
    + intros [Hx Hj]. split; [split; [done|]|].
      * intros j Hjr. apply Hj. lia.
      * intros ->. by apply (Hj (n - i - 1)); [lia|].
  - destruct Hloop as (Hp & Hpool & Hused & Hc & _ & Hm & Hcpu & Hact & Hprev).
    cbn [with_root pmm mem cpu active paging_previous_cr3 paging_table_count paging_root].
    rewrite Z.max_r in * by lia.
    split; [done|]. split; [done|]. split; [|repeat split; try done; lia].
    apply set_eq. intros t. rewrite Hused. unfold others.
    rewrite elem_of_difference, elem_of_list_to_set, table_list_elem. fold n. split.
    + intros [Ht Hj]. split; [done|]. intros (j & Hjr & Heq). by apply (Hj j); [lia|].
    + intros [Ht Hj]. split; [done|]. intros j Hjr Heq. apply Hj. exists j. split; [lia|done].
Qed.

End boot.

End PagingInitStep.
