(* ===== verification/PagingInitSpec.v ===== *)
(** * What [paging_init] establishes

    The outcomes of [paging_init] from the state [pmm_init] leaves: the exact
    identity map, the protections, the registers, and the invariant of the
    dynamic interface; or nothing at all. *)

From S2P Require Import Prelude BootInfo PmmInterface Pmm X86.
From S2P Require Import Paging PagingBits PagingModel PagingOps PagingStep PagingSpace PagingSpec.
From S2P Require Import PagingInit PagingInitStep PmmSpec.
Import X86 Paging PagingBits PagingModel PagingOps PagingStep PagingSpace PagingSpec.
Import PagingInit PagingInitStep.

Module PagingInitSpec.

(** The state before: an initialized allocator, no tables. *)
Record unstarted {A} `{PmmContract A} (k : PAGING A) : Prop := {
  un_inv : pmm_inv (pmm k);
  un_count : paging_table_count k = 0;
  un_active : active k = false;
}.

(** The boot information as [pmm_init] has validated it. *)
Record boot_validated {A} `{PmmContract A} (k : PAGING A) (info : Z) : Prop := {
  bv_data : boot_data_safe k info;
  bv_shape : map_shape (read_info (mem k) info);
  bv_map : Pmm.well_formed_map (mem k) (read_info (mem k) info);
}.

(** What the kernel runs on: its image, its stack, the boot information and
    the memory map. *)
Definition kernel_page (info : Z) (b : BOOT_INFO) (q : Z) : Prop :=
  Pmm.overlaps q (kernel_base b) (kernel_size b) ∨ Pmm.overlaps q (stack_base b) (stack_size b) ∨
  Pmm.overlaps q info sizeof_BOOT_INFO ∨ Pmm.overlaps q (memory_map b) (memory_map_size b).

(** The pages the identity map ends up with. *)
Definition identity_page (L : LAYOUT) (m : ram) (b : BOOT_INFO) (q : Z) : Prop :=
  ram_page m b q ∧ ¬ guard_page (guards L b) q.

(** ** Room for the tables *)

(** The pages of boot RAM as a set, computed from the descriptors. *)
#[local] Instance mappable_dec d : Decision (mappable d).
Proof. unfold mappable. apply _. Defined.

Definition descriptor_pages (d : BOOT_MEMORY_DESCRIPTOR) : gset Z :=
  if decide (mappable d) then
    list_to_set (seqZ (Pmm.clamp_begin d / 4096) (Pmm.clamp_end d / 4096 - Pmm.clamp_begin d / 4096))
  else ∅.
Definition ram_pages (m : ram) (b : BOOT_INFO) : gset Z :=
  ⋃ ((λ i, descriptor_pages (Pmm.descriptor m b i)) <$> seqZ 0 (Pmm.descriptor_count b)).

(** The tables a map of [P] consists of: the root, and one for every region of
    512 GiB, 1 GiB and 2 MiB that has a page of [P]. *)
Definition tables_of (P : gset Z) : gset (Z * Z) :=
  {[(0, 0)]} ∪ (set_map (λ q, (1, prefix q 1)) P ∪
    (set_map (λ q, (2, prefix q 2)) P ∪ set_map (λ q, (3, prefix q 3)) P)).

Lemma elem_of_ram_pages m b q :
  Pmm.well_formed_map m b → q ∈ ram_pages m b ↔ ram_page m b q.
Proof.
  intros Hwf. unfold ram_pages, ram_page. rewrite elem_of_union_list. split.
  - intros (X & (i & -> & Hi%elem_of_seqZ)%list_elem_of_fmap & Hq). exists i. split; [lia|].
    revert Hq. unfold descriptor_pages, descriptor_page.
    destruct (decide _) as [Hm|]; [|by intros ?%elem_of_empty]. intros Hq%elem_of_list_to_set%elem_of_seqZ.
    pose proof (Pmm.descriptor_u64 m b i) as [Hu1 Hu2]. destruct (Hwf i ltac:(lia)) as [Hd _].
    destruct (clamp_aligned _ Hu1 Hu2 Hd) as (x & y & Hx & Hy & _ & _ & Hxy). rewrite Hx, Hy in Hq.
    rewrite !Z.div_mul in Hq by lia. split; [done|]. apply Hxy. lia.
  - intros (i & Hi & Hm & Hq). eexists. split.
    + apply list_elem_of_fmap. exists i. split; [done|]. apply elem_of_seqZ. lia.
    + unfold descriptor_pages. rewrite decide_True by done. apply elem_of_list_to_set, elem_of_seqZ.
      pose proof (Pmm.descriptor_u64 m b i) as [Hu1 Hu2]. destruct (Hwf i Hi) as [Hd _].
      destruct (clamp_aligned _ Hu1 Hu2 Hd) as (x & y & -> & -> & _ & _ & Hxy).
      rewrite !Z.div_mul by lia. apply Hxy in Hq. lia.
Qed.

Lemma elem_of_tables_of P l x :
  (l, x) ∈ tables_of P ↔ l = 0 ∧ x = 0 ∨ 1 ≤ l ≤ 3 ∧ ∃ q, q ∈ P ∧ x = prefix q l.
Proof.
  unfold tables_of. rewrite !elem_of_union, elem_of_singleton, !elem_of_map. split.
  - intros [[= -> ->]|[(q & [= -> ->] & Hq)|[(q & [= -> ->] & Hq)|(q & [= -> ->] & Hq)]]];
      [by left|right; split; [lia|by exists q]..].
  - intros [[-> ->]|(Hl & q & Hq & ->)]; [by left|right].
    assert (l = 1 ∨ l = 2 ∨ l = 3) as [->|[->| ->]] by lia;
      [left|right; left|right; right]; by exists q.
Qed.

Lemma list_to_set_size_bound (l : list (Z * Z)) :
  (size (list_to_set (C:=gset (Z * Z)) l) ≤ List.length l)%nat.
Proof.
  induction l as [|x l IH]; [done|]. cbn [list_to_set List.length].
  rewrite size_union_alt, size_singleton.
  assert (list_to_set l ∖ {[x]} ⊆ list_to_set (C:=gset (Z * Z)) l) as H%subseteq_size by set_solver. lia.
Qed.

(** The tables of 4 GiB: the kernel can record twice as many. *)
Lemma tables_of_bound P :
  (∀ q, q ∈ P → 0 ≤ q < 2 ^ 20) → Z.of_nat (size (tables_of P)) ≤ 2054.
Proof.
  intros HP. set (all := (0, 0) :: (1, 0) :: (pair 2 <$> seqZ 0 4) ++ (pair 3 <$> seqZ 0 2048)).
  assert (tables_of P ⊆ list_to_set (C:=gset (Z * Z)) all) as Hsub.
  { intros [l x] Hx%elem_of_tables_of. apply elem_of_list_to_set. unfold all.
    rewrite !elem_of_cons, elem_of_app, !list_elem_of_fmap.
    destruct Hx as [[-> ->]|(Hl & q & Hq%HP & ->)]; [by left|right].
    assert (l = 1 ∨ l = 2 ∨ l = 3) as [->|[->| ->]] by lia; unfold prefix.
    - left. f_equal. apply Z.div_small. change (512 ^ (4 - 1)) with (2 ^ 27). lia.
    - right. left. eexists. split; [done|]. apply elem_of_seqZ.
      change (512 ^ (4 - 2)) with (2 ^ 18). zdm.
    - do 2 right. eexists. split; [done|]. apply elem_of_seqZ. change (512 ^ (4 - 3)) with 512. zdm. }
  apply subseteq_size in Hsub. pose proof (list_to_set_size_bound all) as Hb.
  assert (List.length all = 2054%nat) as Hl
    by (unfold all; cbn [List.length]; by rewrite length_app, !length_fmap, !length_seqZ).
  lia.
Qed.

(** As many tables are recorded as the tree has. *)
Lemma tab_size {A} `{PmmContract A} (k : PAGING A) r :
  rep k r → Z.of_nat (size (dom (tab r))) = paging_table_count k.
Proof.
  intros Hr. pose proof (rep_count k r Hr) as Hc. rewrite size_dom.
  assert (table_list k ≡ₚ (map_to_list (tab r)).*2) as Hp.
  { apply NoDup_Permutation; [apply (rep_nodup k r Hr)| |].
    - apply NoDup_fmap_2_strong; [|apply NoDup_map_to_list].
      intros [x t] [y u] Hx%elem_of_map_to_list Hy%elem_of_map_to_list. simpl. intros <-.
      by rewrite (rep_inj k r Hr x y t Hx Hy).
    - intros t. rewrite (rep_list k r Hr), list_elem_of_fmap. split.
      + intros [x Hx]. exists (x, t). split; [done|]. by apply elem_of_map_to_list.
      + intros ([x u] & -> & Hx%elem_of_map_to_list). by exists x. }
  apply Permutation_length in Hp. unfold table_list in Hp.
  rewrite !length_fmap, length_seqZ, length_map_to_list in Hp. lia.
Qed.

Section init.
Context {A : Type} `{!PmmApi A} `{!PmmContract A}.
Context (L : LAYOUT).
Implicit Types (k : PAGING A) (r : radix).

(** What [paging_init] needs: a processor it supports, boot RAM that can be
    cached, pages for the tables, all that the kernel runs on and the guards in
    boot RAM. *)
Record initializable (info : Z) k : Prop := {
  in_info : info ≠ 0;
  in_cpu : supported_cpu_state (cr4 (cpu k)) (cpu k) = true;
  in_cache : ram_cacheable (mem k) (read_info (mem k) info);
  in_room : Z.of_nat (size (tables_of (ram_pages (mem k) (read_info (mem k) info)))) ≤
    pmm_available (pmm k);
  in_runs : runs_on (ram_page (mem k) (read_info (mem k) info)) info (read_info (mem k) info);
  in_guards : guardable (ram_page (mem k) (read_info (mem k) info)) (guards L (read_info (mem k) info));
}.

(** A tree that maps a set of pages has all their tables. *)
Lemma mapped_tables k r S (P : gset Z) q0 :
  boot_tree L k r S → (∀ q, q ∈ P → S q) → q0 ∈ P →
  Z.of_nat (size (tables_of P)) ≤ paging_table_count k.
Proof.
  intros [Hr Hleaf _ Hrg] HP Hq0. rewrite <- (tab_size k r Hr).
  assert (tables_of P ⊆ dom (tab r)) as Hsub%subseteq_size; [|lia].
  intros [l x] [[-> ->]|(Hl & q & Hq%HP & ->)]%elem_of_tables_of; apply elem_of_dom.
  - exists (paging_root k). apply Hr.
  - destruct (leaf_chain k r q (id_entry L q) Hr) as (t0 & t1 & t2 & t3 & [C0 C1 C2 C3]).
    { by apply Hleaf. }
    assert (l = 1 ∨ l = 2 ∨ l = 3) as [->|[->| ->]] by lia; by eexists.
Qed.

Lemma within_tables (P : gset Z) (R : Z → Prop) k r :
  (∀ q, R q ↔ q ∈ P) → rep k r → within R r → dom (tab r) ⊆ tables_of P.
Proof.
  intros HR Hr Hin [l x] [t Ht]%elem_of_dom. apply elem_of_tables_of.
  pose proof (rep_key k r Hr _ _ _ Ht) as (_ & _ & H0).
  destruct (Hin l x t Ht) as [->|(Hl & p & Hp%HR & ->)]; [left; split; [done|by apply H0]|right].
  split; [done|]. by exists p.
Qed.

(** One that lacks a table for want of a page means that there were too few. *)
Lemma exhausted_room (P : gset Z) (R : Z → Prop) k r :
  (∀ q, R q ↔ q ∈ P) → (∀ q, q ∈ P → 0 ≤ q < 2 ^ 20) → rep k r → exhausted R k r →
  pmm_available (pmm k) + paging_table_count k < Z.of_nat (size (tables_of P)).
Proof.
  intros HR HP Hr [Hin (q & l & Hq & Hl & Hnone) Hwhy].
  assert (dom (tab r) ⊂ tables_of P) as Hsub%subset_size.
  { split; [by apply (within_tables P R k)|]. intros Hall. assert ((l, prefix q l) ∈ dom (tab r)) as [t Ht]%elem_of_dom; [|congruence].
    apply Hall, elem_of_tables_of. right. split; [done|]. exists q. split; [by apply HR|done]. }
  pose proof (tables_of_bound P HP). pose proof (tab_size k r Hr) as Hs. unfold MAX_TABLES in *. lia.
Qed.

Lemma available_total (s : A) : pmm_inv s → pmm_available s ≤ pmm_total s.
Proof.
  intros Hs. rewrite pmm_available_spec, pmm_total_spec by done.
  assert (pmm_pool s ∖ pmm_used s ⊆ pmm_pool s) as H%subseteq_size by set_solver. lia.
Qed.

Lemma alloc_none_available (s s' : A) :
  pmm_inv s → pmm_alloc s = (None, s') → s' = s ∧ pmm_available s = 0.
Proof.
  intros Hs [-> Hsub]%pmm_alloc_none; [|done]. split; [done|]. rewrite pmm_available_spec by done.
  assert (pmm_pool s ∖ pmm_used s = ∅) as -> by set_solver. by rewrite size_empty.
Qed.

Lemma unstarted_others k : unstarted k → others k = pmm_used (pmm k).
Proof.
  intros [_ Hc _]. unfold others, table_list. rewrite Hc. change (seqZ 0 0) with (@nil Z).
  simpl. by rewrite difference_empty_L.
Qed.

(** The state with the root, and nothing else, created. *)
Lemma root_state k c p :
  unstarted k → pmm_alloc (pmm k) = (Some c, p) →
  let k1 := with_root (fresh_table k c p) c in
  boot_tree L k1 (bare c) (λ _, False) ∧ stable (with_root k c) k1 ∧ frame c.
Proof.
  intros Hu Ha. pose proof Hu as [Hp Hc Hact]. cbv zeta.
  pose proof Ha as (Hp' & Hin & Hpool & Hused)%pmm_alloc_some; [|done].
  apply elem_of_difference in Hin as [Hin Hnot].
  assert (frame c) as Hf by by apply (pmm_pool_frame (pmm k)).
  set (k1 := with_root (fresh_table k c p) c).
  assert (paging_table_count k1 = 1) as Hc1 by (unfold k1; cbn; by rewrite Hc).
  assert (table_page k1 0 = c) as Ht1.
  { unfold k1, table_page. cbn. rewrite Hc. by rewrite lookup_insert_eq. }
  assert (table_list k1 = [c]) as Hl1.
  { unfold table_list. rewrite Hc1. change (seqZ 0 1) with [0]. simpl. by rewrite Ht1. }
  split; [split|split; [|done]].
  - change c with (paging_root k1) at 1. apply bare_rep; try done.
    + unfold k1. cbn. rewrite Hused. set_solver.
    + intros i Hi. pose proof (read_fresh_table k c p c i Hf Hf Hi) as Hz.
      rewrite decide_True in Hz by reflexivity. revert Hz. unfold k1, with_root, read_entry.
      cbn [mem paging_root]. generalize (load (mem (fresh_table k c p)) (entry_at c i)). done.
  - intros q e. simpl. rewrite lookup_empty. naive_solver.
  - by intros q t [[=]]%bare_lookup.
  - done.
  - split; try done.
    + unfold others. rewrite Hl1. cbn [pmm with_root k1 fresh_table with_mem with_tables with_pmm].
      rewrite Hused. change (table_list (with_root k c)) with (table_list k).
      assert (table_list k = []) as -> by (unfold table_list; by rewrite Hc).
      simpl. set_solver.
    + intros a Hpa. unfold k1. cbn [mem with_root fresh_table with_mem].
      unfold entry_at. rewrite (load_store_words c (λ _, 0)) by (intros; by vm_compute).
      rewrite decide_False; [done|]. intros Hw. apply Hpa. rewrite (page_of_words c a Hf Hw).
      apply elem_of_difference. split; [done|]. unfold others.
      by intros [? _]%elem_of_difference.
Qed.

(** What every failure leaves: the allocator and the processor as they were. *)
Record undone k k' : Prop := {
  ud_pool : pmm_pool (pmm k') = pmm_pool (pmm k);
  ud_used : pmm_used (pmm k') = pmm_used (pmm k);
  ud_inv : pmm_inv (pmm k');
  ud_count : paging_table_count k' = 0;
  ud_active : active k' = false;
  ud_cr3 : registers (cpu k') = registers (cpu k);
  ud_tlb : tlb (cpu k') ⊆ tlb (cpu k);
  ud_memory a :
    page_of a ∉ pmm_pool (pmm k) ∖ pmm_used (pmm k) → load (mem k') a = load (mem k) a;
}.

Lemma discard_undone k c k1 r1 S1 :
  unstarted k → stable (with_root k c) k1 → boot_tree L k1 r1 S1 →
  undone k (discard_page_tables k1).
Proof.
  intros Hu Hst Hb. pose proof (unstarted_others k Hu) as Ho.
  destruct (discard_spec k1 r1 (bt_rep L k1 r1 S1 Hb))
    as (Hp & Hpool & Hused & Hc & _ & Hm & Hcpu & Hact & _).
  split; try done.
  - rewrite Hpool. apply (st_pool _ _ Hst).
  - rewrite Hused, (st_others _ _ Hst). done.
  - rewrite Hact, (st_active _ _ Hst). apply Hu.
  - rewrite Hcpu. apply (st_registers _ _ Hst).
  - rewrite Hcpu. apply (st_tlb _ _ Hst).
  - intros a Ha. rewrite Hm. apply (st_memory _ _ Hst). by rewrite <- Ho in Ha.
Qed.

(** Every outcome. [k2] is the state the tables are activated in; the reason of
    a failure is known when the allocator's pages are boot RAM. *)
Lemma paging_init_outcome info k :
  unstarted k → boot_validated k info →
  let b := read_info (mem k) info in
  match paging_init L info k with
  | (true, k') =>
      initializable info k ∧
      ∃ c k2 r2, boot_tree L k2 r2 (identity_page L (mem k) b) ∧ stable (with_root k c) k2 ∧
        (∀ t, t ∈ table_list k2 → ram_page (mem k) b (t / 4096)) ∧
        k' = activate_page_tables (cr4 (cpu k)) k2 ∧
        paging_table_count k2 = Z.of_nat (size (tables_of (ram_pages (mem k) b))) ∧
        pmm_available (pmm k2) + paging_table_count k2 = pmm_available (pmm k)
  | (false, k') =>
      undone k k' ∧
      ((∀ a, a ∈ pmm_pool (pmm k) → ram_page (mem k) b (a / 4096)) → ¬ initializable info k)
  end.
Proof.
  intros Hu [Hd Hsh Hwf]. pose proof Hu as [Hp Hc Hact]. cbv zeta.
  set (b := read_info (mem k) info) in *.
  pose proof (λ q, elem_of_ram_pages (mem k) b q Hwf) as HP.
  assert (∀ q, q ∈ ram_pages (mem k) b → 0 ≤ q < 2 ^ 20) as HPr.
  { intros q (i & _ & _ & Hq & _)%HP. lia. }
  assert (0 < Z.of_nat (size (tables_of (ram_pages (mem k) b)))) as Hpos.
  { assert ((0, 0) ∈ tables_of (ram_pages (mem k) b)) as Hin
      by (apply elem_of_tables_of; by left).
    assert (size (tables_of (ram_pages (mem k) b)) ≠ 0%nat); [|lia].
    intros He%size_empty_inv. by apply He in Hin. }
  assert (∀ k', pmm k' = pmm k → mem k' = mem k → cpu k' = cpu k → active k' = active k →
    paging_table_count k' = paging_table_count k → undone k k') as Hsame.
  { intros k' E1 E2 E3 E4 E5. split; rewrite ?E1, ?E2, ?E3, ?E4, ?E5; try done. }
  unfold paging_init. rewrite Hact. cbn [orb].
  destruct (Z.eqb_spec info 0); cbn [orb]; [by split; [apply Hsame|intros _ []]|].
  destruct (Z.eqb_spec (pmm_total (pmm k)) 0) as [Ht|_]; cbn [orb].
  { split; [by apply Hsame|]. intros _ [_ _ _ Hroom _ _]. fold b in Hroom.
    pose proof (available_total _ Hp). lia. }
  change (x86_read_cr4 (cpu k)) with (cr4 (cpu k)).
  destruct (supported_cpu_state (cr4 (cpu k)) (cpu k)) eqn:Hsup; cbn [negb].
  2:{ split; [by apply Hsame|]. intros _ [_ Hs _ _ _ _]. congruence. }
  destruct (pmm_alloc (pmm k)) as [[c|] p] eqn:Ha.
  2:{ assert (new_table k = (0, with_pmm k p)) as -> by (unfold new_table; by rewrite Hc, Ha).
      apply alloc_none_available in Ha as [-> Hno]; [|done]. split; [by apply Hsame|].
      intros _ [_ _ _ Hroom _ _]. fold b in Hroom. lia. }
  assert (new_table k = (c, fresh_table k c p)) as -> by (unfold new_table; by rewrite Hc, Ha).
  destruct (root_state k c p Hu Ha) as (Hb1 & Hst1 & Hf).
  pose proof (pmm_alloc_count _ _ _ Hp Ha) as Hav.
  rewrite (proj2 (Z.eqb_neq c 0)) by (destruct Hf as [? _]; lia).
  set (k1 := with_root _ _) in *.
  assert (pmm_available (pmm k1) + paging_table_count k1 = pmm_available (pmm k)) as Hav1.
  { change (pmm_available p + (paging_table_count k + 1) = pmm_available (pmm k)). lia. }
  assert (boot_data_safe (with_root k c) info) as Hd' by (destruct Hd; by split).
  pose proof (boot_data_safe_stable _ _ info Hd' Hst1) as Hd1.
  pose proof (read_info_stable _ _ info Hd' Hst1) as Hi1. cbn [with_root mem] in Hi1. fold b in Hi1.
  assert (∀ i, 0 ≤ i < Pmm.descriptor_count b →
    Pmm.descriptor (mem k1) b i = Pmm.descriptor (mem k) b i) as Hdesc.
  { intros i Hi. pose proof (read_map_stable _ _ info i Hd' Hsh Hst1 Hi) as H1.
    pose proof (read_map_stable _ _ info i Hd' Hsh (reflexivity _) Hi) as H2.
    pose proof (read_map_stable _ _ info i Hd1 ltac:(by rewrite Hi1) (reflexivity _) ltac:(by rewrite Hi1)) as H3.
    rewrite Hi1 in H3. cbn [with_root mem] in H1, H2. fold b in H1, H2. congruence. }
  assert (Pmm.well_formed_map (mem k1) b) as Hwf1.
  { intros i Hi. rewrite Hdesc by done. split; [by apply Hwf|]. intros j Hj.
    rewrite Hdesc by lia. by apply Hwf. }
  assert (∀ q, ram_page (mem k1) b q ↔ ram_page (mem k) b q) as Hram.
  { intros q. unfold ram_page. split; intros (i & Hi & Hq); exists i; (split; [done|]).
    - by rewrite <- Hdesc.
    - by rewrite Hdesc. }
  assert (ram_cacheable (mem k1) b ↔ ram_cacheable (mem k) b) as Hcache.
  { unfold ram_cacheable. split; intros H i Hi; [rewrite <- Hdesc by done|rewrite Hdesc by done]; auto. }
  rewrite <- Hi1 in Hsh, Hwf1.
  assert (within (ram_page (mem k1) (read_info (mem k1) info)) (bare c)) as Hin1.
  { intros l x t. cbn [bare tab]. intros [[= <- <-] _]%lookup_singleton_Some. by left. }
  pose proof (map_boot_ram_spec L info k1 _ _ Hd1 Hsh Hwf1 Hb1 Hin1) as Hmap.
  rewrite Hi1 in Hmap. cbv zeta in Hmap.
  destruct (map_boot_ram L info k1) as [[|] k2]; destruct Hmap as (r2 & S2 & Hb2 & Hst2 & HS2);
    pose proof (bt_rep L k2 r2 S2 Hb2) as Hr2;
    pose proof (available_stable k1 _ k2 r2 (bt_rep _ _ _ _ Hb1) Hr2 Hst2) as Hav2.
  2:{ split; [apply (discard_undone k c k2 r2 S2 Hu); [by etrans|done]|].
      intros _ [_ _ Hca Hroom _ _]. fold b in Hca, Hroom. destruct HS2 as [Hn|Hex].
      - by apply Hn, Hcache.
      - assert (∀ q, ram_page (mem k1) b q ↔ q ∈ ram_pages (mem k) b) as HR by (intros q; by rewrite Hram, HP).
        pose proof (exhausted_room _ _ k2 r2 HR HPr Hr2 Hex). lia. }
  destruct HS2 as (HS2 & Hca%Hcache & Hin2).
  assert (∀ q, ram_page (mem k1) b q ↔ q ∈ ram_pages (mem k) b) as HR by (intros q; by rewrite Hram, HP).
  pose proof (subseteq_size _ _ (within_tables _ _ k2 r2 HR Hr2 Hin2)) as Hmost.
  pose proof (tab_size k2 r2 Hr2) as Htab2.
  assert (∀ q, S2 q ↔ ram_page (mem k) b q) as HS by (intros q; rewrite HS2, Hram; tauto).
  pose proof (read_info_stable _ _ info Hd1 Hst2) as Hi2. rewrite Hi1 in Hi2.
  pose proof (required_regions_spec L info k2 r2 S2 Hb2) as Hreq. rewrite Hi2 in Hreq.
  assert (runs_on S2 info b ↔ runs_on (ram_page (mem k) b) info b) as Hruns.
  { unfold runs_on. by rewrite !(covered_ext S2 _ _ _ HS). }
  rewrite Hruns in Hreq.
  destruct (required_regions_mapped info k2); cbn [negb].
  2:{ split; [apply (discard_undone k c k2 r2 S2 Hu); [by etrans|done]|].
      intros Hpool [_ _ _ _ Hru _]. fold b in Hru.
      enough (false = true) by done. apply Hreq. split; [done|]. intros t Ht.
      apply (rep_list k2 r2 Hr2) in Ht as [x Hx].
      assert (t ∈ pmm_pool (pmm k)) as Htp.
      { apply (rep_used k2 r2 Hr2), (pmm_used_pool _ (rep_pmm k2 r2 Hr2)) in Hx.
        rewrite (st_pool _ _ Hst2), (st_pool _ _ Hst1) in Hx. done. }
      pose proof (pmm_pool_frame _ _ Hp Htp) as [Hfr Hal]. unfold PMM_LIMIT, PMM_PAGE_SIZE in *.
      unfold covered, PMM_LIMIT. split; [lia|]. split; [lia|]. split; [zdm|].
      intros q Hq. apply HS. replace q with (t / 4096) by (unfold Pmm.overlaps in Hq; zdm).
      by apply Hpool. }
  destruct (proj1 Hreq eq_refl) as [Hru Htl].
  unfold unmap_stack_guards. rewrite Hi2.
  pose proof (unmap_guards_spec L (guards L b) k2 r2 S2 Hb2) as Hg.
  pose proof (guardable_ext _ _ (guards L b) HS) as Hgx.
  destruct (foreach _ _ k2) as [k3|k3].
  2:{ destruct Hg as (Hng & r3 & S3 & Hb3 & Hst3).
      split; [apply (discard_undone k c k3 r3 S3 Hu); [by do 2 (etrans; [done|])|done]|].
      intros _ [_ _ _ _ _ Hgu]. by apply Hng, Hgx. }
  destruct Hg as (HgS%Hgx & r3 & Hb3 & Hst3 & Htab3).
  pose proof (bt_rep L k3 r3 _ Hb3) as Hr3.
  pose proof (available_stable k2 r2 k3 r3 Hr2 Hr3 Hst3) as Hav3.
  pose proof (tab_size k3 r3 Hr3) as Hsz3. rewrite Htab3 in Hsz3.
  assert (Z.of_nat (size (tables_of (ram_pages (mem k) b))) ≤ paging_table_count k2) as Hleast.
  { destruct Hru as ((Hk0 & _ & _ & Hk) & _).
    assert (ram_page (mem k) b (kernel_base b / 4096)) as Hq0 by (apply Hk; unfold Pmm.overlaps; zdm).
    apply HP in Hq0.
    exact (mapped_tables k2 r2 S2 (ram_pages (mem k) b) _ Hb2 (λ q H, proj2 (HS q) (proj1 (HP q) H)) Hq0). }
  split.
  { split; [done|exact Hsup|exact Hca| |exact Hru|exact HgS]. fold b. rewrite <- Hav1, <- Hav2.
    assert (0 ≤ pmm_available (pmm k2)); [|lia].
    rewrite pmm_available_spec by apply Hr2. lia. }
  exists c, k3, r3. split; [|split; [by do 2 (etrans; [done|])|split; [|split; [done|lia]]]].
  - eapply boot_tree_ext; [|done]. intros q. simpl. unfold identity_page. by rewrite HS.
  - intros t Ht. apply HS. assert (t ∈ table_list k2) as Ht2.
    { apply (rep_list k2 r2 Hr2). apply (rep_list k3 r3 (bt_rep _ _ _ _ Hb3)) in Ht as [x Hx].
      exists x. by rewrite <- Htab3. }
    destruct (Htl t Ht2) as (_ & _ & _ & Hcov). apply Hcov. unfold Pmm.overlaps. zdm.
Qed.

(** What a success establishes. *)
Lemma paging_init_cases info k :
  unstarted k → boot_validated k info →
  match paging_init L info k with
  | (true, k') =>
      let b := read_info (mem k) info in
      supported_cpu_state (cr4 (cpu k)) (cpu k) = true ∧
      (∀ q, kernel_page info b q ∨ guard_page (guards L b) q → ram_page (mem k) b q) ∧
      ∃ c k2 r2, boot_tree L k2 r2 (identity_page L (mem k) b) ∧ stable (with_root k c) k2 ∧
        (∀ t, t ∈ table_list k2 → ram_page (mem k) b (t / 4096)) ∧
        k' = activate_page_tables (cr4 (cpu k)) k2
  | (false, k') => undone k k'
  end.
Proof.
  intros Hu Hv. pose proof (paging_init_outcome info k Hu Hv) as H. cbv zeta in H.
  destruct (paging_init L info k) as [[|] k']; [|apply H].
  destruct H as ([_ Hsup _ _ Hru Hgu] & c & k2 & r2 & Hb & Hst & Ht & -> & _).
  split; [done|]. split; [|by exists c, k2, r2].
  destruct Hru as ((_ & _ & _ & Hk) & (_ & _ & _ & Hs) & (_ & _ & _ & Hi) & (_ & _ & _ & Hm)).
  intros q [[?|[?|[?|?]]]|Hq]; [by auto..|]. by eapply guardable_page.
Qed.

(** ** Activation *)

Lemma no_global_pge v : has_bits (Z.land v (not64 0x80)) PGE = false.
Proof.
  change PGE with (bit64 7). rewrite has_bits_bit64 by lia.
  rewrite Z.land_spec, testbit_not64 by lia.
  change (Z.testbit 128 7) with true. apply andb_false_r.
Qed.

(** No translation of the old tables survives the switch. *)
Lemma activate_tlb v k : tlb (cpu (activate_page_tables v k)) = ∅.
Proof.
  unfold activate_page_tables, x86_write_cr4, x86_write_cr3, with_tlb, with_cr.
  cbn [cpu tlb cr0 cr3 cr4]. rewrite no_global_pge. by destruct (Bool.eqb false _).
Qed.

Lemma activate_enabled v w c k :
  supported_cpu_state w c = true → rflags (cpu k) = rflags c →
  enabled (activate_page_tables v k) = true.
Proof.
  intros Hsup Hrf. unfold enabled. change (x86_read_rflags _) with (rflags (cpu k)). rewrite Hrf.
  unfold supported_cpu_state, x86_read_rflags in Hsup.
  destruct (has_bits (rflags c) 0x200); [|done]. by rewrite orb_true_r in Hsup.
Qed.

Lemma boot_tree_good v k r S :
  boot_tree L k r S → good (activate_page_tables v k) r.
Proof.
  intros Hb. pose proof Hb as [Hr Hleaf Hlow Hrg].
  assert (∀ q, q < 2 ^ 20 → 0 ≤ q → ¬ dynamic_page q) as Hnd.
  { intros q Hq H0 Hd. unfold dynamic_page, prefix in Hd.
    change (512 ^ (4 - 1)) with 134217728 in Hd. zdm. }
  split.
  - destruct Hr. by split.
  - intros p Hp l t Hl Ht. exfalso.
    assert (is_Some (tab r !! (1, prefix p 1))) as [u Hu].
    { destruct (decide (l = 1)) as [->|]; [by eexists|]. assert (2 ≤ l) by lia.
      destruct (decide (l = 2)) as [->|].
      - by apply (path_parent k r p 1 t Hr ltac:(lia)).
      - assert (l = 3) as -> by lia.
        destruct (path_parent k r p 2 t Hr ltac:(lia) Ht) as [t2 H2].
        by apply (path_parent k r p 1 t2 Hr ltac:(lia)). }
    apply Hlow in Hu. unfold dynamic_page in Hp. lia.
  - intros p e Hp [HS _]%Hleaf. apply Hrg in HS. by destruct (Hnd p ltac:(lia) ltac:(lia)).
  - rewrite activate_tlb. apply map_empty_subseteq.
  - pose proof (rep_frame k r _ _ Hr (rep_root k r Hr)) as Hf.
    change (Z.land (paging_root k) ADDRESS_MASK = paging_root k).
    pose proof (mask_entry (paging_root k) 0 Hf) as Hm. rewrite Z.lor_0_r in Hm.
    apply Hm. intros i _. apply Z.bits_0.
Qed.

Lemma id_entry_bits q :
  256 ≤ q < 2 ^ 20 →
  Z.land (id_entry L q) ADDRESS_MASK = q * 4096 ∧
  has_bits (id_entry L q) 2 = Z.testbit (page_flags L (q * 4096)) 1 ∧
  has_bits (id_entry L q) NX = Z.testbit (page_flags L (q * 4096)) 63.
Proof.
  intros Hq. assert (frame (q * 4096)) as Hf
    by (unfold frame, PMM_LIMIT, PMM_PAGE_SIZE; split; [lia|zdm]).
  unfold id_entry. destruct (page_flags_leaf L (q * 4096)) as (f & _ & -> & _).
  rewrite leaf_entry_mask, has_bits_2, has_bits_NX by done.
  by rewrite !leaf_entry_bit by (done || lia).
Qed.

(** ** Properties *)

(** C19: when [paging_init] succeeds, the processor translates exactly the
    pages of boot RAM between 1 MiB and 4 GiB, less the four guards, each to
    itself; everything the kernel runs on is among them; no page in use
    before became a table; and the dynamic interface starts from its
    invariant. *)
Theorem paging_init_builds_identity_map info k k' :
  unstarted k → boot_validated k info → paging_init L info k = (true, k') →
  let b := read_info (mem k) info in
  (∀ a e, walk k' a = Some e ↔ identity_page L (mem k) b (vpn a) ∧ e = id_entry L (vpn a)) ∧
  (∀ q, kernel_page info b q → ¬ guard_page (guards L b) q → identity_page L (mem k) b q) ∧
  (∀ t, t ∈ table_list k' → ram_page (mem k) b (t / 4096)) ∧
  others k' = pmm_used (pmm k) ∧ ∃ r, good k' r.
Proof.
  intros Hu Hv Hi b. pose proof (paging_init_cases info k Hu Hv) as Hc. rewrite Hi in Hc.
  destruct Hc as (_ & Hk & c & k2 & r2 & Hb & Hst & Ht & ->). fold b in Hk, Hb, Ht.
  pose proof (boot_tree_good (cr4 (cpu k)) k2 r2 _ Hb) as Hg.
  split; [|split; [|split; [done|split; [|by exists r2]]]].
  - intros a e. rewrite (walk_leaf _ r2 a Hg). apply (bt_leaf L k2 r2 _ Hb).
  - intros q Hq Hn. split; [|done]. apply Hk. by left.
  - etrans; [apply (st_others _ _ Hst)|]. exact (unstarted_others k Hu).
Qed.

(** C21: the protections of the identity map: a page in the text section is
    executable and read-only, one in the read-only data is neither writable
    nor executable, every other page is writable and not executable; so no
    page is both. *)
Theorem paging_init_protects_sections info k k' a e :
  unstarted k → boot_validated k info → paging_init L info k = (true, k') →
  walk k' a = Some e →
  let page := vpn a * 4096 in
  Z.land e ADDRESS_MASK = page ∧
  (has_bits e 2, negb (has_bits e NX)) =
    (if (kernel_text_start L <=? page) && (page <? kernel_text_end L) then (false, true)
     else if (kernel_rodata_start L <=? page) && (page <? kernel_rodata_end L) then (false, false)
     else (true, false)).
Proof.
  intros Hu Hv Hi Hw. pose proof (paging_init_cases info k Hu Hv) as Hc. rewrite Hi in Hc.
  destruct Hc as (_ & _ & c & k2 & r2 & Hb & _ & _ & ->).
  rewrite (walk_leaf _ r2 a (boot_tree_good _ k2 r2 _ Hb)) in Hw.
  apply (bt_leaf L k2 r2 _ Hb) in Hw as [Hid ->].
  destruct (id_entry_bits (vpn a) (bt_range L k2 r2 _ Hb _ Hid)) as (-> & -> & ->).
  split; [done|]. unfold page_flags.
  by destruct (_ && _); [|destruct (_ && _)].
Qed.

(** The switch: after a success CR3 holds the new root, the old CR3 is
    kept, no-execute (EFER.NXE) and supervisor write protection (CR0.WP) are
    on, CR4 and the interrupt flag are as before, and no translation of the
    old tables is cached, not even a global one. *)
Theorem paging_init_switches_tables info k k' :
  unstarted k → boot_validated k info → paging_init L info k = (true, k') →
  cr3 (cpu k') = paging_root k' ∧ paging_previous_cr3 k' = cr3 (cpu k) ∧
  Z.testbit (x86_read_msr 0xc0000080 (cpu k')) 11 = true ∧ Z.testbit (cr0 (cpu k')) 16 = true ∧
  cr4 (cpu k') = cr4 (cpu k) ∧ rflags (cpu k') = rflags (cpu k) ∧
  tlb (cpu k') = ∅ ∧ enabled k' = true.
Proof.
  intros Hu Hv Hi. pose proof (paging_init_cases info k Hu Hv) as Hc. rewrite Hi in Hc.
  destruct Hc as (Hsup & _ & c & k2 & r2 & _ & Hst & _ & ->).
  pose proof (st_registers _ _ Hst) as Hreg. change (cpu (with_root k c)) with (cpu k) in Hreg.
  unfold registers, with_tlb in Hreg. injection Hreg as Hrf H0 H3 H4 Hmsr Hcpuid.
  split; [done|]. split; [done|]. split.
  { set (v := Z.lor (x86_read_msr 0xc0000080 (cpu k2)) (bit64 11)).
    change (x86_read_msr 0xc0000080 (cpu (activate_page_tables (cr4 (cpu k)) k2)))
      with (x86_read_msr 0xc0000080 (x86_write_msr 0xc0000080 v (cpu k2))).
    rewrite read_write_msr, testbit_u64 by lia. unfold v. rewrite Z.lor_spec.
    change (Z.testbit (bit64 11) 11) with true. apply orb_true_r. }
  split.
  { change (cr0 (cpu (activate_page_tables (cr4 (cpu k)) k2))) with (Z.lor (cr0 (cpu k2)) (bit64 16)).
    rewrite Z.lor_spec. change (Z.testbit (bit64 16) 16) with true. apply orb_true_r. }
  split; [done|]. split; [done|]. split; [apply activate_tlb|].
  exact (activate_enabled _ _ _ k2 Hsup Hrf).
Qed.

(** C22: a failed [paging_init] undoes everything: every table page it took is
    given back, so the allocator has the same pages in use, no table is
    recorded, the processor's registers are untouched - the old CR3 stays
    active - and no memory outside the free pages was written. *)
Theorem paging_init_failure_undoes info k k' :
  unstarted k → boot_validated k info → paging_init L info k = (false, k') →
  pmm_used (pmm k') = pmm_used (pmm k) ∧ pmm_available (pmm k') = pmm_available (pmm k) ∧
  paging_table_count k' = 0 ∧ active k' = false ∧ registers (cpu k') = registers (cpu k) ∧
  ∀ a, page_of a ∉ pmm_pool (pmm k) ∖ pmm_used (pmm k) → load (mem k') a = load (mem k) a.
Proof.
  intros Hu Hv Hi. pose proof (paging_init_cases info k Hu Hv) as Hc. rewrite Hi in Hc.
  destruct Hc as [Hpool Hused Hinv Hcount Hact Hreg _ Hmem].
  split; [done|]. split; [|done].
  rewrite !pmm_available_spec by (done || apply Hu). by rewrite Hpool, Hused.
Qed.

(** C24: the identity map is permanent: after a successful [paging_init] and
    any sequence of dynamic calls, accesses and evictions, every address
    outside the dynamic window still translates as [paging_init] set it up,
    and the boot information and all pages in use before have their
    contents. *)
Theorem paging_identity_map_permanent info k k' es a :
  unstarted k → boot_validated k info → paging_init L info k = (true, k') →
  Forall typed es → ¬ dynamic_page (vpn a) →
  let k'' := snd (run kernel_step es k') in
  decode <$> walk k'' a = decode <$> walk k' a ∧
  read_info (mem k'') info = read_info (mem k) info ∧
  ∀ x, page_of x ∈ pmm_used (pmm k) → load (mem k'') x = load (mem k) x.
Proof.
  intros Hu Hv Hi Hes Ha. pose proof (paging_init_cases info k Hu Hv) as Hc. rewrite Hi in Hc.
  destruct Hc as (_ & _ & c & k2 & r2 & Hb & Hst & _ & ->). cbv zeta.
  set (k' := activate_page_tables _ k2).
  pose proof (boot_tree_good (cr4 (cpu k)) k2 r2 _ Hb : good k' r2) as Hg.
  destruct (run_good es k' r2 Hes Hg) as (r3 & Hg3 & Hs & Hp).
  assert (∀ x, page_of x ∉ pmm_pool (pmm k) ∖ others k →
    load (mem (snd (run kernel_step es k'))) x = load (mem k) x) as Hmem.
  { intros x Hx. etrans; [apply (pr_memory _ _ Hp)|apply (st_memory _ _ Hst x Hx)].
    change (pmm_pool (pmm k')) with (pmm_pool (pmm k2)). change (others k') with (others k2).
    by rewrite (st_pool _ _ Hst), (st_others _ _ Hst). }
  split; [|split].
  - rewrite (walk_leaf _ r3 a Hg3), (walk_leaf k' r2 a Hg), <- !lookup_fmap.
    pose proof (space_run_outside es (abstract k' r2) (vpn a) Hes Ha) as H.
    by rewrite Hs in H.
  - apply read_info_agree. intros j Hj. apply Hmem, (bs_info k info (bv_data k info Hv)).
    unfold sizeof_BOOT_INFO. lia.
  - intros x Hx. apply Hmem. rewrite (unstarted_others k Hu). intros [_ Hn]%elem_of_difference.
    by apply Hn.
Qed.

End init.

(** ** With the real allocator *)

#[local] Existing Instances Pmm.Pmm_api Pmm.Pmm_contract Pmm.pmm_wf_dec.

(** The state [pmm_init] leaves for [paging_init]. *)
Definition booted (m : ram) (s : Pmm.PMM) (c : CPU) : PAGING Pmm.PMM :=
  Build_PAGING s m ∅ 0 0 0 false c.

Lemma page_of_page x : page_of x / 4096 = x / 4096 ∧ page_of x mod 4096 = 0.
Proof. unfold page_of. split; zdm. Qed.

(** The allocator over memory [m], before any page is handed out: all usable
    pages of a well-formed map but those the loader's data and the kernel
    occupy. *)
Record pmm_started (m : ram) (info : Z) (s : Pmm.PMM) : Prop := {
  ps_valid : Pmm.valid_boot_info info (read_info m info) = true;
  ps_map : Pmm.well_formed_map m (read_info m info);
  ps_wf : Pmm.pmm_wf s;
  ps_none : Pmm.allocated_pages s = ∅;
  ps_pages q : q ∈ Pmm.eligible_pages s ↔
    Pmm.usable_page m (read_info m info) q ∧ ¬ Pmm.boot_reserved info (read_info m info) q;
}.

Lemma pmm_init_started m info s :
  is_u64 info → Pmm.pmm_init m info Pmm.pmm_bss = (true, s) → pmm_started m info s.
Proof.
  intros Hu (Hv & Hm & Hwf & Hal & Hel)%Pmm.pmm_init_true; [|done].
  split; try done; [by apply Pmm.valid_map_ranges_spec|].
  intros q. unfold Pmm.eligible_pages. rewrite Hel. by apply Pmm.init_bitmap_spec.
Qed.

Lemma started_validated m info s c :
  is_u64 info → pmm_started m info s →
  unstarted (booted m s c) ∧ boot_validated (booted m s c) info.
Proof.
  intros Hu [Hv Hm Hwf Hal Hel].
  pose proof (Pmm.valid_boot_info_spec m info Hu Hv) as Hf. cbv zeta in Hf.
  pose proof (read_info_range m info) as Hrg. cbv zeta in Hrg.
  set (b := read_info m info) in *. unfold is_u64 in Hrg.
  assert (∀ x base size, Pmm.overlaps (x / 4096) base size → 
    (Pmm.overlaps (x / 4096) base size → Pmm.boot_reserved info b (x / 4096)) →
    page_of x ∉ Pmm.addresses (Pmm.eligible_pages s)) as Hout.
  { intros x base size Ho Hb [_ Hq]%Pmm.elem_of_addresses.
    rewrite (proj1 (page_of_page x)) in Hq. apply Hel in Hq as [_ Hq]. by apply Hq, Hb. }
  split; [by split|]. split; [|split|done].
  - split; intros x Hx [Hp _]%elem_of_difference; revert Hp.
    + apply (Hout x info sizeof_BOOT_INFO); [unfold Pmm.overlaps, sizeof_BOOT_INFO in *; split; zdm|].
      intros Ho. right. by left.
    + change (read_info (mem (booted m s c)) info) with b in Hx.
      apply (Hout x (memory_map b) (memory_map_size b)); [unfold Pmm.overlaps in *; split; zdm|].
      intros Ho. right. right. by left.
  - change (mem (booted m s c)) with m. fold b. unfold sizeof_BOOT_MEMORY_DESCRIPTOR. lia.
  - change (mem (booted m s c)) with m. fold b. unfold Pmm.descriptor_count. zdm.
  - change (mem (booted m s c)) with m. fold b. lia.
  - change (mem (booted m s c)) with m. fold b. lia.
  - change (mem (booted m s c)) with m. fold b. lia.
Qed.

Lemma booted_validated m info s c :
  is_u64 info → Pmm.pmm_init m info Pmm.pmm_bss = (true, s) →
  unstarted (booted m s c) ∧ boot_validated (booted m s c) info.
Proof. intros Hu Hi. by apply started_validated, pmm_init_started. Qed.

(** C23: after [pmm_init] and a successful [paging_init], whatever the dynamic
    interface is asked to do, no page table is ever placed in a page of the
    kernel image, the boot information, the memory map or the stack: every
    table is a usable page of the memory map. *)
Theorem page_tables_avoid_boot_memory L m info s c k' es t :
  is_u64 info → Pmm.pmm_init m info Pmm.pmm_bss = (true, s) →
  paging_init L info (booted m s c) = (true, k') → Forall typed es →
  t ∈ table_list (snd (run kernel_step es k')) →
  frame t ∧ Pmm.usable_page m (read_info m info) (t / 4096) ∧
  ¬ Pmm.boot_reserved info (read_info m info) (t / 4096).
Proof.
  intros Hu Hi Hk Hes Ht. destruct (booted_validated m info s c Hu Hi) as [Hun Hbv].
  pose proof (paging_init_cases L info _ Hun Hbv) as Hc. rewrite Hk in Hc.
  destruct Hc as (_ & _ & c0 & k2 & r2 & Hb & Hst & _ & ->).
  destruct (run_good es _ r2 Hes (boot_tree_good L (cr4 c) k2 r2 _ Hb)) as (r3 & Hg3 & _ & Hp).
  set (k3 := snd _) in *. pose proof (g_rep k3 r3 Hg3) as Hr3.
  apply (rep_list k3 r3 Hr3) in Ht as [x Hx].
  split; [by apply (rep_frame k3 r3 _ _ Hr3 Hx)|].
  apply (rep_used k3 r3 Hr3), (pmm_used_pool _ (rep_pmm k3 r3 Hr3)) in Hx.
  rewrite (pr_pool _ _ Hp) in Hx.
  change (pmm_pool (pmm (activate_page_tables _ k2))) with (pmm_pool (pmm k2)) in Hx.
  rewrite (st_pool _ _ Hst) in Hx. apply Pmm.elem_of_addresses in Hx as [_ Hx].
  by apply (ps_pages _ _ _ (pmm_init_started m info s Hu Hi)) in Hx.
Qed.

(** The allocator's pages are boot RAM. *)
Lemma started_pool_ram m info s a :
  pmm_started m info s → a ∈ pmm_pool s → ram_page m (read_info m info) (a / 4096).
Proof.
  intros Hps [_ Hq]%Pmm.elem_of_addresses. apply (ps_pages _ _ _ Hps) in Hq as [(Hr & i & Hi & Hu & Hc) _].
  destruct Hu as [Ht Ha]. exists i. split; [done|]. split; [|by split].
  split; [|done]. by do 2 right.
Qed.

Lemma paging_init_decided L m info s c :
  is_u64 info → pmm_started m info s →
  fst (paging_init L info (booted m s c)) = true ↔ initializable L info (booted m s c).
Proof.
  intros Hu Hps. destruct (started_validated m info s c Hu Hps) as [Hun Hbv].
  pose proof (paging_init_outcome L info _ Hun Hbv) as H. cbv zeta in H.
  destruct (paging_init L info (booted m s c)) as [[|] k']; cbn [fst].
  - by split; [intros _; apply H|].
  - split; [done|]. intros Hin. destruct H as [_ H]. destruct H; [|done].
    intros a Ha. by apply (started_pool_ram m info s).
Qed.

(** C20: [paging_init] decides: after [pmm_init] it succeeds exactly when the
    processor is in a state it supports, every mapped region of the memory map
    can be cached, the free pages suffice for the tables - one for each region
    of 512 GiB, 1 GiB and 2 MiB with a page of boot RAM, and the root - and the
    kernel, its stack, the boot data and the four guards, which are different
    pages, lie in boot RAM. *)
Theorem paging_init_decides L m info s c :
  is_u64 info → Pmm.pmm_init m info Pmm.pmm_bss = (true, s) →
  let b := read_info m info in
  fst (paging_init L info (booted m s c)) = true ↔
    supported_cpu_state (cr4 c) c = true ∧ ram_cacheable m b ∧
    Z.of_nat (size (tables_of (ram_pages m b))) ≤ pmm_available s ∧
    runs_on (ram_page m b) info b ∧ guardable (ram_page m b) (guards L b).
Proof.
  intros Hu Hi b. pose proof (pmm_init_started m info s Hu Hi) as Hps.
  rewrite (paging_init_decided L m info s c Hu Hps). split.
  - by intros [_ ? ? ? ? ?].
  - intros (? & ? & ? & ? & ?). split; try done.
    pose proof (Pmm.valid_boot_info_spec m info Hu (ps_valid _ _ _ Hps)). lia.
Qed.

(** ** A small machine *)

Module Demo.

Definition info_at : Z := 0x11a000.
Definition map_at : Z := 0x11b000.

(** Sixteen free pages, sixteen pages of loader data that hold the kernel,
    the boot data and the stack, and a region the firmware keeps. *)
Definition boot_ram : ram :=
  PmmSpec.words info_at
    [BOOT_INFO_MAGIC; 2 + Z.shiftl 88 32; map_at; 144; 48; 1; 0x110000; 0xa000;
     0x11d000; 0x2000; 1]
  ∪ PmmSpec.words map_at
    ([7; 0x100000; 0; 16; 8; 0xdeadbeef] ++ [2; 0x110000; 0; 16; 8; 0xdeadbeef] ++
     [4; 0x120000; 0; 4; 8; 0xdeadbeef]).

Definition layout : LAYOUT := {|
  kernel_text_start := 0x110000; kernel_text_end := 0x112000;
  kernel_rodata_start := 0x112000; kernel_rodata_end := 0x113000;
  double_fault_guard_low := 0x114000; double_fault_guard_high := 0x119000 |}.

Definition processor : CPU := {|
  rflags := 2; cr0 := 0x80000033; cr3 := 0x7fc01000; cr4 := 0xa0;
  msr := {[0x277 := 0x0007040600070406; 0xc0000080 := 0x500]};
  X86.cpuid := λ leaf _,
    if leaf =? 0x80000000 then Build_X86_CPUID_RESULT 0x80000008 0 0 0
    else if leaf =? 0x80000001 then Build_X86_CPUID_RESULT 0 0 0 0x20100000
    else Build_X86_CPUID_RESULT 0 0 0 0;
  tlb := {[0x110 := 0x110163]} |}.

Definition pmm : Pmm.PMM :=
  {| Pmm.eligible := {[4 := 65535]}; Pmm.allocated := ∅; Pmm.total_pages := 16;
     Pmm.free_pages := 16; Pmm.cursor := 0; Pmm.ready := true |}.

Definition machine : PAGING Pmm.PMM := booted boot_ram pmm processor.

Definition running : PAGING Pmm.PMM := snd (paging_init layout info_at machine).

End Demo.

Lemma demo_init : Pmm.pmm_init Demo.boot_ram Demo.info_at Pmm.pmm_bss = (true, Demo.pmm).
Proof.
  rewrite Pmm.pmm_init_eq; [|done|by vm_compute|by vm_compute].
  apply (f_equal (pair true)). by vm_compute.
Qed.
Lemma demo_validated : unstarted Demo.machine ∧ boot_validated Demo.machine Demo.info_at.
Proof. by apply booted_validated; [|apply demo_init]. Qed.

Lemma demo_runs L : fst (paging_init L Demo.info_at Demo.machine) = true →
  paging_init L Demo.info_at Demo.machine =
    (true, snd (paging_init L Demo.info_at Demo.machine)).
Proof. destruct (paging_init _ _ _) as [[|] k']; [done|]. by intros ?%diff_false_true. Qed.

(** A layout with a guard outside RAM, for which initialization fails late. *)
Definition bad_layout : LAYOUT := {|
  kernel_text_start := 0x110000; kernel_text_end := 0x112000;
  kernel_rodata_start := 0x112000; kernel_rodata_end := 0x113000;
  double_fault_guard_low := 0x114000; double_fault_guard_high := 0x200000 |}.

Lemma paging_init_builds_identity_map_witness :
  let b := read_info Demo.boot_ram Demo.info_at in
  (∀ a e, walk Demo.running a = Some e ↔
     identity_page Demo.layout Demo.boot_ram b (vpn a) ∧ e = id_entry Demo.layout (vpn a)) ∧
  (∀ q, kernel_page Demo.info_at b q → ¬ guard_page (guards Demo.layout b) q →
     identity_page Demo.layout Demo.boot_ram b q) ∧
  (∀ t, t ∈ table_list Demo.running → ram_page Demo.boot_ram b (t / 4096)) ∧
  others Demo.running = pmm_used Demo.pmm ∧ ∃ r, good Demo.running r.
Proof.
  destruct demo_validated as [Hu Hv].
  apply (paging_init_builds_identity_map Demo.layout Demo.info_at Demo.machine _ Hu Hv).
  apply demo_runs. by vm_compute.
Defined.

Lemma paging_init_protects_sections_witness :
  Z.land 0x111001 ADDRESS_MASK = vpn 0x111ff8 * 4096 ∧
  (has_bits 0x111001 2, negb (has_bits 0x111001 NX)) = (false, true).
Proof.
  destruct demo_validated as [Hu Hv].
  apply (paging_init_protects_sections Demo.layout Demo.info_at Demo.machine Demo.running
    0x111ff8 0x111001 Hu Hv); [apply demo_runs|]; by vm_compute.
Defined.

Lemma paging_init_failure_undoes_witness :
  let k' := snd (paging_init bad_layout Demo.info_at Demo.machine) in
  pmm_used (pmm k') = pmm_used Demo.pmm ∧ pmm_available (pmm k') = pmm_available Demo.pmm ∧
  paging_table_count k' = 0 ∧ active k' = false ∧ registers (cpu k') = registers Demo.processor ∧
  ∀ a, page_of a ∉ pmm_pool Demo.pmm ∖ pmm_used Demo.pmm → load (mem k') a = load Demo.boot_ram a.
Proof.
  destruct demo_validated as [Hu Hv].
  apply (paging_init_failure_undoes bad_layout Demo.info_at Demo.machine _ Hu Hv).
  assert (fst (paging_init bad_layout Demo.info_at Demo.machine) = false) as Hf by by vm_compute.
  destruct (paging_init bad_layout Demo.info_at Demo.machine) as [b k']. simpl in *. by subst.
Defined.

(** On the small machine it succeeds, and fails for the layout with a guard
    outside RAM. *)
Lemma paging_init_decides_witness :
  let b := read_info Demo.boot_ram Demo.info_at in
  supported_cpu_state (cr4 Demo.processor) Demo.processor = true ∧ ram_cacheable Demo.boot_ram b ∧
  Z.of_nat (size (tables_of (ram_pages Demo.boot_ram b))) ≤ 16 ∧
  runs_on (ram_page Demo.boot_ram b) Demo.info_at b ∧
  guardable (ram_page Demo.boot_ram b) (guards Demo.layout b) ∧
  ¬ guardable (ram_page Demo.boot_ram b) (guards bad_layout b).
Proof.
  assert (is_u64 Demo.info_at) as Hu by done.
  pose proof (λ L, paging_init_decides L Demo.boot_ram Demo.info_at Demo.pmm Demo.processor Hu demo_init) as H.
  destruct (proj1 (H Demo.layout)) as (H1 & H2 & H3 & H4 & H5); [by vm_compute|].
  do 5 (split; [done|]). intros H6. enough (false = true) by done.
  transitivity (fst (paging_init bad_layout Demo.info_at Demo.machine)); [by vm_compute|].
  by apply (H bad_layout).
Defined.

(** Calls that are refused, since no page is a caller's yet, and accesses. *)
Definition later : list event :=
  [Map window 0x100000 3; Access window; Unmap window; Access 0x110000].

Lemma later_typed : Forall typed later.
Proof. repeat constructor; by vm_compute. Qed.

Lemma paging_identity_map_permanent_witness :
  decode <$> walk (snd (run kernel_step later Demo.running)) 0x110000 =
    decode <$> walk Demo.running 0x110000 ∧
  read_info (mem (snd (run kernel_step later Demo.running))) Demo.info_at =
    read_info Demo.boot_ram Demo.info_at ∧
  ∀ x, page_of x ∈ pmm_used Demo.pmm →
    load (mem (snd (run kernel_step later Demo.running))) x = load Demo.boot_ram x.
Proof.
  destruct demo_validated as [Hu Hv].
  apply (paging_identity_map_permanent Demo.layout Demo.info_at Demo.machine Demo.running
    later 0x110000 Hu Hv); [apply demo_runs; by vm_compute|exact later_typed|by vm_compute].
Defined.

Lemma page_tables_avoid_boot_memory_witness :
  let t := table_page (snd (run kernel_step (take 1 later) Demo.running)) 3 in
  frame t ∧ Pmm.usable_page Demo.boot_ram (read_info Demo.boot_ram Demo.info_at) (t / 4096) ∧
  ¬ Pmm.boot_reserved Demo.info_at (read_info Demo.boot_ram Demo.info_at) (t / 4096).
Proof.
  apply (page_tables_avoid_boot_memory Demo.layout Demo.boot_ram Demo.info_at Demo.pmm
    Demo.processor Demo.running (take 1 later)); [done|exact demo_init| | |].
  - apply demo_runs. by vm_compute.
  - exact (Forall_take _ 1 _ later_typed).
  - apply table_list_elem. exists 3. split; [by vm_compute|]. by vm_compute.
Defined.

End PagingInitSpec.
