(* ===== verification/Elf.v ===== *)
(** * The kernel image: [boot/load.c], the ELF part

    Validation of the ELF file, the range its segments occupy, and their
    placement in memory. The file is the list of its bytes; memory is a map
    from addresses to bytes. *)

From S2P Require Import Prelude.

Module Elf.

(** ** Status codes ([boot/efi.h]) *)

Definition EFI_SUCCESS : Z := 0.
Definition EFI_ERROR_BIT : Z := bit64 63.
Definition EFI_ERROR (status : Z) : bool := has_bits status EFI_ERROR_BIT.
Definition EFI_LOAD_ERROR : Z := Z.lor EFI_ERROR_BIT 1.
Definition EFI_UNSUPPORTED : Z := Z.lor EFI_ERROR_BIT 3.

(** ** The file *)

(** Byte [i] of the file, and the little-endian integer of [n] bytes there. *)
Definition byte (d : list Z) (i : Z) : Z := u8 (default 0 (d !! Z.to_nat i)).
Fixpoint le (d : list Z) (i : Z) (n : nat) : Z :=
  match n with
  | O => 0
  | S n => byte d i + 256 * le d (i + 1) n
  end.

Record ELF_HEADER := {
  ident : list Z;
  type : Z; machine : Z;
  version : Z;
  entry : Z; phoff : Z; shoff : Z;
  flags : Z;
  ehsize : Z; phentsize : Z; phnum : Z; shentsize : Z; shnum : Z; shstrndx : Z;
}.

Record ELF_PROGRAM := {
  p_type : Z; p_flags : Z;
  offset : Z; vaddr : Z; paddr : Z; filesz : Z; memsz : Z; align : Z;
}.

Definition sizeof_ELF_HEADER : Z := 64.
Definition sizeof_ELF_PROGRAM : Z := 56.

(** The structures as the casts of the file's bytes read them. *)
Definition read_header (d : list Z) : ELF_HEADER := {|
  ident := byte d <$> seqZ 0 16;
  type := le d 16 2; machine := le d 18 2;
  version := le d 20 4;
  entry := le d 24 8; phoff := le d 32 8; shoff := le d 40 8;
  flags := le d 48 4;
  ehsize := le d 52 2; phentsize := le d 54 2; phnum := le d 56 2; shentsize := le d 58 2;
  shnum := le d 60 2; shstrndx := le d 62 2;
|}.

Definition read_program (d : list Z) (o : Z) : ELF_PROGRAM := {|
  p_type := le d o 4; p_flags := le d (o + 4) 4;
  offset := le d (o + 8) 8; vaddr := le d (o + 16) 8; paddr := le d (o + 24) 8;
  filesz := le d (o + 32) 8; memsz := le d (o + 40) 8; align := le d (o + 48) 8;
|}.

(** [&ph[i]] *)
Definition program (d : list Z) (h : ELF_HEADER) (i : Z) : ELF_PROGRAM :=
  read_program d (phoff h + sizeof_ELF_PROGRAM * i).

(** ** Validation *)

Definition ident_at (h : ELF_HEADER) (i : nat) : Z := nth i (ident h) 0.

Definition valid_elf_header (h : ELF_HEADER) (size : Z) : bool :=
  if negb (ident_at h 0 =? 0x7f) || negb (ident_at h 1 =? 0x45)
     || negb (ident_at h 2 =? 0x4c) || negb (ident_at h 3 =? 0x46) then false
  else if negb (ident_at h 4 =? 2) || negb (ident_at h 5 =? 1) || negb (ident_at h 6 =? 1)
  then false
  else if negb (type h =? 2) || negb (machine h =? 62) || negb (version h =? 1) then false
  else if negb (ehsize h =? sizeof_ELF_HEADER) || negb (phentsize h =? sizeof_ELF_PROGRAM)
  then false
  else if (phnum h =? 0) || (128 <? phnum h) then false
  else if negb (phoff h mod 8 =? 0) || (size <? phoff h) then false
  else phnum h <=? (size - phoff h) / sizeof_ELF_PROGRAM.

Definition valid_segment (s : ELF_PROGRAM) (file_size : Z) : bool :=
  if (memsz s <? filesz s) || (file_size <? offset s) then false
  else if file_size - offset s <? filesz s then false
  else if negb (paddr s =? vaddr s) then false
  else if (vaddr s <? 0x100000) || (0x100000000 <=? vaddr s) then false
  else if 0x100000000 - vaddr s <? memsz s then false
  else if align s <=? 1 then true
  else if has_bits (align s) (align s - 1) then false
  else vaddr s mod align s =? offset s mod align s.

Definition overlaps_previous_segment (programs : Z → ELF_PROGRAM) (index : Z) : bool :=
  let current := programs index in
  match
    for_step 0 1 index (λ i (_ : unit),
      let other := programs i in
      if negb (p_type other =? 1) || (memsz other =? 0) then Next tt
      else if u64 (vaddr other + memsz other) <=? vaddr current then Next tt
      else if vaddr other <? u64 (vaddr current + memsz current) then Stop tt else Next tt) tt
  with
  | Next _ => false
  | Stop _ => true
  end.

Record IMAGE_RANGE := { base : Z; end_ : Z }.

(** The loop's variables. *)
Record SCAN := { low : Z; high : Z; entry_valid : bool }.

Definition page_down (x : Z) : Z := Z.land x (not64 4095).

(** One turn of the loop of [inspect_segments]. *)
Definition inspect_segment (d : list Z) (h : ELF_HEADER) (size i : Z) (s : SCAN) : ctl SCAN Z :=
  let p := program d h i in
  if (p_type p =? 2) || (p_type p =? 3) then Stop EFI_UNSUPPORTED
  else if negb (p_type p =? 1) then Next s
  else if negb (valid_segment p size) then Stop EFI_LOAD_ERROR
  else if memsz p =? 0 then Next s
  else if overlaps_previous_segment (program d h) i then Stop EFI_LOAD_ERROR
  else
    let v := has_bits (p_flags p) 1 && (vaddr p <=? entry h) && (entry h - vaddr p <? filesz p) in
    let begin := page_down (vaddr p) in
    let stop := page_down (u64 (u64 (vaddr p + memsz p) + 4095)) in
    Next {| low := if begin <? low s then begin else low s;
            high := if high s <? stop then stop else high s;
            entry_valid := v || entry_valid s |}.

Definition inspect_segments (d : list Z) (h : ELF_HEADER) (size : Z) : Z + IMAGE_RANGE :=
  match
    for_step 0 1 (phnum h) (inspect_segment d h size)
      {| low := UINT64_MAX; high := 0; entry_valid := false |}
  with
  | Stop status => inl status
  | Next s =>
      if negb (entry_valid s) || (high s <=? low s) || (64 * 1024 * 1024 <? high s - low s)
      then inl EFI_LOAD_ERROR
      else inr {| base := low s; end_ := high s |}
  end.

(** ** Placement *)

Abbreviation memory := (gmap Z Z).

Definition copy_segments (d : list Z) (h : ELF_HEADER) (r : IMAGE_RANGE) (m : memory) : memory :=
  let m := for_all 0 1 (end_ r - base r) (λ i m, <[base r + i := 0]> m) m in
  for_all 0 1 (phnum h) (λ i m,
    let s := program d h i in
    if negb (p_type s =? 1) then m
    else for_all 0 1 (filesz s) (λ j m, <[vaddr s + j := byte d (offset s + j)]> m) m) m.

Record LOADED_KERNEL := { k_base : Z; k_pages : Z; k_entry : Z }.

Section firmware.
(** [AllocatePages type memory_type pages address]: the status, the address
    left in [*Memory], and the firmware's new state. *)
Context {F : Type} (AllocatePages : Z → Z → Z → Z → F → Z * Z * F).

Definition place_kernel (d : list Z) (size : Z) (m : memory) (fw : F)
    : Z * option LOADED_KERNEL * memory * F :=
  if size <? sizeof_ELF_HEADER then (EFI_LOAD_ERROR, None, m, fw)
  else
    let h := read_header d in
    if negb (valid_elf_header h size) then (EFI_LOAD_ERROR, None, m, fw)
    else
      match inspect_segments d h size with
      | inl status => (status, None, m, fw)
      | inr range =>
          let pages := (end_ range - base range) / 4096 in
          let '(status, address, fw) := AllocatePages 2 1 pages (base range) fw in
          if EFI_ERROR status then (status, None, m, fw)
          else
            (EFI_SUCCESS,
             Some {| k_base := address; k_pages := pages; k_entry := entry h |},
             copy_segments d h range m, fw)
      end.

End firmware.

End Elf.
