(* ===== verification/ElfSpec.v ===== *)
(** * What the loader promises of the kernel image

    Which ELF files [inspect_segments] accepts, and what memory holds after
    [place_kernel]. *)

From S2P Require Import Prelude Elf.
Import Elf.

Module ElfSpec.

(** ** Specification *)

Definition loadable (s : ELF_PROGRAM) : Prop := p_type s = 1 ∧ memsz s ≠ 0.

(** A segment that lies in the file and, identity-placed, between 1 MiB and
    4 GiB, with a file offset congruent to its address modulo a power of
    two. *)
Record segment_ok (size : Z) (s : ELF_PROGRAM) : Prop := {
  so_file : filesz s ≤ memsz s ∧ offset s + filesz s ≤ size;
  so_identity : paddr s = vaddr s;
  so_range : 0x100000 ≤ vaddr s ∧ vaddr s < 0x100000000 ∧ vaddr s + memsz s ≤ 0x100000000;
  so_align : align s ≤ 1 ∨
    Z.land (align s) (align s - 1) = 0 ∧ vaddr s mod align s = offset s mod align s;
}.

Definition disjoint_segments (s t : ELF_PROGRAM) : Prop :=
  vaddr s + memsz s ≤ vaddr t ∨ vaddr t + memsz t ≤ vaddr s.

(** The page-aligned bounds of a segment. *)
Definition segment_start (s : ELF_PROGRAM) : Z := vaddr s / 4096 * 4096.
Definition segment_stop (s : ELF_PROGRAM) : Z := (vaddr s + memsz s + 4095) / 4096 * 4096.

(** The first [n] program headers are those of a statically linked image of
    disjoint segments. *)
Record segments_ok (d : list Z) (h : ELF_HEADER) (size n : Z) : Prop := {
  sg_static i : 0 ≤ i < n → p_type (program d h i) ≠ 2 ∧ p_type (program d h i) ≠ 3;
  sg_valid i : 0 ≤ i < n → p_type (program d h i) = 1 → segment_ok size (program d h i);
  sg_disjoint i j : 0 ≤ j < i → i < n → loadable (program d h i) → loadable (program d h j) →
    disjoint_segments (program d h i) (program d h j);
}.

(** The entry point lies in the file part of an executable segment. *)
Definition entry_segment (h : ELF_HEADER) (s : ELF_PROGRAM) : Prop :=
  loadable s ∧ has_bits (p_flags s) 1 = true ∧ vaddr s ≤ entry h < vaddr s + filesz s.

(** [r] is the least page range around the segments. *)
Record image_range (d : list Z) (h : ELF_HEADER) (n : Z) (r : IMAGE_RANGE) : Prop := {
  ir_cover i : 0 ≤ i < n → loadable (program d h i) →
    base r ≤ segment_start (program d h i) ∧ segment_stop (program d h i) ≤ end_ r;
  ir_base : ∃ i, 0 ≤ i < n ∧ loadable (program d h i) ∧ base r = segment_start (program d h i);
  ir_end : ∃ i, 0 ≤ i < n ∧ loadable (program d h i) ∧ end_ r = segment_stop (program d h i);
}.

Record loadable_image (d : list Z) (h : ELF_HEADER) (size : Z) (r : IMAGE_RANGE) : Prop := {
  li_segments : segments_ok d h size (phnum h);
  li_entry : ∃ i, 0 ≤ i < phnum h ∧ entry_segment h (program d h i);
  li_range : image_range d h (phnum h) r;
  li_span : end_ r - base r ≤ 64 * 1024 * 1024;
}.

(** ** Integers of the file *)

Lemma byte_range d i : 0 ≤ byte d i < 256.
Proof. apply Z.mod_pos_bound. lia. Qed.

Lemma le_range d i n : 0 ≤ le d i n < 256 ^ Z.of_nat n.
Proof.
  revert i. induction n as [|n IH]; intros i; [done|]. cbn [le].
  pose proof (byte_range d i). specialize (IH (i + 1)).
  rewrite Nat2Z.inj_succ, Z.pow_succ_r by lia. lia.
Qed.

Lemma program_range d h i :
  0 ≤ vaddr (program d h i) < 2 ^ 64 ∧ 0 ≤ memsz (program d h i) < 2 ^ 64 ∧
  0 ≤ filesz (program d h i) < 2 ^ 64 ∧ 0 ≤ offset (program d h i) < 2 ^ 64 ∧
  0 ≤ align (program d h i) < 2 ^ 64.
Proof. repeat split; apply le_range. Qed.

Lemma header_range d : 0 ≤ phoff (read_header d) < 2 ^ 64 ∧ 0 ≤ phnum (read_header d) < 2 ^ 16.
Proof. split; apply le_range. Qed.

Lemma page_down_eq x : is_u64 x → page_down x = x / 4096 * 4096.
Proof. apply land_page_mask. Qed.

(** ** Validation *)

Lemma valid_segment_spec size s :
  0 ≤ vaddr s → 0 ≤ memsz s → 0 ≤ filesz s →
  valid_segment s size = true ↔ segment_ok size s.
Proof.
  intros Hv Hm Hf. unfold valid_segment, has_bits.
  destruct (Z.ltb_spec (memsz s) (filesz s)); [split; [done|intros []; lia]|].
  destruct (Z.ltb_spec size (offset s)); cbn [orb]; [split; [done|intros []; lia]|].
  destruct (Z.ltb_spec (size - offset s) (filesz s)); [split; [done|intros []; lia]|].
  destruct (Z.eqb_spec (paddr s) (vaddr s)); cbn [negb]; [|split; [done|by intros []]].
  destruct (Z.ltb_spec (vaddr s) 0x100000); cbn [orb]; [split; [done|intros []; lia]|].
  destruct (Z.leb_spec 0x100000000 (vaddr s)); [split; [done|intros []; lia]|].
  destruct (Z.ltb_spec (0x100000000 - vaddr s) (memsz s)); [split; [done|intros []; lia]|].
  destruct (Z.leb_spec (align s) 1).
  { split; [|done]. intros _. split; [lia|done|lia|by left]. }
  destruct (Z.eqb_spec (Z.land (align s) (align s - 1)) 0) as [Hz|Hz]; cbn [negb].
  2:{ split; [done|]. intros [_ _ _ [?|[? _]]]; [lia|done]. }
  rewrite Z.eqb_eq. split.
  - intros He. split; [lia|done|lia|by right].
  - intros [_ _ _ [?|[_ He]]]; [lia|done].
Qed.

Lemma overlaps_previous_spec d h size n :
  segments_ok d h size n → 0 ≤ n →
  segment_ok size (program d h n) →
  if overlaps_previous_segment (program d h) n
  then ∃ j, 0 ≤ j < n ∧ loadable (program d h j) ∧
            ¬ disjoint_segments (program d h n) (program d h j)
  else ∀ j, 0 ≤ j < n → loadable (program d h j) →
            disjoint_segments (program d h n) (program d h j).
Proof.
  intros Hok Hn0 Hn. unfold overlaps_previous_segment.
  pose proof (so_range _ _ Hn) as (Hlo & _ & Hhi).
  pose proof (program_range d h n) as (_ & Hm & _).
  rewrite (u64_small (_ + memsz (program d h n))) by (unfold is_u64; lia).
  for_one (λ i (_ : unit), ∀ j, 0 ≤ j < i → loadable (program d h j) →
             disjoint_segments (program d h n) (program d h j))
          (λ _ : unit, ∃ j, 0 ≤ j < n ∧ loadable (program d h j) ∧
             ¬ disjoint_segments (program d h n) (program d h j)).
  - lia.
  - intros i _ Hi Hprev.
    assert (∀ P : Prop, (loadable (program d h i) →
        disjoint_segments (program d h n) (program d h i)) →
      ∀ j, 0 ≤ j < i + 1 → loadable (program d h j) →
        disjoint_segments (program d h n) (program d h j)) as Hnext.
    { intros _ Hd j Hj. destruct (decide (j = i)) as [->|]; [done|apply Hprev; lia]. }
    specialize (Hnext True). unfold loadable in Hnext at 1.
    destruct (Z.eqb_spec (p_type (program d h i)) 1) as [Ht|Ht]; cbn [negb orb];
      [|by apply Hnext; intros []].
    destruct (Z.eqb_spec (memsz (program d h i)) 0) as [Hz|Hz]; [by apply Hnext; intros []|].
    pose proof (so_range _ _ (sg_valid _ _ _ _ Hok i Hi Ht)) as (Hilo & _ & Hihi).
    pose proof (program_range d h i) as (_ & Him & _).
    rewrite u64_small by (unfold is_u64; lia).
    destruct (Z.leb_spec (vaddr (program d h i) + memsz (program d h i)) (vaddr (program d h n)));
      [by apply Hnext; right|].
    destruct (Z.ltb_spec (vaddr (program d h i)) (vaddr (program d h n) + memsz (program d h n)));
      [|by apply Hnext; left].
    exists i. split; [done|]. split; [done|]. unfold disjoint_segments. lia.
  - intros j Hj. apply Hloop. lia.
  - done.
Qed.

(** ** The scan *)

Section scan.
Context (d : list Z) (h : ELF_HEADER) (size : Z).
Abbreviation s_ i := (program d h i).

Lemma segments_ok_step n :
  segments_ok d h size n →
  p_type (s_ n) ≠ 2 → p_type (s_ n) ≠ 3 → (p_type (s_ n) = 1 → segment_ok size (s_ n)) →
  (loadable (s_ n) → ∀ j, 0 ≤ j < n → loadable (s_ j) → disjoint_segments (s_ n) (s_ j)) →
  segments_ok d h size (n + 1).
Proof.
  intros [Hs Hv Hd] H2 H3 Hvn Hdn. split.
  - intros i Hi. destruct (decide (i = n)) as [->|]; [done|apply Hs; lia].
  - intros i Hi. destruct (decide (i = n)) as [->|]; [done|apply Hv; lia].
  - intros i j Hj Hi. destruct (decide (i = n)) as [->|]; [|apply Hd; lia].
    intros Hl. apply Hdn; [done|lia].
Qed.

Lemma segments_ok_prefix n m : n ≤ m → segments_ok d h size m → segments_ok d h size n.
Proof.
  intros Hnm [Hs Hv Hd]. split.
  - intros i Hi. apply Hs. lia.
  - intros i Hi. apply Hv. lia.
  - intros i j Hj Hi. apply Hd; lia.
Qed.

(** Below the limits, the bounds the loop computes are those of the segment. *)
Lemma segment_bounds n :
  segment_ok size (s_ n) →
  page_down (vaddr (s_ n)) = segment_start (s_ n) ∧
  page_down (u64 (u64 (vaddr (s_ n) + memsz (s_ n)) + 4095)) = segment_stop (s_ n).
Proof.
  intros [_ _ (Hlo & Hlt & Hhi) _]. pose proof (program_range d h n) as (_ & Hm & _).
  rewrite (u64_small (vaddr _ + _)), u64_small by (unfold is_u64; lia).
  split; apply page_down_eq; unfold is_u64; lia.
Qed.

(** What the loop knows after [n] headers. *)
Record scanned (n : Z) (s : SCAN) : Prop := {
  sc_ok : segments_ok d h size n;
  sc_entry : entry_valid s = true ↔ ∃ i, 0 ≤ i < n ∧ entry_segment h (s_ i);
  sc_range :
    (low s = UINT64_MAX ∧ high s = 0 ∧ ∀ i, 0 ≤ i < n → ¬ loadable (s_ i)) ∨
    image_range d h n {| base := low s; end_ := high s |};
}.

Lemma scanned_skip n s :
  0 ≤ n → scanned n s → ¬ loadable (s_ n) → segments_ok d h size (n + 1) → scanned (n + 1) s.
Proof.
  intros Hn [_ Hentry Hrange] Hnl Hok. split; [done| |].
  - rewrite Hentry. split; intros (i & Hi & He).
    + exists i. split; [lia|done].
    + destruct (decide (i = n)) as [->|]; [by destruct He|]. exists i. split; [lia|done].
  - destruct Hrange as [(Hl & Hh & Hnone)|[Hc (ib & Hib & Hb) (ie & Hie & He)]].
    + left. do 2 (split; [done|]). intros i Hi.
      destruct (decide (i = n)) as [->|]; [done|apply Hnone; lia].
    + right. split.
      * intros i Hi. destruct (decide (i = n)) as [->|]; [done|apply Hc; lia].
      * exists ib. split; [lia|done].
      * exists ie. split; [lia|done].
Qed.

Lemma segment_nonempty n :
  segment_ok size (s_ n) → loadable (s_ n) → 0 ≤ segment_start (s_ n) < segment_stop (s_ n) ∧
  segment_stop (s_ n) ≤ 0x100000000.
Proof.
  intros [_ _ (Hlo & Hlt & Hhi) _] [_ Hm]. pose proof (program_range d h n) as (_ & Hmr & _).
  unfold segment_start, segment_stop. split; zdm.
Qed.

Lemma scanned_add n s :
  0 ≤ n → scanned n s → segment_ok size (s_ n) → loadable (s_ n) → segments_ok d h size (n + 1) →
  let begin := segment_start (s_ n) in
  let stop := segment_stop (s_ n) in
  let v := has_bits (p_flags (s_ n)) 1 && (vaddr (s_ n) <=? entry h)
           && (entry h - vaddr (s_ n) <? filesz (s_ n)) in
  scanned (n + 1)
    {| low := if begin <? low s then begin else low s;
       high := if high s <? stop then stop else high s;
       entry_valid := v || entry_valid s |}.
Proof.
  intros Hn [_ Hentry Hrange] Hsn Hl Hok begin stop v.
  pose proof (segment_nonempty n Hsn Hl) as Hne. fold begin stop in Hne.
  split; cbn [low high entry_valid]; [done| |].
  - rewrite orb_true_iff, Hentry. unfold v. rewrite !andb_true_iff, Z.leb_le, Z.ltb_lt. split.
    + intros [[[Hx Hlo] Hhi]|(i & Hi & He)]; [exists n|exists i; split; [lia|done]].
      split; [lia|]. split; [done|]. split; [done|lia].
    + intros (i & Hi & He). destruct (decide (i = n)) as [->|].
      * left. destruct He as (_ & Hx & Hr). split; [split; [done|lia]|lia].
      * right. exists i. split; [lia|done].
  - right. destruct Hrange as [(Hlow & Hhigh & Hnone)|[Hc (ib & Hib & Hlb & Hb) (ie & Hie & Hle & He)]].
    + rewrite Hlow, Hhigh. rewrite (proj2 (Z.ltb_lt begin UINT64_MAX)) by (unfold UINT64_MAX; lia).
      rewrite (proj2 (Z.ltb_lt 0 stop)) by lia. split; cbn [base end_].
      * intros i Hi Hli. destruct (decide (i = n)) as [->|]; [done|].
        exfalso. apply (Hnone i); [lia|done].
      * exists n. split; [lia|done].
      * exists n. split; [lia|done].
    + cbn [base end_] in *. split; cbn [base end_].
      * intros i Hi Hli. destruct (decide (i = n)) as [->|].
        -- fold begin stop. destruct (Z.ltb_spec begin (low s)), (Z.ltb_spec (high s) stop); lia.
        -- destruct (Hc i ltac:(lia) Hli).
           destruct (Z.ltb_spec begin (low s)), (Z.ltb_spec (high s) stop); lia.
      * destruct (Z.ltb_spec begin (low s)); [exists n|exists ib]; (split; [lia|done]).
      * destruct (Z.ltb_spec (high s) stop); [exists n|exists ie]; (split; [lia|done]).
Qed.

Lemma image_range_unique n r r' : image_range d h n r → image_range d h n r' → r = r'.
Proof.
  intros [Hc (ib & Hib & Hlb & Hb) (ie & Hie & Hle & He)]
    [Hc' (ib' & Hib' & Hlb' & Hb') (ie' & Hie' & Hle' & He')].
  destruct (Hc ib' Hib' Hlb'), (Hc' ib Hib Hlb), (Hc ie' Hie' Hle'), (Hc' ie Hie Hle).
  destruct r, r'. cbn [base end_] in *. f_equal; lia.
Qed.

Lemma inspect_loop :
  match for_step 0 1 (phnum h) (inspect_segment d h size)
      {| low := UINT64_MAX; high := 0; entry_valid := false |} with
  | Next s => scanned (Z.max 0 (phnum h)) s
  | Stop e => EFI_ERROR e = true ∧ ¬ segments_ok d h size (phnum h)
  end.
Proof.
  apply (for_one_rule (scanned) (λ e, EFI_ERROR e = true ∧ ¬ segments_ok d h size (phnum h))).
  - split; [split; lia|cbn; split; [done|intros (i & ? & _); lia]|left].
    split; [done|]. split; [done|]. lia.
  - intros n s Hn Hs. pose proof (sc_ok n s Hs) as Hok. unfold inspect_segment.
    pose proof (program_range d h n) as (Hv & Hm & Hf & _).
    assert (¬ segments_ok d h size (n + 1) → ¬ segments_ok d h size (phnum h)) as Hpre.
    { intros Hno Hall. apply Hno. apply (segments_ok_prefix _ (phnum h)); [lia|done]. }
    destruct (Z.eqb_spec (p_type (s_ n)) 2) as [H2|H2]; cbn [orb].
    { split; [done|]. apply Hpre. intros Hall. by destruct (sg_static d h size (n + 1) Hall n ltac:(lia)). }
    destruct (Z.eqb_spec (p_type (s_ n)) 3) as [H3|H3].
    { split; [done|]. apply Hpre. intros Hall. by destruct (sg_static d h size (n + 1) Hall n ltac:(lia)). }
    destruct (Z.eqb_spec (p_type (s_ n)) 1) as [H1|H1]; cbn [negb].
    2:{ assert (¬ loadable (s_ n)) as Hnl by by intros [].
        apply scanned_skip; [lia|done..|]. by apply segments_ok_step. }
    pose proof (valid_segment_spec size (s_ n) ltac:(lia) ltac:(lia) ltac:(lia)) as Hvs.
    destruct (valid_segment (s_ n) size); cbn [negb].
    2:{ split; [done|]. apply Hpre. intros Hall.
        assert (segment_ok size (s_ n)) as Hbad by by apply (sg_valid d h size (n + 1) Hall n ltac:(lia)).
        by apply Hvs in Hbad. }
    assert (segment_ok size (s_ n)) as Hsn by by apply Hvs.
    destruct (Z.eqb_spec (memsz (s_ n)) 0) as [Hz|Hz].
    { assert (¬ loadable (s_ n)) as Hnl by by intros [].
      apply scanned_skip; [lia|done..|]. by apply segments_ok_step. }
    assert (loadable (s_ n)) as Hl by done.
    pose proof (overlaps_previous_spec d h size n Hok ltac:(lia) Hsn) as Ho.
    destruct (overlaps_previous_segment (program d h) n).
    { split; [done|]. apply Hpre. intros Hall. destruct Ho as (j & Hj & Hlj & Hd).
      apply Hd. by apply (sg_disjoint d h size (n + 1) Hall n j ltac:(lia) ltac:(lia)). }
    destruct (segment_bounds n Hsn) as [-> ->].
    apply scanned_add; [lia|done..|]. by apply segments_ok_step.
Qed.

End scan.

(** [inspect_segments] decides the specification. *)
Lemma inspect_segments_cases d h size :
  0 ≤ phnum h →
  match inspect_segments d h size with
  | inr r => loadable_image d h size r
  | inl e => EFI_ERROR e = true ∧ ∀ r, ¬ loadable_image d h size r
  end.
Proof.
  intros Hp. unfold inspect_segments. pose proof (inspect_loop d h size) as Hloop.
  destruct (for_step _ _ _ _ _) as [s|e].
  2:{ destruct Hloop as [He Hno]. split; [done|]. by intros r []. }
  rewrite Z.max_r in Hloop by lia. destruct Hloop as [Hok Hentry Hrange].
  destruct (entry_valid s) eqn:Hev; cbn [negb orb].
  2:{ split; [done|]. intros r [_ He _ _]. by apply Hentry in He. }
  destruct (proj1 Hentry eq_refl) as (i & Hi & He).
  destruct Hrange as [(_ & _ & Hnone)|Hrange]; [by destruct (Hnone i Hi), He|].
  assert (low s < high s) as Hlt.
  { destruct (ir_cover _ _ _ _ Hrange i Hi (proj1 He)). cbn [base end_] in *.
    pose proof (sg_valid _ _ _ _ Hok i Hi (proj1 (proj1 He))) as Hsi.
    destruct (segment_nonempty d h size i Hsi (proj1 He)). lia. }
  destruct (Z.leb_spec (high s) (low s)) as [|_]; [lia|]. cbn [orb].
  destruct (Z.ltb_spec (64 * 1024 * 1024) (high s - low s)) as [Hbig|Hspan].
  - split; [done|]. intros r [_ _ Hr Hsp].
    rewrite <- (image_range_unique d h _ _ _ Hrange Hr) in Hsp. cbn [base end_] in Hsp. lia.
  - split; [done|by exists i|done|done].
Qed.

Lemma inspect_exactly d h size r :
  0 ≤ phnum h → loadable_image d h size r → inspect_segments d h size = inr r.
Proof.
  intros Hp Hr. pose proof (inspect_segments_cases d h size Hp) as Hc.
  destruct (inspect_segments d h size) as [e|r']; [by destruct Hc as [_ []%(λ H, H r)]|].
  f_equal. by apply (image_range_unique d h (phnum h)); [apply Hc|apply Hr].
Qed.

(** ** Placement *)

Lemma fill_lookup (f : Z → Z) a n (m : memory) x :
  for_all 0 1 n (λ j m, <[a + j := f j]> m) m !! x =
  if decide (a ≤ x < a + n) then Some (f (x - a)) else m !! x.
Proof.
  for_whole (λ i (m' : memory), ∀ x, m' !! x = if decide (a ≤ x < a + i) then Some (f (x - a)) else m !! x).
  - intros y. by rewrite decide_False by lia.
  - intros i m' Hi Hm y. destruct (decide (y = a + i)) as [->|Hne].
    + rewrite lookup_insert_eq, decide_True by lia. do 2 f_equal. lia.
    + rewrite lookup_insert_ne, Hm by done. by destruct (decide (a ≤ y < a + i)), (decide (a ≤ y < a + (i + 1))); try lia.
  - rewrite Hloop. destruct (decide (a ≤ x < a + Z.max 0 n)), (decide (a ≤ x < a + n)); try lia; done.
Qed.

(** The file part of a segment, as addresses. *)
Definition in_file_part (s : ELF_PROGRAM) (x : Z) : Prop :=
  p_type s = 1 ∧ vaddr s ≤ x < vaddr s + filesz s.

Lemma copy_segments_lookup d h size r m x :
  0 ≤ phnum h → segments_ok d h size (phnum h) →
  (∀ i, 0 ≤ i < phnum h → in_file_part (program d h i) x →
    copy_segments d h r m !! x =
      Some (byte d (offset (program d h i) + (x - vaddr (program d h i))))) ∧
  ((∀ i, 0 ≤ i < phnum h → ¬ in_file_part (program d h i) x) →
    copy_segments d h r m !! x = if decide (base r ≤ x < end_ r) then Some 0 else m !! x).
Proof.
  intros Hp Hok. unfold copy_segments. cbv zeta.
  set (m0 := for_all 0 1 (end_ r - base r) (λ i m, <[base r + i := 0]> m) m).
  assert (m0 !! x = if decide (base r ≤ x < end_ r) then Some 0 else m !! x) as Hm0.
  { unfold m0. rewrite (fill_lookup (λ _, 0)).
    destruct (decide (base r ≤ x < base r + (end_ r - base r))), (decide (base r ≤ x < end_ r)); try lia; done. }
  rewrite <- Hm0. clearbody m0. clear Hm0.
  for_whole (λ n (m' : memory), (∀ i, 0 ≤ i < n → in_file_part (program d h i) x →
      m' !! x = Some (byte d (offset (program d h i) + (x - vaddr (program d h i))))) ∧
    ((∀ i, 0 ≤ i < n → ¬ in_file_part (program d h i) x) → m' !! x = m0 !! x)).
  - split; [lia|done].
  - intros n m' Hn [Hin Hout]. destruct (Z.eqb_spec (p_type (program d h n)) 1) as [Ht|Ht]; cbn [negb].
    2:{ split.
        - intros i Hi Hx. destruct (decide (i = n)) as [->|]; [by destruct Hx|apply Hin; [lia|done]].
        - intros Hno. apply Hout. intros i Hi. apply Hno. lia. }
    rewrite (fill_lookup (λ j, byte d (offset (program d h n) + j))). split.
    + intros i Hi Hx. destruct (decide (i = n)) as [->|].
      { destruct Hx as [_ Hx]. by rewrite decide_True. }
      rewrite decide_False; [apply Hin; [lia|done]|]. intros Hxn.
      assert (∀ j, 0 ≤ j < phnum h → in_file_part (program d h j) x →
        loadable (program d h j) ∧ x < vaddr (program d h j) + memsz (program d h j)) as Hld.
      { intros j Hj [Htj Hxj]. pose proof (so_file _ _ (sg_valid d h size _ Hok j Hj Htj)) as [Hfm _].
        split; [split; [done|]|]; lia. }
      destruct (Hld n Hn) as [Hln Hxn']; [by split|]. destruct (Hld i ltac:(lia) Hx) as [Hli Hxi].
      destruct Hx as [_ Hx].
      destruct (sg_disjoint d h size (phnum h) Hok n i ltac:(lia) ltac:(lia) Hln Hli); lia.
    + intros Hno. rewrite decide_False; [apply Hout; intros i Hi; apply Hno; lia|].
      intros Hxn. apply (Hno n); [lia|by split].
  - rewrite Z.max_r in Hloop by lia. exact Hloop.
Qed.

(** What an accepted range looks like. *)
Lemma image_range_shape d h size r :
  loadable_image d h size r →
  base r mod 4096 = 0 ∧ end_ r mod 4096 = 0 ∧ 0x100000 ≤ base r < end_ r ∧ end_ r ≤ 0x100000000 ∧
  ∀ i, 0 ≤ i < phnum h → loadable (program d h i) →
    base r ≤ vaddr (program d h i) ∧ vaddr (program d h i) + memsz (program d h i) ≤ end_ r.
Proof.
  intros [Hok (i0 & Hi0 & Hl0 & _) [Hc (ib & Hib & Hlb & Hb) (ie & Hie & Hle & He)] _].
  assert (∀ i, 0 ≤ i < phnum h → loadable (program d h i) →
    0x100000 ≤ segment_start (program d h i) ∧ segment_start (program d h i) < segment_stop (program d h i) ∧
    segment_stop (program d h i) ≤ 0x100000000 ∧
    segment_start (program d h i) ≤ vaddr (program d h i) ∧
    vaddr (program d h i) + memsz (program d h i) ≤ segment_stop (program d h i)) as Hseg.
  { intros i Hi Hl. pose proof (sg_valid d h size _ Hok i Hi (proj1 Hl)) as Hs.
    destruct (segment_nonempty d h size i Hs Hl). destruct (so_range _ _ Hs) as (? & ? & ?).
    unfold segment_start, segment_stop in *. repeat split; zdm. }
  split; [rewrite Hb; unfold segment_start; zdm|].
  split; [rewrite He; unfold segment_stop; zdm|].
  destruct (Hseg ib Hib Hlb), (Hseg ie Hie Hle), (Hc ib Hib Hlb). split; [lia|]. split; [lia|].
  intros i Hi Hl. destruct (Hseg i Hi Hl), (Hc i Hi Hl). lia.
Qed.

(** The bytes of a loadable segment after the copy. *)
Lemma copy_segments_segment d h size r m i j :
  loadable_image d h size r → 0 ≤ phnum h → 0 ≤ i < phnum h → loadable (program d h i) →
  0 ≤ j < memsz (program d h i) →
  copy_segments d h r m !! (vaddr (program d h i) + j) =
    Some (if j <? filesz (program d h i) then byte d (offset (program d h i) + j) else 0).
Proof.
  intros Him Hp Hi Hl Hj. pose proof (li_segments _ _ _ _ Him) as Hok.
  destruct (copy_segments_lookup d h size r m (vaddr (program d h i) + j) Hp Hok) as [Hin Hout].
  destruct (Z.ltb_spec j (filesz (program d h i))) as [Hlt|Hge].
  - rewrite (Hin i Hi) by (split; [apply Hl|lia]). do 2 f_equal. lia.
  - rewrite Hout.
    + rewrite decide_True; [done|].
      destruct (image_range_shape d h size r Him) as (_ & _ & _ & _ & Hcov).
      destruct (Hcov i Hi Hl). lia.
    + intros k Hk [Htk Hx]. pose proof (so_file _ _ (sg_valid d h size _ Hok k Hk Htk)) as [Hfm _].
      assert (loadable (program d h k)) as Hlk by (split; [done|lia]).
      destruct (decide (k = i)) as [->|Hne]; [lia|].
      destruct (decide (k < i)).
      * destruct (sg_disjoint d h size _ Hok i k ltac:(lia) ltac:(lia) Hl Hlk); lia.
      * destruct (sg_disjoint d h size _ Hok k i ltac:(lia) ltac:(lia) Hlk Hl); lia.
Qed.

(** Memory [m'] is [m] with the image in [r] that the file [d] describes, and
    [k] says so. *)
Record image_placed (d : list Z) (size : Z) (r : IMAGE_RANGE) (k : LOADED_KERNEL) (m m' : memory)
    : Prop := {
  ip_image : loadable_image d (read_header d) size r;
  ip_entry : k_entry k = entry (read_header d);
  ip_pages : k_pages k * 4096 = end_ r - base r;
  ip_segment i j :
    0 ≤ i < phnum (read_header d) → loadable (program d (read_header d) i) →
    0 ≤ j < memsz (program d (read_header d) i) →
    base r ≤ vaddr (program d (read_header d) i) + j < end_ r ∧
    m' !! (vaddr (program d (read_header d) i) + j) =
      Some (if j <? filesz (program d (read_header d) i)
            then byte d (offset (program d (read_header d) i) + j) else 0);
  ip_frame x : ¬ (base r ≤ x < end_ r) → m' !! x = m !! x;
}.

Lemma place_kernel_placed {F} (AllocatePages : Z → Z → Z → Z → F → Z * Z * F)
    d size m fw status k m' fw' :
  place_kernel AllocatePages d size m fw = (status, Some k, m', fw') →
  status = EFI_SUCCESS ∧ ∃ r, image_placed d size r k m m' ∧
    ∃ s, AllocatePages 2 1 (k_pages k) (base r) fw = (s, k_base k, fw') ∧ EFI_ERROR s = false.
Proof.
  unfold place_kernel. destruct (size <? sizeof_ELF_HEADER); [done|].
  set (h := read_header d). destruct (valid_elf_header h size); [|done]. cbn [negb].
  pose proof (header_range d) as [_ Hp]. fold h in Hp.
  pose proof (inspect_segments_cases d h size ltac:(lia)) as Hc.
  destruct (inspect_segments d h size) as [e|r]; [done|].
  set (pages := (end_ r - base r) / 4096).
  destruct (AllocatePages 2 1 pages (base r) fw) as [[s a] fw1] eqn:Ha.
  destruct (EFI_ERROR s) eqn:Hs; [done|]. intros [= <- <- <- <-].
  destruct (image_range_shape d h size r Hc) as (Hb4 & He4 & Hbe & Hlim & Hcov).
  split; [done|]. exists r. split; [|by exists s]. split; fold h; cbn [k_entry k_pages k_base].
  - done.
  - done.
  - unfold pages. zdm.
  - intros i j Hi Hl Hj. destruct (Hcov i Hi Hl). split; [lia|].
    apply (copy_segments_segment d h size r m i j Hc); [lia|done..].
  - intros x Hx.
    destruct (copy_segments_lookup d h size r m x ltac:(lia) (li_segments _ _ _ _ Hc)) as [_ Hout].
    rewrite Hout, decide_False; [done|done|]. intros i Hi [Ht Hxi]. apply Hx.
    pose proof (so_file _ _ (sg_valid d h size _ (li_segments _ _ _ _ Hc) i Hi Ht)) as [Hfm _].
    assert (loadable (program d h i)) as Hl by (split; [done|lia]).
    destruct (Hcov i Hi Hl). lia.
Qed.

Lemma place_kernel_refused {F} (AllocatePages : Z → Z → Z → Z → F → Z * Z * F)
    d size m fw status m' fw' :
  place_kernel AllocatePages d size m fw = (status, None, m', fw') →
  EFI_ERROR status = true ∧ m' = m ∧
  (fw' = fw ∨ ∃ pages address a, AllocatePages 2 1 pages address fw = (status, a, fw')).
Proof.
  unfold place_kernel. destruct (size <? sizeof_ELF_HEADER); [intros [= <- <- <-]; auto|].
  set (h := read_header d). destruct (valid_elf_header h size); cbn [negb];
    [|intros [= <- <- <-]; auto].
  pose proof (header_range d) as [_ Hp]. fold h in Hp.
  pose proof (inspect_segments_cases d h size ltac:(lia)) as Hc.
  destruct (inspect_segments d h size) as [e|r].
  - destruct Hc as [He _]. intros [= <- <- <-]. auto.
  - destruct (AllocatePages _ _ _ _ fw) as [[s a] fw1] eqn:Ha.
    destruct (EFI_ERROR s) eqn:Hs; [|done]. intros [= <- <- <-].
    split; [done|]. split; [done|]. right. by do 3 eexists.
Qed.

(** ** A small image *)

Fixpoint enc (n : nat) (v : Z) : list Z :=
  match n with
  | O => []
  | S n => v mod 256 :: enc n (v / 256)
  end.

Definition enc_program (t f o v fs ms al : Z) : list Z :=
  enc 4 t ++ enc 4 f ++ enc 8 o ++ enc 8 v ++ enc 8 v ++ enc 8 fs ++ enc 8 ms ++ enc 8 al.

(** Code at 1 MiB, and data with zero-initialized space on the next page. *)
Definition small_elf : list Z :=
  [0x7f; 0x45; 0x4c; 0x46; 2; 1; 1; 0; 0; 0; 0; 0; 0; 0; 0; 0] ++
  enc 2 2 ++ enc 2 62 ++ enc 4 1 ++ enc 8 0x100002 ++ enc 8 64 ++ enc 8 0 ++ enc 4 0 ++
  enc 2 64 ++ enc 2 56 ++ enc 2 3 ++ enc 2 0 ++ enc 2 0 ++ enc 2 0 ++
  enc_program 1 5 232 0x100000 4 4 1 ++ enc_program 1 6 236 0x101000 4 16 4 ++
  enc_program 0x6474e551 6 0 0 0 0 16 ++
  [0x90; 0x90; 0xeb; 0xfe; 1; 2; 3; 4].

Definition grant (t mt pages address : Z) (fw : list (Z * Z)) : Z * Z * list (Z * Z) :=
  (EFI_SUCCESS, address, (address, pages) :: fw).

(** ** Properties *)

(** C28: [inspect_segments] accepts exactly the statically linked images whose
    loadable segments lie in the file, are identity-placed between 1 MiB and
    4 GiB, well aligned and pairwise disjoint, whose entry point is in the
    file part of an executable segment and which span at most 64 MiB; it
    returns the least page range around them, and an error status otherwise. *)
Theorem inspect_segments_decides d h size r :
  0 ≤ phnum h →
  (inspect_segments d h size = inr r ↔ loadable_image d h size r) ∧
  ∀ e, inspect_segments d h size = inl e → EFI_ERROR e = true.
Proof.
  intros Hp. split; [split|]; [|by apply inspect_exactly|]; pose proof (inspect_segments_cases d h size Hp) as Hc.
  - intros Hi. by rewrite Hi in Hc.
  - intros e He. rewrite He in Hc. by destruct Hc.
Qed.

Lemma inspect_segments_decides_witness :
  (inspect_segments small_elf (read_header small_elf) 240 = inr {| base := 0x100000; end_ := 0x102000 |} ↔
   loadable_image small_elf (read_header small_elf) 240 {| base := 0x100000; end_ := 0x102000 |}) ∧
  ∀ e, inspect_segments small_elf (read_header small_elf) 240 = inl e → EFI_ERROR e = true.
Proof. apply inspect_segments_decides. by vm_compute. Defined.

(** C29: when [place_kernel] reports a kernel, memory holds it: every byte of
    every loadable segment is the file's byte or, beyond the file part, zero;
    memory outside the image's page range is untouched; the pages were
    granted by the firmware for exactly that range; and the entry point holds
    a byte of an executable segment. *)
Theorem place_kernel_loads_image {F} (AllocatePages : Z → Z → Z → Z → F → Z * Z * F)
    d size m fw status k m' fw' :
  place_kernel AllocatePages d size m fw = (status, Some k, m', fw') →
  ∃ r, let h := read_header d in
    loadable_image d h size r ∧ k_entry k = entry h ∧ k_pages k * 4096 = end_ r - base r ∧
    (∃ s, AllocatePages 2 1 (k_pages k) (base r) fw = (s, k_base k, fw') ∧ EFI_ERROR s = false) ∧
    (∀ i j, 0 ≤ i < phnum h → loadable (program d h i) → 0 ≤ j < memsz (program d h i) →
       base r ≤ vaddr (program d h i) + j < end_ r ∧
       m' !! (vaddr (program d h i) + j) =
         Some (if j <? filesz (program d h i) then byte d (offset (program d h i) + j) else 0)) ∧
    (∀ x, ¬ (base r ≤ x < end_ r) → m' !! x = m !! x).
Proof.
  intros (_ & r & [] & Ha)%place_kernel_placed. exists r. cbv zeta. by repeat (split; [done|]).
Qed.

Lemma place_kernel_loads_image_witness :
  ∃ r, let h := read_header small_elf in let d := small_elf in
    let m' := copy_segments d h {| base := 0x100000; end_ := 0x102000 |} ∅ in
    loadable_image d h 240 r ∧ 0x100002 = entry h ∧ 2 * 4096 = end_ r - base r ∧
    (∃ s, grant 2 1 2 (base r) [] = (s, 0x100000, [(0x100000, 2)]) ∧ EFI_ERROR s = false) ∧
    (∀ i j, 0 ≤ i < phnum h → loadable (program d h i) → 0 ≤ j < memsz (program d h i) →
       base r ≤ vaddr (program d h i) + j < end_ r ∧
       m' !! (vaddr (program d h i) + j) =
         Some (if j <? filesz (program d h i) then byte d (offset (program d h i) + j) else 0)) ∧
    (∀ x, ¬ (base r ≤ x < end_ r) → m' !! x = (∅ : memory) !! x).
Proof.
  apply (place_kernel_loads_image grant small_elf 240 ∅ [] EFI_SUCCESS
    {| k_base := 0x100000; k_pages := 2; k_entry := 0x100002 |}).
  assert (inspect_segments small_elf (read_header small_elf) 240 =
    inr {| base := 0x100000; end_ := 0x102000 |}) as Hi by by vm_compute.
  unfold place_kernel. rewrite Hi. reflexivity.
Defined.

(** An acceptable image is accepted: if the header is valid, the segments
    satisfy the specification and the firmware grants the pages at the
    requested address, the kernel is loaded there. *)
Theorem place_kernel_accepts {F} (AllocatePages : Z → Z → Z → Z → F → Z * Z * F)
    d size m fw r s fw' :
  let h := read_header d in
  sizeof_ELF_HEADER ≤ size → valid_elf_header h size = true → loadable_image d h size r →
  AllocatePages 2 1 ((end_ r - base r) / 4096) (base r) fw = (s, base r, fw') →
  EFI_ERROR s = false →
  place_kernel AllocatePages d size m fw =
    (EFI_SUCCESS,
     Some {| k_base := base r; k_pages := (end_ r - base r) / 4096; k_entry := entry h |},
     copy_segments d h r m, fw').
Proof.
  intros h Hsz Hv Him Ha Hs. unfold place_kernel.
  rewrite (proj2 (Z.ltb_ge _ _)) by done. fold h. rewrite Hv. cbn [negb].
  pose proof (header_range d) as [_ Hp]. fold h in Hp.
  pose proof (inspect_segments_cases d h size ltac:(lia)) as Hc.
  destruct (inspect_segments d h size) as [e|r'].
  - destruct Hc as [_ Hno]. by destruct (Hno r).
  - rewrite (image_range_unique d h (phnum h) r' r) by (apply Hc || apply Him).
    by rewrite Ha, Hs.
Qed.

Lemma small_elf_image :
  loadable_image small_elf (read_header small_elf) 240 {| base := 0x100000; end_ := 0x102000 |}.
Proof.
  pose proof (inspect_segments_cases small_elf (read_header small_elf) 240) as Hc.
  assert (inspect_segments small_elf (read_header small_elf) 240 =
    inr {| base := 0x100000; end_ := 0x102000 |}) as Hi by by vm_compute.
  rewrite Hi in Hc. apply Hc. by vm_compute.
Qed.

(** C30: the loader never reads outside the file nor writes outside the image:
    behind a valid header all program headers lie in the file, and in an
    accepted image so does the file part of every segment, whose destination
    lies in the page range. *)
Theorem elf_accesses_in_bounds d size r i :
  let h := read_header d in
  valid_elf_header h size = true → 0 ≤ i < phnum h →
  (0 ≤ phoff h + sizeof_ELF_PROGRAM * i ∧
   phoff h + sizeof_ELF_PROGRAM * i + sizeof_ELF_PROGRAM ≤ size) ∧
  (inspect_segments d h size = inr r → p_type (program d h i) = 1 → 0 < filesz (program d h i) →
   0 ≤ offset (program d h i) ∧ offset (program d h i) + filesz (program d h i) ≤ size ∧
   base r ≤ vaddr (program d h i) ∧
   vaddr (program d h i) + filesz (program d h i) ≤ end_ r).
Proof.
  intros h Hv Hi. pose proof (header_range d) as [Ho Hp]. fold h in Ho, Hp. split.
  - unfold valid_elf_header in Hv.
    do 4 (match type of Hv with (if ?c then _ else _) = true => destruct c; [done|] end).
    destruct (_ || _); [done|]. destruct (_ || _) eqn:Hoff in Hv; [done|].
    apply orb_false_iff in Hoff as [_ Hoff]. apply Z.ltb_ge in Hoff. apply Z.leb_le in Hv.
    unfold sizeof_ELF_PROGRAM in *. zdm.
  - intros Hin Ht Hf. pose proof (inspect_segments_cases d h size ltac:(lia)) as Hc.
    rewrite Hin in Hc. pose proof (sg_valid d h size _ (li_segments _ _ _ _ Hc) i Hi Ht) as Hs.
    pose proof (program_range d h i) as (_ & _ & _ & Hof & _). destruct (so_file _ _ Hs) as [Hfm Hfs].
    destruct (image_range_shape d h size r Hc) as (_ & _ & _ & _ & Hcov).
    destruct (Hcov i Hi) as [Hlo Hhi]; [split; [done|lia]|]. lia.
Qed.

Lemma elf_accesses_in_bounds_witness :
  (0 ≤ phoff (read_header small_elf) + sizeof_ELF_PROGRAM * 1 ∧
   phoff (read_header small_elf) + sizeof_ELF_PROGRAM * 1 + sizeof_ELF_PROGRAM ≤ 240) ∧
  (inspect_segments small_elf (read_header small_elf) 240 =
     inr {| base := 0x100000; end_ := 0x102000 |} →
   p_type (program small_elf (read_header small_elf) 1) = 1 →
   0 < filesz (program small_elf (read_header small_elf) 1) →
   0 ≤ offset (program small_elf (read_header small_elf) 1) ∧
   offset (program small_elf (read_header small_elf) 1) +
     filesz (program small_elf (read_header small_elf) 1) ≤ 240 ∧
   0x100000 ≤ vaddr (program small_elf (read_header small_elf) 1) ∧
   vaddr (program small_elf (read_header small_elf) 1) +
     filesz (program small_elf (read_header small_elf) 1) ≤ 0x102000).
Proof.
  apply (elf_accesses_in_bounds small_elf 240 {| base := 0x100000; end_ := 0x102000 |} 1);
    by vm_compute.
Defined.

End ElfSpec.
