(* ===== verification/Text.v ===== *)
(** * Texts

    C strings as lists of bytes, and the hexadecimal numerals the panic and the
    loader print. *)

From Stdlib Require Import Ascii String.
From S2P Require Import Prelude.

Module Text.

(** The bytes of a C string, before the NUL. *)
Definition txt (t : string) : list Z :=
  (λ c, Z.of_N (N_of_ascii c)) <$> list_ascii_of_string t.
Definition newline : list Z := [10].

(** [digits[(value >> (60 - i * 4)) & 15]] *)
Definition hex_digit (value i : Z) : Z :=
  nth (Z.to_nat (Z.land (Z.shiftr value (60 - i * 4)) 15)) (txt "0123456789abcdef") 0.

(** The loop that overwrites sixteen characters of [text] from [from] on. *)
Definition put_hex (value : Z) (from : nat) (text : list Z) : list Z :=
  for_all 0 1 16 (λ i text, <[(from + Z.to_nat i)%nat := hex_digit value i]> text) text.

(** The numeral itself. *)
Definition numeral (value : Z) : list Z := hex_digit value <$> seqZ 0 16.

(** The value of a hexadecimal digit and of a numeral. *)
Definition digit_value (c : Z) : Z := if c <? 58 then c - 48 else c - 87.
Definition hex_value (t : list Z) : Z := foldl (λ n c, 16 * n + digit_value c) 0 t.

Lemma put_hex_spec value a b c :
  List.length b = 16%nat → put_hex value (List.length a) (a ++ b ++ c) = a ++ numeral value ++ c.
Proof.
  intros Hb. unfold put_hex.
  for_whole (λ i t, 0 ≤ i ≤ 16 ∧
    t = a ++ (hex_digit value <$> seqZ 0 i) ++ drop (Z.to_nat i) b ++ c).
  - done.
  - intros i t Hi [_ ->]. split; [lia|].
    rewrite insert_app_r_alt by lia. f_equal.
    replace (List.length a + Z.to_nat i - List.length a)%nat with (Z.to_nat i) by lia.
    rewrite insert_app_r_alt by (rewrite length_fmap, length_seqZ; lia).
    rewrite length_fmap, length_seqZ.
    replace (Z.to_nat i - Z.to_nat i)%nat with 0%nat by lia.
    destruct (lookup_lt_is_Some_2 b (Z.to_nat i)) as [x Hx]; [lia|].
    rewrite (drop_S b x _ Hx), (seqZ_app 0 i 1), fmap_app, <- app_assoc, Z.add_0_l by lia.
    replace (Z.to_nat (i + 1)) with (S (Z.to_nat i)) by lia. done.
  - destruct Hloop as [_ ->]. change (Z.max 0 16) with 16. rewrite drop_ge by (change (Z.to_nat 16) with 16%nat; lia).
    done.
Qed.


(** ** The numeral of a number *)

Lemma hex_digit_spec value i :
  is_u64 value → 0 ≤ i < 16 → digit_value (hex_digit value i) = value / 16 ^ (15 - i) mod 16.
Proof.
  intros Hv Hi. unfold hex_digit. change 15 with (Z.ones 4) at 1.
  rewrite Z.land_ones, Z.shiftr_div_pow2 by lia. change (2 ^ 4) with 16.
  replace (2 ^ (60 - i * 4)) with (16 ^ (15 - i))
    by (change 16 with (2 ^ 4); rewrite <- Z.pow_mul_r by lia; f_equal; lia).
  assert (0 ≤ value / 16 ^ (15 - i) mod 16 < 16) as H by (apply Z.mod_pos_bound; lia).
  revert H. generalize (value / 16 ^ (15 - i) mod 16). intros n Hn.
  assert (n ∈ seqZ 0 16) as Hin by (apply elem_of_seqZ; lia). clear Hn Hv Hi.
  revert n Hin. apply Forall_forall. vm_compute. repeat constructor.
Qed.

Lemma hex_value_app t u :
  hex_value (t ++ u) = hex_value t * 16 ^ Z.of_nat (List.length u) + hex_value u.
Proof.
  assert (∀ u n, foldl (λ n c, 16 * n + digit_value c) n u =
    n * 16 ^ Z.of_nat (List.length u) + hex_value u) as H.
  { clear. unfold hex_value. induction u as [|c u IH]; intros n; [simpl; lia|].
    cbn [foldl List.length]. rewrite IH, (IH (16 * 0 + digit_value c)).
    rewrite Nat2Z.inj_succ, Z.pow_succ_r by lia. lia. }
  unfold hex_value at 1. rewrite foldl_app. apply H.
Qed.

(** Sixteen digits that stand for the number. *)
Lemma numeral_value value : is_u64 value → hex_value (numeral value) = value.
Proof.
  intros Hv. unfold numeral.
  assert (∀ n : nat, (n ≤ 16)%nat →
    hex_value (hex_digit value <$> seqZ 0 (Z.of_nat n)) = value / 16 ^ (16 - Z.of_nat n)) as H.
  { intros n. induction n as [|n IH]; intros Hn.
    - symmetry. apply Z.div_small. unfold is_u64 in Hv. simpl. lia.
    - replace (Z.of_nat (S n)) with (Z.of_nat n + 1) by lia.
      rewrite (seqZ_app 0 (Z.of_nat n) 1), fmap_app, hex_value_app, IH, Z.add_0_l by lia.
      rewrite (seqZ_cons (Z.of_nat n) 1) by lia.
      change (seqZ (Z.succ (Z.of_nat n)) (Z.pred 1)) with (@nil Z).
      cbn [fmap list_fmap List.length]. unfold hex_value. cbn [foldl].
      rewrite hex_digit_spec by (done || lia).
      replace (16 - (Z.of_nat n + 1)) with (15 - Z.of_nat n) by lia.
      replace (16 - Z.of_nat n) with (15 - Z.of_nat n + 1) by lia.
      rewrite Z.pow_add_r, <- Z.div_div by lia. change (16 ^ 1) with 16.
      change (Z.of_nat 1) with 1. zdm. }
  specialize (H 16%nat ltac:(lia)). change (Z.of_nat 16) with 16 in H. rewrite H.
  change (16 ^ (16 - 16)) with 1. apply Z.div_1_r.
Qed.

Lemma numeral_length value : List.length (numeral value) = 16%nat.
Proof. unfold numeral. by rewrite length_fmap, length_seqZ. Qed.

End Text.
