(* ===== verification/Console.v ===== *)
(** * The serial console: [kernel/console.c]

    The line editor, the command interpreter and one turn of the main loop.
    The console runs on a [Board]: the serial line, the timer and the page
    allocator behind the functions it calls. A failing serial line makes it
    spin for ever and the [halt] command stops the processor: the outcomes
    [Spin] and [Halt]. *)

From Stdlib Require Import String.
From S2P Require Import Prelude Text.

Module Console.
Export Text.

(** ** What the console calls *)

Class Board (S : Type) := {
  serial_write : list Z → S → bool * S;
  serial_flush : S → bool * S;
  (** the returned status, and the byte stored through the pointer *)
  serial_read : S → Z * Z * S;
  timer_ticks : S → Z;
  pmm_total : S → Z;
  pmm_available : S → Z;
  x86_disable_interrupts : S → S;
  x86_enable_interrupts : S → S;
  x86_enable_and_idle : S → S;
}.

(** The outcome of running a part of the console. *)
Inductive outcome (A S : Type) :=
  | Done (a : A) (s : S)
  | Spin (s : S)
  | Halt (s : S).
Arguments Done {A S}.
Arguments Spin {A S}.
Arguments Halt {A S}.

Definition bind {A B S} (m : outcome A S) (k : A → S → outcome B S) : outcome B S :=
  match m with
  | Done a s => k a s
  | Spin s => Spin s
  | Halt s => Halt s
  end.

Section console.
Context {S : Type} `{!Board S}.
Implicit Types (s : S).

Definition output (text : list Z) s : outcome unit S :=
  let '(ok, s) := serial_write text s in
  if ok then Done tt s else Spin s.

(** [*a == *b] at the first difference or the end; past its bytes a string
    reads as NUL. *)
Fixpoint equal (a b : list Z) : bool :=
  if negb (hd 0 a =? 0) && (hd 0 a =? hd 0 b) then
    match a with
    | [] => true
    | _ :: a => equal a (tl b)
    end
  else hd 0 a =? hd 0 b.

(** The digits [text[--i]], from the last; [None] when the [room] bytes before
    the terminator are used up and a digit is still to be stored. *)
Fixpoint digits (room : nat) (value : Z) (text : list Z) : option (list Z) :=
  match room with
  | O => None
  | Datatypes.S room =>
      let text := u8 (48 + value mod 10) :: text in
      let value := value / 10 in
      if value =? 0 then Some text else digits room value text
  end.

(** [char text[21]]: twenty digits, which are always enough, and the
    terminator. *)
Definition decimal (value : Z) : list Z := default [] (digits 20 value []).
Definition number (value : Z) s : outcome unit S := output (decimal value) s.

Definition is_blank (c : Z) : bool := (c =? 32) || (c =? 9).

Fixpoint trim_end (line : list Z) (length : nat) : nat :=
  match length with
  | O => O
  | Datatypes.S n => if is_blank (nth n line 0) then trim_end line n else length
  end.

Fixpoint skip_blanks (p : list Z) : list Z :=
  match p with
  | [] => []
  | c :: q => if is_blank c then skip_blanks q else p
  end.

Definition help_text : list Z :=
  txt "help  - list commands" ++ newline ++ txt "mem   - physical page counts (4 KiB)" ++ newline ++
  txt "ticks - timer interrupt count (~100 Hz)" ++ newline ++
  txt "clear - clear terminal" ++ newline ++
  txt "halt  - stop CPU (restart QEMU to resume)" ++ newline.
Definition clear_text : list Z := [27] ++ txt "[2J" ++ [27] ++ txt "[H".

(** The dispatch on the command at [line]. *)
Definition run_command (line : list Z) s : outcome unit S :=
  if hd 0 line =? 0 then Done tt s
  else if equal line (txt "help") then output help_text s
  else if equal line (txt "ticks") then
    bind (output (txt "ticks: ") s) (λ _ s,
    bind (number (timer_ticks s) s) (λ _ s, output newline s))
  else if equal line (txt "mem") then
    let total := pmm_total s in
    let free := pmm_available s in
    bind (output (txt "pages: total=") s) (λ _ s,
    bind (number total s) (λ _ s,
    bind (output (txt " used=") s) (λ _ s,
    bind (number (u64 (total - free)) s) (λ _ s,
    bind (output (txt " free=") s) (λ _ s,
    bind (number free s) (λ _ s, output newline s))))))
  else if equal line (txt "clear") then output clear_text s
  else if equal line (txt "halt") then
    bind (output (txt "KERNEL: halting" ++ newline) s) (λ _ s,
      let '(ok, s) := serial_flush s in
      if ok then Halt (x86_disable_interrupts s) else Spin s)
  else output (txt "Unknown command. Type 'help'." ++ newline) s.

(** The caller's array comes back with the terminator stored. *)
Definition execute (line : list Z) (length : nat) s : outcome (list Z) S :=
  let length := trim_end line length in
  let line := <[length := 0]> line in
  bind (run_command (skip_blanks line) s) (λ _ s, Done line s).

(** ** The line editor *)

Record LINE_EDITOR := {
  line : list Z;
  length : Z;
  escape : Z;
  after_cr : bool;
  discard : bool;
}.

Definition line_size : Z := 128.

Definition reset_line (e : LINE_EDITOR) : LINE_EDITOR :=
  {| line := line e; length := 0; escape := 0; after_cr := after_cr e; discard := false |}.
Definition with_escape (e : LINE_EDITOR) (v : Z) : LINE_EDITOR :=
  {| line := line e; length := length e; escape := v; after_cr := after_cr e;
     discard := discard e |}.
Definition with_length (e : LINE_EDITOR) (v : Z) : LINE_EDITOR :=
  {| line := line e; length := v; escape := escape e; after_cr := after_cr e;
     discard := discard e |}.
Definition with_after_cr (e : LINE_EDITOR) (v : bool) : LINE_EDITOR :=
  {| line := line e; length := length e; escape := escape e; after_cr := v;
     discard := discard e |}.
Definition with_discard (e : LINE_EDITOR) (v : bool) : LINE_EDITOR :=
  {| line := line e; length := length e; escape := escape e; after_cr := after_cr e;
     discard := v |}.

Definition prompt : list Z := txt "K> ".
Definition discard_text : list Z :=
  txt "Input discarded (line too long or serial error)." ++ newline.

Definition with_line (e : LINE_EDITOR) (l : list Z) : LINE_EDITOR :=
  {| line := l; length := length e; escape := escape e; after_cr := after_cr e;
     discard := discard e |}.

Definition finish_line (e : LINE_EDITOR) s : outcome LINE_EDITOR S :=
  bind (output newline s) (λ _ s,
  bind (if discard e then bind (output discard_text s) (λ _ s, Done e s)
        else bind (execute (line e) (Z.to_nat (length e)) s) (λ l s, Done (with_line e l) s))
    (λ e s,
  let e := reset_line e in
  bind (output prompt s) (λ _ s, Done e s))).

Definition consume_escape (e : LINE_EDITOR) (byte : Z) : bool * LINE_EDITOR :=
  if escape e =? 1 then
    (true, with_escape e (if (byte =? 91) || (byte =? 79) then 2 else 0))
  else if escape e =? 2 then
    (true, if (0x40 <=? byte) && (byte <=? 0x7e) then with_escape e 0 else e)
  else if negb (byte =? 27) then (false, e)
  else (true, with_escape e 1).

(** Backspace, space, backspace. *)
Definition rubout : list Z := [8; 32; 8].

Definition edit_character (e : LINE_EDITOR) (byte : Z) s : outcome LINE_EDITOR S :=
  if discard e then Done e s
  else
    let '(consumed, e) := consume_escape e byte in
    if consumed then Done e s
    else if (byte =? 8) || (byte =? 127) then
      if negb (length e =? 0) then
        let e := with_length e (u32 (length e - 1)) in
        bind (output rubout s) (λ _ s, Done e s)
      else Done e s
    else if negb (byte =? 9) && ((byte <? 32) || (126 <? byte)) then Done e s
    else if length e =? line_size - 1 then Done (with_discard e true) s
    else
      let byte := if byte =? 9 then 32 else byte in
      let e := {| line := <[Z.to_nat (length e) := byte]> (line e);
                  length := u32 (length e + 1); escape := escape e;
                  after_cr := after_cr e; discard := discard e |} in
      bind (output [byte] s) (λ _ s, Done e s).

Definition accept_input (e : LINE_EDITOR) (byte : Z) s : outcome LINE_EDITOR S :=
  if (byte =? 10) && after_cr e then Done (with_after_cr e false) s
  else
    let e := with_after_cr e (byte =? 13) in
    if byte =? 3 then
      let e := reset_line e in
      bind (output (txt "^C" ++ newline ++ prompt) s) (λ _ s, Done e s)
    else if (byte =? 13) || (byte =? 10) then finish_line e s
    else edit_character e byte s.

(** One turn of the loop of [console_run]. *)
Definition console_turn (e : LINE_EDITOR) s : outcome LINE_EDITOR S :=
  let s := x86_disable_interrupts s in
  let '(status, byte, s) := serial_read s in
  if status =? 0 then Done e (x86_enable_and_idle s)
  else
    let s := x86_enable_interrupts s in
    if status <? 0 then
      Done {| line := line e; length := length e; escape := 0; after_cr := false;
              discard := true |} s
    else accept_input e byte s.

(** The loop, for a number of turns. *)
Fixpoint console_turns (n : nat) (e : LINE_EDITOR) s : outcome LINE_EDITOR S :=
  match n with
  | O => Done e s
  | Datatypes.S n => bind (console_turn e s) (λ e s, console_turns n e s)
  end.

(** [junk] is the uninitialized array. *)
Definition console_run (n : nat) (junk : list Z) s : outcome LINE_EDITOR S :=
  let e := {| line := junk; length := 0; escape := 0; after_cr := false; discard := false |} in
  bind (output (txt "CONSOLE: ready (type 'help')" ++ newline ++ prompt) s) (λ _ s,
  console_turns n e s).

End console.

End Console.
