(* ===== verification/ConsoleSpec.v ===== *)
(** * What the console promises

    The line editor never leaves its array and keeps the terminal showing the
    line it holds; a typed line runs the command it spells; numbers are
    printed in decimal. Proved against the contract of the serial line. *)

From Stdlib Require Import Ascii String.
From S2P Require Import Prelude Console.
Import Console.

Module ConsoleSpec.

(** What one read of the serial line reports. *)
Inductive input := NoInput | BadInput | Byte (b : Z).

Definition input_of (status byte : Z) : input :=
  if status =? 0 then NoInput else if status <? 0 then BadInput else Byte byte.

(** The history of the serial line: [sent] is what has gone out on the wire,
    where a text travels as [encode] of it, [received] what the reads have
    reported. [sound] is the invariant of the driver underneath. *)
Class Wire (S : Type) := {
  encode : list Z → list Z;
  sent : S → list Z;
  received : S → list input;
  sound : S → Prop;
}.

(** From [s] to [s'], [t] is sent and the reads report [i]; the allocator is
    left alone. *)
Definition moves {S} `{!Board S} `{!Wire S} (t : list Z) (i : list input) (s s' : S) : Prop :=
  (sound s → sound s' ∧ sent s' = sent s ++ encode t) ∧ received s' = received s ++ i ∧
  pmm_total s' = pmm_total s ∧ pmm_available s' = pmm_available s.

(** What the console relies on: a successful write appends its text, and
    nothing the console calls touches the allocator. *)
Class BoardContract (S : Type) `{!Board S} `{!Wire S} := {
  encode_nil : encode [] = [];
  encode_app t u : encode (t ++ u) = encode t ++ encode u;
  write_moves t s s' : serial_write t s = (true, s') → moves t [] s s';
  flush_moves s s' : serial_flush s = (true, s') → moves [] [] s s';
  read_moves s status byte s' :
    serial_read s = (status, byte, s') → moves [] [input_of status byte] s s';
  disable_moves s : moves [] [] s (x86_disable_interrupts s);
  enable_moves s : moves [] [] s (x86_enable_interrupts s);
  idle_moves s : moves [] [] s (x86_enable_and_idle s);
}.

(** ** Numbers *)

Definition digit (c : Z) : Prop := 48 ≤ c < 58.

(** The value of a string of digits. *)
Definition value_of (t : list Z) : Z := foldl (λ n c, 10 * n + (c - 48)) 0 t.

Lemma value_of_cons c t : value_of (c :: t) = (c - 48) * 10 ^ Z.of_nat (List.length t) + value_of t.
Proof.
  unfold value_of. cbn [foldl].
  assert (∀ t n, foldl (λ n c, 10 * n + (c - 48)) n t =
    n * 10 ^ Z.of_nat (List.length t) + foldl (λ n c, 10 * n + (c - 48)) 0 t) as H.
  { clear. induction t as [|x t IH]; intros n; [simpl; lia|]. cbn [foldl List.length].
    rewrite (IH (10 * n + (x - 48))), (IH (10 * 0 + (x - 48))), Nat2Z.inj_succ, Z.pow_succ_r by lia. lia. }
  rewrite H. simpl. lia.
Qed.

(** The loop's invariant: the digits still to come and those stored make up
    the number. *)
Lemma digits_spec room v t :
  0 ≤ v < 10 ^ Z.of_nat room → (0 < room)%nat →
  ∃ l, digits room v t = Some (l ++ t) ∧ value_of l = v ∧ Forall digit l ∧
       (List.length l ≤ room)%nat ∧ l ≠ [] ∧ (hd 0 l = 48 → l = [48]).
Proof.
  revert v t. induction room as [|room IH]; intros v t Hv Hr; [lia|]. cbn [digits].
  set (c := u8 (48 + v mod 10)).
  assert (c = 48 + v mod 10) as Hc by (unfold c, u8; rewrite Z.mod_small; [done|zdm]).
  assert (digit c) as Hd by (unfold digit; rewrite Hc; zdm).
  destruct (Z.eqb_spec (v / 10) 0) as [Hz|Hnz].
  - exists [c]. split; [done|]. split; [unfold value_of; simpl; rewrite Hc; zdm|].
    split; [by apply Forall_singleton|]. split; [simpl; lia|]. split; [done|]. simpl. congruence.
  - destruct (IH (v / 10) (c :: t)) as (l & -> & Hval & Hdig & Hlen & Hne & Hhd).
    + rewrite Nat2Z.inj_succ, Z.pow_succ_r in Hv by lia. zdm.
    + destruct room; [|lia]. simpl in Hv. zdm.
    + exists (l ++ [c]). rewrite <- app_assoc. split; [done|].
      split; [|split; [|split; [|split]]].
      * unfold value_of. rewrite foldl_app. fold (value_of l). rewrite Hval. simpl. rewrite Hc. zdm.
      * apply Forall_app. by split; [|apply Forall_singleton].
      * rewrite length_app. simpl. lia.
      * by destruct l.
      * destruct l as [|x l]; [done|]. simpl. intros ->. simpl in Hhd.
        injection (Hhd eq_refl) as ->. unfold value_of in Hval. simpl in Hval. lia.
Qed.

Lemma decimal_spec v :
  is_u64 v →
  value_of (decimal v) = v ∧ Forall digit (decimal v) ∧
  (1 ≤ List.length (decimal v) ≤ 20)%nat ∧ (hd 0 (decimal v) = 48 → decimal v = [48]).
Proof.
  intros Hv. destruct (digits_spec 20 v []) as (l & Hl & Hval & Hd & Hlen & Hne & Hhd).
  - unfold is_u64 in Hv. change (10 ^ Z.of_nat 20) with 100000000000000000000. lia.
  - lia.
  - unfold decimal. rewrite Hl, app_nil_r. change (default [] (Some l)) with l.
    split; [done|]. split; [done|]. split; [|done]. clear Hl. destruct l; [done|]. cbn [List.length] in *. lia.
Qed.

(** ** C strings *)

(** Comparing a NUL-terminated string with a string that has no NUL. *)
Lemma equal_spec a b rest :
  Forall (λ c, c ≠ 0) a → Forall (λ c, c ≠ 0) b → equal (a ++ 0 :: rest) b = bool_decide (a = b).
Proof.
  intros Ha. revert b. induction Ha as [|x a Hx Ha IH]; intros b Hb; cbn [app equal hd].
  - destruct Hb as [|y b Hy Hb]; cbn [hd]; [done|]. rewrite bool_decide_false by done.
    change (0 =? 0) with true. cbn [negb andb]. apply Z.eqb_neq. congruence.
  - rewrite (proj2 (Z.eqb_neq x 0)) by done. cbn [negb andb].
    destruct Hb as [|y b Hy Hb]; cbn [hd tl].
    + rewrite (proj2 (Z.eqb_neq x 0)) by done. by rewrite bool_decide_false by done.
    + destruct (Z.eqb_spec x y) as [->|Hne].
      * rewrite IH by done. apply bool_decide_ext. split; [by intros ->|by intros [= ->]].
      * by rewrite bool_decide_false by congruence.
Qed.

(** ** Trimming *)

Definition blank (c : Z) : Prop := c = 32 ∨ c = 9.
#[export] Instance blank_dec c : Decision (blank c).
Proof. unfold blank. apply _. Defined.

Fixpoint drop_blanks (l : list Z) : list Z :=
  match l with
  | [] => []
  | c :: r => if decide (blank c) then drop_blanks r else l
  end.

(** The text without the blanks around it. *)
Definition trim (l : list Z) : list Z := drop_blanks (rev (drop_blanks (rev l))).

Lemma drop_blanks_Forall (P : Z → Prop) l : Forall P l → Forall P (drop_blanks l).
Proof. induction 1 as [|c l Hc Hl IH]; cbn [drop_blanks]; [done|]. destruct (decide (blank c)); auto. Qed.

Lemma trim_Forall (P : Z → Prop) l : Forall P l → Forall P (trim l).
Proof. intros H. by apply drop_blanks_Forall, Forall_rev, drop_blanks_Forall, Forall_rev. Qed.

Lemma is_blank_spec c : is_blank c = bool_decide (blank c).
Proof.
  apply eq_true_iff_eq. unfold is_blank.
  by rewrite orb_true_iff, !Z.eqb_eq, bool_decide_eq_true.
Qed.

Lemma trim_end_spec (l : list Z) n :
  (n ≤ List.length l)%nat →
  (trim_end l n ≤ n)%nat ∧ take (trim_end l n) l = rev (drop_blanks (rev (take n l))).
Proof.
  induction n as [|n IH]; intros Hn; [done|]. cbn [trim_end].
  destruct (lookup_lt_is_Some_2 l n) as [c Hc]; [lia|].
  rewrite (nth_lookup_Some l n 0 c Hc), (take_S_r l n c Hc), rev_app_distr. cbn [rev app drop_blanks].
  rewrite is_blank_spec. case_bool_decide as Hb.
  - rewrite decide_True by done. destruct (IH ltac:(lia)) as [? ?]. split; [lia|done].
  - rewrite decide_False by done. split; [lia|]. cbn [rev]. by rewrite rev_involutive, (take_S_r l n c Hc).
Qed.

Lemma skip_blanks_spec l rest :
  skip_blanks (l ++ 0 :: rest) = drop_blanks l ++ 0 :: rest.
Proof.
  induction l as [|c l IH]; [done|]. cbn [app skip_blanks drop_blanks].
  rewrite is_blank_spec. case_bool_decide as Hb; [by rewrite decide_True|by rewrite decide_False].
Qed.

(** ** Commands *)

Inductive command := Nothing | Help | Ticks | Mem | Clear | HaltCommand | Unknown.

Definition parse (w : list Z) : command :=
  let t := trim w in
  if decide (t = []) then Nothing
  else if decide (t = txt "help") then Help
  else if decide (t = txt "ticks") then Ticks
  else if decide (t = txt "mem") then Mem
  else if decide (t = txt "clear") then Clear
  else if decide (t = txt "halt") then HaltCommand
  else Unknown.

(** What [halt] sends before the processor stops. *)
Definition halt_text : list Z := txt "KERNEL: halting" ++ newline.

(** What [console_run] starts with. *)
Definition greeting : list Z := txt "CONSOLE: ready (type 'help')" ++ newline ++ prompt.

(** The text a command answers with; the tick count is whatever the timer says
    when it is asked. *)
Inductive replies (total free : Z) : command → list Z → Prop :=
  | reply_nothing : replies total free Nothing []
  | reply_help : replies total free Help help_text
  | reply_ticks n : replies total free Ticks (txt "ticks: " ++ decimal n ++ newline)
  | reply_mem : replies total free Mem
      (txt "pages: total=" ++ decimal total ++ txt " used=" ++ decimal (u64 (total - free)) ++
       txt " free=" ++ decimal free ++ newline)
  | reply_clear : replies total free Clear clear_text
  | reply_unknown : replies total free Unknown (txt "Unknown command. Type 'help'." ++ newline).

(** ** The line discipline *)

Record session := Session { typed : list Z; esc : Z; cr : bool; lost : bool }.

Inductive action :=
  | Echo (t : list Z)
  | Run (w : list Z)
  | Discarded
  | Cancel.

Definition printable (c : Z) : Prop := 32 ≤ c ≤ 126.

(** What one input byte does to the session. *)
Definition spec_input (b : Z) (x : session) : action * session :=
  if (b =? 10) && cr x then (Echo [], Session (typed x) (esc x) false (lost x))
  else
    let keep t v l := Session t v (b =? 13) l in
    if b =? 3 then (Cancel, keep [] 0 false)
    else if (b =? 13) || (b =? 10) then
      (if lost x then Discarded else Run (typed x), keep [] 0 false)
    else if lost x then (Echo [], keep (typed x) (esc x) true)
    else if esc x =? 1 then
      (Echo [], keep (typed x) (if (b =? 91) || (b =? 79) then 2 else 0) false)
    else if esc x =? 2 then
      (Echo [], keep (typed x) (if (0x40 <=? b) && (b <=? 0x7e) then 0 else 2) false)
    else if b =? 27 then (Echo [], keep (typed x) 1 false)
    else if (b =? 8) || (b =? 127) then
      match typed x with
      | [] => (Echo [], keep [] 0 false)
      | _ => (Echo rubout, keep (removelast (typed x)) 0 false)
      end
    else if negb (b =? 9) && ((b <? 32) || (126 <? b)) then (Echo [], keep (typed x) 0 false)
    else if (List.length (typed x) =? 127)%nat then (Echo [], keep (typed x) 0 true)
    else
      let c := if b =? 9 then 32 else b in
      (Echo [c], keep (typed x ++ [c]) 0 false).

(** The bytes that answer an action. *)
Inductive answers (total free : Z) : action → list Z → Prop :=
  | answer_echo t : answers total free (Echo t) t
  | answer_run w t : replies total free (parse w) t →
      answers total free (Run w) (newline ++ t ++ prompt)
  | answer_discarded : answers total free Discarded (newline ++ discard_text ++ prompt)
  | answer_cancel : answers total free Cancel (txt "^C" ++ newline ++ prompt).

(** What one read does to the session. *)
Definition spec_event (i : input) (x : session) : action * session :=
  match i with
  | NoInput => (Echo [], x)
  | BadInput => (Echo [], Session (typed x) 0 false true)
  | Byte b => spec_input b x
  end.

(** A whole exchange: the inputs, and the text that answers them. *)
Inductive conversation (total free : Z) : list input → session → list Z → session → Prop :=
  | conv_nil x : conversation total free [] x [] x
  | conv_cons i ins x t u y :
      answers total free (fst (spec_event i x)) t →
      conversation total free ins (snd (spec_event i x)) u y →
      conversation total free (i :: ins) x (t ++ u) y.

(** An exchange that ends with the [halt] command. *)
Inductive halted (total free : Z) : list input → session → list Z → Prop :=
  | halted_now i x w :
      fst (spec_event i x) = Run w → parse w = HaltCommand →
      halted total free [i] x (newline ++ halt_text)
  | halted_later i ins x t u :
      answers total free (fst (spec_event i x)) t →
      halted total free ins (snd (spec_event i x)) u →
      halted total free (i :: ins) x (t ++ u).

(** *** Typed lines *)

Lemma printable_event c l k :
  printable c → (List.length l < 127)%nat →
  spec_event (Byte c) (Session l 0 k false) = (Echo [c], Session (l ++ [c]) 0 false false).
Proof.
  unfold printable. intros Hc Hl. cbn [spec_event]. unfold spec_input. cbn [typed esc cr lost].
  change (0 =? 1) with false. change (0 =? 2) with false. cbn iota.
  rewrite !(proj2 (Z.eqb_neq c _)) by lia. cbn [andb orb negb].
  rewrite (proj2 (Z.ltb_ge c 32)), (proj2 (Z.ltb_ge 126 c)) by lia.
  by rewrite (proj2 (Nat.eqb_neq _ 127)) by lia.
Qed.

Lemma full_event c l k :
  printable c → List.length l = 127%nat →
  spec_event (Byte c) (Session l 0 k false) = (Echo [], Session l 0 false true).
Proof.
  unfold printable. intros Hc Hl. cbn [spec_event]. unfold spec_input. cbn [typed esc cr lost].
  change (0 =? 1) with false. change (0 =? 2) with false. cbn iota.
  rewrite !(proj2 (Z.eqb_neq c _)) by lia. cbn [andb orb negb].
  rewrite (proj2 (Z.ltb_ge c 32)), (proj2 (Z.ltb_ge 126 c)) by lia.
  by rewrite Hl.
Qed.

Lemma lost_event c l :
  printable c → spec_event (Byte c) (Session l 0 false true) = (Echo [], Session l 0 false true).
Proof.
  unfold printable. intros Hc. cbn [spec_event]. unfold spec_input. cbn [typed esc cr lost].
  by rewrite !(proj2 (Z.eqb_neq c _)) by lia.
Qed.

Lemma return_event l k d :
  spec_event (Byte 13) (Session l 0 k d) =
    (if d then Discarded else Run l, Session [] 0 true false).
Proof. by destruct d. Qed.

Section exchange.
Context (total free : Z).

Lemma conv_step_inv i ins x t y a z :
  spec_event i x = (a, z) → conversation total free (i :: ins) x t y →
  ∃ t1 t2, answers total free a t1 ∧ conversation total free ins z t2 y ∧ t = t1 ++ t2.
Proof. intros Heq H. inversion H; subst. rewrite Heq in *. eauto. Qed.

Lemma halted_step_inv i ins x t a z :
  spec_event i x = (a, z) → halted total free (i :: ins) x t →
  (∃ w, a = Run w ∧ parse w = HaltCommand ∧ ins = [] ∧ t = newline ++ halt_text) ∨
  (∃ t1 t2, answers total free a t1 ∧ halted total free ins z t2 ∧ t = t1 ++ t2).
Proof. intros Heq H. inversion H; subst; rewrite Heq in *; [left|right]; eauto 6. Qed.

Lemma conv_echo i ins x t y e z :
  spec_event i x = (Echo e, z) → conversation total free (i :: ins) x t y →
  ∃ u, conversation total free ins z u y ∧ t = e ++ u.
Proof.
  intros Heq H. destruct (conv_step_inv _ _ _ _ _ _ _ Heq H) as (t1 & t2 & Ha & Hc & ->).
  inversion Ha; subst. eauto.
Qed.

Lemma halted_echo i ins x t e z :
  spec_event i x = (Echo e, z) → halted total free (i :: ins) x t →
  ∃ u, halted total free ins z u ∧ t = e ++ u.
Proof.
  intros Heq H. destruct (halted_step_inv _ _ _ _ _ _ Heq H) as [(w & ? & _)|(t1 & t2 & Ha & Hc & ->)];
    [done|]. inversion Ha; subst. eauto.
Qed.

(** The end of a line that fits runs it. *)
Lemma conv_line l w k t y :
  Forall printable w → (List.length l + List.length w ≤ 127)%nat →
  conversation total free (Byte <$> (w ++ [13])) (Session l 0 k false) t y →
  ∃ r, replies total free (parse (l ++ w)) r ∧ t = w ++ newline ++ r ++ prompt ∧
       y = Session [] 0 true false.
Proof.
  intros Hw. revert l k t. induction Hw as [|c w Hc Hw IH]; intros l k t Hlen H.
  - destruct (conv_step_inv _ _ _ _ _ _ _ (return_event l k false) H) as (t1 & t2 & Ha & Hc & ->).
    inversion Ha; subst. inversion Hc; subst. rewrite !app_nil_r. eauto.
  - cbn [List.length] in Hlen.
    destruct (conv_echo _ _ _ _ _ _ _ (printable_event c l k Hc ltac:(lia)) H) as (u & Hu & ->).
    destruct (IH (l ++ [c]) false u ltac:(rewrite length_app; simpl; lia) Hu) as (r & Hr & -> & ->).
    rewrite <- app_assoc in Hr. eauto.
Qed.

Lemma halted_line l w k ins rest t :
  Forall printable w → (List.length l + List.length w ≤ 127)%nat →
  ins ++ rest = Byte <$> (w ++ [13]) → halted total free ins (Session l 0 k false) t →
  parse (l ++ w) = HaltCommand ∧ t = w ++ newline ++ halt_text.
Proof.
  intros Hw. revert l k ins t. induction Hw as [|c w Hc Hw IH]; intros l k ins t Hlen His H.
  - destruct ins as [|i js]; [inversion H|]. injection His as -> Hnil.
    apply app_eq_nil in Hnil as [-> _]. rewrite app_nil_r.
    destruct (halted_step_inv _ _ _ _ _ _ (return_event l k false) H)
      as [(w & [= <-] & Hp & _ & ->)|(t1 & t2 & _ & Hh & _)]; [done|inversion Hh].
  - destruct ins as [|i js]; [inversion H|]. injection His as -> His'.
    cbn [List.length] in Hlen.
    destruct (halted_echo _ _ _ _ _ _ (printable_event c l k Hc ltac:(lia)) H) as (u & Hu & ->).
    destruct (IH (l ++ [c]) false js u ltac:(rewrite length_app; simpl; lia) His' Hu) as [Hp ->].
    by rewrite <- app_assoc in Hp.
Qed.

(** A line that does not fit is not run: what is past the array is dropped. *)
Lemma conv_lost l w t y :
  Forall printable w →
  conversation total free (Byte <$> (w ++ [13])) (Session l 0 false true) t y →
  t = newline ++ discard_text ++ prompt ∧ y = Session [] 0 true false.
Proof.
  intros Hw. revert t. induction Hw as [|c w Hc Hw IH]; intros t H.
  - destruct (conv_step_inv _ _ _ _ _ _ _ (return_event l false true) H) as (t1 & t2 & Ha & Hh & ->).
    inversion Ha; subst. inversion Hh; subst. by rewrite app_nil_r.
  - destruct (conv_echo _ _ _ _ _ _ _ (lost_event c l Hc) H) as (u & Hu & ->). by apply IH.
Qed.

Lemma conv_overlong l w k t y :
  Forall printable w → (List.length l ≤ 127)%nat → (127 < List.length l + List.length w)%nat →
  conversation total free (Byte <$> (w ++ [13])) (Session l 0 k false) t y →
  t = take (127 - List.length l) w ++ newline ++ discard_text ++ prompt ∧
  y = Session [] 0 true false.
Proof.
  intros Hw. revert l k t. induction Hw as [|c w Hc Hw IH]; intros l k t Hl Hlen H;
    cbn [List.length] in Hlen; [lia|].
  destruct (decide (List.length l = 127%nat)) as [Hfull|Hroom].
  - destruct (conv_echo _ _ _ _ _ _ _ (full_event c l k Hc Hfull) H) as (u & Hu & ->).
    rewrite Hfull. by eapply conv_lost.
  - destruct (conv_echo _ _ _ _ _ _ _ (printable_event c l k Hc ltac:(lia)) H) as (u & Hu & ->).
    assert (List.length (l ++ [c]) = S (List.length l)) as Hsnoc by (rewrite length_app; simpl; lia).
    destruct (IH (l ++ [c]) false u ltac:(lia) ltac:(lia) Hu) as [-> ->]. rewrite Hsnoc.
    by replace (127 - List.length l)%nat with (S (127 - S (List.length l))) by lia.
Qed.

Lemma lost_not_halted l w ins rest t :
  Forall printable w → ins ++ rest = Byte <$> (w ++ [13]) →
  ¬ halted total free ins (Session l 0 false true) t.
Proof.
  intros Hw. revert ins t. induction Hw as [|c w Hc Hw IH]; intros ins t His H;
    (destruct ins as [|i js]; [inversion H|]); injection His as -> His'.
  - apply app_eq_nil in His' as [-> _].
    destruct (halted_step_inv _ _ _ _ _ _ (return_event l false true) H)
      as [(w & ? & _)|(t1 & t2 & _ & Hh & _)]; [done|inversion Hh].
  - destruct (halted_echo _ _ _ _ _ _ (lost_event c l Hc) H) as (u & Hu & ->). by eapply IH.
Qed.

Lemma overlong_not_halted l w k ins rest t :
  Forall printable w → (List.length l ≤ 127)%nat → (127 < List.length l + List.length w)%nat →
  ins ++ rest = Byte <$> (w ++ [13]) → ¬ halted total free ins (Session l 0 k false) t.
Proof.
  intros Hw. revert l k ins t. induction Hw as [|c w Hc Hw IH]; intros l k ins t Hl Hlen His H;
    cbn [List.length] in Hlen; [lia|].
  destruct ins as [|i js]; [inversion H|]. injection His as -> His'.
  destruct (decide (List.length l = 127%nat)) as [Hfull|Hroom].
  - destruct (halted_echo _ _ _ _ _ _ (full_event c l k Hc Hfull) H) as (u & Hu & ->).
    by eapply lost_not_halted.
  - destruct (halted_echo _ _ _ _ _ _ (printable_event c l k Hc ltac:(lia)) H) as (u & Hu & ->).
    eapply (IH (l ++ [c])); [..|done|done]; rewrite length_app; simpl; lia.
Qed.

End exchange.

(** ** The terminal *)

(** One row of the terminal and its cursor. *)
Record screen := Screen { row : list Z; cursor : nat }.

(** Backspace moves the cursor, anything else is drawn over the cell under
    it. *)
Definition type_byte (c : Z) (z : screen) : screen :=
  if c =? 8 then Screen (row z) (cursor z - 1)
  else Screen (take (cursor z) (row z) ++ c :: drop (S (cursor z)) (row z)) (S (cursor z)).

Definition type_all (t : list Z) (z : screen) : screen := foldl (flip type_byte) z t.

(** The row is [l] and blanks, the cursor is behind [l]. *)
Definition shows (l : list Z) (z : screen) : Prop :=
  ∃ k, z = Screen (l ++ replicate k 32) (List.length l).

Lemma type_all_app t u z : type_all (t ++ u) z = type_all u (type_all t z).
Proof. apply foldl_app. Qed.

Lemma type_byte_shows c l z : printable c → shows l z → shows (l ++ [c]) (type_byte c z).
Proof.
  intros Hc [k ->]. exists (k - 1)%nat. unfold type_byte. cbn [row cursor].
  rewrite (proj2 (Z.eqb_neq c 8)) by (unfold printable in Hc; lia).
  rewrite take_app_length, drop_app_ge, length_app, <- app_assoc by lia.
  replace (S (List.length l) - List.length l)%nat with 1%nat by lia.
  rewrite drop_replicate. f_equal. simpl. lia.
Qed.

Lemma rubout_shows c l z : shows (l ++ [c]) z → shows l (type_all rubout z).
Proof.
  intros [k ->]. exists (S k). unfold type_all, rubout. cbn [foldl flip]. unfold flip, type_byte.
  change (8 =? 8) with true. change (32 =? 8) with false. cbn [row cursor].
  rewrite length_app. cbn [List.length].
  replace (List.length l + 1 - 1)%nat with (List.length l) by lia.
  rewrite <- app_assoc, take_app_length, drop_app_ge by lia.
  replace (S (List.length l) - List.length l)%nat with 1%nat by lia.
  cbn [app drop replicate]. f_equal. lia.
Qed.

Definition editing (b : Z) : Prop := b ≠ 3 ∧ b ≠ 10 ∧ b ≠ 13.

(** What an editing byte echoes keeps the line on the terminal. *)
Lemma editing_shows base b x z :
  editing b → Forall printable (typed x) → shows (base ++ typed x) z →
  ∃ t, fst (spec_input b x) = Echo t ∧
       shows (base ++ typed (snd (spec_input b x))) (type_all t z).
Proof.
  intros (H3 & H10 & H13) Hx Hz. unfold spec_input.
  rewrite (proj2 (Z.eqb_neq b 3)), (proj2 (Z.eqb_neq b 13)), (proj2 (Z.eqb_neq b 10)) by done.
  cbn [andb orb]. cbv zeta.
  destruct (lost x); [by exists []|]. destruct (esc x =? 1); [by exists []|].
  destruct (esc x =? 2); [by exists []|]. destruct (b =? 27); [by exists []|].
  destruct ((b =? 8) || (b =? 127)).
  { destruct (typed x) as [|c l _] using rev_ind; [by exists []|].
    assert (∀ (A : Type) (p q : A), match l ++ [c] with [] => p | _ => q end = q) as ->
      by (by destruct l).
    exists rubout. split; [done|]. cbn [snd typed]. rewrite removelast_last.
    rewrite app_assoc in Hz. by eapply rubout_shows. }
  destruct (Z.eqb_spec b 9) as [E9|E9]; cbn [negb andb].
  2: destruct (Z.ltb_spec b 32), (Z.ltb_spec 126 b); cbn [orb]; try by exists [].
  all: destruct (_ =? 127)%nat; [by exists []|].
  all: eexists; split; [done|]; cbn [snd typed]; rewrite app_assoc;
    apply type_byte_shows; [unfold printable; lia|done].
Qed.

(** ** The editor's state *)

Definition text (e : LINE_EDITOR) : list Z := take (Z.to_nat (length e)) (line e).
Definition session_of (e : LINE_EDITOR) : session :=
  Session (text e) (escape e) (after_cr e) (discard e).

Record editor_wf (e : LINE_EDITOR) : Prop := {
  ew_line : List.length (line e) = 128%nat;
  ew_length : 0 ≤ length e ≤ 127;
  ew_text : Forall printable (text e);
  ew_escape : 0 ≤ escape e ≤ 2;
}.

Section console.
Context {S : Type} `{!Board S} `{!Wire S} `{!BoardContract S}.
Implicit Types (s : S) (e : LINE_EDITOR).

(** The state after a part of the console that reads nothing has sent [t]. *)
Definition sends s (t : list Z) s' : Prop := moves t [] s s'.

Lemma moves_app s1 t1 i1 s2 t2 i2 s3 :
  moves t1 i1 s1 s2 → moves t2 i2 s2 s3 → moves (t1 ++ t2) (i1 ++ i2) s1 s3.
Proof.
  intros (Hs & Hr & Ht & Ha) (Hs' & Hr' & Ht' & Ha'). split.
  - intros H1. destruct (Hs H1) as [H2 E2], (Hs' H2) as [H3 E3]. split; [done|].
    by rewrite E3, E2, encode_app, app_assoc.
  - rewrite app_assoc. split; [congruence|]. split; congruence.
Qed.

Lemma sends_nil s : sends s [] s.
Proof.
  split; [intros H; split; [done|]; by rewrite encode_nil, app_nil_r|].
  split; [by rewrite app_nil_r|done].
Qed.

Lemma sends_app s1 t1 s2 t2 s3 : sends s1 t1 s2 → sends s2 t2 s3 → sends s1 (t1 ++ t2) s3.
Proof. apply moves_app. Qed.

Lemma moves_total t i s s' : moves t i s s' → pmm_total s' = pmm_total s.
Proof. by intros (_ & _ & ? & _). Qed.

Lemma moves_available t i s s' : moves t i s s' → pmm_available s' = pmm_available s.
Proof. by intros (_ & _ & _ & ?). Qed.

(** The serial line refuses some write or flush. *)
Definition broken : Prop :=
  (∃ t s, (serial_write t s).1 = false) ∨ (∃ s, (serial_flush s).1 = false).

(** What holds of an outcome: of the result, if there is one, and of the
    states the processor stops in on [halt]. The console spins only on a
    broken serial line. *)
Definition wp {A} (m : outcome A S) (Q : A → S → Prop) (H : S → Prop) : Prop :=
  match m with
  | Done a s => Q a s
  | Spin _ => broken
  | Halt s => H s
  end.

Lemma wp_output t s Q H : (∀ s', sends s t s' → Q tt s') → wp (output t s) Q H.
Proof.
  intros HQ. unfold output. destruct (serial_write t s) as [[|] s'] eqn:Hw; simpl;
    [|left; exists t, s; by rewrite Hw].
  apply HQ. by apply write_moves.
Qed.

Lemma outcome_bind {A B} (m : outcome A S) (k : A → S → outcome B S) Q H :
  wp m (λ a s, wp (k a s) Q H) H → wp (bind m k) Q H.
Proof. by destruct m. Qed.

Lemma outcome_mono {A} (m : outcome A S) (Q Q' : A → S → Prop) (H H' : S → Prop) :
  (∀ a s, Q a s → Q' a s) → (∀ s, H s → H' s) → wp m Q H → wp m Q' H'.
Proof. destruct m; simpl; auto. Qed.

(** Runs the outputs of a command one after the other. *)
Ltac outputs :=
  unfold number;
  repeat first [apply outcome_bind | apply wp_output; intros ? ?].

(** A reply, and the text that was sent for it. *)
Ltac reply :=
  eexists; split; [by constructor|];
  repeat lazymatch goal with
  | H : sends ?s _ _ |- sends ?s (_ ++ _) _ => eapply sends_app; [exact H|]
  end;
  try match goal with H : sends ?s _ _ |- sends ?s _ _ => exact H end.

Lemma wp_run_command w rest s :
  Forall printable w →
  wp (run_command (trim w ++ 0 :: rest) s)
    (λ _ s', ∃ t, replies (pmm_total s) (pmm_available s) (parse w) t ∧ sends s t s')
    (λ s', parse w = HaltCommand ∧ sends s halt_text s').
Proof.
  intros Hw. assert (Forall (λ c, c ≠ 0) (trim w)) as Hnz.
  { apply trim_Forall. eapply Forall_impl; [exact Hw|]. unfold printable. lia. }
  assert (∀ t, Forall (λ c, c ≠ 0) (txt t) →
    equal (trim w ++ 0 :: rest) (txt t) = bool_decide (trim w = txt t)) as Heq
    by (intros t Ht; by apply equal_spec).
  unfold run_command, parse.
  assert ((hd 0 (trim w ++ 0 :: rest) =? 0) = bool_decide (trim w = [])) as ->.
  { destruct Hnz as [|c t Hc _]; [done|]. rewrite bool_decide_false by done. by apply Z.eqb_neq. }
  rewrite !Heq by (apply (bool_decide_unpack _); by vm_compute).
  case_bool_decide as Hn.
  { rewrite decide_True by done. exists []. split; [constructor|apply sends_nil]. }
  rewrite decide_False by done. case_bool_decide as H1.
  { rewrite decide_True by done. outputs. reply. }
  rewrite decide_False by done. case_bool_decide as H2.
  { rewrite decide_True by done. outputs. reply. }
  rewrite decide_False by done. case_bool_decide as H3.
  { rewrite decide_True by done. cbv zeta. outputs. reply. }
  rewrite decide_False by done. case_bool_decide as H4.
  { rewrite decide_True by done. outputs. reply. }
  rewrite decide_False by done. case_bool_decide as H5.
  { rewrite decide_True by done. outputs.
    destruct (serial_flush _) as [[|] sf] eqn:Hf; [|right; eexists; by rewrite Hf].
    split; [done|]. unfold halt_text. rewrite <- (app_nil_r (_ ++ newline)).
    eapply sends_app; [eassumption|]. change (@nil Z) with (@nil Z ++ []).
    eapply sends_app; [by apply flush_moves|apply disable_moves]. }
  rewrite decide_False by done. outputs. reply.
Qed.

Lemma execute_text (l : list Z) n s :
  (n < List.length l)%nat →
  ∃ rest, execute l n s =
    bind (run_command (trim (take n l) ++ 0 :: rest) s) (λ _ s, Done (<[trim_end l n := 0]> l) s).
Proof.
  intros Hn. destruct (trim_end_spec l n ltac:(lia)) as [Hle Htake].
  exists (drop (Datatypes.S (trim_end l n)) l). unfold execute. do 2 f_equal.
  rewrite insert_take_drop by lia. rewrite skip_blanks_spec. unfold trim. by rewrite Htake.
Qed.

(** ** One input byte *)

Lemma wp_finish_line e s :
  editor_wf e →
  wp (finish_line e s)
    (λ e' s', ∃ t, answers (pmm_total s) (pmm_available s)
         (if discard e then Discarded else Run (text e)) t ∧ sends s t s' ∧
       List.length (line e') = 128%nat ∧ length e' = 0 ∧ escape e' = 0 ∧
       after_cr e' = after_cr e ∧ discard e' = false)
    (λ s', discard e = false ∧ parse (text e) = HaltCommand ∧ sends s (newline ++ halt_text) s').
Proof.
  intros [Hl Hlen Htext Hesc]. unfold finish_line. apply outcome_bind, wp_output. intros s1 Hs1.
  destruct (discard e).
  - outputs. eexists. split; [constructor|]. split; [|done].
    eapply sends_app; [done|]. by eapply sends_app.
  - destruct (execute_text (line e) (Z.to_nat (length e)) s1 ltac:(lia)) as [rest ->].
    apply outcome_bind, outcome_bind, outcome_bind. eapply outcome_mono; [| |by apply wp_run_command].
    + intros _ s2 (t & Ht & Hs2). cbn [wp]. apply outcome_bind, wp_output. intros s3 Hs3. cbn [wp].
      exists (newline ++ t ++ prompt). rewrite (moves_total _ _ _ _ Hs1), (moves_available _ _ _ _ Hs1) in Ht.
      split; [by constructor|]. split; [eapply sends_app; [done|]; by eapply sends_app|].
      cbn [reset_line with_line line]. rewrite length_insert. done.
    + intros s2 [Hp Hs2]. split; [done|]. split; [done|]. by eapply sends_app.
Qed.

Lemma session_reset e : length e = 0 → session_of e = Session [] (escape e) (after_cr e) (discard e).
Proof. intros H. unfold session_of, text. by rewrite H. Qed.

Lemma wf_with_after_cr e v : editor_wf e → editor_wf (with_after_cr e v).
Proof. intros []. by split. Qed.

Lemma text_rubout e :
  editor_wf e → length e ≠ 0 →
  text (with_length e (u32 (length e - 1))) = removelast (text e) ∧
  editor_wf (with_length e (u32 (length e - 1))).
Proof.
  intros [Hl Hlen Ht Hesc] Hne.
  assert (u32 (length e - 1) = length e - 1) as Hu by (unfold u32; apply Z.mod_small; lia).
  assert (text (with_length e (u32 (length e - 1))) = removelast (text e)) as Heq.
  { unfold text. cbn [with_length length line]. rewrite Hu.
    replace (Z.to_nat (length e)) with (Datatypes.S (Z.to_nat (length e - 1))) by lia.
    destruct (lookup_lt_is_Some_2 (line e) (Z.to_nat (length e - 1))) as [c Hc]; [lia|].
    by rewrite (take_S_r _ _ c Hc), removelast_last. }
  split; [done|]. split; [done|cbn [with_length length]; lia| |done].
  rewrite Heq. apply Forall_forall. intros c Hc. apply (proj1 (Forall_forall _ _) Ht).
  destruct (text e) as [|x l] using rev_ind; [done|]. rewrite removelast_last in Hc.
  apply elem_of_app. by left.
Qed.

Lemma text_append e c f :
  editor_wf e → length e ≠ 127 → printable c → 0 ≤ f ≤ 2 →
  let e' := {| line := <[Z.to_nat (length e) := c]> (line e); length := u32 (length e + 1);
               escape := f; after_cr := after_cr e; discard := discard e |} in
  text e' = text e ++ [c] ∧ editor_wf e'.
Proof.
  intros [Hl Hlen Ht Hesc] Hne Hc Hf e'.
  assert (u32 (length e + 1) = length e + 1) as Hu by (unfold u32; apply Z.mod_small; lia).
  assert (text e' = text e ++ [c]) as Heq.
  { unfold text, e'. cbn [length line]. rewrite Hu.
    replace (Z.to_nat (length e + 1)) with (Datatypes.S (Z.to_nat (length e))) by lia.
    rewrite (take_S_r _ _ c) by (apply list_lookup_insert_eq; lia).
    f_equal. apply take_insert_ge. lia. }
  split; [done|]. split; [|unfold e'; cbn [length]; lia| |done].
  - unfold e'. cbn [line]. by rewrite length_insert.
  - rewrite Heq. apply Forall_app. by split; [|apply Forall_singleton].
Qed.

Lemma text_nil e : editor_wf e → text e = [] ↔ length e = 0.
Proof.
  intros [Hl Hlen _ _]. unfold text. split.
  - intros H. apply (f_equal List.length) in H. rewrite length_take, Hl in H. simpl in H. lia.
  - intros ->. done.
Qed.

Lemma text_length e : editor_wf e → List.length (text e) = Z.to_nat (length e).
Proof. intros [Hl Hlen _ _]. unfold text. rewrite length_take. lia. Qed.

(** The post-condition of one input byte. *)
Definition accepts s (r : action * session) (m : outcome LINE_EDITOR S) : Prop :=
  wp m (λ e' s', ∃ t, answers (pmm_total s) (pmm_available s) (fst r) t ∧ sends s t s' ∧
          session_of e' = snd r ∧ editor_wf e')
       (λ s', (∃ w, fst r = Run w ∧ parse w = HaltCommand) ∧ sends s (newline ++ halt_text) s').

Lemma accepts_silent s e x :
  session_of e = x → editor_wf e → accepts s (Echo [], x) (Done e s).
Proof. intros Hx He. exists []. split; [constructor|]. split; [apply sends_nil|done]. Qed.

Lemma accepts_echo s e t x :
  session_of e = x → editor_wf e →
  accepts s (Echo t, x) (bind (output t s) (λ _ s, Done e s)).
Proof.
  intros Hx He. unfold accepts. apply outcome_bind, wp_output. intros s' Hs'. cbn [wp fst snd].
  exists t. split; [constructor|done].
Qed.

(** The part of [spec_input] that edits the line. *)
Lemma accepts_edit b e s :
  editor_wf e → after_cr e = (b =? 13) → b ≠ 3 → b ≠ 13 → b ≠ 10 →
  accepts s (spec_input b (Session (text e) (escape e) false (discard e))) (edit_character e b s).
Proof.
  intros He Hcr H3 H13 H10. unfold spec_input, edit_character. cbn [typed esc cr lost].
  rewrite andb_false_r, (proj2 (Z.eqb_neq b 3)), (proj2 (Z.eqb_neq b 13)),
    (proj2 (Z.eqb_neq b 10)) by done. cbn [orb].
  rewrite (proj2 (Z.eqb_neq b 13)) in Hcr by done. cbv zeta.
  destruct (discard e) eqn:Hd.
  { apply accepts_silent; [|done]. unfold session_of. by rewrite Hcr, Hd. }
  pose proof (ew_escape e He) as Hesc. unfold consume_escape.
  assert (∀ v, 0 ≤ v ≤ 2 → accepts s (Echo [], Session (text e) v false false)
    (Done (with_escape e v) s)) as Hescape.
  { intros v Hv. apply accepts_silent.
    - unfold session_of, text, with_escape. cbn. by rewrite Hcr, Hd.
    - destruct He. by split. }
  destruct (Z.eqb_spec (escape e) 1) as [E1|E1].
  { destruct (_ || _); by apply Hescape. }
  destruct (Z.eqb_spec (escape e) 2) as [E2|E2].
  { destruct (_ && _); [by apply Hescape|].
    apply accepts_silent; [|done]. unfold session_of. by rewrite Hcr, Hd, E2. }
  assert (escape e = 0) as E0 by lia.
  destruct (Z.eqb_spec b 27) as [E27|E27]; cbn [negb]; [by apply Hescape|].
  assert (session_of e = Session (text e) 0 false false) as Hsame
    by (unfold session_of; by rewrite Hcr, Hd, E0).
  destruct ((b =? 8) || (b =? 127)).
  { destruct (Z.eqb_spec (length e) 0) as [Hz|Hnz]; cbn [negb].
    - rewrite (proj2 (text_nil e He) Hz) in *. by apply accepts_silent.
    - destruct (text_rubout e He Hnz) as [Ht Hwf].
      destruct (text e) as [|x l] eqn:Hte; [by apply (text_nil e He) in Hte|].
      apply accepts_echo; [|done]. unfold session_of. rewrite Ht. cbn. by rewrite Hcr, Hd, E0. }
  destruct (Z.eqb_spec b 9) as [E9|E9]; cbn [negb andb].
  2: destruct (Z.ltb_spec b 32), (Z.ltb_spec 126 b); cbn [orb]; try by apply accepts_silent.
  all: rewrite text_length by done; pose proof (ew_length e He) as Hlen.
  all: destruct (Z.eqb_spec (length e) (line_size - 1)) as [Hfull|Hroom];
    [rewrite (proj2 (Nat.eqb_eq (Z.to_nat (length e)) 127)) by (unfold line_size in Hfull; lia)
    |rewrite (proj2 (Nat.eqb_neq (Z.to_nat (length e)) 127)) by (unfold line_size in Hroom; lia)].
  1, 3: apply accepts_silent; [unfold session_of, text, with_discard; cbn; by rewrite Hcr, E0
                              |destruct He; by split].
  all: match goal with |- accepts _ (Echo [?c], _) _ =>
         destruct (text_append e c (escape e) He) as [Ht Hwf];
           [unfold line_size in Hroom; lia|unfold printable; lia|lia|] end.
  all: apply accepts_echo; [|done]; unfold session_of; rewrite Ht; cbn; by rewrite Hcr, Hd, E0.
Qed.

Lemma accepts_input b e s :
  editor_wf e → accepts s (spec_input b (session_of e)) (accept_input e b s).
Proof.
  intros He. unfold accept_input, spec_input at 1. cbn [session_of typed esc cr lost].
  destruct ((b =? 10) && after_cr e) eqn:Hlf.
  { apply accepts_silent; [done|by apply wf_with_after_cr]. }
  pose proof (wf_with_after_cr e (b =? 13) He) as Hwf.
  destruct (Z.eqb_spec b 3) as [E3|E3].
  { unfold accepts. cbn [fst snd]. apply outcome_bind, wp_output. intros s' Hs'. cbn [wp].
    eexists. split; [constructor|]. split; [done|]. split; [done|].
    destruct Hwf as [Hl _ _ _]. split; [done|done|constructor|done]. }
  destruct ((b =? 13) || (b =? 10)) eqn:Hnl.
  { unfold accepts. cbn [fst snd].
    eapply outcome_mono; [| |by apply wp_finish_line].
    - intros e' s' (t & Ht & Hs & Hl & Hlen & Hesc & Hcr & Hd). exists t. split; [done|].
      split; [done|]. split; [by rewrite session_reset, Hesc, Hcr, Hd|].
      assert (text e' = []) as Ht' by (unfold text; by rewrite Hlen).
      split; [done|lia|rewrite Ht'; constructor|lia].
    - intros s' (Hd & Hp & Hs). split; [|done]. exists (text e).
      cbn [with_after_cr discard] in Hd. by rewrite Hd. }
  pose proof (accepts_edit b (with_after_cr e (b =? 13)) s Hwf eq_refl E3) as Hedit.
  apply orb_false_iff in Hnl as [Hn13 Hn10]. apply Z.eqb_neq in Hn13, Hn10.
  specialize (Hedit Hn13 Hn10). unfold spec_input in Hedit. cbn [typed esc cr lost] in Hedit.
  rewrite andb_false_r, (proj2 (Z.eqb_neq b 3)), (proj2 (Z.eqb_neq b 13)),
    (proj2 (Z.eqb_neq b 10)) in * by done.
  exact Hedit.
Qed.

(** *** Sequences of bytes *)

(** The bytes handed to [accept_input] one after the other. *)
Fixpoint feed (bs : list Z) e s : outcome LINE_EDITOR S :=
  match bs with
  | [] => Done e s
  | b :: bs => bind (accept_input e b s) (λ e s, feed bs e s)
  end.

Lemma wp_feed bs e s :
  editor_wf e →
  wp (feed bs e s)
    (λ e' s', ∃ t, conversation (pmm_total s) (pmm_available s) (Byte <$> bs)
                     (session_of e) t (session_of e') ∧ sends s t s' ∧ editor_wf e')
    (λ s', ∃ ins rest t, ins ++ rest = Byte <$> bs ∧
             halted (pmm_total s) (pmm_available s) ins (session_of e) t ∧ sends s t s').
Proof.
  revert e s. induction bs as [|b bs IH]; intros e s He; cbn [feed].
  { exists []. split; [constructor|]. split; [apply sends_nil|done]. }
  apply outcome_bind. eapply outcome_mono; [| |by apply accepts_input].
  - intros e1 s1 (t & Ht & Hs1 & Hx & He1). eapply outcome_mono; [| |by apply IH].
    + intros e2 s2 (u & Hu & Hs2 & He2). exists (t ++ u).
      rewrite (moves_total _ _ _ _ Hs1), (moves_available _ _ _ _ Hs1), Hx in Hu.
      split; [by eapply conv_cons|]. split; [by eapply sends_app|done].
    + intros s2 (ins & rest & u & His & Hu & Hs2).
      rewrite (moves_total _ _ _ _ Hs1), (moves_available _ _ _ _ Hs1), Hx in Hu.
      exists (Byte b :: ins), rest, (t ++ u). split; [cbn; by rewrite His|].
      split; [by eapply halted_later|by eapply sends_app].
  - intros s1 [(w & Hw & Hp) Hs1]. exists [Byte b], (Byte <$> bs), (newline ++ halt_text).
    split; [done|]. split; [by eapply halted_now|done].
Qed.

(** *** Turns of the main loop *)

Lemma bad_input_wf e :
  editor_wf e →
  let e' := {| line := line e; length := length e; escape := 0; after_cr := false;
               discard := true |} in
  session_of e' = Session (text e) 0 false true ∧ editor_wf e'.
Proof. intros [] e'. split; [done|]. by split. Qed.

Lemma wp_console_turn e s :
  editor_wf e →
  wp (console_turn e s)
    (λ e' s', ∃ i t, answers (pmm_total s) (pmm_available s)
                       (fst (spec_event i (session_of e))) t ∧ moves t [i] s s' ∧
       session_of e' = snd (spec_event i (session_of e)) ∧ editor_wf e')
    (λ s', ∃ i w, fst (spec_event i (session_of e)) = Run w ∧ parse w = HaltCommand ∧
                  moves (newline ++ halt_text) [i] s s').
Proof.
  intros He. unfold console_turn.
  destruct (serial_read (x86_disable_interrupts s)) as [[status b] s1] eqn:Hread.
  pose proof (moves_app _ _ _ _ _ _ _ (disable_moves s) (read_moves _ _ _ _ Hread)) as H1.
  cbn [app] in H1. unfold input_of in H1.
  destruct (status =? 0).
  { exists NoInput, []. split; [constructor|]. split; [|done].
    apply (moves_app _ _ _ _ _ _ _ H1 (idle_moves s1)). }
  pose proof (moves_app _ _ _ _ _ _ _ H1 (enable_moves s1)) as H2. cbn [app] in H2.
  destruct (status <? 0).
  { exists BadInput, []. split; [constructor|]. split; [done|]. by apply bad_input_wf. }
  rewrite <- (moves_total _ _ _ _ H2), <- (moves_available _ _ _ _ H2).
  eapply outcome_mono; [| |by apply accepts_input].
  - intros e' s' (t & Ht & Hs & Hx & He'). exists (Byte b), t. split; [done|].
    split; [|done]. apply (moves_app _ _ _ _ _ _ _ H2 Hs).
  - intros s' [(w & Hw & Hp) Hs]. exists (Byte b), w. split; [done|]. split; [done|].
    apply (moves_app _ _ _ _ _ _ _ H2 Hs).
Qed.

Lemma wp_console_turns n e s :
  editor_wf e →
  wp (console_turns n e s)
    (λ e' s', ∃ ins t, List.length ins = n ∧ moves t ins s s' ∧ editor_wf e' ∧
       conversation (pmm_total s) (pmm_available s) ins (session_of e) t (session_of e'))
    (λ s', ∃ ins t, (List.length ins ≤ n)%nat ∧ moves t ins s s' ∧
       halted (pmm_total s) (pmm_available s) ins (session_of e) t).
Proof.
  revert e s. induction n as [|n IH]; intros e s He; cbn [console_turns].
  { exists [], []. split; [done|]. split; [apply sends_nil|]. split; [done|constructor]. }
  apply outcome_bind. eapply outcome_mono; [| |by apply wp_console_turn].
  - intros e1 s1 (i & t & Ht & H1 & Hx & He1). specialize (IH e1 s1 He1).
    rewrite (moves_total _ _ _ _ H1), (moves_available _ _ _ _ H1), Hx in IH.
    eapply outcome_mono; [| |exact IH].
    + intros e2 s2 (ins & u & Hlen & H2 & He2 & Hu). exists (i :: ins), (t ++ u).
      split; [simpl; lia|]. split; [apply (moves_app _ _ _ _ _ _ _ H1 H2)|].
      split; [done|by eapply conv_cons].
    + intros s2 (ins & u & Hlen & H2 & Hu). exists (i :: ins), (t ++ u).
      split; [simpl; lia|]. split; [apply (moves_app _ _ _ _ _ _ _ H1 H2)|by eapply halted_later].
  - intros s1 (i & w & Hw & Hp & H1). exists [i], (newline ++ halt_text).
    split; [simpl; lia|]. split; [done|by eapply halted_now].
Qed.

Lemma wp_echoes base bs e s z :
  editor_wf e → Forall editing bs → shows (base ++ text e) z →
  wp (feed bs e s)
    (λ e' s', ∃ t, sends s t s' ∧ shows (base ++ text e') (type_all t z))
    (λ _, False).
Proof.
  intros He Hbs. revert e s z He. induction Hbs as [|b bs Hb Hbs IH]; intros e s z He Hz; cbn [feed].
  { exists []. by split; [apply sends_nil|]. }
  destruct (editing_shows base b (session_of e) z Hb (ew_text e He) Hz) as (t & Ht & Hz').
  apply outcome_bind. eapply outcome_mono; [| |by apply accepts_input].
  - intros e1 s1 (t1 & Ht1 & Hs1 & Hx & He1). rewrite Ht in Ht1. inversion Ht1; subst t1.
    rewrite <- Hx in Hz'. eapply outcome_mono; [| |by eapply IH]; [|done].
    intros e2 s2 (u & Hs2 & Hz2). exists (t ++ u).
    split; [by eapply sends_app|]. by rewrite type_all_app.
  - intros s1 [(w & Hw & _) _]. by rewrite Ht in Hw.
Qed.

(** The editor at the start of a line. *)
Record fresh e : Prop := {
  fr_wf : editor_wf e;
  fr_length : length e = 0;
  fr_escape : escape e = 0;
  fr_discard : discard e = false;
}.

Lemma fresh_session e : fresh e → session_of e = Session [] 0 (after_cr e) false.
Proof. intros [He Hl Hesc Hd]. by rewrite session_reset, Hesc, Hd. Qed.

Lemma fresh_of_session e k : editor_wf e → session_of e = Session [] 0 k false → fresh e.
Proof.
  intros He Hx. unfold session_of in Hx. injection Hx as Ht Hesc _ Hd.
  split; [done| |done|done]. by apply text_nil.
Qed.

Lemma initial_fresh junk :
  List.length junk = 128%nat →
  fresh {| line := junk; length := 0; escape := 0; after_cr := false; discard := false |}.
Proof. intros H. split; [split; [done|simpl; lia|constructor|simpl; lia]|done|done|done]. Qed.

Lemma wp_console_run n junk s :
  List.length junk = 128%nat →
  let start := Session [] 0 false false in
  wp (console_run n junk s)
    (λ e s', editor_wf e ∧ ∃ ins t, List.length ins = n ∧ moves (greeting ++ t) ins s s' ∧
      conversation (pmm_total s) (pmm_available s) ins start t (session_of e))
    (λ s', ∃ ins t, (List.length ins ≤ n)%nat ∧ moves (greeting ++ t) ins s s' ∧
      halted (pmm_total s) (pmm_available s) ins start t).
Proof.
  intros Hjunk start.
  destruct (initial_fresh junk Hjunk) as [He _ _ _].
  unfold console_run. apply outcome_bind, wp_output. intros s1 Hs1.
  pose proof (wp_console_turns n _ s1 He) as Hn.
  rewrite (moves_total _ _ _ _ Hs1), (moves_available _ _ _ _ Hs1) in Hn.
  eapply outcome_mono; [| |exact Hn].
  - intros e s2 (ins & t & Hlen & Hs2 & Hwf & Hc). split; [done|]. exists ins, t.
    split; [done|]. split; [apply (moves_app _ _ _ _ _ _ _ Hs1 Hs2)|done].
  - intros s2 (ins & t & Hlen & Hs2 & Hh). exists ins, t.
    split; [done|]. split; [apply (moves_app _ _ _ _ _ _ _ Hs1 Hs2)|done].
Qed.

(** ** The properties *)

(** C35: the console is the line discipline [spec_event] over what the serial
    line delivers: after any number of turns of the main loop it has sent the
    greeting and the answers to the inputs it has read, in order, its editor
    holds the typed line inside its array, and the processor is stopped only by
    a [halt] command. *)
Theorem console_refines_line_discipline n junk s :
  List.length junk = 128%nat →
  let start := Session [] 0 false false in
  match console_run n junk s with
  | Done e s' => editor_wf e ∧ ∃ ins t, List.length ins = n ∧ moves (greeting ++ t) ins s s' ∧
      conversation (pmm_total s) (pmm_available s) ins start t (session_of e)
  | Halt s' => ∃ ins t, (List.length ins ≤ n)%nat ∧ moves (greeting ++ t) ins s s' ∧
      halted (pmm_total s) (pmm_available s) ins start t
  | Spin _ => broken
  end.
Proof.
  intros Hjunk start.
  pose proof (wp_console_run n junk s Hjunk) as H. by destruct (console_run n junk s).
Qed.

(** Typing a line of at most 127 printable bytes and return sends the line
    back, a newline, the reply of the command the line spells without the
    blanks around it, and the prompt, and leaves the editor at the start of a
    line; the processor is stopped exactly by the line that spells [halt]. *)
Theorem typed_line_runs w e s :
  fresh e → Forall printable w → (List.length w ≤ 127)%nat →
  match feed (w ++ [13]) e s with
  | Done e' s' => fresh e' ∧ parse w ≠ HaltCommand ∧
      ∃ r, replies (pmm_total s) (pmm_available s) (parse w) r ∧
           sends s (w ++ newline ++ r ++ prompt) s'
  | Halt s' => parse w = HaltCommand ∧ sends s (w ++ newline ++ halt_text) s'
  | Spin _ => broken
  end.
Proof.
  intros He Hw Hlen. pose proof (wp_feed (w ++ [13]) e s (fr_wf e He)) as H.
  rewrite (fresh_session e He) in H. destruct (feed (w ++ [13]) e s) as [e' s'|s'|s']; cbn [wp] in H.
  - destruct H as (t & Hc & Hs & He').
    destruct (conv_line _ _ [] w _ _ _ Hw Hlen Hc) as (r & Hr & -> & Hx).
    split; [by eapply fresh_of_session|]. split; [|by exists r].
    cbn [app] in Hr. intros Hp. rewrite Hp in Hr. inversion Hr.
  - done.
  - destruct H as (ins & rest & t & His & Hh & Hs).
    by destruct (halted_line _ _ [] w _ _ _ _ Hw Hlen His Hh) as [Hp ->].
Qed.

(** A line of more than 127 printable bytes is not run, whatever it spells:
    its first 127 bytes are echoed, return sends the message that the input is
    discarded and the prompt, and the editor is at the start of a line. *)
Theorem overlong_line_discarded w e s :
  fresh e → Forall printable w → (127 < List.length w)%nat →
  match feed (w ++ [13]) e s with
  | Done e' s' => fresh e' ∧ sends s (take 127 w ++ newline ++ discard_text ++ prompt) s'
  | Halt _ => False
  | Spin _ => broken
  end.
Proof.
  intros He Hw Hlen. pose proof (wp_feed (w ++ [13]) e s (fr_wf e He)) as H.
  rewrite (fresh_session e He) in H. destruct (feed (w ++ [13]) e s) as [e' s'|s'|s']; cbn [wp] in H.
  - destruct H as (t & Hc & Hs & He').
    destruct (conv_overlong _ _ [] w _ _ _ Hw ltac:(simpl; lia) ltac:(simpl; lia) Hc) as [-> Hx].
    split; [by eapply fresh_of_session|done].
  - done.
  - destruct H as (ins & rest & t & His & Hh & Hs).
    by eapply (overlong_not_halted _ _ []) in Hh; [|done|simpl; lia|simpl; lia|done].
Qed.

(** Whatever is typed short of the end of the line - text, tabs, rubouts,
    escape sequences, control characters, too much text - what the console
    echoes keeps the row of the terminal at what stood before the line followed
    by the line the editor holds, with the cursor behind it. *)
Theorem echo_keeps_terminal base bs e s z :
  editor_wf e → Forall editing bs → shows (base ++ text e) z →
  match feed bs e s with
  | Done e' s' => ∃ t, sends s t s' ∧ shows (base ++ text e') (type_all t z)
  | Halt _ => False
  | Spin _ => broken
  end.
Proof.
  intros He Hbs Hz. pose proof (wp_echoes base bs e s z He Hbs Hz) as H.
  by destruct (feed bs e s).
Qed.

(** [number] sends the decimal numeral of any 64-bit value: digits only, at
    most twenty of them, of that value and without leading zeros. *)
Theorem number_prints_decimal v s :
  is_u64 v →
  match number v s with
  | Done _ s' => ∃ t, sends s t s' ∧ value_of t = v ∧ Forall digit t ∧
      (1 ≤ List.length t ≤ 20)%nat ∧ (hd 0 t = 48 → t = [48])
  | Halt _ => False
  | Spin _ => broken
  end.
Proof.
  intros Hv. assert (wp (number v s) (λ _ s', sends s (decimal v) s') (λ _, False)) as H
    by (by apply wp_output).
  destruct (number v s) as [u s'|s'|s']; [|done|done]. exists (decimal v).
  split; [done|]. by apply decimal_spec.
Qed.

End console.

(** Outside a discarded line a terminal's escape sequence - ESC, an opening bracket or
    O, parameters, a final byte - is swallowed: nothing is sent and the line
    is as before. *)
Theorem escape_sequences_ignored {S} `{!Board S} (e : LINE_EDITOR) (s : S) o ps f :
  escape e = 0 → discard e = false → (o = 91 ∨ o = 79) →
  Forall (λ c, 32 ≤ c < 64) ps → 64 ≤ f ≤ 126 →
  feed ([27; o] ++ ps ++ [f]) e s = Done (with_after_cr e false) s.
Proof.
  intros Hesc Hd Ho Hps Hf. destruct e as [l n v k d]. cbn [escape discard] in Hesc, Hd. subst v d.
  cbn [app feed]. unfold accept_input at 1. change (27 =? 10) with false. cbn.
  unfold accept_input at 1, edit_character, consume_escape.
  assert ((o =? 10) = false ∧ (o =? 13) = false ∧ (o =? 3) = false ∧
          (o =? 91) || (o =? 79) = true) as (-> & -> & -> & ->) by (by destruct Ho; subst o).
  cbn. induction Hps as [|c ps Hc Hps IH]; cbn [app feed];
    unfold accept_input at 1, edit_character, consume_escape.
  - rewrite !(proj2 (Z.eqb_neq f _)) by lia. cbn.
    by rewrite (proj2 (Z.leb_le 64 f)), (proj2 (Z.leb_le f 126)) by lia.
  - rewrite (proj2 (Z.eqb_neq c 10)), (proj2 (Z.eqb_neq c 13)), (proj2 (Z.eqb_neq c 3)) by lia. cbn.
    by rewrite (proj2 (Z.leb_gt 64 c)) by lia.
Qed.

(** ** A board to run the console on *)

(** The serial line's pending reads and its history; 64 pages, 40 of them
    free, and a timer at 1234. *)
Record demo := Demo { pending : list (Z * Z); sent_bytes : list Z; reports : list input }.

#[local] Instance demo_board : Board demo := {|
  serial_write t s := (true, Demo (pending s) (sent_bytes s ++ t) (reports s));
  serial_flush s := (true, s);
  serial_read s :=
    match pending s with
    | [] => (0, 0, Demo [] (sent_bytes s) (reports s ++ [NoInput]))
    | (status, byte) :: rest =>
        (status, byte, Demo rest (sent_bytes s) (reports s ++ [input_of status byte]))
    end;
  timer_ticks _ := 1234;
  pmm_total _ := 64;
  pmm_available _ := 40;
  x86_disable_interrupts s := s;
  x86_enable_interrupts s := s;
  x86_enable_and_idle s := s;
|}.

#[local] Instance demo_wire : Wire demo :=
  {| encode := id; sent := sent_bytes; received := reports; sound _ := True |}.

#[local] Instance demo_contract : BoardContract demo.
Proof.
  split; [done|done|..].
  - intros t [p b r] s' [= <-]. repeat split; cbn; by rewrite ?app_nil_r.
  - intros [p b r] s' [= <-]. repeat split; cbn; by rewrite ?app_nil_r.
  - intros [p b r] status byte s'. cbn. destruct p as [|[st c] p]; intros [= <- <- <-];
      repeat split; cbn; by rewrite ?app_nil_r.
  - intros [p b r]. repeat split; cbn; by rewrite ?app_nil_r.
  - intros [p b r]. repeat split; cbn; by rewrite ?app_nil_r.
  - intros [p b r]. repeat split; cbn; by rewrite ?app_nil_r.
Qed.

Definition demo_editor : LINE_EDITOR :=
  {| line := replicate 128 0; length := 0; escape := 0; after_cr := false; discard := false |}.
Definition demo_start : demo := Demo [] [] [].
Definition bytes (t : string) : list (Z * Z) := (λ c, (1, c)) <$> txt t.

#[local] Instance printable_dec c : Decision (printable c).
Proof. unfold printable. apply _. Defined.

#[local] Instance editing_dec c : Decision (editing c).
Proof. unfold editing. apply _. Defined.

(** The session [mem], a line killed by a serial error, [halt]. *)
Definition demo_session : demo :=
  Demo (bytes " mem" ++ [(1, 13); (1, 10); (0, 0); (1, 120); (-1, 0)] ++ [(1, 13)] ++
        bytes "halt" ++ [(1, 13)]) [] [].

Example demo_session_sends :
  match console_run 20 (replicate 128 0) demo_session with
  | Halt s => sent_bytes s =
      txt "CONSOLE: ready (type 'help')" ++ newline ++
      txt "K>  mem" ++ newline ++ txt "pages: total=64 used=24 free=40" ++ newline ++
      txt "K> x" ++ newline ++ discard_text ++ txt "K> halt" ++ newline ++ halt_text
  | _ => False
  end.
Proof. by vm_compute. Qed.

Lemma console_refines_line_discipline_witness :
  match console_run 20 (replicate 128 0) demo_session with
  | Halt s' => ∃ ins t, (List.length ins ≤ 20)%nat ∧
      sent_bytes s' = greeting ++ t ∧
      halted 64 40 ins (Session [] 0 false false) t
  | _ => False
  end.
Proof.
  pose proof (console_refines_line_discipline 20 (replicate 128 0) demo_session eq_refl) as H.
  destruct (console_run 20 (replicate 128 0) demo_session) as [e s|s|s] eqn:E.
  - by vm_compute in E.
  - by vm_compute in E.
  - destruct H as (ins & t & Hlen & Hm & Hh). exists ins, t. split; [done|]. split; [|done].
    destruct Hm as [Hm _]. by apply (Hm I).
Defined.

(** [K> ab], a rubout, a tab and an arrow key. *)

End ConsoleSpec.
