(* ===== verification/State.v ===== *)
(** * State-passing computations

    The monad the drivers, the boot sequence and the loader are written in: a
    function from a state to a result and a state. [wp] is its program logic,
    [st_for] the C loop that may return from the function. *)

From S2P Require Import Prelude.

Module State.

Definition st (S A : Type) : Type := S → A * S.

#[export] Instance st_ret S : MRet (st S) := λ A a s, (a, s).
#[export] Instance st_bind S : MBind (st S) := λ A B f m s, let '(a, s) := m s in f a s.

Section state.
Context {S : Type}.
Implicit Types (s : S).

Definition get {A} (f : S → A) : st S A := λ s, (f s, s).
Definition modify (f : S → S) : st S unit := λ s, (tt, f s).

(** [for (i = lo; i < hi; ++i)] around a body that leaves the function with a
    result or goes on. *)
Definition st_for {R} (lo hi : Z) (body : Z → st S (option R)) : st S (option R) := λ s,
  match
    for_step lo 1 hi (λ i s,
      match body i s with (None, s) => Next s | (Some r, s) => Stop (r, s) end) s
  with
  | Next s => (None, s)
  | Stop (r, s) => (Some r, s)
  end.

(** What holds of the result and the state after running [m] from [s]. *)
Definition wp {A} (m : st S A) (Q : A → S → Prop) s : Prop :=
  let '(a, s') := m s in Q a s'.

Lemma wp_ret {A} (a : A) Q s : Q a s → wp (mret a) Q s.
Proof. done. Qed.

Lemma wp_bind {A B} (m : st S A) (f : A → st S B) Q s :
  wp m (λ a, wp (f a) Q) s → wp (m ≫= f) Q s.
Proof. unfold wp, mbind, st_bind. by destruct (m s). Qed.

Lemma wp_assoc {A B C} (m : st S A) (f : A → st S B) (g : st S C) Q s :
  wp ((x ← m; f x);; g) Q s → wp (x ← m; f x;; g) Q s.
Proof. unfold wp, mbind, st_bind. by destruct (m s). Qed.

Lemma wp_bind3 {A} (m1 m2 m3 : st S unit) (m : st S A) Q s :
  wp (m1;; m2;; m3) (λ _, wp m Q) s → wp (m1;; m2;; m3;; m) Q s.
Proof.
  unfold wp, mbind, st_bind. destruct (m1 s) as [? s1], (m2 s1) as [? s2]. by destruct (m3 s2).
Qed.

Lemma wp_mono {A} (m : st S A) (P Q : A → S → Prop) s :
  wp m P s → (∀ a s', P a s' → Q a s') → wp m Q s.
Proof. unfold wp. destruct (m s). auto. Qed.

Lemma wp_and {A} (m : st S A) (P Q : A → S → Prop) s :
  wp m P s → wp m Q s → wp m (λ a s', P a s' ∧ Q a s') s.
Proof. unfold wp. by destruct (m s). Qed.

Lemma wp_get {A} (f : S → A) Q s : Q (f s) s → wp (get f) Q s.
Proof. done. Qed.

Lemma wp_modify f Q s : Q tt (f s) → wp (modify f) Q s.
Proof. done. Qed.

(** The loop with an invariant of the counter and the state. *)
Lemma wp_for {R} lo hi (body : Z → st S (option R)) (I : Z → S → Prop) Q s :
  I lo s →
  (∀ i s, lo ≤ i < hi → I i s →
    wp (body i) (λ r s, match r with None => I (i + 1) s | Some r => Q (Some r) s end) s) →
  (∀ s, I (Z.max lo hi) s → Q None s) →
  wp (st_for lo hi body) Q s.
Proof.
  intros H0 Hbody Hend. unfold wp, st_for.
  pose proof (for_one_rule I (λ '(r, s), Q (Some r) s) lo hi (λ i s,
    match body i s with (None, s) => Next s | (Some r, s) => Stop (r, s) end) s H0) as H.
  destruct (for_step lo 1 hi _ s) as [s'|[r s']].
  - apply Hend, H. intros i s1 Hi HI. specialize (Hbody i s1 Hi HI). unfold wp in Hbody.
    by destruct (body i s1) as [[r|] s2].
  - apply H. intros i s1 Hi HI. specialize (Hbody i s1 Hi HI). unfold wp in Hbody.
    by destruct (body i s1) as [[r'|] s2].
Qed.

End state.

(** ** Computations with a way out *)

(** A computation that may leave the function it belongs to with an [R]: C's
    [return] from the middle, or not to return at all. *)
Definition ex (S R A : Type) : Type := S → (R + A) * S.

#[export] Instance ex_ret S R : MRet (ex S R) := λ A a s, (inr a, s).
#[export] Instance ex_bind S R : MBind (ex S R) := λ A B f m s,
  match m s with
  | (inl r, s) => (inl r, s)
  | (inr a, s) => f a s
  end.

Section exits.
Context {S R : Type}.
Implicit Types (s : S).

Definition exit {A} (r : R) : ex S R A := λ s, (inl r, s).
Definition lift {A} (m : st S A) : ex S R A := λ s, let '(a, s) := m s in (inr a, s).

(** What holds after [m]: [E] of a way out, [Q] of a result. *)
Definition wpx {A} (m : ex S R A) (E : R → S → Prop) (Q : A → S → Prop) s : Prop :=
  match m s with
  | (inl r, s') => E r s'
  | (inr a, s') => Q a s'
  end.

Lemma wpx_ret {A} (a : A) (E : R → S → Prop) (Q : A → S → Prop) s : Q a s → wpx (mret a) E Q s.
Proof. done. Qed.

Lemma wpx_bind {A B} (m : ex S R A) (f : A → ex S R B) E Q s :
  wpx m E (λ a, wpx (f a) E Q) s → wpx (m ≫= f) E Q s.
Proof. unfold wpx, mbind, ex_bind. by destruct (m s) as [[r|a] s']. Qed.

Lemma wpx_exit {A} (r : R) (E : R → S → Prop) (Q : A → S → Prop) s : E r s → wpx (exit r) E Q s.
Proof. done. Qed.

Lemma wpx_lift {A} (m : st S A) E (Q : A → S → Prop) s : wp m Q s → wpx (lift m) E Q s.
Proof. unfold wpx, wp, lift. by destruct (m s). Qed.

Lemma wpx_mono {A} (m : ex S R A) (E E' : R → S → Prop) (P Q : A → S → Prop) s :
  wpx m E P s → (∀ r s', E r s' → E' r s') → (∀ a s', P a s' → Q a s') → wpx m E' Q s.
Proof. unfold wpx. destruct (m s) as [[r|a] s']; auto. Qed.

End exits.

End State.
