(* ===== verification/Devices.v ===== *)
(** * Ports, drivers and interrupts: the state

    The device drivers ([kernel/serial.c], [kernel/irq.c], [kernel/timer.c])
    talk to the hardware through I/O ports. Here are the state they share - the
    processor, the hardware behind the ports, the history of port accesses and
    the drivers' static variables - and the state-passing monad their functions
    are written in. The hardware is a parameter: any deterministic machine. *)

From S2P Require Import Prelude State X86 RxBuffer.

Module Devices.
Export State.
Import X86 RxBuffer.

(** ** The hardware *)

(** What stands behind the I/O ports, and the interrupt vectors the interrupt
    controller delivers, one after the other, when the processor lets it. *)
Class Device (D : Type) := {
  port_in : Z → D → Z * D;
  port_out : Z → Z → D → D;
  requests : D → list Z;
  requests_range d : Forall (λ v, 32 ≤ v < 48) (requests d);
}.

(** One access to a port. *)
Inductive access :=
  | In (port value : Z)
  | Out (port value : Z).

(** ** The drivers' static variables *)

Record SERIAL := {
  receive_buffer : RX_BUFFER;
  receive_enabled : bool;
  serial_rx_interrupts : Z;
  serial_rx_dropped : Z;
  serial_rx_overflows : Z;
}.

Record IRQ := { irq_initialized : bool; unexpected_irqs : Z }.

Record TIMER := { ticks : Z; timer_initialized : bool }.

Definition serial_bss : SERIAL :=
  {| receive_buffer := rx_bss; receive_enabled := false; serial_rx_interrupts := 0;
     serial_rx_dropped := 0; serial_rx_overflows := 0 |}.
Definition irq_bss : IRQ := {| irq_initialized := false; unexpected_irqs := 0 |}.
Definition timer_bss : TIMER := {| ticks := 0; timer_initialized := false |}.

Record KERNEL (D : Type) := {
  cpu : CPU;
  device : D;
  trace : list access;
  serial : SERIAL;
  irq : IRQ;
  timer : TIMER;
}.
Arguments Build_KERNEL {D}.
Arguments cpu {D}.
Arguments device {D}.
Arguments trace {D}.
Arguments serial {D}.
Arguments irq {D}.
Arguments timer {D}.

(** ** Computations of the drivers *)

Abbreviation io D := (st (KERNEL D)).

Section machine.
Context {D : Type} `{!Device D}.
Implicit Types (k : KERNEL D).

Definition on_cpu {A} (f : CPU → A * CPU) : io D A := λ k,
  let '(a, c) := f (cpu k) in
  (a, {| cpu := c; device := device k; trace := trace k; serial := serial k; irq := irq k;
         timer := timer k |}).
Definition set_cpu (f : CPU → CPU) : io D unit := on_cpu (λ c, (tt, f c)).

Definition set_serial (f : SERIAL → SERIAL) : io D unit := λ k,
  (tt, {| cpu := cpu k; device := device k; trace := trace k; serial := f (serial k);
          irq := irq k; timer := timer k |}).
Definition set_irq (f : IRQ → IRQ) : io D unit := λ k,
  (tt, {| cpu := cpu k; device := device k; trace := trace k; serial := serial k;
          irq := f (irq k); timer := timer k |}).
Definition set_timer (f : TIMER → TIMER) : io D unit := λ k,
  (tt, {| cpu := cpu k; device := device k; trace := trace k; serial := serial k; irq := irq k;
          timer := f (timer k) |}).

(** [inb] and [outb]: the port is 16 bits wide, the value 8. *)
Definition x86_inb (port : Z) : io D Z := λ k,
  let '(value, d) := port_in (u16 port) (device k) in
  let value := u8 value in
  (value, {| cpu := cpu k; device := d; trace := trace k ++ [In (u16 port) value];
             serial := serial k; irq := irq k; timer := timer k |}).

Definition x86_outb (port value : Z) : io D unit := λ k,
  (tt, {| cpu := cpu k; device := port_out (u16 port) (u8 value) (device k);
          trace := trace k ++ [Out (u16 port) (u8 value)]; serial := serial k; irq := irq k;
          timer := timer k |}).

(** ** Reasoning about port accesses *)

(** A port access leaves the processor and the drivers' variables alone. *)
Record same_software k k' : Prop := {
  sw_cpu : cpu k' = cpu k;
  sw_serial : serial k' = serial k;
  sw_irq : irq k' = irq k;
  sw_timer : timer k' = timer k;
}.

(** The hardware after a sequence of accesses. *)
Fixpoint evolves (d : D) (l : list access) (d' : D) : Prop :=
  match l with
  | [] => d' = d
  | In p v :: l => v = u8 (fst (port_in p d)) ∧ evolves (snd (port_in p d)) l d'
  | Out p v :: l => evolves (port_out p v d) l d'
  end.

Lemma evolves_app d1 l1 d2 l2 d3 :
  evolves d1 l1 d2 → evolves d2 l2 d3 → evolves d1 (l1 ++ l2) d3.
Proof.
  revert d1. induction l1 as [|[p v|p v] l1 IH]; intros d1; cbn [app evolves].
  - by intros ->.
  - intros [-> H1] H2. split; [done|]. by apply IH.
  - intros H1 H2. by apply IH.
Qed.

(** [k'] is [k] after one port access. *)
Record accessed (a : access) k k' : Prop := {
  ac_trace : trace k' = trace k ++ [a];
  ac_device : evolves (device k) [a] (device k');
  ac_software : same_software k k';
}.

Lemma wp_inb p k :
  wp (x86_inb p) (λ v k', 0 ≤ v < 256 ∧ accessed (In (u16 p) v) k k') k.
Proof.
  unfold wp, x86_inb. destruct (port_in (u16 p) (device k)) as [v d] eqn:Hin.
  split; [by apply Z.mod_pos_bound|]. split; [done| |by split].
  cbn [evolves device]. by rewrite Hin.
Qed.

Lemma wp_outb p v k : wp (x86_outb p v) (λ _ k', accessed (Out (u16 p) (u8 v)) k k') k.
Proof. split; [done|done|by split]. Qed.

End machine.

End Devices.
