(* ===== verification/SerialIrq.v ===== *)
(** * Receiving bytes: the interrupt side of [kernel/serial.c]

    The handler of the UART's interrupt takes the causes from the device,
    moves received bytes into the receive ring and turns line errors into the
    ring's failure flag. *)

From S2P Require Import Prelude X86 RxBuffer Devices.

Module SerialIrq.
Import X86 RxBuffer Devices.

Definition COM1 : Z := 0x3f8.

Section driver.
Context {D : Type} `{!Device D}.

Definition set_receive_buffer (f : RX_BUFFER → RX_BUFFER) : io D unit :=
  set_serial (λ s, {| receive_buffer := f (receive_buffer s);
    receive_enabled := receive_enabled s; serial_rx_interrupts := serial_rx_interrupts s;
    serial_rx_dropped := serial_rx_dropped s; serial_rx_overflows := serial_rx_overflows s |}).
Definition count_interrupt : io D unit :=
  set_serial (λ s, {| receive_buffer := receive_buffer s;
    receive_enabled := receive_enabled s;
    serial_rx_interrupts := u64 (serial_rx_interrupts s + 1);
    serial_rx_dropped := serial_rx_dropped s; serial_rx_overflows := serial_rx_overflows s |}).
Definition count_dropped : io D unit :=
  set_serial (λ s, {| receive_buffer := receive_buffer s;
    receive_enabled := receive_enabled s; serial_rx_interrupts := serial_rx_interrupts s;
    serial_rx_dropped := u64 (serial_rx_dropped s + 1);
    serial_rx_overflows := serial_rx_overflows s |}).
Definition count_overflow : io D unit :=
  set_serial (λ s, {| receive_buffer := receive_buffer s;
    receive_enabled := receive_enabled s; serial_rx_interrupts := serial_rx_interrupts s;
    serial_rx_dropped := serial_rx_dropped s;
    serial_rx_overflows := u64 (serial_rx_overflows s + 1) |}).

Definition receive_error : io D unit :=
  flags ← on_cpu x86_irq_save;
  set_receive_buffer rx_fail;;
  count_dropped;;
  set_cpu (x86_irq_restore flags).

(** [rx_push(&receive_buffer, byte)] *)
Definition push (byte : Z) : io D bool :=
  b ← get (λ k, receive_buffer (serial k));
  let '(ok, b) := rx_push byte b in
  set_receive_buffer (λ _, b);;
  mret ok.

Definition receive_byte : io D unit :=
  status ← x86_inb (COM1 + 5);
  (if has_bits status 0x1e then receive_error else mret tt);;
  if negb (has_bits status 1) then mret tt
  else
    byte ← x86_inb COM1;
    already_failed ← get (λ k, failed (receive_buffer (serial k)));
    ok ← push byte;
    if negb ok then
      (if negb already_failed then count_overflow else mret tt);;
      count_dropped
    else mret tt.

(** One turn of the handler's loop; a result is a [return]. *)
Definition serve_cause (i : Z) : io D (option unit) :=
  cause ← x86_inb (COM1 + 2);
  if has_bits cause 1 then mret (Some tt)
  else
    let source := Z.land cause 0x0e in
    if (source =? 0x04) || (source =? 0x0c) || (source =? 0x06) then
      receive_byte;;
      mret None
    else
      x86_outb (COM1 + 1) 0;;
      receive_error;;
      mret (Some tt).

Definition serial_interrupt : io D unit :=
  count_interrupt;;
  returned ← st_for 0 RX_CAPACITY serve_cause;
  match returned with
  | Some _ => mret tt
  | None =>
      receive_error;;
      x86_outb (COM1 + 2) 0x03
  end.

End driver.

End SerialIrq.
