(* ===== verification/Irq.v ===== *)
(** * The interrupt controller: [kernel/irq.c], and [timer_interrupt]

    Programming of the two 8259 controllers, the dispatch of an interrupt to
    its handler with its acknowledgement, and how the processor enters and
    leaves the handler ([irq_common] of [kernel/interrupts.S]). *)

From S2P Require Import Prelude X86 Devices SerialIrq.

Module Irq.
Import X86 Devices SerialIrq.

Section driver.
Context {D : Type} `{!Device D}.

Definition pic_write (port value : Z) : io D unit :=
  x86_outb port value;;
  x86_outb 0x80 0.

(** [1u << n] and [~x] on an [unsigned]. *)
Definition bit32 (n : Z) : Z := u32 (Z.shiftl 1 n).
Definition not32 (x : Z) : Z := u32 (Z.lnot x).

(** The local APIC is switched off where there is one; [false] when it is in
    x2APIC mode. *)
Definition disable_apic : io D bool :=
  features ← on_cpu (λ c, (x86_cpuid 1 0 c, c));
  if has_bits (edx features) (bit32 9) then
    apic ← on_cpu (λ c, (x86_read_msr 0x1b c, c));
    if has_bits apic (bit64 10) then mret false
    else
      set_cpu (x86_write_msr 0x1b (Z.land apic (not64 (bit64 11))));;
      mret true
  else mret true.

Definition program_pic : io D unit :=
  pic_write 0x21 0xff;;
  pic_write 0xa1 0xff;;
  pic_write 0x20 0x11;; pic_write 0xa0 0x11;;
  pic_write 0x21 0x20;; pic_write 0xa1 0x28;;
  pic_write 0x21 4;; pic_write 0xa1 2;;
  pic_write 0x21 1;; pic_write 0xa1 1;;
  pic_write 0x21 0xff;; pic_write 0xa1 0xff.

Definition irq_init : io D bool :=
  initialized ← get (λ k, irq_initialized (irq k));
  flags ← get (λ k, x86_read_rflags (cpu k));
  if initialized || has_bits flags 0x200 then mret false
  else
    ok ← disable_apic;
    if negb ok then mret false
    else
      program_pic;;
      set_irq (λ s, {| irq_initialized := true; unexpected_irqs := unexpected_irqs s |});;
      mret true.

Definition irq_enable (irq_ : Z) : io D bool :=
  initialized ← get (λ k, irq_initialized (irq k));
  flags ← get (λ k, x86_read_rflags (cpu k));
  if negb initialized || (16 <=? irq_) || has_bits flags 0x200 then mret false
  else
    let port := if irq_ <? 8 then 0x21 else 0xa1 in
    mask ← x86_inb port;
    pic_write port (Z.land mask (not32 (bit32 (Z.land irq_ 7))));;
    (if 8 <=? irq_ then
       mask ← x86_inb 0x21;
       pic_write 0x21 (Z.land mask (not32 4))
     else mret tt);;
    mret true.

(** [kernel/timer.c] *)
Definition timer_interrupt : io D unit :=
  set_timer (λ s, {| ticks := u64 (ticks s + 1); timer_initialized := timer_initialized s |}).

Definition count_unexpected : io D unit :=
  set_irq (λ s, {| irq_initialized := irq_initialized s;
                   unexpected_irqs := u64 (unexpected_irqs s + 1) |}).

(** [true] when the interrupt is spurious, after acknowledging it to the
    master if the slave raised it. *)
Definition spurious (vector : Z) : io D bool :=
  if (vector =? 39) || (vector =? 47) then
    let port := if vector =? 39 then 0x20 else 0xa0 in
    x86_outb port 0x0b;;
    in_service ← x86_inb port;
    if negb (has_bits in_service 0x80) then
      (if vector =? 47 then x86_outb 0x20 0x20 else mret tt);;
      mret true
    else mret false
  else mret false.

(** The handler of a vector; an unexpected interrupt is masked. *)
Definition handle (vector : Z) : io D unit :=
  if vector =? 32 then timer_interrupt
  else if vector =? 36 then serial_interrupt
  else
    count_unexpected;;
    let mask_port := if vector <? 40 then 0x21 else 0xa1 in
    mask ← x86_inb mask_port;
    x86_outb mask_port (Z.lor mask (bit32 (Z.land (vector - 32) 7))).

Definition irq_dispatch (vector : Z) : io D unit :=
  skip ← spurious vector;
  if (skip : bool) then mret tt
  else
    handle vector;;
    (if 40 <=? vector then x86_outb 0xa0 0x20 else mret tt);;
    x86_outb 0x20 0x20.

(** ** Taking interrupts *)

(** An interrupt gate clears IF; [iretq] restores the flags. *)
Definition interrupt (vector : Z) : io D unit :=
  flags ← on_cpu x86_irq_save;
  irq_dispatch vector;;
  set_cpu (λ c, with_rflags c flags).

(** A point at which the processor takes the interrupts that are requested, if
    it has them enabled. *)
Definition interrupts : io D unit :=
  flags ← get (λ k, x86_read_rflags (cpu k));
  if negb (has_bits flags 0x200) then mret tt
  else
    vectors ← get (λ k, requests (device k));
    foldr (λ v m, interrupt v;; m) (mret tt) vectors.

End driver.

End Irq.
