(* ===== verification/Serial.v ===== *)
(** * The serial line: the rest of [kernel/serial.c]

    Polled output, initialization, and reading from the receive ring. While
    output is polled with interrupts enabled, the processor may take
    interrupts before each access to the UART. *)

From S2P Require Import Prelude X86 RxBuffer Devices SerialIrq Irq.

Module Serial.
Import X86 RxBuffer Devices SerialIrq Irq.

Definition POLL_LIMIT : Z := 1000000.

Section driver.
Context {D : Type} `{!Device D}.

(** One poll of the line status. *)
Definition poll (mask : Z) (i : Z) : io D (option bool) :=
  interrupts;;
  status ← x86_inb (COM1 + 5);
  if status =? 0xff then mret (Some false)
  else
    enabled ← get (λ k, receive_enabled (serial k));
    (if enabled && has_bits status 0x1e then receive_error else mret tt);;
    if Z.land status mask =? mask then mret (Some true) else mret None.

Definition wait_status (mask : Z) : io D bool :=
  returned ← st_for 0 POLL_LIMIT (poll mask);
  match returned with
  | Some ready => mret ready
  | None => mret false
  end.

Definition serial_flush : io D bool := wait_status 0x40.

Definition serial_init : io D bool :=
  flushed ← serial_flush;
  if negb flushed then mret false
  else
    x86_outb (COM1 + 3) 0x03;;
    x86_outb (COM1 + 1) 0x00;;
    x86_outb (COM1 + 3) 0x80;;
    x86_outb (COM1 + 0) 0x01;;
    x86_outb (COM1 + 1) 0x00;;
    x86_outb (COM1 + 3) 0x03;;
    x86_outb (COM1 + 2) 0x07;;
    x86_outb (COM1 + 4) 0x03;;
    wait_status 0x20.

Definition put_byte (value : Z) : io D bool :=
  ready ← wait_status 0x20;
  if negb ready then mret false
  else
    interrupts;;
    x86_outb COM1 value;;
    mret true.

(** [text] holds the characters before the NUL. *)
Fixpoint serial_write (text : list Z) : io D bool :=
  match text with
  | [] => mret true
  | c :: text =>
      ok ← (if c =? 10 then put_byte 13 else mret true);
      if negb ok then mret false
      else
        ok ← put_byte (u8 c);
        if negb ok then mret false else serial_write text
  end.

(** The status and the byte stored through the pointer, if one is. *)
Definition serial_read : io D (Z * option Z) :=
  b ← get (λ k, receive_buffer (serial k));
  let '(status, byte, b) := rx_read b in
  set_receive_buffer (λ _, b);;
  mret (status, byte).

Definition serial_enable_receive : io D bool :=
  enabled ← get (λ k, receive_enabled (serial k));
  flags ← get (λ k, x86_read_rflags (cpu k));
  if enabled || has_bits flags 0x200 then mret false
  else
    ok ← irq_enable 4;
    if negb ok then mret false
    else
      set_receive_buffer rx_reset;;
      x86_outb (COM1 + 2) 0x07;;
      x86_outb (COM1 + 4) 0x0b;;
      set_serial (λ s, {| receive_buffer := receive_buffer s; receive_enabled := true;
        serial_rx_interrupts := serial_rx_interrupts s;
        serial_rx_dropped := serial_rx_dropped s;
        serial_rx_overflows := serial_rx_overflows s |});;
      x86_outb (COM1 + 1) 0x05;;
      mret true.

End driver.

End Serial.
