(* ===== verification/Timer.v ===== *)
(** * The timer: [kernel/timer.c]

    [timer_interrupt] is in [Irq], which dispatches to it. *)

From S2P Require Import Prelude X86 Devices Irq.

Module Timer.
Import X86 Devices Irq.

Section driver.
Context {D : Type} `{!Device D}.

Definition timer_init : io D bool :=
  initialized ← get (λ k, timer_initialized (timer k));
  flags ← get (λ k, x86_read_rflags (cpu k));
  if initialized || has_bits flags 0x200 then mret false
  else
    ok ← irq_init;
    if negb ok then mret false
    else
      x86_outb 0x43 0x34;;
      x86_outb 0x40 (Z.land 11932 255);;
      x86_outb 0x40 (Z.shiftr 11932 8);;
      set_timer (λ _, {| ticks := 0; timer_initialized := true |});;
      irq_enable 0.

Definition timer_ticks : io D Z := get (λ k, ticks (timer k)).

End driver.

End Timer.
