(* ===== verification/Frames.v ===== *)
(** * What the parts of the drivers leave alone

    A frame for the drivers' functions: which ports they write, that the
    hardware has seen exactly the accesses the history has gained, and that the
    processor's flags are as before. It holds through the loops and the
    interrupts of the polling functions. *)

From S2P Require Import Prelude X86 RxBuffer Devices SerialIrq Irq Serial.

Module Frames.
Import X86 RxBuffer Devices SerialIrq Irq Serial.

(** Not a byte for the transmitter nor a switch of the divisor latch. *)
Definition quiet_access (a : access) : Prop :=
  match a with Out p _ => p ≠ 0x3f8 ∧ p ≠ 0x3fb | In _ _ => True end.

(** What the handler of the UART's interrupt does to the ports: it reads the
    UART, and writes the interrupt-enable and the FIFO-control register. *)
Definition handler_access (a : access) : Prop :=
  match a with Out p _ => p = 0x3f9 ∨ p = 0x3fa | In p _ => 0x3f8 ≤ p < 0x400 end.

Section frame.
Context {D : Type} `{!Device D}.
Implicit Types (k : KERNEL D) (P : access → Prop).

Definition flags_of k : Z := rflags (cpu k).

Record quiet P k k' : Prop := {
  qu_trace : ∃ l, trace k' = trace k ++ l ∧ evolves (device k) l (device k') ∧ Forall P l;
  qu_flags : is_u64 (flags_of k) → flags_of k' = flags_of k;
  qu_enabled : receive_enabled (serial k') = receive_enabled (serial k);
  qu_ring : rx_wf (receive_buffer (serial k)) → rx_wf (receive_buffer (serial k'));
}.

#[export] Instance quiet_preorder P : PreOrder (quiet P).
Proof.
  split.
  - intros k. split; [exists []; by rewrite app_nil_r, Forall_nil|done..].
  - intros k1 k2 k3 [(l1 & H1 & Hd1 & Hl1) Hf1 He1 Hr1] [(l2 & H2 & Hd2 & Hl2) Hf2 He2 Hr2]. split.
    + exists (l1 ++ l2). rewrite H2, H1, app_assoc, Forall_app.
      split; [done|]. split; [by eapply evolves_app|done].
    + intros Hk. rewrite Hf2; [by apply Hf1|]. by rewrite Hf1.
    + congruence.
    + auto.
Qed.

Lemma quiet_mono P Q k k' : (∀ a, P a → Q a) → quiet P k k' → quiet Q k k'.
Proof.
  intros HPQ [(l & Hl & Hd & HP) Hf He Hr]. split; [|done..].
  exists l. do 2 (split; [done|]). by eapply Forall_impl.
Qed.

(** One port access and nothing else. *)
Lemma quiet_accessed P a k k' : accessed a k k' → P a → quiet P k k'.
Proof.
  intros [Ht Hd [Hc Hs _ _]] HP. split; [|intros _; unfold flags_of; by rewrite Hc|by rewrite Hs|by rewrite Hs].
  exists [a]. split; [done|]. split; [done|]. by apply Forall_singleton.
Qed.

(** A part of a driver that is quiet from any state. *)
Definition keeps P {A} (m : io D A) : Prop := ∀ k, wp m (λ _ k', quiet P k k') k.

Lemma keeps_mono P Q {A} (m : io D A) : (∀ a, P a → Q a) → keeps P m → keeps Q m.
Proof. intros HPQ Hm k. eapply wp_mono; [apply Hm|]. intros a k'. by apply quiet_mono. Qed.

Lemma keeps_ret P {A} (a : A) : keeps P (mret a).
Proof. intros k. apply wp_ret. reflexivity. Qed.

Lemma keeps_get P {A} (f : KERNEL D → A) : keeps P (get f).
Proof. intros k. apply wp_get. reflexivity. Qed.

Lemma keeps_bind P {A B} (m : io D A) (f : A → io D B) :
  keeps P m → (∀ a, keeps P (f a)) → keeps P (m ≫= f).
Proof.
  intros Hm Hf k. apply wp_bind. eapply wp_mono; [apply Hm|]. intros a k1 H1.
  eapply wp_mono; [apply Hf|]. intros b k2 H2. by transitivity k1.
Qed.

Lemma keeps_for P {R} lo hi (body : Z → io D (option R)) :
  (∀ i, keeps P (body i)) → keeps P (st_for lo hi body).
Proof.
  intros Hb k. apply (wp_for lo hi body (λ _ k', quiet P k k')); [reflexivity| |done].
  intros i k1 _ H1. eapply wp_mono; [apply Hb|]. intros [r|] k2 H2; by transitivity k1.
Qed.

Lemma keeps_inb P p : (∀ v, P (In (u16 p) v)) → keeps P (x86_inb p).
Proof. intros HP k. eapply wp_mono; [apply wp_inb|]. intros v k' [_ H]. by eapply quiet_accessed. Qed.

Lemma keeps_outb P p v : P (Out (u16 p) (u8 v)) → keeps P (x86_outb p v).
Proof. intros HP k. eapply wp_mono; [apply wp_outb|]. intros [] k' H. by eapply quiet_accessed. Qed.

(** The changes of variables that no port sees. *)
Lemma quiet_software P k k' :
  trace k' = trace k → device k' = device k →
  (is_u64 (flags_of k) → flags_of k' = flags_of k) →
  receive_enabled (serial k') = receive_enabled (serial k) →
  (rx_wf (receive_buffer (serial k)) → rx_wf (receive_buffer (serial k'))) → quiet P k k'.
Proof. intros Ht Hd ???. split; [|done..]. exists []. by rewrite app_nil_r, Forall_nil. Qed.

Lemma keeps_set_serial P f :
  (∀ s, receive_enabled (f s) = receive_enabled s ∧ receive_buffer (f s) = receive_buffer s) →
  keeps P (set_serial f).
Proof.
  intros Hf k. destruct (Hf (serial k)) as [He Hb].
  apply quiet_software; [done|done|done|done|]. cbn [serial]. by rewrite Hb.
Qed.

Lemma keeps_push P b : keeps P (push b).
Proof.
  intros k. unfold push. apply wp_bind, wp_get.
  destruct (rx_push b (receive_buffer (serial k))) as [ok buf] eqn:Hp.
  apply wp_bind. unfold wp at 1. cbn [set_receive_buffer set_serial]. apply wp_ret.
  apply quiet_software; [done..|]. intros Hwf. cbn [serial receive_buffer].
  pose proof (ring_step_refines (Push b) _ Hwf) as H. cbn [ring_step] in H. rewrite Hp in H.
  by destruct H.
Qed.

Lemma keeps_set_irq P f : keeps P (set_irq f).
Proof. intros k. by apply quiet_software. Qed.

Lemma keeps_set_timer P f : keeps P (set_timer f).
Proof. intros k. by apply quiet_software. Qed.

End frame.

Create HintDb quiet.
#[export] Hint Constants Opaque : quiet.
#[export] Hint Resolve keeps_ret keeps_get keeps_set_irq keeps_set_timer keeps_push : quiet.

(** The port of an access is a literal. *)
Ltac access := intros; cbv; repeat split; first [by left | by right | discriminate | done].

#[export] Hint Extern 1 (keeps _ (x86_inb _)) => apply keeps_inb; access : quiet.
#[export] Hint Extern 1 (keeps _ (x86_outb _ _)) => apply keeps_outb; access : quiet.
#[export] Hint Extern 1 (keeps _ (set_serial _)) =>
  apply keeps_set_serial; by split : quiet.
#[export] Hint Extern 1 (keeps _ count_interrupt) =>
  apply keeps_set_serial; by split : quiet.
#[export] Hint Extern 1 (keeps _ count_dropped) =>
  apply keeps_set_serial; by split : quiet.
#[export] Hint Extern 1 (keeps _ count_overflow) =>
  apply keeps_set_serial; by split : quiet.

(** Goes through a function of a driver. *)
Ltac keeping :=
  repeat first
    [ match goal with |- keeps _ (mbind _ _) => apply keeps_bind; [|intros ?] end
    | match goal with |- keeps _ (st_for _ _ _) => apply keeps_for; intros ? end
    | match goal with |- keeps _ (if ?b then _ else _) => destruct b end
    | match goal with |- keeps _ (x86_outb (if ?b then _ else _) _) => destruct b end
    | match goal with |- keeps _ (x86_inb (if ?b then _ else _)) => destruct b end
    | match goal with |- keeps _ (match ?x with _ => _ end) => destruct x end
    | match goal with |- keeps _ (let '(_, _) := ?x in _) => destruct x end
    | progress auto with quiet nocore ].

Section driver.
Context {D : Type} `{!Device D}.
Implicit Types (k : KERNEL D).

(** The flags saved and put back around a part that keeps the flags. *)
Lemma irq_save_restore c f :
  is_u64 (rflags c) → rflags f = Z.land (rflags c) (not64 IF_BIT) →
  rflags (x86_irq_restore (rflags c) f) = rflags c.
Proof.
  intros Hu Hf. unfold x86_irq_restore, x86_enable_interrupts.
  assert (∀ i, Z.testbit 0x200 i = (i =? 9)) as H9.
  { intros i. change 0x200 with (2 ^ 9). rewrite Z.pow2_bits_eqb by lia. apply Z.eqb_sym. }
  assert (has_bits (rflags c) 0x200 = Z.testbit (rflags c) 9) as ->.
  { apply (has_bits_bit64 (rflags c) 9). lia. }
  destruct (Z.testbit (rflags c) 9) eqn:Hb; cbn [rflags with_rflags]; rewrite Hf;
    apply Z.bits_inj'; intros i Hi; unfold IF_BIT;
    rewrite ?Z.lor_spec, Z.land_spec, ?H9;
    (destruct (Z.ltb_spec i 64);
     [rewrite testbit_not64, H9 by lia|rewrite (testbit_u64_high (rflags c)) by done]);
    destruct (Z.eqb_spec i 9) as [->|]; rewrite ?Hb, ?andb_true_r, ?orb_false_r; done.
Qed.

Lemma keeps_receive_error P : keeps (D:=D) P receive_error.
Proof.
  intros k. unfold receive_error. cbn -[x86_irq_save x86_irq_restore].
  apply quiet_software; [done|done| |done|by intros []].
  intros Hu. by apply irq_save_restore.
Qed.
#[local] Hint Resolve keeps_receive_error : quiet.

Lemma keeps_receive_byte : keeps (D:=D) handler_access receive_byte.
Proof. unfold receive_byte. keeping. Qed.
#[local] Hint Resolve keeps_receive_byte : quiet.

Lemma keeps_serial_interrupt : keeps (D:=D) handler_access serial_interrupt.
Proof. unfold serial_interrupt, serve_cause. keeping. Qed.
Lemma keeps_serial_interrupt_quiet : keeps (D:=D) quiet_access serial_interrupt.
Proof.
  eapply keeps_mono; [|apply keeps_serial_interrupt].
  intros [p v|p v]; cbn; [done|]. intros [-> | ->]; done.
Qed.
#[local] Hint Resolve keeps_serial_interrupt_quiet : quiet.

Lemma keeps_irq_dispatch v : keeps (D:=D) quiet_access (irq_dispatch v).
Proof.
  unfold irq_dispatch, spurious, handle, timer_interrupt, count_unexpected. keeping.
Qed.

Lemma keeps_interrupt v : keeps (D:=D) quiet_access (interrupt v).
Proof.
  intros k. unfold interrupt. apply wp_bind. unfold wp at 1, on_cpu.
  cbn -[irq_dispatch x86_disable_interrupts].
  apply wp_bind. eapply wp_mono; [apply keeps_irq_dispatch|].
  intros _ k' [Htrace _ Hen Hring]. by split.
Qed.

Lemma keeps_interrupts : keeps (D:=D) quiet_access interrupts.
Proof.
  unfold interrupts. keeping. match goal with |- keeps _ (foldr _ _ ?l) => induction l as [|v vs IH] end; cbn [foldr]; [keeping|].
  apply keeps_bind; [apply keeps_interrupt|done].
Qed.
#[local] Hint Resolve keeps_interrupts : quiet.

Lemma keeps_wait_status mask : keeps (D:=D) quiet_access (wait_status mask).
Proof. unfold wait_status, poll. keeping. Qed.

End driver.

#[export] Hint Resolve keeps_receive_error keeps_receive_byte keeps_serial_interrupt
  keeps_serial_interrupt_quiet  keeps_irq_dispatch keeps_interrupt keeps_interrupts keeps_wait_status : quiet.

End Frames.
