(* ===== verification/SerialSpec.v ===== *)
(** * What the serial driver promises

    Polled output, whatever the hardware answers and whichever interrupts
    arrive in between; the interrupt handler as a mover of bytes from the UART
    into the channel that the receive ring implements. *)

From S2P Require Import Prelude X86 RxBuffer Devices SerialIrq Irq Serial Frames.

Module SerialSpec.
Import X86 RxBuffer Devices SerialIrq Irq Serial Frames.

(** ** The transmitter *)

(** What a UART at COM1 makes of the accesses: the divisor latch bit decides
    whether writes to the base port are data; [clear] is set once the line
    status has shown an empty holding register since the last byte; [polite]
    is lost when a byte is written without that. *)
Record LINE := { latch : bool; clear : bool; wire : list Z; polite : bool }.

Definition line_step (u : LINE) (a : access) : LINE :=
  match a with
  | Out p v =>
      if p =? 0x3fb then
        {| latch := Z.testbit v 7; clear := clear u; wire := wire u; polite := polite u |}
      else if (p =? 0x3f8) && negb (latch u) then
        {| latch := latch u; clear := false; wire := wire u ++ [v];
           polite := polite u && clear u |}
      else u
  | In p v =>
      if (p =? 0x3fd) && Z.testbit v 5 && negb (v =? 0xff) then
        {| latch := latch u; clear := true; wire := wire u; polite := polite u |}
      else u
  end.

Definition line_of (l : list access) : LINE :=
  foldl line_step {| latch := false; clear := false; wire := []; polite := true |} l.

(** The bytes that stand for a text on the wire. *)
Definition expand (t : list Z) : list Z :=
  t ≫= λ c, if c =? 10 then [13; 10] else [u8 c].

(** ** Polled output *)

Lemma line_of_app l1 l2 : line_of (l1 ++ l2) = foldl line_step (line_of l1) l2.
Proof. apply foldl_app. Qed.

(** The divisor latch stays off, [p] goes out, and politely so. *)
Record transmits (u : LINE) (p : list Z) (u' : LINE) : Prop := {
  tr_latch : latch u' = false;
  tr_wire : wire u' = wire u ++ p;
  tr_polite : polite u = true → polite u' = true;
}.

Lemma transmits_nil u : latch u = false → transmits u [] u.
Proof. intros H. split; [done|by rewrite app_nil_r|done]. Qed.

Lemma transmits_app u1 p1 u2 p2 u3 :
  transmits u1 p1 u2 → transmits u2 p2 u3 → transmits u1 (p1 ++ p2) u3.
Proof. intros [? Hw1 ?] [? Hw2 ?]. split; [done|by rewrite Hw2, Hw1, app_assoc|auto]. Qed.

(** Quiet accesses transmit nothing and leave an empty holding register
    empty. *)
Lemma line_quiet u l :
  latch u = false → Forall quiet_access l →
  transmits u [] (foldl line_step u l) ∧
  (clear u = true → clear (foldl line_step u l) = true).
Proof.
  intros Hu Hl. revert u Hu. induction Hl as [|a l Ha _ IH]; intros u Hu; cbn [foldl].
  { split; [by apply transmits_nil|done]. }
  assert (transmits u [] (line_step u a) ∧ (clear u = true → clear (line_step u a) = true))
    as [Ht Hc].
  { destruct a as [p v|p v]; cbn [line_step].
    - destruct (_ && _); cbn; [|split; [by apply transmits_nil|done]].
      split; [split; cbn; [done|by rewrite app_nil_r|done]|done].
    - destruct Ha as [H1 H2].
      rewrite (proj2 (Z.eqb_neq p 0x3fb)), (proj2 (Z.eqb_neq p 0x3f8)) by done. cbn [andb].
      split; [by apply transmits_nil|done]. }
  destruct (IH _ (tr_latch _ _ _ Ht)) as [Ht' Hc']. split; [|auto].
  rewrite <- (app_nil_l (@nil Z)). by eapply transmits_app.
Qed.

Section driver.
Context {D : Type} `{!Device D}.
Implicit Types (k : KERNEL D).

Definition line k : LINE := line_of (trace k).

Lemma quiet_line k k' :
  quiet quiet_access k k' → latch (line k) = false →
  transmits (line k) [] (line k') ∧ (clear (line k) = true → clear (line k') = true).
Proof.
  intros [(l & Hl & _ & Hq) _ _ _] Hk. unfold line in *. rewrite Hl, line_of_app.
  by apply line_quiet.
Qed.

(** The state after a part of the driver has transmitted [p]. *)
Definition sent k (p : list Z) k' : Prop :=
  (latch (line k) = false → transmits (line k) p (line k')) ∧
  (is_u64 (flags_of k) → flags_of k' = flags_of k).

Lemma sent_app k1 p1 k2 p2 k3 : sent k1 p1 k2 → sent k2 p2 k3 → sent k1 (p1 ++ p2) k3.
Proof.
  intros [H1 Hf1] [H2 Hf2]. split.
  - intros Hk. specialize (H1 Hk). eapply transmits_app; [done|]. by apply H2, (tr_latch _ _ _ H1).
  - intros Hk. rewrite Hf2; [by apply Hf1|by rewrite Hf1].
Qed.

Lemma quiet_sent k k' : quiet quiet_access k k' → sent k [] k'.
Proof. intros H. split; [intros Hk; by apply quiet_line|apply H]. Qed.

(** A status with a bit of the mask, read last, has shown it to the line. *)
Lemma land_testbit v i : 0 ≤ i → Z.land v (2 ^ i) = 2 ^ i → Z.testbit v i = true.
Proof.
  intros Hi H. apply (f_equal (λ x, Z.testbit x i)) in H.
  rewrite Z.land_spec, Z.pow2_bits_true, andb_true_r in H by done. done.
Qed.

Lemma wp_poll_clear i k :
  latch (line k) = false →
  wp (poll 0x20 i) (λ r k', quiet quiet_access k k' ∧ (r = Some true → clear (line k') = true)) k.
Proof.
  intros Hk. unfold poll. apply wp_bind. eapply wp_mono; [apply keeps_interrupts|].
  intros [] k1 H1. apply wp_bind. eapply wp_mono; [apply wp_inb|].
  intros v k2 [_ Hac]. pose proof (ac_trace _ _ _ Hac) as Htr.
  assert (quiet quiet_access k k2) as H2 by (transitivity k1; [done|by eapply quiet_accessed]).
  destruct (Z.eqb_spec v 0xff) as [E|E]; [by split|].
  apply wp_bind, wp_get, wp_bind. eapply wp_mono.
  { instantiate (1 := λ _ k3, quiet quiet_access k k3 ∧ trace k3 = trace k2).
    destruct (_ && _); [|by split].
    split; [|done]. transitivity k2; [done|]. apply (keeps_receive_error _ k2). }
  intros [] k3 [H3 Htr3]. destruct (Z.eqb_spec (Z.land v 0x20) 0x20) as [Eb|]; [|by split].
  split; [done|]. intros _. unfold line. rewrite Htr3, Htr, line_of_app. cbn [foldl].
  unfold line_step at 1. change (u16 (COM1 + 5) =? 0x3fd) with true.
  by rewrite (land_testbit v 5 ltac:(lia) Eb), (proj2 (Z.eqb_neq _ _) E).
Qed.

Lemma wp_wait_status_clear k :
  latch (line k) = false →
  wp (wait_status 0x20) (λ ok k', quiet quiet_access k k' ∧ (ok = true → clear (line k') = true)) k.
Proof.
  intros Hk. unfold wait_status. apply wp_bind.
  apply (wp_for _ _ _ (λ _ k', quiet quiet_access k k')); [reflexivity| |by split].
  intros i k1 _ H1. destruct (quiet_line _ _ H1 Hk) as [Ht _].
  eapply wp_mono; [by apply wp_poll_clear, (tr_latch _ _ _ Ht)|].
  intros [r|] k2 [H2 Hc]; [|by transitivity k1].
  apply wp_ret. split; [by transitivity k1|]. intros ->. by apply Hc.
Qed.

Lemma wp_put_byte v k :
  latch (line k) = false →
  wp (put_byte v) (λ ok k', sent k (if ok then [u8 v] else []) k') k.
Proof.
  intros Hk. unfold put_byte. apply wp_bind.
  eapply wp_mono; [by apply wp_wait_status_clear|]. intros ok k1 [H1 Hc1].
  destruct ok; cbn [negb]; [|by apply wp_ret, quiet_sent].
  specialize (Hc1 eq_refl). destruct (quiet_line _ _ H1 Hk) as [Ht1 _].
  apply wp_bind. eapply wp_mono; [apply keeps_interrupts|]. intros [] k2 H2.
  destruct (quiet_line _ _ H2 (tr_latch _ _ _ Ht1)) as [Ht2 Hc2].
  assert (sent k [] k2) as Hs by (apply quiet_sent; by transitivity k1).
  apply wp_bind. unfold wp at 1, x86_outb. apply wp_ret.
  rewrite <- (app_nil_l [u8 v]). eapply sent_app; [done|]. split; [|done]. intros _.
  unfold line. cbn [trace]. rewrite line_of_app. fold (line k2). cbn [foldl].
  unfold line_step. change (u16 COM1 =? 0x3fb) with false. change (u16 COM1 =? 0x3f8) with true.
  rewrite (tr_latch _ _ _ Ht2). cbn [negb andb].
  split; cbn; [done|done|]. intros ->. by apply Hc2.
Qed.

Lemma expand_cons c t : expand (c :: t) = (if c =? 10 then [13; 10] else [u8 c]) ++ expand t.
Proof. done. Qed.

Lemma wp_serial_write t k :
  latch (line k) = false →
  wp (serial_write t) (λ ok k', ∃ p, sent k p k' ∧ p `prefix_of` expand t ∧
                                (ok = true → p = expand t)) k.
Proof.
  revert k. induction t as [|c t IH]; intros k Hk; cbn [serial_write].
  { apply wp_ret. exists []. split; [by apply quiet_sent|done]. }
  rewrite expand_cons.
  assert (∀ p k1 ok, sent k p k1 → p ++ [u8 c] = (if c =? 10 then [13; 10] else [u8 c]) →
    wp (if negb ok then mret false
        else ok ← put_byte (u8 c); if negb ok then mret false else serial_write t)
      (λ ok k', ∃ p, sent k p k' ∧ p `prefix_of`
         (if c =? 10 then [13; 10] else [u8 c]) ++ expand t ∧
         (ok = true → p = (if c =? 10 then [13; 10] else [u8 c]) ++ expand t)) k1) as Hrest.
  { intros p k1 ok Hs Hp. rewrite <- Hp, <- !app_assoc.
    destruct ok; cbn [negb]; [|apply wp_ret; exists p; split; [done|]; split; [by eexists|done]].
    apply wp_bind. eapply wp_mono; [apply wp_put_byte, (tr_latch _ _ _ (proj1 Hs Hk))|].
    intros ok k2 Hs2.
    assert (u8 (u8 c) = u8 c) as Hu by (unfold u8; by rewrite Zmod_mod).
    destruct ok; cbn [negb].
    - rewrite Hu in Hs2. pose proof (sent_app _ _ _ _ _ Hs Hs2) as Hs3.
      eapply wp_mono; [apply IH, (tr_latch _ _ _ (proj1 Hs3 Hk))|].
      intros ok k3 (q & Hq & Hpre & Hok). exists (p ++ [u8 c] ++ q).
      split; [rewrite app_assoc; by eapply sent_app|].
      split; [by do 2 apply prefix_app|]. intros H. by rewrite (Hok H).
    - apply wp_ret. exists p. rewrite <- (app_nil_r p) at 1.
      split; [by eapply sent_app|]. split; [by eexists|done]. }
  apply wp_bind. destruct (Z.eqb_spec c 10) as [->|Hc].
  - eapply wp_mono; [by apply wp_put_byte|]. intros [|] k1 Hs; [by apply (Hrest [13])|].
    cbn [negb]. apply wp_ret. exists []. split; [done|]. split; [apply prefix_nil|done].
  - apply wp_ret, (Hrest []); [by apply quiet_sent|done].
Qed.


(** *** Prompt hardware *)

(** [busy] counts the polls of the line status after which, at the latest, it
    shows an idle transmitter: fewer than the driver is ready to make. A poll
    shows it or brings it nearer, and nothing but a byte to send and a change of
    the divisor latch puts it off. *)
Record responsive (busy : D → Z) : Prop := {
  re_range d : 0 ≤ busy d < POLL_LIMIT;
  re_poll d : let '(v, d') := port_in 0x3fd d in
    u8 v ≠ 0xff ∧ (Z.land (u8 v) 0x60 = 0x60 ∨ busy d' < busy d);
  re_quiet a d d' : quiet_access a → evolves d [a] d' → busy d' ≤ busy d;
}.

Definition prompt_hardware : Prop := ∃ busy, responsive busy.

(** A transmitter that is always idle. *)
Lemma idle_prompt :
  (∀ d, u8 (fst (port_in 0x3fd d)) ≠ 0xff ∧ Z.land (u8 (fst (port_in 0x3fd d))) 0x60 = 0x60) →
  prompt_hardware.
Proof.
  intros H. exists (λ _, 0). split; [done| |done]. intros d. specialize (H d).
  destruct (port_in 0x3fd d) as [v d']. destruct H. auto.
Qed.

Lemma responsive_quiet busy k k' :
  responsive busy → quiet quiet_access k k' → busy (device k') ≤ busy (device k).
Proof.
  intros Hr [(l & _ & Hd & Hl) _ _ _]. revert Hd. generalize (device k). induction Hl as [|a l Ha _ IH].
  - intros d. cbn [evolves]. by intros <-.
  - intros d. destruct a as [p v|p v]; cbn [evolves].
    + intros [-> H%IH]. pose proof (re_quiet _ Hr (In p _) d _ Ha (conj eq_refl eq_refl)). lia.
    + intros H%IH. pose proof (re_quiet _ Hr (Out p v) d _ Ha eq_refl). lia.
Qed.

Lemma idle_mask v mask :
  Z.land v 0x60 = 0x60 → mask = 0x20 ∨ mask = 0x40 → Z.land v mask = mask.
Proof.
  intros Hv Hm. assert (mask = Z.land 0x60 mask) as Hm' by by destruct Hm; subst mask.
  by rewrite Hm', Z.land_assoc, Hv, <- Hm'.
Qed.

Lemma wp_wait_status_prompt mask k :
  prompt_hardware → mask = 0x20 ∨ mask = 0x40 → wp (wait_status mask) (λ ok _, ok = true) k.
Proof.
  intros [busy Hr] Hm. unfold wait_status. apply wp_bind.
  apply (wp_for _ _ _ (λ i k, busy (device k) < POLL_LIMIT - i)).
  { pose proof (re_range _ Hr (device k)). lia. }
  2:{ intros k1. pose proof (re_range _ Hr (device k1)). unfold POLL_LIMIT in *. lia. }
  intros i k1 _ Hi. unfold poll. apply wp_bind. eapply wp_mono; [apply keeps_interrupts|].
  intros [] k2 H2%(responsive_quiet busy); [|done]. apply wp_bind. unfold wp at 1, x86_inb.
  change (u16 (COM1 + 5)) with 0x3fd.
  pose proof (re_poll _ Hr (device k2)) as Hpoll. destruct (port_in 0x3fd (device k2)) as [v d].
  destruct Hpoll as [Hff Hv]. rewrite (proj2 (Z.eqb_neq _ _) Hff).
  apply wp_bind, wp_get, wp_bind. set (k3 := Build_KERNEL _ _ _ _ _ _).
  eapply (wp_mono _ (λ _ k4, device k4 = d)).
  { destruct (_ && _); [|done]. eapply wp_mono; [apply (keeps_receive_error (λ _, False))|].
    intros [] k4 [(l & _ & Hd & Hl) _ _ _]. by destruct Hl as [|a l []]. }
  intros [] k4 Hd. destruct Hv as [Hv|Hv].
  - rewrite (idle_mask _ _ Hv Hm), Z.eqb_refl. by apply wp_ret.
  - destruct (_ =? mask); apply wp_ret; [done|]. rewrite Hd. lia.
Qed.

Lemma wp_put_byte_prompt v k : prompt_hardware → wp (put_byte v) (λ ok _, ok = true) k.
Proof.
  intros Hp. unfold put_byte. apply wp_bind.
  eapply wp_mono; [apply wp_wait_status_prompt; [done|by left]|]. intros ok k1 ->.
  apply wp_bind. eapply wp_mono; [apply keeps_interrupts|]. done.
Qed.

Lemma wp_serial_write_prompt t k : prompt_hardware → wp (serial_write t) (λ ok _, ok = true) k.
Proof.
  intros Hp. revert k. induction t as [|c t IH]; intros k; cbn [serial_write]; [done|].
  apply wp_bind. eapply wp_mono with (P := λ ok _, ok = true).
  { destruct (c =? 10); [by apply wp_put_byte_prompt|done]. }
  intros ok k1 ->. cbn [negb]. apply wp_bind.
  eapply wp_mono; [by apply wp_put_byte_prompt|]. intros ok k2 ->. apply IH.
Qed.

(** ** Reception *)

(** The receive channel with the driver's counters. *)
Record RECEPTION := { channel : Channel; dropped : Z; overflows : Z }.

Definition reception_of (s : SERIAL) : RECEPTION :=
  {| channel := channel_of (receive_buffer s); dropped := serial_rx_dropped s;
     overflows := serial_rx_overflows s |}.

(** Input is lost. *)
Definition lose (r : RECEPTION) : RECEPTION :=
  {| channel := Lost; dropped := u64 (dropped r + 1); overflows := overflows r |}.

(** A byte arrives: it is queued, or it is dropped because the queue is full or
    input has been lost already; only the first is counted as an overflow. *)
Definition arrive (b : Z) (r : RECEPTION) : RECEPTION :=
  match channel r with
  | Queue q =>
      if (length q <? 255)%nat then
        {| channel := Queue (q ++ [b]); dropped := dropped r; overflows := overflows r |}
      else
        {| channel := Lost; dropped := u64 (dropped r + 1); overflows := u64 (overflows r + 1) |}
  | Lost =>
      {| channel := Lost; dropped := u64 (dropped r + 1); overflows := overflows r |}
  end.

(** What the handler's accesses mean for the reception: a line status with an
    error bit loses input, a read of the base port takes a byte, and the two
    ways out of the handler on trouble - masking the UART's interrupts and
    clearing its receiver - lose input. *)
Definition handler_step (r : RECEPTION) (a : access) : RECEPTION :=
  match a with
  | In 0x3fd v => if has_bits v 0x1e then lose r else r
  | In 0x3f8 v => arrive v r
  | Out 0x3f9 _ | Out 0x3fa _ => lose r
  | _ => r
  end.

(** The causes for which the receiver is served. *)
Definition from_receiver (cause : Z) : bool :=
  let source := Z.land cause 0x0e in (source =? 0x04) || (source =? 0x0c) || (source =? 0x06).

(** What the handler may say to the UART in [n] turns, to the end: it asks for a
    cause; served is the receiver's, by reading the line status and then exactly
    one byte if there is one; any other cause is masked, and the receiver is
    cleared when the turns are used up. *)
Inductive dialogue : nat → list access → Prop :=
  | dl_exhausted : dialogue 0 [Out 0x3fa 3]
  | dl_done n cause : has_bits cause 1 = true → dialogue (S n) [In 0x3fa cause]
  | dl_masked n cause : has_bits cause 1 = false → from_receiver cause = false →
      dialogue (S n) [In 0x3fa cause; Out 0x3f9 0]
  | dl_nothing n cause status l : has_bits cause 1 = false → from_receiver cause = true →
      has_bits status 1 = false → dialogue n l →
      dialogue (S n) (In 0x3fa cause :: In 0x3fd status :: l)
  | dl_byte n cause status b l : has_bits cause 1 = false → from_receiver cause = true →
      has_bits status 1 = true → dialogue n l →
      dialogue (S n) (In 0x3fa cause :: In 0x3fd status :: In 0x3f8 b :: l).

Lemma dialogue_length n l : dialogue n l → (length l ≤ 3 * n + 1)%nat.
Proof. induction 1; cbn [length]; lia. Qed.

(** A receiver with the bytes [pending]: it is the cause of an interrupt, and
    its line status shows a byte, exactly as long as there is one; no errors. *)
Record receiver (pending : D → list Z) : Prop := {
  rc_cause d : pending (snd (port_in 0x3fa d)) = pending d ∧
    let cause := u8 (fst (port_in 0x3fa d)) in
    has_bits cause 1 = bool_decide (pending d = []) ∧ (pending d ≠ [] → from_receiver cause = true);
  rc_status d : pending (snd (port_in 0x3fd d)) = pending d ∧
    let status := u8 (fst (port_in 0x3fd d)) in
    has_bits status 1 = negb (bool_decide (pending d = [])) ∧ has_bits status 0x1e = false;
  rc_data d b q : pending d = b :: q → u8 (fst (port_in 0x3f8 d)) = b ∧ pending (snd (port_in 0x3f8 d)) = q;
}.

(** The dialogue with it takes all of its bytes. *)
Lemma dialogue_drains pending n l (d d' : D) r :
  receiver pending → dialogue n l → evolves d l d' → (length (pending d) < n)%nat →
  pending d' = [] ∧ foldl handler_step r l = foldl (λ r b, arrive b r) r (pending d).
Proof.
  intros Hp Hl. revert d r.
  induction Hl as [|n c Hc|n c Hc Hr|n c st l Hc Hr Hs _ IH|n c st b l Hc Hr Hs _ IH];
    intros d r; cbn [evolves]; intros He Hn; [lia|..];
    (destruct He as [-> He]; destruct (rc_cause _ Hp d) as [Hk [Hc' Hr']]; rewrite Hc' in Hc).
  - apply bool_decide_eq_true in Hc. subst d'. by rewrite Hk, Hc.
  - apply bool_decide_eq_false in Hc. rewrite Hr' in Hr; done.
  - destruct He as [-> _]. destruct (rc_status _ Hp (snd (port_in 0x3fa d))) as [_ [Hs' _]].
    rewrite Hs', Hk, Hc in Hs. done.
  - destruct He as [-> [-> He]].
    destruct (rc_status _ Hp (snd (port_in 0x3fa d))) as [Hk2 [_ Hs2]].
    destruct (pending d) as [|x q] eqn:Hd; [by rewrite bool_decide_true in Hc|].
    destruct (rc_data _ Hp (snd (port_in 0x3fd (snd (port_in 0x3fa d)))) x q) as [Hx Hk3]; [congruence|].
    cbn [length] in Hn. cbn [foldl handler_step]. rewrite Hs2, Hx.
    destruct (IH _ (arrive x r) He) as [H1 H2]; rewrite Hk3 in *; [lia|done].
Qed.

(** The accesses [l], and the reception they mean. *)
Record delivers (l : list access) k k' : Prop := {
  de_trace : trace k' = trace k ++ l;
  de_reception : reception_of (serial k') = foldl handler_step (reception_of (serial k)) l;
  de_wf : rx_wf (receive_buffer (serial k'));
  de_interrupts : serial_rx_interrupts (serial k') = serial_rx_interrupts (serial k);
  de_irq : irq k' = irq k;
  de_timer : timer k' = timer k;
}.

Lemma delivers_app l1 l2 k1 k2 k3 :
  delivers l1 k1 k2 → delivers l2 k2 k3 → delivers (l1 ++ l2) k1 k3.
Proof.
  intros [H1 Hr1 _ Hi1 Hq1 Ht1] [H2 Hr2 ? Hi2 Hq2 Ht2].
  split; [by rewrite H2, H1, app_assoc|by rewrite foldl_app, Hr2, Hr1|done|congruence..].
Qed.

Lemma delivers_refl k : rx_wf (receive_buffer (serial k)) → delivers [] k k.
Proof. intros Hwf. split; [|done..]. by rewrite app_nil_r. Qed.

(** [receive_error] alone. *)
Lemma wp_receive_error k :
  rx_wf (receive_buffer (serial k)) →
  wp receive_error (λ _ k', trace k' = trace k ∧ irq k' = irq k ∧ timer k' = timer k ∧
    rx_wf (receive_buffer (serial k')) ∧
    serial_rx_interrupts (serial k') = serial_rx_interrupts (serial k) ∧
    reception_of (serial k') = lose (reception_of (serial k))) k.
Proof. intros [Hl _ _]. by repeat split. Qed.


(** What a part of the driver that touches no port does to the reception. *)
Record absorbs (f : RECEPTION → RECEPTION) k k' : Prop := {
  ab_trace : trace k' = trace k;
  ab_reception : reception_of (serial k') = f (reception_of (serial k));
  ab_wf : rx_wf (receive_buffer (serial k'));
  ab_interrupts : serial_rx_interrupts (serial k') = serial_rx_interrupts (serial k);
  ab_irq : irq k' = irq k;
  ab_timer : timer k' = timer k;
}.

(** An access followed by what it stands for. *)
Lemma delivers_absorbs a f k k1 k2 :
  trace k1 = trace k ++ [a] → same_software k k1 → absorbs f k1 k2 →
  f (reception_of (serial k)) = handler_step (reception_of (serial k)) a → delivers [a] k k2.
Proof.
  intros Ht [_ Hs Hq Hm] [Ht2 Hr ? Hi ? ?] Hf.
  split; [congruence| |done|congruence..]. by rewrite Hr, Hs, Hf.
Qed.

(** The tail of [receive_byte]: the byte is pushed and counted. *)
Lemma wp_arrive b k :
  rx_wf (receive_buffer (serial k)) →
  wp (already_failed ← get (λ k, failed (receive_buffer (serial k)));
      ok ← push b;
      if negb ok then
        (if negb already_failed then count_overflow else mret tt);;
        count_dropped
      else mret tt) (λ _ k', absorbs (arrive b) k k') k.
Proof.
  intros Hwf. pose proof (ring_step_refines (Push b) _ Hwf) as Hstep.
  cbn [ring_step] in Hstep. unfold push.
  apply wp_bind, wp_get, wp_bind, wp_bind, wp_get.
  destruct (rx_push b (receive_buffer (serial k))) as [ok buf] eqn:Hpush.
  destruct Hstep as [Hc Hwf']. apply wp_bind. unfold wp at 1. cbn [set_receive_buffer set_serial].
  apply wp_ret. unfold channel_of at 1 in Hc.
  destruct (failed (receive_buffer (serial k))) eqn:Hf.
  - injection Hc as <- Hc. cbn [negb]. apply wp_bind, wp_ret.
    split; try done. unfold reception_of, arrive. cbn. unfold channel_of at 2. by rewrite Hf, <- Hc.
  - cbn [channel_step] in Hc.
    assert (channel_of (receive_buffer (serial k)) = Queue (contents (receive_buffer (serial k)))) as Hq
      by (unfold channel_of; by rewrite Hf).
    destruct (length (contents (receive_buffer (serial k))) <? 255)%nat eqn:Hroom;
      injection Hc as <- Hc; cbn [negb].
    + apply wp_ret. split; try done. unfold reception_of, arrive. cbn -[Nat.ltb].
      rewrite Hq. cbn beta iota. by rewrite Hroom, <- Hc.
    + apply wp_bind. split; try done. unfold reception_of, arrive. cbn -[Nat.ltb].
      rewrite Hq. cbn beta iota. by rewrite Hroom, <- Hc.
Qed.

Lemma wp_error_if (b : bool) k :
  rx_wf (receive_buffer (serial k)) →
  wp (if b then receive_error else mret tt)
    (λ _ k', absorbs (if b then lose else id) k k') k.
Proof.
  intros Hwf. destruct b; [|by split].
  eapply wp_mono; [by apply wp_receive_error|]. intros [] k' (? & ? & ? & ? & ? & ?). by split.
Qed.

Lemma wp_receive_byte k :
  rx_wf (receive_buffer (serial k)) →
  wp receive_byte (λ _ k', ∃ l, delivers l k k' ∧ ∀ n cause l',
    has_bits cause 1 = false → from_receiver cause = true → dialogue n l' →
    dialogue (S n) (In 0x3fa cause :: l ++ l')) k.
Proof.
  intros Hwf. unfold receive_byte. apply wp_bind. eapply wp_mono; [apply wp_inb|].
  intros v k1 [_ [Ht1 _ Hsw1]]. apply wp_bind.
  eapply wp_mono; [apply wp_error_if; by rewrite (sw_serial _ _ Hsw1)|]. intros [] k2 H2.
  change (u16 (COM1 + 5)) with 0x3fd in Ht1.
  assert (delivers [In 0x3fd v] k k2) as Hd.
  { eapply delivers_absorbs; [exact Ht1|done|exact H2|].
    cbn [handler_step]. by destruct (has_bits v 0x1e). }
  destruct (has_bits v 1) eqn:Hv; cbn [negb].
  - apply wp_bind. eapply wp_mono; [apply wp_inb|]. intros b k3 [_ [Ht3 _ Hsw3]].
    eapply wp_mono; [apply wp_arrive; rewrite (sw_serial _ _ Hsw3); apply Hd|]. intros [] k4 H4.
    exists [In 0x3fd v; In 0x3f8 b]. split; [|intros n c l' ? ? ?; by apply dl_byte].
    eapply (delivers_app [_] [_]); [exact Hd|]. by eapply delivers_absorbs; [exact Ht3|done|exact H4|].
  - apply wp_ret. exists [In 0x3fd v]. split; [done|]. intros n c l' ? ? ?. by apply dl_nothing.
Qed.

(** A turn of the handler's loop is a turn of the dialogue. *)
Definition turn {R} (r : option R) (l : list access) : Prop :=
  match r with
  | None => ∀ n l', dialogue n l' → dialogue (S n) (l ++ l')
  | Some _ => ∀ n, dialogue (S n) l
  end.

Lemma wp_serve_cause i k :
  rx_wf (receive_buffer (serial k)) →
  wp (serve_cause i) (λ r k', ∃ l, delivers l k k' ∧ turn r l) k.
Proof.
  intros Hwf. unfold serve_cause. apply wp_bind. eapply wp_mono; [apply wp_inb|].
  intros v k1 [_ [Ht1 _ Hsw1]]. change (u16 (COM1 + 2)) with 0x3fa in Ht1.
  assert (delivers [In 0x3fa v] k k1) as Hd.
  { eapply delivers_absorbs with (f := id); [exact Ht1|done| |done].
    split; try done. by rewrite (sw_serial _ _ Hsw1). }
  destruct (has_bits v 1) eqn:Hv.
  { apply wp_ret. exists [In 0x3fa v]. split; [done|]. intros n. by apply dl_done. }
  cbv zeta. destruct (_ || _) eqn:Hr.
  - apply wp_bind. eapply wp_mono; [apply wp_receive_byte, Hd|]. intros [] k2 (l & H2 & Hl).
    apply wp_ret. exists (In 0x3fa v :: l). split; [by apply (delivers_app [_] l k k1)|].
    intros n l'. by apply Hl.
  - apply wp_bind. eapply wp_mono; [apply wp_outb|]. intros [] k2 [Ht2 _ Hsw2]. apply wp_bind.
    eapply wp_mono; [apply (wp_error_if true); rewrite (sw_serial _ _ Hsw2); apply Hd|].
    intros [] k3 H3. apply wp_ret. exists [In 0x3fa v; Out 0x3f9 0].
    split; [|intros n; by apply dl_masked]. apply (delivers_app [_] [_] k k1); [done|].
    by eapply delivers_absorbs; [exact Ht2|done|exact H3|].
Qed.

Lemma wp_serial_interrupt k :
  rx_wf (receive_buffer (serial k)) →
  wp serial_interrupt (λ _ k',
    (∃ l, trace k' = trace k ++ l ∧ dialogue 256 l ∧
       reception_of (serial k') = foldl handler_step (reception_of (serial k)) l) ∧
    rx_wf (receive_buffer (serial k')) ∧
    serial_rx_interrupts (serial k') = u64 (serial_rx_interrupts (serial k) + 1) ∧
    irq k' = irq k ∧ timer k' = timer k) k.
Proof.
  intros Hwf. unfold serial_interrupt. apply wp_bind. unfold wp at 1.
  cbn [count_interrupt set_serial].
  match goal with |- wp _ _ ?x => set (k1 := x) end.
  assert (∀ l k', delivers l k1 k' → dialogue 256 l → (∃ l, trace k' = trace k ++ l ∧ dialogue 256 l ∧
       reception_of (serial k') = foldl handler_step (reception_of (serial k)) l) ∧
    rx_wf (receive_buffer (serial k')) ∧
    serial_rx_interrupts (serial k') = u64 (serial_rx_interrupts (serial k) + 1) ∧
    irq k' = irq k ∧ timer k' = timer k) as Hend
    by (intros l k' [] ?; split; [by exists l|done]).
  apply wp_bind, (wp_for _ _ _ (λ i k', 0 ≤ i ∧ ∃ l, delivers l k1 k' ∧
    ∀ l', dialogue (Z.to_nat (256 - i)) l' → dialogue 256 (l ++ l'))).
  - split; [done|]. exists []. split; [by apply delivers_refl|done].
  - intros i k2 Hi [_ (l & H2 & Hl)]. unfold RX_CAPACITY in Hi.
    eapply wp_mono; [apply wp_serve_cause, H2|]. intros r k3 (l3 & H3 & Hr).
    pose proof (delivers_app _ _ _ _ _ H2 H3) as H.
    replace (Z.to_nat (256 - i)) with (S (Z.to_nat (256 - (i + 1)))) in Hl by lia.
    destruct r as [u|]; cbn [turn] in Hr.
    + apply wp_ret. by eapply Hend, Hl, Hr.
    + split; [lia|]. exists (l ++ l3). split; [done|]. intros l' Hl'. rewrite <- app_assoc.
      by apply Hl, Hr.
  - intros k2 [_ (l & H2 & Hl)]. change (Z.max 0 RX_CAPACITY) with 256 in Hl. apply wp_bind.
    eapply wp_mono; [apply (wp_error_if true), H2|]. intros [] k3 [Ht3 Hr3 Hwf3 Hi3 Hq3 Hm3].
    eapply wp_mono; [apply wp_outb|]. intros [] k4 [Ht4 _ [_ Hs4 Hq4 Hm4]].
    apply (Hend (l ++ [Out 0x3fa 3])); [|apply Hl, dl_exhausted].
    apply (delivers_app _ _ k1 k2); [exact H2|].
    split; [by rewrite Ht4, Ht3|by rewrite Hs4, Hr3|by rewrite Hs4|congruence..].
Qed.

End driver.

(** ** Properties *)

(** C31: whatever the hardware answers and whichever interrupts arrive,
    [serial_write] transmits a prefix of the text with CR LF for its newlines,
    all of it when it reports success, never a byte before the line status has
    shown an empty holding register, and returns with the interrupt flag it was
    entered with; it succeeds on hardware that gets ready in fewer polls than the
    driver is prepared to make. *)
Theorem serial_write_transmits_text {D} `{!Device D} t (k : KERNEL D) :
  latch (line k) = false →
  let '(ok, k') := serial_write t k in
  latch (line k') = false ∧
  (∃ p, wire (line k') = wire (line k) ++ p ∧ p `prefix_of` expand t ∧
        (ok = true → p = expand t)) ∧
  (polite (line k) = true → polite (line k') = true) ∧
  (is_u64 (rflags (cpu k)) → rflags (cpu k') = rflags (cpu k)) ∧
  (prompt_hardware (D:=D) → ok = true).
Proof.
  intros Hk. pose proof (wp_serial_write t k Hk) as H.
  pose proof (wp_serial_write_prompt t k) as Hprompt. unfold wp in *.
  destruct (serial_write t k) as [ok k']. destruct H as (p & [Hs Hf] & Hp & Hok).
  destruct (Hs Hk) as [Hl Hw Hpol]. split; [done|]. split; [by exists p|done].
Qed.

(** C32: the handler of the UART's interrupt holds the whole of one dialogue with
    it and delivers exactly what that brought. It asks for a cause up to 256
    times; for one of the receiver it reads the line status, and a byte exactly
    when the status shows one; so it ends after at most 769 port accesses. The
    receive channel and the counters of lost input are what the line status
    errors and the bytes read make of the channel and the counters before, in
    order; the interrupt is counted once and the flags are as before. A receiver
    that reports its bytes truthfully is emptied, all of them delivered. *)
Theorem serial_interrupt_delivers {D} `{!Device D} (k : KERNEL D) :
  rx_wf (receive_buffer (serial k)) →
  let '(_, k') := serial_interrupt k in
  (∃ l, trace k' = trace k ++ l ∧ evolves (device k) l (device k') ∧
        dialogue 256 l ∧ (length l ≤ 769)%nat ∧
        reception_of (serial k') = foldl handler_step (reception_of (serial k)) l) ∧
  rx_wf (receive_buffer (serial k')) ∧
  serial_rx_interrupts (serial k') = u64 (serial_rx_interrupts (serial k) + 1) ∧
  (is_u64 (rflags (cpu k)) → rflags (cpu k') = rflags (cpu k)) ∧
  ∀ pending, receiver pending → (length (pending (device k)) < 256)%nat →
    pending (device k') = [] ∧
    reception_of (serial k') = foldl (λ r b, arrive b r) (reception_of (serial k)) (pending (device k)).
Proof.
  intros Hwf. pose proof (wp_serial_interrupt k Hwf) as H.
  pose proof (keeps_serial_interrupt k) as Hq. unfold wp in *.
  destruct (serial_interrupt k) as [u k']. destruct H as ((l & Ht & Hd & Hr) & H2 & H3 & _ & _).
  destruct Hq as [(l' & Ht' & He & _) Hf _ _]. rewrite Ht in Ht'. apply app_inv_head in Ht' as <-.
  split; [|split; [done|split; [done|split; [exact Hf|]]]].
  - exists l. split; [done|]. split; [done|]. split; [done|]. split; [|done].
    pose proof (dialogue_length _ _ Hd). lia.
  - intros pending Hp Hn. rewrite Hr. by eapply dialogue_drains.
Qed.

(** *** Hardware to run the driver on *)

(** The values the next reads return; 0x60, an idle transmitter, when there
    are none left. *)
#[local] Instance script : Device (list Z) := {|
  port_in _ d := match d with [] => (0x60, []) | v :: d => (v, d) end;
  port_out _ _ d := d;
  requests _ := [];
  requests_range _ := Forall_nil_2 _;
|}.

Definition quiet_cpu : CPU :=
  {| rflags := 2; cr0 := 0; cr3 := 0; cr4 := 0; msr := ∅;
     cpuid := λ _ _, {| eax := 0; ebx := 0; ecx := 0; edx := 0 |}; tlb := ∅ |}.

Definition start (d : list Z) : KERNEL (list Z) :=
  {| cpu := quiet_cpu; device := d; trace := []; serial := serial_bss; irq := irq_bss;
     timer := timer_bss |}.

(** A busy transmitter, then an idle one, then a UART that is gone. *)
Lemma serial_write_transmits_text_witness :
  let '(ok, k') := serial_write [104; 10] (start [0; 0x20; 0x20; 0xff]) in
  latch (line k') = false ∧
  (∃ p, wire (line k') = [] ++ p ∧ p `prefix_of` expand [104; 10] ∧
        (ok = true → p = expand [104; 10])).
Proof.
  pose proof (serial_write_transmits_text [104; 10] (start [0; 0x20; 0x20; 0xff]) eq_refl) as H.
  destruct (serial_write [104; 10] (start [0; 0x20; 0x20; 0xff])) as [ok k'].
  destruct H as (H1 & H2 & _). split; [exact H1|exact H2].
Defined.

Example serial_write_runs :
  (let '(ok, k') := serial_write [104; 10] (start [0; 0x20; 0x20; 0xff]) in
   (ok, wire (line k'), polite (line k'))) = (false, [104; 13], true) ∧
  (let '(ok, k') := serial_write [104; 10] (start []) in
   (ok, wire (line k'), polite (line k'))) = (true, [104; 13; 10], true).
Proof. split; by vm_compute. Qed.

(** A receiver with bytes in it. *)
#[local] Instance queue : Device (list Z) := {|
  port_in p d :=
    if p =? 0x3fa then (if bool_decide (d = []) then 1 else 4, d)
    else if p =? 0x3fd then (if bool_decide (d = []) then 0x60 else 0x61, d)
    else match d with [] => (0, []) | b :: q => (b, q) end;
  port_out _ _ d := d;
  requests _ := [];
  requests_range _ := Forall_nil_2 _;
|}.

Lemma queue_receiver : receiver (D:=list Z) (fmap u8).
Proof.
  split; cbn [port_in queue Z.eqb Pos.eqb].
  - intros d. split; [done|]. destruct d; by split.
  - intros d. split; [done|]. destruct d; by split.
  - intros [|x d] b q [= <- <-]. done.
Qed.

Lemma serial_interrupt_delivers_witness :
  let '(_, k') := serial_interrupt (D:=list Z) (start [65; 66; 67]) in
  (∃ l, trace k' = [] ++ l ∧ dialogue 256 l) ∧
  u8 <$> device k' = [] ∧ channel (reception_of (serial k')) = Queue [65; 66; 67].
Proof.
  pose proof (serial_interrupt_delivers (D:=list Z) (start [65; 66; 67]) rx_bss_wf) as H.
  destruct (serial_interrupt (start [65; 66; 67])) as [u k'].
  destruct H as ((l & Ht & _ & Hl & _) & _ & _ & _ & H).
  split; [by exists l|]. destruct (H (fmap u8) queue_receiver) as [Hd Hr]; [by vm_compute; lia|].
  split; [exact Hd|]. rewrite Hr. by vm_compute.
Defined.

#[local] Existing Instance script.

(** Two bytes; then a line error with a byte, and no further cause. *)
Example serial_interrupt_runs :
  (let '(_, k') := serial_interrupt (start [4; 1; 65; 4; 1; 66; 1]) in
   reception_of (serial k')) = {| channel := Queue [65; 66]; dropped := 0; overflows := 0 |} ∧
  (let '(_, k') := serial_interrupt (start [4; 1; 65; 4; 1; 66; 6; 0x11; 67; 1]) in
   reception_of (serial k')) = {| channel := Lost; dropped := 2; overflows := 0 |}.
Proof. split; by vm_compute. Qed.

End SerialSpec.
