(* ===== verification/IrqSpec.v ===== *)
(** * What the interrupt and timer drivers promise

    The programming of the two interrupt controllers and of the timer against
    models of those chips, the unmasking of single interrupt lines, and the
    acknowledgement of every interrupt that is dispatched. *)

From S2P Require Import Prelude X86 RxBuffer Devices SerialIrq Irq Timer Frames SerialSpec.

Module IrqSpec.
Import X86 RxBuffer Devices SerialIrq Irq Timer Frames SerialSpec.

(** ** The chips *)

(** An 8259: the initialization word expected next on the data port (0 when
    there is none), what the words set, and the interrupt mask. *)
Record PIC := {
  expects : Z;
  single : bool;
  wants_mode : bool;
  vector_base : Z;
  cascade : Z;
  mode : Z;
  mask : Z;
}.

Definition pic_command (v : Z) (p : PIC) : PIC :=
  if Z.testbit v 4 then
    {| expects := 2; single := Z.testbit v 1; wants_mode := Z.testbit v 0;
       vector_base := vector_base p; cascade := cascade p; mode := 0; mask := 0 |}
  else p.

Definition pic_data (v : Z) (p : PIC) : PIC :=
  let last := if wants_mode p then 4 else 0 in
  if expects p =? 2 then
    {| expects := if single p then last else 3; single := single p; wants_mode := wants_mode p;
       vector_base := Z.land v 0xf8; cascade := cascade p; mode := mode p; mask := mask p |}
  else if expects p =? 3 then
    {| expects := last; single := single p; wants_mode := wants_mode p;
       vector_base := vector_base p; cascade := v; mode := mode p; mask := mask p |}
  else if expects p =? 4 then
    {| expects := 0; single := single p; wants_mode := wants_mode p;
       vector_base := vector_base p; cascade := cascade p; mode := v; mask := mask p |}
  else
    {| expects := 0; single := single p; wants_mode := wants_mode p;
       vector_base := vector_base p; cascade := cascade p; mode := mode p; mask := v |}.

(** The master and the slave at their ports. *)
Definition pics_step (p : PIC * PIC) (a : access) : PIC * PIC :=
  match a with
  | Out 0x20 v => (pic_command v (fst p), snd p)
  | Out 0x21 v => (pic_data v (fst p), snd p)
  | Out 0xa0 v => (fst p, pic_command v (snd p))
  | Out 0xa1 v => (fst p, pic_data v (snd p))
  | _ => p
  end.

(** Channel 0 of an 8254: the mode, the bytes of the divisor that are still to
    come, and the divisor once it is complete. *)
Record PIT := { pit_mode : Z; pit_low : option Z; divisor : option Z }.

Definition pit_step (p : PIT) (a : access) : PIT :=
  match a with
  | Out 0x43 v =>
      if (Z.shiftr v 6 =? 0) && (Z.land (Z.shiftr v 4) 3 =? 3) then
        {| pit_mode := Z.land (Z.shiftr v 1) 7; pit_low := None; divisor := None |}
      else p
  | Out 0x40 v =>
      match pit_low p with
      | None => {| pit_mode := pit_mode p; pit_low := Some v; divisor := divisor p |}
      | Some low =>
          {| pit_mode := pit_mode p; pit_low := None; divisor := Some (low + 256 * v) |}
      end
  | _ => p
  end.

(** Hardware with the two controllers and the timer: does program them, reads
    do not, and a read of a controller's data port returns its mask. *)
Class Board (D : Type) `{!Device D} := {
  pics : D → PIC * PIC;
  pit : D → PIT;
  pics_out p v d : pics (port_out p v d) = pics_step (pics d) (Out p v);
  pics_in p d : pics (snd (port_in p d)) = pics d;
  pit_out p v d : pit (port_out p v d) = pit_step (pit d) (Out p v);
  pit_in p d : pit (snd (port_in p d)) = pit d;
  pics_master_mask d : fst (port_in 0x21 d) = mask (fst (pics d));
  pics_slave_mask d : fst (port_in 0xa1 d) = mask (snd (pics d));
}.

(** The interrupt line [i] is masked. *)
Definition masked (p : PIC * PIC) (i : Z) : bool :=
  if i <? 8 then Z.testbit (mask (fst p)) i else Z.testbit (mask (snd p)) (i - 8).

(** The controllers as the kernel wants them: vectors 32 to 47, the slave on
    line 2, 8086 mode with explicit acknowledgement, and the given masks. *)
Definition remapped (p : PIC * PIC) : Prop :=
  expects (fst p) = 0 ∧ vector_base (fst p) = 32 ∧ cascade (fst p) = 4 ∧ mode (fst p) = 1 ∧
  expects (snd p) = 0 ∧ vector_base (snd p) = 40 ∧ cascade (snd p) = 2 ∧ mode (snd p) = 1.

Section driver.
Context {D : Type} `{!Device D} `{!Board D}.
Implicit Types (k : KERNEL D).

Lemma pics_evolves l d d' : evolves d l d' → pics d' = foldl pics_step (pics d) l.
Proof.
  revert d. induction l as [|[p v|p v] l IH]; intros d; cbn [evolves foldl]; [by intros ->| |].
  - intros [_ H]. rewrite (IH _ H), pics_in. done.
  - intros H. by rewrite (IH _ H), pics_out.
Qed.

Lemma pit_evolves l d d' : evolves d l d' → pit d' = foldl pit_step (pit d) l.
Proof.
  revert d. induction l as [|[p v|p v] l IH]; intros d; cbn [evolves foldl]; [by intros ->| |].
  - intros [_ H]. rewrite (IH _ H), pit_in. done.
  - intros H. by rewrite (IH _ H), pit_out.
Qed.

(** [k'] is [k] after the accesses [l], the software as it was. *)
Record did (l : list access) k k' : Prop := {
  di_trace : trace k' = trace k ++ l;
  di_device : evolves (device k) l (device k');
  di_software : same_software k k';
}.

Definition does {A} (l : list access) (m : io D A) : Prop := ∀ k, wp m (λ _ k', did l k k') k.

Lemma did_nil k : did [] k k.
Proof. split; [by rewrite app_nil_r|done|by split]. Qed.

Lemma did_app l1 l2 k1 k2 k3 : did l1 k1 k2 → did l2 k2 k3 → did (l1 ++ l2) k1 k3.
Proof.
  intros [Ht1 Hd1 []] [Ht2 Hd2 []].
  split; [by rewrite Ht2, Ht1, app_assoc|by eapply evolves_app|split; congruence].
Qed.

Lemma accessed_did a k k' : accessed a k k' → did [a] k k'.
Proof. by intros []. Qed.

Lemma does_outb p v : does [Out (u16 p) (u8 v)] (x86_outb p v).
Proof. intros k. eapply wp_mono; [apply wp_outb|]. intros [] k'. apply accessed_did. Qed.

Lemma does_seq l1 l2 (m1 m2 : io D unit) : does l1 m1 → does l2 m2 → does (l1 ++ l2) (m1;; m2).
Proof.
  intros H1 H2 k. apply wp_bind. eapply wp_mono; [apply H1|]. intros [] k1 Hk1.
  eapply wp_mono; [apply H2|]. intros [] k2 Hk2. by eapply did_app.
Qed.

Lemma does_pic_write p v : does [Out (u16 p) (u8 v); Out 0x80 0] (pic_write p v).
Proof. apply (does_seq [_] [_]); apply does_outb. Qed.

Ltac doing :=
  repeat match goal with
  | |- does _ (pic_write _ _) => apply does_pic_write
  | |- does _ (x86_outb _ _) => apply does_outb
  | |- does _ (mbind _ _) => eapply does_seq
  end.

(** From any state of the controllers, the initialization leaves them remapped
    with every line masked. *)
Lemma wp_program_pic k :
  wp program_pic (λ _ k', ∃ l, trace k' = trace k ++ l ∧ same_software k k' ∧
    remapped (pics (device k')) ∧ ∀ i, 0 ≤ i < 16 → masked (pics (device k')) i = true) k.
Proof.
  assert (∃ l, does l program_pic ∧ ∀ p, foldl pics_step p l =
    ({| expects := 0; single := false; wants_mode := true; vector_base := 32; cascade := 4;
        mode := 1; mask := 255 |},
     {| expects := 0; single := false; wants_mode := true; vector_base := 40; cascade := 2;
        mode := 1; mask := 255 |})) as (l & Hl & Hp).
  { eexists. split; [unfold program_pic; doing|]. intros p.
    (* The first words may hit a controller in the middle of its initialization. *)
    match goal with |- foldl _ _ ?l = _ => rewrite <- (take_drop 4 l), foldl_app end.
    match goal with |- foldl _ (foldl ?f ?p ?l) _ = _ => generalize (foldl f p l) end. intros [[] []]. by vm_compute. }
  eapply wp_mono; [apply Hl|]. intros [] k' [Ht Hd Hsw]. exists l. split; [done|]. split; [done|].
  rewrite (pics_evolves _ _ _ Hd), Hp. split; [by repeat split|].
  intros i Hi. unfold masked. cbn [fst snd mask]. change 255 with (Z.ones 8).
  destruct (Z.ltb_spec i 8); apply Z.ones_spec_low; lia.
Qed.


(** *** Initialization *)

Definition apic_present (c : CPU) : bool := has_bits (edx (x86_cpuid 1 0 c)) (bit32 9).
Definition x2apic (c : CPU) : bool := has_bits (x86_read_msr 0x1b c) (bit64 10).
Definition apic_off (c : CPU) : Prop :=
  apic_present c = true → has_bits (x86_read_msr 0x1b c) (bit64 11) = false.

Lemma has_bits_u64 v n : 0 ≤ n < 64 → has_bits (u64 v) (bit64 n) = has_bits v (bit64 n).
Proof. intros Hn. by rewrite !has_bits_bit64, testbit_u64. Qed.

Lemma wp_disable_apic k :
  wp disable_apic (λ ok k', trace k' = trace k ∧ device k' = device k ∧ serial k' = serial k ∧
    irq k' = irq k ∧ timer k' = timer k ∧ flags_of k' = flags_of k ∧
    ok = negb (apic_present (cpu k) && x2apic (cpu k)) ∧ (ok = true → apic_off (cpu k'))) k.
Proof.
  unfold disable_apic. apply wp_bind. unfold wp at 1, on_cpu. fold (apic_present (cpu k)).
  destruct (apic_present (cpu k)) eqn:Ha.
  - apply wp_bind. unfold wp at 1, on_cpu. cbn [cpu]. fold (x2apic (cpu k)).
    destruct (x2apic (cpu k)) eqn:Hx; [by apply wp_ret|].
    apply wp_bind. unfold wp at 1, set_cpu, on_cpu. apply wp_ret.
    repeat (split; [done|]). intros _ _. cbn [cpu]. rewrite read_write_msr, has_bits_u64 by lia.
    by apply land_not_bit64.
  - apply wp_ret. repeat (split; [done|]). intros _ Ha'. cbn [cpu] in Ha'. congruence.
Qed.

(** When the controllers can be taken over. *)
Definition startable k : Prop :=
  irq_initialized (irq k) = false ∧ has_bits (flags_of k) 0x200 = false ∧
  apic_present (cpu k) && x2apic (cpu k) = false.

Lemma wp_irq_init k :
  wp irq_init (λ ok k', serial k' = serial k ∧ timer k' = timer k ∧ flags_of k' = flags_of k ∧
    if ok then
      startable k ∧ irq_initialized (irq k') = true ∧ apic_off (cpu k') ∧
      remapped (pics (device k')) ∧ ∀ i, 0 ≤ i < 16 → masked (pics (device k')) i = true
    else ¬ startable k ∧ trace k' = trace k) k.
Proof.
  unfold irq_init, startable. apply wp_bind, wp_get, wp_bind, wp_get. fold (flags_of k).
  change (x86_read_rflags (cpu k)) with (flags_of k).
  destruct (irq_initialized (irq k)); [apply wp_ret; do 3 (split; [done|]); split; [by intros (? & _)|done]|].
  destruct (has_bits (flags_of k) 0x200); [apply wp_ret; do 3 (split; [done|]); split; [by intros (_ & ? & _)|done]|].
  cbn [orb]. apply wp_bind. eapply wp_mono; [apply wp_disable_apic|].
  intros ok k1 (Ht & Hd & Hs & Hq & Hm & Hf & -> & Hoff).
  destruct (apic_present (cpu k) && x2apic (cpu k)); cbn [negb].
  { apply wp_ret. repeat (split; [done|]). split; [by intros (_ & _ & ?)|done]. }
  apply wp_bind. eapply wp_mono; [apply wp_program_pic|].
  intros [] k2 (l & _ & [Hc2 Hs2 Hq2 Hm2] & Hr & Hmask). apply wp_bind. unfold wp at 1, set_irq.
  apply wp_ret. unfold flags_of in *. cbn. rewrite Hc2.
  split; [congruence|]. split; [congruence|]. split; [done|].
  repeat (split; [done|]). split; [by apply Hoff|done].
Qed.

(** *** Unmasking one line *)

Lemma testbit_u8 x i : 0 ≤ i < 8 → Z.testbit (u8 x) i = Z.testbit x i.
Proof. intros Hi. unfold u8. apply Z.mod_pow2_bits_low. lia. Qed.

Lemma testbit_not32_bit n i :
  0 ≤ n < 8 → 0 ≤ i < 8 → Z.testbit (not32 (bit32 n)) i = negb (i =? n).
Proof.
  intros Hn Hi. unfold not32, bit32, u32. rewrite Z.mod_pow2_bits_low, Z.lnot_spec by lia.
  rewrite Z.mod_pow2_bits_low, Z.shiftl_1_l, Z.pow2_bits_eqb by lia. by rewrite Z.eqb_sym.
Qed.

(** A mask written to a controller that expects no initialization word. *)
Lemma pic_data_mask v p :
  expects p = 0 → pic_data v p =
    {| expects := 0; single := single p; wants_mode := wants_mode p;
       vector_base := vector_base p; cascade := cascade p; mode := mode p; mask := v |}.
Proof. intros H. unfold pic_data. by rewrite H. Qed.

(** The masks after line [n] has been taken out. *)
Definition unmasks (n : Z) (p p' : PIC * PIC) : Prop :=
  (remapped p → remapped p') ∧
  ∀ i, 0 ≤ i < 16 → masked p' i = masked p i && negb (i =? n) && negb ((8 <=? n) && (i =? 2)).

(** Bit [n] of the mask at [port] is cleared, and nothing else. *)
Record cleared (port n : Z) k k' : Prop := {
  cl_trace : ∃ v w, trace k' = trace k ++ [In port v; Out port w; Out 0x80 0];
  cl_software : same_software k k';
  cl_pit : pit (device k') = pit (device k);
  cl_remapped : remapped (pics (device k)) → remapped (pics (device k'));
  cl_master : expects (fst (pics (device k'))) = 0;
  cl_slave : expects (snd (pics (device k'))) = 0;
  cl_masks i : 0 ≤ i < 16 → masked (pics (device k')) i =
    masked (pics (device k)) i && negb (i =? n + if port =? 0x21 then 0 else 8);
}.

Lemma wp_clear_mask port n k :
  0 ≤ n < 8 → expects (fst (pics (device k))) = 0 → expects (snd (pics (device k))) = 0 →
  port = 0x21 ∨ port = 0xa1 →
  wp (v ← x86_inb port; pic_write port (Z.land v (not32 (bit32 n)))) (λ _, cleared port n k) k.
Proof.
  intros Hn Hm0 Hs0 Hport. apply wp_bind. eapply wp_mono; [apply wp_inb|].
  intros v k1 [_ H1]. eapply wp_mono; [apply does_pic_write|]. intros [] k2 H2.
  destruct (did_app _ _ _ _ _ (accessed_did _ _ _ H1) H2) as [Ht [-> Hd] Hsw]. clear k1 H1 H2.
  assert (pit (device k2) = pit (device k)) as Hpit.
  { rewrite (pit_evolves _ _ _ Hd), pit_in. by destruct Hport as [-> | ->]. }
  pose proof (pics_evolves _ _ _ Hd) as Hp2. rewrite pics_in in Hp2. clear Hd.
  destruct Hport as [-> | ->];
    [change (u16 0x21) with 0x21 in *; rewrite pics_master_mask in Hp2
    |change (u16 0xa1) with 0xa1 in *; rewrite pics_slave_mask in Hp2];
    cbn [app foldl pics_step] in Hp2; destruct (pics (device k)) as [m0 s0] eqn:Hp0; cbn [fst snd] in *;
    rewrite pic_data_mask in Hp2 by done;
    (split; [eexists _, _; exact Ht|done|done|rewrite Hp2, Hp0; unfold remapped; cbn; tauto|by rewrite Hp2|by rewrite Hp2|]);
    intros i Hi; rewrite Hp2, Hp0; unfold masked; cbn [fst snd mask];
    destruct (Z.ltb_spec i 8);
    try (rewrite testbit_u8, Z.land_spec, testbit_u8, testbit_not32_bit by lia);
    cbn [Z.eqb Pos.eqb]; rewrite ?Z.add_0_r; try done.
  - by rewrite (proj2 (Z.eqb_neq i n)), andb_true_r by lia.
  - by rewrite (proj2 (Z.eqb_neq i (n + 8))), andb_true_r by lia.
  - f_equal. f_equal. destruct (Z.eqb_spec (i - 8) n), (Z.eqb_spec i (n + 8)); lia || done.
Qed.

Lemma wp_irq_enable n k :
  irq_initialized (irq k) = true → has_bits (flags_of k) 0x200 = false → 0 ≤ n < 16 →
  expects (fst (pics (device k))) = 0 → expects (snd (pics (device k))) = 0 →
  wp (irq_enable n) (λ ok k', ok = true ∧ same_software k k' ∧ pit (device k') = pit (device k) ∧
    unmasks n (pics (device k)) (pics (device k'))) k.
Proof.
  intros Hinit Hf Hn Hm Hs. unfold irq_enable. apply wp_bind, wp_get, wp_bind, wp_get.
  change (x86_read_rflags (cpu k)) with (flags_of k).
  rewrite Hinit, Hf, (proj2 (Z.leb_gt 16 n)) by lia. cbn [negb orb]. cbv zeta.
  assert (0 ≤ Z.land n 7 < 8 ∧ n = Z.land n 7 + if n <? 8 then 0 else 8) as [Hl Hnl].
  { change 7 with (Z.ones 3). rewrite Z.land_ones by lia. change (2 ^ 3) with 8.
    destruct (Z.ltb_spec n 8); zdm. }
  apply wp_assoc, wp_bind.
  eapply wp_mono; [apply wp_clear_mask; [done|done|done|destruct (n <? 8); auto]|].
  intros [] k1 [_ Hsw1 Hpit1 Hr1 Hm1 Hs1 Hx1]. apply wp_bind. destruct (Z.leb_spec 8 n).
  - rewrite (proj2 (Z.ltb_ge n 8)) in * by lia. cbn [Z.eqb Pos.eqb] in Hx1.
    eapply wp_mono; [apply (wp_clear_mask 0x21 2); [lia|done|done|by left]|].
    intros [] k2 [_ Hsw2 Hpit2 Hr2 Hm2 Hs2 Hx2]. apply wp_ret.
    split; [done|]. split; [destruct Hsw1, Hsw2; split; congruence|]. split; [congruence|].
    split; [auto|]. intros i Hi. rewrite Hx2, Hx1, <- Hnl by done. cbn [Z.eqb Pos.eqb].
    by rewrite (proj2 (Z.leb_le 8 n)) by lia.
  - rewrite (proj2 (Z.ltb_lt n 8)) in * by lia. cbn [Z.eqb Pos.eqb] in Hx1.
    apply wp_ret, wp_ret. split; [done|]. split; [done|]. split; [done|].
    split; [auto|]. intros i Hi. rewrite Hx1, <- Hnl by done.
    by rewrite (proj2 (Z.leb_gt 8 n)), andb_true_r by lia.
Qed.


(** *** The timer *)

Lemma wp_timer_init k :
  wp timer_init (λ ok k', serial k' = serial k ∧ flags_of k' = flags_of k ∧
    if ok then
      timer_initialized (timer k) = false ∧ startable k ∧
      irq_initialized (irq k') = true ∧ timer k' = {| ticks := 0; timer_initialized := true |} ∧
      apic_off (cpu k') ∧ remapped (pics (device k')) ∧
      (∀ i, 0 ≤ i < 16 → masked (pics (device k')) i = negb (i =? 0)) ∧
      pit (device k') = {| pit_mode := 2; pit_low := None; divisor := Some 11932 |}
    else
      (timer_initialized (timer k) = true ∨ ¬ startable k) ∧ trace k' = trace k) k.
Proof.
  unfold timer_init. apply wp_bind, wp_get, wp_bind, wp_get.
  change (x86_read_rflags (cpu k)) with (flags_of k).
  destruct (timer_initialized (timer k)) eqn:Hti; [by repeat split; left|].
  destruct (has_bits (flags_of k) 0x200) eqn:Hif; cbn [orb].
  { apply wp_ret. repeat split. right. intros (_ & ? & _). congruence. }
  apply wp_bind. eapply wp_mono; [apply wp_irq_init|].
  intros [|] k1 (Hs1 & Hm1 & Hf1 & H1); cbn [negb]; [|apply wp_ret; split; [done|]; split; [done|];
    by destruct H1; split; [right|]].
  destruct H1 as (Hst & Hi1 & Ha1 & Hr1 & Hx1).
  assert (does [Out 0x43 0x34; Out 0x40 156; Out 0x40 46]
    (x86_outb 0x43 0x34;; x86_outb 0x40 (Z.land 11932 255);; x86_outb 0x40 (Z.shiftr 11932 8)))
    as Hdo by (apply (does_seq [_] [_; _]); [|apply (does_seq [_] [_])]; apply does_outb).
  apply wp_bind3. eapply wp_mono; [apply Hdo|]. intros [] k2 [_ Hd2 [Hc2 Hs2 Hq2 Hm2]].
  pose proof (pics_evolves _ _ _ Hd2) as Hp2. pose proof (pit_evolves _ _ _ Hd2) as Ht2.
  cbn [foldl pics_step] in Hp2.
  apply wp_bind. unfold wp at 1, set_timer.
  eapply wp_mono.
  { apply (wp_irq_enable 0); cbn; [congruence| |lia|rewrite Hp2; apply Hr1|rewrite Hp2; apply Hr1].
    unfold flags_of in *. cbn. by rewrite Hc2, Hf1. }
  intros ok k3 (-> & [Hc3 Hs3 Hq3 Hm3] & Ht3 & Hr3 & Hx3). cbn [cpu serial irq timer device] in *.
  split; [congruence|]. split; [unfold flags_of in *; congruence|].
  split; [done|]. split; [done|]. split; [congruence|]. split; [congruence|].
  split; [by rewrite Hc3, Hc2|]. split; [by rewrite Hp2 in Hr3; auto|].
  split; [|by rewrite Ht3, Ht2].
  intros i Hi. rewrite Hx3, Hp2, Hx1 by done. cbn. by rewrite andb_true_r.
Qed.

(** ** Dispatch *)

(** The acknowledgements of a vector, and the accesses that are none. *)
Definition eoi (v : Z) : list access :=
  (if 40 <=? v then [Out 0xa0 0x20] else []) ++ [Out 0x20 0x20].
Definition not_eoi (a : access) : Prop := a ≠ Out 0x20 0x20 ∧ a ≠ Out 0xa0 0x20.

Definition unexpected (v : Z) : bool := negb (v =? 32) && negb (v =? 36).

(** What the handler of [v] does to the drivers' variables. *)
Definition handled (v : Z) k k' : Prop :=
  if v =? 32 then
    ticks (timer k') = u64 (ticks (timer k) + 1) ∧ serial k' = serial k ∧ irq k' = irq k
  else if v =? 36 then
    timer k' = timer k ∧ irq k' = irq k ∧
    serial_rx_interrupts (serial k') = u64 (serial_rx_interrupts (serial k) + 1)
  else
    timer k' = timer k ∧ serial k' = serial k ∧
    irq_initialized (irq k') = irq_initialized (irq k) ∧
    unexpected_irqs (irq k') = u64 (unexpected_irqs (irq k) + 1).

(** Neither initialization in progress. *)
Definition settled (p : PIC * PIC) : Prop := expects (fst p) = 0 ∧ expects (snd p) = 0.

Lemma testbit_bit32 n i : 0 ≤ n < 8 → 0 ≤ i < 8 → Z.testbit (bit32 n) i = (i =? n).
Proof.
  intros Hn Hi. unfold bit32, u32.
  rewrite Z.mod_pow2_bits_low, Z.shiftl_1_l, Z.pow2_bits_eqb by lia. apply Z.eqb_sym.
Qed.

(** The state after the handler: the accesses [l] are no acknowledgements, and
    an unexpected interrupt's line is masked. *)
Record served (v : Z) (l : list access) k k' : Prop := {
  sv_trace : trace k' = trace k ++ l;
  sv_device : evolves (device k) l (device k');
  sv_eoi : Forall not_eoi l;
  sv_handled : handled v k k';
  sv_masks : settled (pics (device k)) → settled (pics (device k')) ∧
    ∀ i, 0 ≤ i < 16 → masked (pics (device k')) i =
      masked (pics (device k)) i || (unexpected v && (i =? v - 32));
}.

Lemma handler_access_not_eoi a : handler_access a → not_eoi a.
Proof. destruct a as [p v|p v]; [done|]. intros [-> | ->]; done. Qed.

Lemma handler_access_pics l p :
  Forall handler_access l → foldl pics_step p l = p.
Proof.
  intros Hl. revert p. induction Hl as [|a l Ha _ IH]; intros p; [done|]. cbn [foldl].
  rewrite <- (IH p) at 2. f_equal. destruct a as [q v|q v]; [done|]. by destruct Ha as [-> | ->].
Qed.


(** The lines are masked as before, but for one that a write of the old mask
    with one more bit adds. *)
Lemma masks_set_bit v p :
  32 ≤ v < 48 → settled p →
  let port := if v <? 40 then 0x21 else 0xa1 in
  let old := if v <? 40 then mask (fst p) else mask (snd p) in
  let p' := pics_step p (Out port (u8 (Z.lor (u8 old) (bit32 (Z.land (v - 32) 7))))) in
  settled p' ∧ ∀ i, 0 ≤ i < 16 → masked p' i = masked p i || (i =? v - 32).
Proof.
  intros Hv [Hm Hs]. cbv zeta. destruct p as [m s]. cbn [fst snd] in *.
  assert (0 ≤ Z.land (v - 32) 7 < 8 ∧ v - 32 = Z.land (v - 32) 7 + if v <? 40 then 0 else 8) as [Hl Hvl].
  { change 7 with (Z.ones 3). rewrite Z.land_ones by lia. change (2 ^ 3) with 8.
    destruct (Z.ltb_spec v 40); zdm. }
  revert Hl Hvl. generalize (Z.land (v - 32) 7). intros n Hl ->.
  destruct (Z.ltb_spec v 40); cbn [pics_step fst snd]; rewrite pic_data_mask by done;
    (split; [done|]); intros i Hi; unfold masked; cbn [fst snd mask]; destruct (Z.ltb_spec i 8);
    try (rewrite testbit_u8, Z.lor_spec, testbit_u8, testbit_bit32 by lia);
    rewrite ?Z.add_0_r.
  - done.
  - by rewrite (proj2 (Z.eqb_neq i _)), orb_false_r by lia.
  - by rewrite (proj2 (Z.eqb_neq i _)), orb_false_r by lia.
  - f_equal. destruct (Z.eqb_spec (i - 8) n), (Z.eqb_spec i (n + 8));
      lia || done.
Qed.

Lemma wp_handle v k :
  32 ≤ v < 48 → rx_wf (receive_buffer (serial k)) →
  wp (handle v) (λ _ k', ∃ l, served v l k k') k.
Proof.
  intros Hv Hwf. unfold handle.
  destruct (Z.eqb_spec v 32) as [->|H32].
  { exists []. split; [by rewrite app_nil_r|done|constructor|done|].
    intros Hp. split; [done|]. intros i _. by rewrite orb_false_r. }
  destruct (Z.eqb_spec v 36) as [->|H36].
  { eapply wp_mono; [apply (wp_and _ _ _ _ (wp_serial_interrupt k Hwf) (keeps_serial_interrupt k))|].
    intros [] k' [(_ & _ & Hi & Hq & Hm) [(l & Ht & Hd & Hl) _ _ _]]. exists l.
    split; [done|done|by eapply Forall_impl; [|apply handler_access_not_eoi]|done|].
    intros Hp. rewrite (pics_evolves _ _ _ Hd), handler_access_pics by done. split; [done|].
    intros i _. by rewrite orb_false_r. }
  apply wp_bind. unfold wp at 1. cbn [count_unexpected set_irq]. cbv zeta.
  apply wp_bind. eapply wp_mono; [apply wp_inb|]. intros w k1 [_ H1].
  eapply wp_mono; [apply wp_outb|]. intros [] k2 H2.
  destruct (did_app _ _ _ _ _ (accessed_did _ _ _ H1) (accessed_did _ _ _ H2)) as [Ht Hd Hsw].
  eexists. split; [exact Ht|exact Hd| | |].
  - destruct (v <? 40); repeat constructor; done.
  - unfold handled. rewrite (proj2 (Z.eqb_neq v 32)), (proj2 (Z.eqb_neq v 36)) by done.
    destruct Hsw as [_ Hs Hq Hm]. rewrite Hs, Hq, Hm. done.
  - intros Hp. pose proof (masks_set_bit v _ Hv Hp) as Hset. cbv zeta in Hset.
    unfold unexpected. rewrite (proj2 (Z.eqb_neq v 32)), (proj2 (Z.eqb_neq v 36)) by done.
    cbn [negb andb]. destruct H1 as [_ [Hw _] _]. rewrite (pics_evolves _ _ _ Hd). cbn [app foldl device] in *.
    revert Hset. subst w. destruct (v <? 40).
    + change (u16 33) with 33. by rewrite pics_master_mask.
    + change (u16 161) with 161. by rewrite pics_slave_mask.
Qed.

(** The probe of the in-service register, which shows the interrupt or does
    not. *)
Definition probe (v r : Z) : list access :=
  if v =? 39 then [Out 0x20 0x0b; In 0x20 r]
  else if v =? 47 then [Out 0xa0 0x0b; In 0xa0 r]
  else [].

Definition genuine (v : Z) (l : list access) : Prop :=
  ∃ r, l = probe v r ∧ (v = 39 ∨ v = 47 → has_bits r 0x80 = true).

(** A spurious interrupt of the slave is acknowledged to the master only. *)
Definition spurious_accesses (v : Z) (l : list access) : Prop :=
  (v = 39 ∨ v = 47) ∧
  ∃ r, has_bits r 0x80 = false ∧ l = probe v r ++ if v =? 47 then [Out 0x20 0x20] else [].

Lemma wp_spurious v k :
  wp (spurious v) (λ skip k', ∃ l, did l k k' ∧
    if (skip : bool) then spurious_accesses v l else genuine v l) k.
Proof.
  unfold spurious, spurious_accesses, genuine, probe.
  destruct (Z.eqb_spec v 39) as [->|H39]; [|destruct (Z.eqb_spec v 47) as [->|H47]]; cbn [orb].
  3: { exists []. split; [apply did_nil|]. exists 0. split; [done|]. tauto. }
  all: cbn [Z.eqb Pos.eqb]; cbv zeta; apply wp_bind; (eapply wp_mono; [apply wp_outb|]); intros [] k1 H1;
    apply wp_bind; (eapply wp_mono; [apply wp_inb|]); intros r k2 [_ H2];
    pose proof (did_app _ _ _ _ _ (accessed_did _ _ _ H1) (accessed_did _ _ _ H2)) as H12;
    destruct (has_bits r 0x80) eqn:Hr; cbn [negb];
    [by apply wp_ret; eexists; split; [exact H12|]; exists r|].
  - apply wp_bind, wp_ret, wp_ret. eexists. split; [exact H12|]. split; [by left|]. by exists r.
  - apply wp_bind. eapply wp_mono; [apply wp_outb|]. intros [] k3 H3. apply wp_ret.
    eexists. split; [apply (did_app _ _ _ _ _ H12 (accessed_did _ _ _ H3))|].
    split; [by right|]. by exists r.
Qed.

Lemma pics_probe v r p : foldl pics_step p (probe v r) = p.
Proof. unfold probe. destruct p as [m s]. destruct (v =? 39), (v =? 47); done. Qed.

Lemma probe_not_eoi v r : Forall not_eoi (probe v r).
Proof. unfold probe. destruct (v =? 39), (v =? 47); by repeat constructor. Qed.

Lemma does_eoi v :
  does (eoi v) ((if 40 <=? v then x86_outb 0xa0 0x20 else mret tt);; x86_outb 0x20 0x20 : io D unit).
Proof.
  unfold eoi. apply does_seq; [|apply does_outb].
  destruct (40 <=? v); [apply does_outb|intros k; apply wp_ret, did_nil].
Qed.

Lemma pics_eoi v p : foldl pics_step p (eoi v) = p.
Proof. unfold eoi. destruct p as [m s]. by destruct (40 <=? v). Qed.

(** The outcome of a dispatch. *)
Definition dispatched (v : Z) k k' : Prop :=
  ∃ l, trace k' = trace k ++ l ∧ evolves (device k) l (device k') ∧
    ((spurious_accesses v l ∧ same_software k k' ∧ pics (device k') = pics (device k)) ∨
     (∃ before work, l = before ++ work ++ eoi v ∧ genuine v before ∧
        Forall not_eoi (before ++ work) ∧ handled v k k' ∧
        (settled (pics (device k)) → settled (pics (device k')) ∧
           ∀ i, 0 ≤ i < 16 → masked (pics (device k')) i =
             masked (pics (device k)) i || (unexpected v && (i =? v - 32))))).

Lemma wp_irq_dispatch v k :
  32 ≤ v < 48 → rx_wf (receive_buffer (serial k)) →
  wp (irq_dispatch v) (λ _, dispatched v k) k.
Proof.
  intros Hv Hwf. unfold irq_dispatch. apply wp_bind. eapply wp_mono; [apply wp_spurious|].
  intros skip k1 (l1 & [Ht1 Hd1 Hsw1] & H1). destruct skip.
  - apply wp_ret. exists l1. split; [done|]. split; [done|]. left. split; [done|]. split; [done|].
    rewrite (pics_evolves _ _ _ Hd1). destruct H1 as (_ & r & _ & ->). rewrite foldl_app, pics_probe.
    destruct (pics (device k)) as [m s]. by destruct (v =? 47).
  - destruct H1 as (r & -> & Hr).
    assert (pics (device k1) = pics (device k)) as Hp1
      by (by rewrite (pics_evolves _ _ _ Hd1), pics_probe).
    apply wp_bind. eapply wp_mono; [apply wp_handle; [done|by rewrite (sw_serial _ _ Hsw1)]|].
    intros [] k2 (l2 & [Ht2 Hd2 He2 Hh2 Hm2]).
    eapply wp_mono; [apply (does_eoi v)|]. intros [] k3 [Ht3 Hd3 Hsw3].
    exists (probe v r ++ l2 ++ eoi v). split; [by rewrite Ht3, Ht2, Ht1, !app_assoc|].
    split; [by eapply evolves_app; [done|]; eapply evolves_app|]. right. exists (probe v r), l2.
    split; [done|]. split; [by exists r|].
    split; [apply Forall_app; split; [apply probe_not_eoi|done]|]. split.
    + destruct Hsw1 as [_ Hs1 Hq1 Hm1], Hsw3 as [_ Hs3 Hq3 Hm3]. unfold handled in *.
      by rewrite Hs3, Hq3, Hm3, <- Hs1, <- Hq1, <- Hm1.
    + rewrite (pics_evolves _ _ _ Hd3), pics_eoi. rewrite Hp1 in Hm2. exact Hm2.
Qed.

End driver.

(** ** Properties *)

(** C34: [timer_init] takes over the interrupt hardware or leaves it alone: it
    succeeds exactly when neither the timer nor the controllers are initialized,
    interrupts are off and the local APIC is not in x2APIC mode. Then, from any
    state of the chips, the controllers are remapped to vectors 32 to 47, only
    the timer's line is unmasked, channel 0 runs in mode 2 with divisor 11932,
    the local APIC is off and the ticks are zero. Otherwise no port is
    touched. *)
Theorem timer_init_programs_hardware {D} `{!Device D} `{!Board D} (k : KERNEL D) :
  let '(ok, k') := timer_init k in
  rflags (cpu k') = rflags (cpu k) ∧ serial k' = serial k ∧
  (ok = true ↔ timer_initialized (timer k) = false ∧ startable k) ∧
  if ok then
    irq_initialized (irq k') = true ∧ timer k' = {| ticks := 0; timer_initialized := true |} ∧
    apic_off (cpu k') ∧ remapped (pics (device k')) ∧
    (∀ i, 0 ≤ i < 16 → masked (pics (device k')) i = negb (i =? 0)) ∧
    pit (device k') = {| pit_mode := 2; pit_low := None; divisor := Some 11932 |}
  else trace k' = trace k.
Proof.
  pose proof (wp_timer_init k) as H. unfold wp in H. destruct (timer_init k) as [ok k'].
  destruct H as (Hs & Hf & H). split; [exact Hf|]. split; [done|]. destruct ok.
  - destruct H as (Ht & Hst & H). split; [tauto|exact H].
  - destruct H as [H Htr]. split; [|done]. split; [done|]. intros [Ht Hst].
    destruct H as [H|H]; [congruence|done].
Qed.

(** On initialized controllers, with interrupts off, [irq_enable] unmasks
    the given line and, for a line of the slave, the slave's own line at the
    master, and leaves every other line and the controllers' set-up alone. *)
Theorem irq_enable_unmasks_line {D} `{!Device D} `{!Board D} n (k : KERNEL D) :
  irq_initialized (irq k) = true → has_bits (rflags (cpu k)) 0x200 = false → 0 ≤ n < 16 →
  remapped (pics (device k)) →
  let '(ok, k') := irq_enable n k in
  ok = true ∧ same_software k k' ∧ remapped (pics (device k')) ∧
  ∀ i, 0 ≤ i < 16 → masked (pics (device k')) i =
    masked (pics (device k)) i && negb (i =? n) && negb ((8 <=? n) && (i =? 2)).
Proof.
  intros Hi Hf Hn Hr. pose proof Hr as (Hm & _ & _ & _ & Hs & _).
  pose proof (wp_irq_enable n k Hi Hf Hn Hm Hs) as H. unfold wp in H.
  destruct (irq_enable n k) as [ok k']. destruct H as (Hok & Hsw & _ & Hr' & Hx).
  split; [done|]. split; [done|]. split; [by apply Hr'|done].
Qed.

(** C33: the dispatch of every external interrupt acknowledges it as the
    controllers need it. One that the in-service register does not show is
    spurious: nothing is handled, and only the slave's is acknowledged, to the
    master. Any other is handled once - a tick, the serial handler, or the count
    of unexpected interrupts and the masking of the line - and then, last,
    acknowledged once to the master, after the slave if it came from there. *)
Theorem irq_dispatch_acknowledges {D} `{!Device D} `{!Board D} v (k : KERNEL D) :
  32 ≤ v < 48 → rx_wf (receive_buffer (serial k)) →
  dispatched v k (snd (irq_dispatch v k)).
Proof.
  intros Hv Hwf. pose proof (wp_irq_dispatch v k Hv Hwf) as H. unfold wp in H.
  by destruct (irq_dispatch v k).
Qed.


(** *** Chips to run the drivers on *)

Record CHIPS := { c_pics : PIC * PIC; c_pit : PIT; in_service : Z }.

#[local] Instance chips : Device CHIPS := {|
  port_in p d :=
    (if p =? 0x21 then mask (fst (c_pics d)) else if p =? 0xa1 then mask (snd (c_pics d))
     else in_service d, d);
  port_out p v d :=
    {| c_pics := pics_step (c_pics d) (Out p v); c_pit := pit_step (c_pit d) (Out p v);
       in_service := in_service d |};
  requests _ := [];
  requests_range _ := Forall_nil_2 _;
|}.

#[local] Program Instance chips_board : Board CHIPS := {| pics := c_pics; pit := c_pit |}.
Solve All Obligations with done.

(** The master in the middle of its initialization, the slave after its. *)
Definition firmware_chips : CHIPS := {|
  c_pics := ({| expects := 3; single := false; wants_mode := true; vector_base := 8; cascade := 0;
                mode := 0; mask := 0 |},
             {| expects := 0; single := false; wants_mode := true; vector_base := 112;
                cascade := 2; mode := 1; mask := 0x8f |});
  c_pit := {| pit_mode := 3; pit_low := Some 7; divisor := None |};
  in_service := 0;
|}.

Definition boot (d : CHIPS) : KERNEL CHIPS :=
  {| cpu := {| rflags := 2; cr0 := 0; cr3 := 0; cr4 := 0; msr := <[0x1b := 0xfee00900]> ∅;
               cpuid := λ _ _, {| eax := 0; ebx := 0; ecx := 0; edx := 0x200 |}; tlb := ∅ |};
     device := d; trace := []; serial := serial_bss; irq := irq_bss; timer := timer_bss |}.

Definition running : KERNEL CHIPS := snd (timer_init (boot firmware_chips)).

Example timer_init_runs :
  fst (timer_init (boot firmware_chips)) = true ∧ masked (pics (device running)) 0 = false ∧
  masked (pics (device running)) 4 = true ∧ x86_read_msr 0x1b (cpu running) = 0xfee00100.
Proof. repeat split; by vm_compute. Qed.

Lemma running_remapped : remapped (pics (device running)).
Proof. repeat split; by vm_compute. Qed.

(** A spurious interrupt of the slave. *)
Lemma irq_dispatch_acknowledges_witness :
  dispatched 47 running (snd (irq_dispatch 47 running)).
Proof. apply irq_dispatch_acknowledges; [done|]. split; by vm_compute. Defined.

End IrqSpec.
