(* ===== verification/KernelConsole.v ===== *)
(** * The console on the kernel's drivers

    The interface the console is written against ([Console.Board]) is
    implemented by the serial driver, the timer and the page allocator; the
    contract it relies on ([ConsoleSpec.BoardContract]) follows from what the
    drivers promise. Together: what is on the wire after any number of turns of
    the main loop, on any hardware and under any interrupts. *)

From Stdlib Require Import String.
From S2P Require Import Prelude X86 RxBuffer Devices SerialIrq Irq Serial Frames SerialSpec Timer.
From S2P Require Import Text Pmm Console ConsoleSpec.

Module KernelConsole.
Import X86 RxBuffer Devices Irq Frames SerialSpec.

(** The drivers and the allocator; [reports] is the history of what
    [serial_read] has returned. *)
Record SYSTEM (D : Type) := {
  drivers : KERNEL D;
  pages : Pmm.PMM;
  reports : list ConsoleSpec.input;
}.
Arguments Build_SYSTEM {D}.
Arguments drivers {D}.
Arguments pages {D}.
Arguments reports {D}.

Section system.
Context {D : Type} `{!Device D}.
Implicit Types (s : SYSTEM D) (k : KERNEL D).

Definition lift {A} (m : io D A) s : A * SYSTEM D :=
  let '(a, k) := m (drivers s) in
  (a, {| drivers := k; pages := pages s; reports := reports s |}).

(** [sti], [cli] and [sti; hlt], which takes the interrupts it waits for. *)
Definition enable : io D unit := set_cpu x86_enable_interrupts;; interrupts.
Definition disable : io D unit := set_cpu x86_disable_interrupts.

(** The byte is what was on the caller's stack when none is stored. *)
Definition read s : Z * Z * SYSTEM D :=
  let '((status, byte), s) := lift Serial.serial_read s in
  let byte := default 0 byte in
  (status, byte,
   {| drivers := drivers s; pages := pages s;
      reports := reports s ++ [ConsoleSpec.input_of status byte] |}).

#[export] Instance system_board : Console.Board (SYSTEM D) := {|
  Console.serial_write t := lift (Serial.serial_write t);
  Console.serial_flush := lift Serial.serial_flush;
  Console.serial_read := read;
  Console.timer_ticks s := fst (Timer.timer_ticks (drivers s));
  Console.pmm_total s := Pmm.pmm_total (pages s);
  Console.pmm_available s := Pmm.pmm_available (pages s);
  Console.x86_disable_interrupts s := snd (lift disable s);
  Console.x86_enable_interrupts s := snd (lift enable s);
  Console.x86_enable_and_idle s := snd (lift enable s);
|}.

(** The invariant of the drivers: the data port addresses the transmitter, which
    is never written to before it is ready, and the receive ring is well
    formed. *)
Definition drivers_ok k : Prop :=
  latch (line k) = false ∧ polite (line k) = true ∧ rx_wf (receive_buffer (serial k)).

#[export] Instance system_wire : ConsoleSpec.Wire (SYSTEM D) := {|
  ConsoleSpec.encode := expand;
  ConsoleSpec.sent s := wire (line (drivers s));
  ConsoleSpec.received := reports;
  ConsoleSpec.sound s := drivers_ok (drivers s);
|}.

Lemma expand_app t u : expand (t ++ u) = expand t ++ expand u.
Proof. unfold expand. apply bind_app. Qed.

(** A quiet part sends nothing. *)
Lemma quiet_ok k k' :
  quiet quiet_access k k' → drivers_ok k → drivers_ok k' ∧ wire (line k') = wire (line k).
Proof.
  intros H (Hl & Hp & Hr). destruct (quiet_line _ _ H Hl) as [[Hl' Hw Hp'] _].
  split; [|by rewrite Hw, app_nil_r].
  split; [done|]. split; [auto|]. by apply H.
Qed.

Lemma lift_moves {A} (m : io D A) s :
  (drivers_ok (drivers s) → wp m (λ _ k', drivers_ok k' ∧ wire (line k') = wire (line (drivers s)))
    (drivers s)) →
  ConsoleSpec.moves [] [] s (snd (lift m s)).
Proof.
  intros H. unfold lift, wp in *. destruct (m (drivers s)) as [a k]. split.
  - intros Hok. destruct (H Hok) as [Hk Hw]. split; [done|]. cbn. by rewrite app_nil_r.
  - cbn. by rewrite app_nil_r.
Qed.

Lemma keeps_ok {A} (m : io D A) k :
  keeps quiet_access m → drivers_ok k →
  wp m (λ _ k', drivers_ok k' ∧ wire (line k') = wire (line k)) k.
Proof. intros Hm Hk. eapply wp_mono; [apply Hm|]. intros a k' H. by apply quiet_ok. Qed.

(** The flag is a matter of the processor. *)
Lemma set_cpu_ok f k :
  drivers_ok k → wp (set_cpu f) (λ _ k', drivers_ok k' ∧ wire (line k') = wire (line k)) k.
Proof. by intros H. Qed.

Lemma enable_ok k :
  drivers_ok k → wp enable (λ _ k', drivers_ok k' ∧ wire (line k') = wire (line k)) k.
Proof.
  intros H. unfold enable. apply wp_bind. eapply wp_mono; [by apply set_cpu_ok|].
  intros [] k1 [H1 <-]. apply keeps_ok; [apply keeps_interrupts|done].
Qed.

(** A write that succeeds sends its text, and the ring stays well formed
    through the interrupts it takes. *)
Lemma serial_write_ring t k :
  rx_wf (receive_buffer (serial k)) →
  wp (Serial.serial_write t) (λ _ k', rx_wf (receive_buffer (serial k'))) k.
Proof.
  assert (∀ v k, rx_wf (receive_buffer (serial k)) →
    wp (Serial.put_byte v) (λ _ k', rx_wf (receive_buffer (serial k'))) k) as Hput.
  { clear. intros v k Hk. unfold Serial.put_byte. apply wp_bind.
    eapply wp_mono; [apply keeps_wait_status|]. intros [|] k1 H1; [|by apply H1].
    apply wp_bind. eapply wp_mono; [apply keeps_interrupts|]. intros [] k2 H2.
    by apply H2, H1. }
  revert k. induction t as [|c t IH]; intros k Hk; cbn [Serial.serial_write]; [done|].
  apply wp_bind. eapply wp_mono with (P := λ _ k', rx_wf (receive_buffer (serial k'))).
  { destruct (c =? 10); [by apply Hput|done]. }
  intros [|] k1 H1; [|done]. apply wp_bind. eapply wp_mono; [by apply Hput|].
  intros [|] k2 H2; [|done]. by apply IH.
Qed.

#[export] Instance system_contract : ConsoleSpec.BoardContract (SYSTEM D).
Proof.
  split.
  - done.
  - apply expand_app.
  - intros t s s' Hw. cbn in Hw. unfold lift in Hw.
    pose proof (wp_serial_write t (drivers s)) as H. pose proof (serial_write_ring t (drivers s)) as Hr.
    unfold wp in H, Hr. destruct (Serial.serial_write t (drivers s)) as [ok k].
    injection Hw as -> <-. split; [|by rewrite app_nil_r].
    intros (Hl & Hp & Hwf). destruct (H Hl) as (p & [Hs _] & _ & Hok). rewrite (Hok eq_refl) in Hs.
    destruct (Hs Hl) as [Hl' Hw Hp']. split; [|exact Hw]. split; [done|]. split; [auto|]. by apply Hr.
  - intros s s' Hf. pose proof (lift_moves Serial.serial_flush s) as H. cbn in Hf. rewrite Hf in H.
    apply H. intros Hok. apply keeps_ok; [apply keeps_wait_status|done].
  - intros s status byte s' Hread. cbn in Hread. unfold read, lift in Hread.
    unfold Serial.serial_read, mbind, st_bind, get in Hread.
    destruct (rx_read (receive_buffer (serial (drivers s)))) as [[st b] buf] eqn:Hrx.
    cbn in Hread. injection Hread as <- <- <-. split; [|done].
    intros (Hl & Hp & Hwf). split; [|cbn; by rewrite app_nil_r].
    split; [done|]. split; [done|]. cbn.
    pose proof (ring_step_refines Read _ Hwf) as H. cbn [ring_step] in H. rewrite Hrx in H. by destruct H.
  - intros s. apply lift_moves, set_cpu_ok.
  - intros s. apply lift_moves, enable_ok.
  - intros s. apply lift_moves, enable_ok.
Qed.

(** A line that is never ready is the only way to stop answering. *)
Lemma system_broken : ConsoleSpec.broken (S:=SYSTEM D) → ¬ prompt_hardware (D:=D).
Proof.
  intros [(t & s & H)|(s & H)] Hp; cbn in H; unfold lift in H.
  - pose proof (wp_serial_write_prompt t (drivers s) Hp) as Hw. unfold wp in Hw.
    destruct (Serial.serial_write t (drivers s)) as [ok k]. cbn in H. congruence.
  - pose proof (wp_wait_status_prompt 0x40 (drivers s) Hp) as Hw. unfold wp in Hw.
    unfold Serial.serial_flush in H. destruct (Serial.wait_status 0x40 (drivers s)) as [ok k].
    cbn in H. rewrite Hw in H by auto. done.
Qed.

(** What may have become of a system [s] after [n] turns of the console. *)
Definition conversed n s (o : Console.outcome Console.LINE_EDITOR (SYSTEM D)) : Prop :=
  let start := ConsoleSpec.Session [] 0 false false in
  let total := Pmm.pmm_total (pages s) in
  let free := Pmm.pmm_available (pages s) in
  match o with
  | Console.Done e s' =>
      drivers_ok (drivers s') ∧ ∃ ins t, List.length ins = n ∧ reports s' = reports s ++ ins ∧
        wire (line (drivers s')) = wire (line (drivers s)) ++ expand (ConsoleSpec.greeting ++ t) ∧
        ConsoleSpec.conversation total free ins start t (ConsoleSpec.session_of e)
  | Console.Halt s' =>
      drivers_ok (drivers s') ∧ ∃ ins t, (List.length ins ≤ n)%nat ∧ reports s' = reports s ++ ins ∧
        wire (line (drivers s')) = wire (line (drivers s)) ++ expand (ConsoleSpec.greeting ++ t) ∧
        ConsoleSpec.halted total free ins start t
  | Console.Spin _ => ¬ prompt_hardware (D:=D)
  end.

Lemma console_converses n junk s :
  List.length junk = 128%nat → drivers_ok (drivers s) →
  conversed n s (Console.console_run n junk s).
Proof.
  intros Hjunk Hok.
  pose proof (ConsoleSpec.wp_console_run n junk s Hjunk) as H.
  destruct (Console.console_run n junk s) as [e s'|s'|s']; cbn [ConsoleSpec.wp] in H.
  - destruct H as (_ & ins & t & Hlen & (Hs & Hr & _) & Hc). destruct (Hs Hok) as [Hok' Hw].
    split; [done|]. by exists ins, t.
  - by apply system_broken.
  - destruct H as (ins & t & Hlen & (Hs & Hr & _) & Hc). destruct (Hs Hok) as [Hok' Hw].
    split; [done|]. by exists ins, t.
Qed.

(** C36: the kernel's console on its drivers, whatever the hardware answers and
    whenever interrupts arrive: after any number of turns of the main loop the
    bytes on the wire are the greeting and the answers of the line discipline
    to what [serial_read] has reported, with CR LF for newlines, none written
    before the UART was ready; the driver's invariant holds; the processor is
    stopped only by a [halt] command, and the console spins only on a UART that
    is not always ready to send. *)
Theorem console_runs_on_drivers n junk s :
  List.length junk = 128%nat → drivers_ok (drivers s) →
  let start := ConsoleSpec.Session [] 0 false false in
  let total := Pmm.pmm_total (pages s) in
  let free := Pmm.pmm_available (pages s) in
  match Console.console_run n junk s with
  | Console.Done e s' =>
      drivers_ok (drivers s') ∧ ∃ ins t, List.length ins = n ∧ reports s' = reports s ++ ins ∧
        wire (line (drivers s')) = wire (line (drivers s)) ++ expand (ConsoleSpec.greeting ++ t) ∧
        ConsoleSpec.conversation total free ins start t (ConsoleSpec.session_of e)
  | Console.Halt s' =>
      drivers_ok (drivers s') ∧ ∃ ins t, (List.length ins ≤ n)%nat ∧ reports s' = reports s ++ ins ∧
        wire (line (drivers s')) = wire (line (drivers s)) ++ expand (ConsoleSpec.greeting ++ t) ∧
        ConsoleSpec.halted total free ins start t
  | Console.Spin _ => ¬ prompt_hardware (D:=D)
  end.
Proof. apply console_converses. Qed.

End system.


(** *** A UART with typed bytes waiting *)

#[local] Program Instance keyboard : Device (list Z) := {|
  port_in p d :=
    if p =? 0x3fa then (if decide (d = []) then 0x01 else 0x04, d)
    else if p =? 0x3fd then (if decide (d = []) then 0x60 else 0x61, d)
    else if p =? 0x3f8 then (hd 0 d, tl d)
    else (0, d);
  port_out _ _ d := d;
  requests d := if decide (d = []) then [] else [36];
|}.
Next Obligation. intros d. cbn. destruct (decide (d = [])); by repeat constructor. Qed.

Definition typing (t : list Z) : SYSTEM (list Z) := {|
  drivers := {|
    cpu := {| rflags := 2; cr0 := 0; cr3 := 0; cr4 := 0; msr := ∅;
              cpuid := λ _ _, {| eax := 0; ebx := 0; ecx := 0; edx := 0 |}; tlb := ∅ |};
    device := t; trace := []; serial := serial_bss; irq := irq_bss; timer := timer_bss |};
  pages := Pmm.pmm_bss;
  reports := [];
|}.

(** The user types [ticks] and [halt]; the handler of the first idle turn moves
    both lines into the ring. *)
Definition lines : list Z := Text.txt "ticks" ++ [13] ++ Text.txt "halt" ++ [13].

Example console_answers_on_the_wire :
  match Console.console_run 13 (replicate 128 0) (typing lines) with
  | Console.Halt s => wire (line (drivers s)) =
      expand (ConsoleSpec.greeting ++ Text.txt "ticks" ++ Text.newline ++
              Text.txt "ticks: 0" ++ Text.newline ++ Console.prompt ++
              Text.txt "halt" ++ Text.newline ++ ConsoleSpec.halt_text)
  | _ => False
  end.
Proof. by vm_compute. Qed.

Lemma console_runs_on_drivers_witness :
  match Console.console_run 13 (replicate 128 0) (typing lines) with
  | Console.Halt s' => ∃ ins t, (List.length ins ≤ 13)%nat ∧ reports s' = [] ++ ins ∧
      wire (line (drivers s')) = [] ++ expand (ConsoleSpec.greeting ++ t) ∧
      ConsoleSpec.halted 0 0 ins (ConsoleSpec.Session [] 0 false false) t
  | _ => False
  end.
Proof.
  pose proof (console_runs_on_drivers 13 (replicate 128 0) (typing lines) eq_refl) as H.
  specialize (H (conj eq_refl (conj eq_refl rx_bss_wf))).
  destruct (Console.console_run 13 (replicate 128 0) (typing lines)) as [e s|s|s] eqn:E;
    [by vm_compute in E|by vm_compute in E|].
  destruct H as (_ & ins & t & H). exists ins, t. exact H.
Defined.

End KernelConsole.
