(* ===== verification/Tables.v ===== *)
(** * Descriptor tables and the panic: [kernel/tables.c]

    The global descriptor table, the interrupt descriptor table and the task
    state segment as [tables_init] fills them, and the report of a fatal
    exception on the serial line. *)

From Stdlib Require Import String.
From S2P Require Import Prelude Text X86 Devices Serial.

Module Tables.
Export Text.
Import X86 Devices.

(** ** The structures *)

Record TABLE_POINTER := { limit : Z; base : Z }.

Record IDT_GATE := {
  offset_low : Z; selector : Z;
  ist : Z; attributes : Z;
  offset_mid : Z;
  offset_high : Z; reserved : Z;
}.

Record TSS := {
  reserved0 : Z;
  rsp : list Z; reserved1 : Z; tss_ist : list Z; reserved2 : Z;
  reserved3 : Z; iomap_base : Z;
}.

Definition sizeof_TSS : Z := 104.
Definition sizeof_double_fault_stack : Z := 16384.

(** The addresses of the static objects and of the interrupt stubs. *)
Record SYMBOLS := {
  at_gdt : Z;
  at_idt : Z;
  at_tss : Z;
  at_double_fault_stack : Z;
  isr_table : Z → Z;
}.

Record TABLES := {
  kernel_gdt : list Z;
  kernel_idt : list IDT_GATE;
  kernel_tss : TSS;
}.

(** What [tables_load] loads: the two pointers, the segment selectors and the
    task register. *)
Record LOADED := { gdtr : TABLE_POINTER; idtr : TABLE_POINTER; cs : Z; data_segments : Z; tr : Z }.

Definition tables_load (gdt idt : TABLE_POINTER) : LOADED :=
  {| gdtr := gdt; idtr := idt; cs := 0x08; data_segments := 0x10; tr := 0x18 |}.

(** ** [tables_init] *)

Definition idt_gate (target i : Z) : IDT_GATE := {|
  offset_low := u16 target;
  selector := 0x08;
  ist := if i =? 8 then 1 else 0;
  attributes := 0x8e;
  offset_mid := u16 (Z.shiftr target 16);
  offset_high := u32 (Z.shiftr target 32);
  reserved := 0;
|}.

(** The low half of the task segment's descriptor. *)
Definition tss_descriptor (base : Z) : Z :=
  Z.lor (Z.lor (Z.lor (sizeof_TSS - 1) (u64 (Z.shiftl (Z.land base 0xffffff) 16)))
           (u64 (Z.shiftl 0x89 40)))
    (u64 (Z.shiftl (Z.land (Z.shiftr base 24) 0xff) 56)).

Definition tables_init (sy : SYMBOLS) (stack_top : Z) (t : TABLES) : TABLES * LOADED :=
  let gdt := kernel_gdt t in
  let gdt := <[0%nat := 0]> gdt in
  let gdt := <[1%nat := 0x00af9a000000ffff]> gdt in
  let gdt := <[2%nat := 0x00cf92000000ffff]> gdt in
  let tss := kernel_tss t in
  let tss := {|
    reserved0 := reserved0 tss;
    rsp := <[0%nat := stack_top]> (rsp tss); reserved1 := reserved1 tss;
    tss_ist := <[0%nat := u64 (at_double_fault_stack sy + sizeof_double_fault_stack)]> (tss_ist tss);
    reserved2 := reserved2 tss; reserved3 := reserved3 tss;
    iomap_base := sizeof_TSS |} in
  let base := at_tss sy in
  let gdt := <[3%nat := tss_descriptor base]> gdt in
  let gdt := <[4%nat := Z.shiftr base 32]> gdt in
  let idt := for_all 0 1 256 (λ i idt, <[Z.to_nat i := idt_gate (isr_table sy i) i]> idt)
    (kernel_idt t) in
  ({| kernel_gdt := gdt; kernel_idt := idt; kernel_tss := tss |},
   tables_load {| limit := 8 * 5 - 1; base := at_gdt sy |}
     {| limit := 16 * 256 - 1; base := at_idt sy |}).

(** ** The panic *)

Record EXCEPTION_FRAME := {
  vector : Z; error : Z; rip : Z; frame_cs : Z; frame_rflags : Z; frame_rsp : Z; frame_ss : Z;
}.

Section panic.
Context {D : Type} `{!Device D}.

(** The array's initial value, then its sixteen digits. *)
Definition print_hex (label : list Z) (value : Z) : io D unit :=
  let text := put_hex value 2 (txt "0x0000000000000000" ++ newline) in
  Serial.serial_write label;;
  Serial.serial_write text;;
  mret tt.

(** Up to the jump to [exception_halt]. *)
Definition exception_panic (frame : EXCEPTION_FRAME) (cr2 : Z) : io D unit :=
  Serial.serial_write (newline ++ txt "EXCEPTION: fatal" ++ newline);;
  print_hex (txt "vector=") (vector frame);;
  print_hex (txt "error=") (error frame);;
  print_hex (txt "rip=") (rip frame);;
  print_hex (txt "cs=") (frame_cs frame);;
  print_hex (txt "rflags=") (frame_rflags frame);;
  print_hex (txt "rsp=") (frame_rsp frame);;
  (if vector frame =? 14 then print_hex (txt "cr2=") cr2 else mret tt);;
  Serial.serial_flush;;
  set_cpu x86_disable_interrupts.

End panic.

End Tables.
