(* ===== verification/TablesSpec.v ===== *)
(** * What the descriptor tables and the panic promise

    The tables as the processor decodes them, and the report of a fatal
    exception as it reaches the wire. *)

From Stdlib Require Import String.
From S2P Require Import Prelude Text X86 Devices SerialIrq Serial Frames SerialSpec Tables.

Module TablesSpec.
Import X86 Devices Frames SerialSpec Tables.

(** ** The processor's view of a descriptor *)

(** The [n] bits of [q] from bit [lo] on. *)
Definition field (q lo n : Z) : Z := q / 2 ^ lo mod 2 ^ n.

Record SEGMENT := {
  s_base : Z; s_limit : Z; s_type : Z; s_user : Z; s_dpl : Z; s_present : Z;
  s_long : Z; s_default : Z; s_granular : Z;
}.

(** [s_user] is the descriptor's S bit: 1 for code and data, 0 for a system
    segment. *)
Definition decode_segment (q : Z) : SEGMENT := {|
  s_base := field q 16 24 + 2 ^ 24 * field q 56 8;
  s_limit := field q 0 16 + 2 ^ 16 * field q 48 4;
  s_type := field q 40 4; s_user := field q 44 1; s_dpl := field q 45 2; s_present := field q 47 1;
  s_long := field q 53 1; s_default := field q 54 1; s_granular := field q 55 1;
|}.

(** A system descriptor has a second word with the rest of the base. *)
Definition decode_system (low high : Z) : SEGMENT :=
  let s := decode_segment low in
  {| s_base := s_base s + 2 ^ 32 * field high 0 32; s_limit := s_limit s; s_type := s_type s;
     s_user := s_user s; s_dpl := s_dpl s; s_present := s_present s; s_long := s_long s;
     s_default := s_default s; s_granular := s_granular s |}.

(** The two words of a gate in memory, little-endian. *)
Definition gate_low (g : IDT_GATE) : Z :=
  offset_low g + 2 ^ 16 * selector g + 2 ^ 32 * ist g + 2 ^ 40 * attributes g + 2 ^ 48 * offset_mid g.
Definition gate_high (g : IDT_GATE) : Z := offset_high g + 2 ^ 32 * reserved g.

Record GATE := { g_target : Z; g_selector : Z; g_ist : Z; g_type : Z; g_dpl : Z; g_present : Z }.

Definition decode_gate (low high : Z) : GATE := {|
  g_target := field low 0 16 + 2 ^ 16 * field low 48 16 + 2 ^ 32 * field high 0 32;
  g_selector := field low 16 16; g_ist := field low 32 3;
  g_type := field low 40 4; g_dpl := field low 45 2; g_present := field low 47 1;
|}.

(** ** Lemmas *)

(** Disjoint bit fields: the union is the sum. *)
Lemma lor_shiftl_add n a b :
  0 ≤ n → 0 ≤ a < 2 ^ n → Z.lor a (Z.shiftl b n) = a + b * 2 ^ n.
Proof.
  intros Hn Ha. rewrite <- Z.shiftl_mul_pow2 by done. symmetry. apply Z.add_nocarry_lor.
  apply Z.bits_inj'. intros i Hi. rewrite Z.land_spec, Z.bits_0, Z.shiftl_spec by done.
  destruct (Z.ltb_spec i n).
  - by rewrite (Z.testbit_neg_r b) by lia; rewrite andb_false_r.
  - rewrite <- (Z.mod_small a (2 ^ n)), Z.mod_pow2_bits_high by lia. done.
Qed.

Lemma tss_descriptor_eq base :
  is_u64 base → tss_descriptor base =
    103 + base mod 2 ^ 24 * 2 ^ 16 + 0x89 * 2 ^ 40 + base / 2 ^ 24 mod 2 ^ 8 * 2 ^ 56.
Proof.
  intros Hb. unfold tss_descriptor, sizeof_TSS.
  change 0xffffff with (Z.ones 24). change 0xff with (Z.ones 8).
  rewrite !Z.land_ones, Z.shiftr_div_pow2 by lia.
  assert (0 ≤ base mod 2 ^ 24 < 2 ^ 24) by (apply Z.mod_pos_bound; lia).
  assert (0 ≤ base / 2 ^ 24 mod 2 ^ 8 < 2 ^ 8) by (apply Z.mod_pos_bound; lia).
  revert H H0. generalize (base mod 2 ^ 24) (base / 2 ^ 24 mod 2 ^ 8). intros x y Hx Hy.
  assert (u64 (Z.shiftl x 16) = Z.shiftl x 16) as ->
    by (apply u64_small; unfold is_u64; rewrite Z.shiftl_mul_pow2; lia).
  assert (u64 (Z.shiftl 137 40) = Z.shiftl 137 40) as -> by done.
  assert (u64 (Z.shiftl y 56) = Z.shiftl y 56) as ->
    by (apply u64_small; unfold is_u64; rewrite Z.shiftl_mul_pow2; lia).
  rewrite (lor_shiftl_add 16), (lor_shiftl_add 40), (lor_shiftl_add 56) by lia. lia.
Qed.

Lemma decode_tss base :
  is_u64 base →
  decode_system (tss_descriptor base) (Z.shiftr base 32) =
    {| s_base := base; s_limit := 103; s_type := 9; s_user := 0; s_dpl := 0; s_present := 1;
       s_long := 0; s_default := 0; s_granular := 0 |}.
Proof.
  intros Hb. rewrite tss_descriptor_eq, Z.shiftr_div_pow2 by (done || lia).
  unfold is_u64 in Hb. unfold decode_system, decode_segment, field. cbn [s_base s_limit s_type s_user
    s_dpl s_present s_long s_default s_granular].
  assert (∃ x y z, base = x + 2 ^ 24 * y + 2 ^ 32 * z ∧ 0 ≤ x < 2 ^ 24 ∧ 0 ≤ y < 2 ^ 8 ∧ 0 ≤ z < 2 ^ 32)
    as (x & y & z & -> & Hx & Hy & Hz).
  { exists (base mod 2 ^ 24), (base / 2 ^ 24 mod 2 ^ 8), (base / 2 ^ 32). zdm. }
  replace ((x + 2 ^ 24 * y + 2 ^ 32 * z) mod 2 ^ 24) with x by zdm.
  replace ((x + 2 ^ 24 * y + 2 ^ 32 * z) / 2 ^ 24 mod 2 ^ 8) with y by zdm.
  replace ((x + 2 ^ 24 * y + 2 ^ 32 * z) / 2 ^ 32) with z by zdm.
  clear Hb. f_equal; zdm.
Qed.

Lemma decode_idt_gate target i :
  is_u64 target →
  decode_gate (gate_low (idt_gate target i)) (gate_high (idt_gate target i)) =
    {| g_target := target; g_selector := 8; g_ist := if i =? 8 then 1 else 0; g_type := 14;
       g_dpl := 0; g_present := 1 |}.
Proof.
  intros Ht. unfold is_u64 in Ht. unfold decode_gate, gate_low, gate_high, idt_gate, field.
  cbn [offset_low selector ist attributes offset_mid offset_high reserved].
  rewrite !Z.shiftr_div_pow2 by lia. unfold u16, u32.
  assert (∃ x y z, target = x + 2 ^ 16 * y + 2 ^ 32 * z ∧ 0 ≤ x < 2 ^ 16 ∧ 0 ≤ y < 2 ^ 16 ∧ 0 ≤ z < 2 ^ 32)
    as (x & y & z & -> & Hx & Hy & Hz).
  { exists (target mod 2 ^ 16), (target / 2 ^ 16 mod 2 ^ 16), (target / 2 ^ 32). zdm. }
  replace ((x + 2 ^ 16 * y + 2 ^ 32 * z) mod 2 ^ 16) with x by zdm.
  replace ((x + 2 ^ 16 * y + 2 ^ 32 * z) / 2 ^ 16 mod 2 ^ 16) with y by zdm.
  replace ((x + 2 ^ 16 * y + 2 ^ 32 * z) / 2 ^ 32 mod 2 ^ 32) with z by zdm.
  clear Ht. destruct (i =? 8); f_equal; zdm.
Qed.

Lemma fill_idt (f : Z → IDT_GATE) l i :
  List.length l = 256%nat → 0 ≤ i < 256 →
  for_all 0 1 256 (λ i l, <[Z.to_nat i := f i]> l) l !! Z.to_nat i = Some (f i).
Proof.
  intros Hl Hi.
  for_whole (λ n l', List.length l' = 256%nat ∧ ∀ j, 0 ≤ j < n → l' !! Z.to_nat j = Some (f j)).
  - split; [done|lia].
  - intros n l' Hn [Hl' H]. rewrite length_insert. split; [done|]. intros j Hj.
    destruct (decide (j = n)) as [->|Hne].
    + apply list_lookup_insert_eq. lia.
    + rewrite list_lookup_insert_ne by lia. apply H. lia.
  - destruct Hloop as [_ H]. apply H. lia.
Qed.

(** ** The panic *)

(** What a fatal exception is reported as. *)
Definition hex_line (label : string) (value : Z) : list Z :=
  txt label ++ txt "0x" ++ numeral value ++ newline.

Definition report (f : EXCEPTION_FRAME) (cr2 : Z) : list Z :=
  (newline ++ txt "EXCEPTION: fatal" ++ newline) ++
  hex_line "vector=" (vector f) ++ hex_line "error=" (error f) ++ hex_line "rip=" (rip f) ++
  hex_line "cs=" (frame_cs f) ++ hex_line "rflags=" (frame_rflags f) ++
  hex_line "rsp=" (frame_rsp f) ++
  (if vector f =? 14 then hex_line "cr2=" cr2 else []).

Section panic.
Context {D : Type} `{!Device D}.
Implicit Types (k : KERNEL D).

(** The line after a part of the panic: something is sent, politely, and [t] on
    hardware that is ready. *)
Definition reports (t : list Z) k k' : Prop :=
  latch (line k) = false →
  ∃ p, transmits (line k) p (line k') ∧ (prompt_hardware (D:=D) → p = expand t).

Lemma reports_app t1 t2 k1 k2 k3 : reports t1 k1 k2 → reports t2 k2 k3 → reports (t1 ++ t2) k1 k3.
Proof.
  intros H1 H2 Hk. destruct (H1 Hk) as (p1 & Ht1 & Hp1), (H2 (tr_latch _ _ _ Ht1)) as (p2 & Ht2 & Hp2).
  exists (p1 ++ p2). split; [by eapply transmits_app|]. intros Hp.
  unfold expand in *. by rewrite bind_app, Hp1, Hp2.
Qed.

Definition says {A} (t : list Z) (m : io D A) : Prop := ∀ k, wp m (λ _ k', reports t k k') k.

Lemma says_write t : says t (Serial.serial_write t).
Proof.
  intros k. unfold wp. pose proof (wp_serial_write t k) as H.
  pose proof (wp_serial_write_prompt t k) as Hp. unfold wp in *.
  destruct (Serial.serial_write t k) as [ok k']. intros Hk.
  destruct (H Hk) as (p & [Hs _] & _ & Hok). exists p. split; [by apply Hs|]. auto.
Qed.

Lemma says_bind {A B} t1 t2 (m1 : io D A) (m2 : io D B) :
  says t1 m1 → says t2 m2 → says (t1 ++ t2) (m1;; m2).
Proof.
  intros H1 H2 k. apply wp_bind. eapply wp_mono; [apply H1|]. intros a k1 Hk1.
  eapply wp_mono; [apply H2|]. intros b k2 Hk2. by apply (reports_app _ _ _ k1).
Qed.

Lemma says_quiet {A} (m : io D A) : keeps quiet_access m → says [] m.
Proof.
  intros Hm k. eapply wp_mono; [apply Hm|]. intros a k' H Hk. exists [].
  split; [by apply quiet_line|done].
Qed.

Lemma says_print_hex label value : says (hex_line label value) (print_hex (txt label) value).
Proof.
  unfold print_hex, hex_line. change (txt "0x0000000000000000" ++ newline) with
    (txt "0x" ++ txt "0000000000000000" ++ newline).
  change 2%nat with (List.length (txt "0x")). rewrite put_hex_spec by done.
  apply says_bind; [apply says_write|]. rewrite <- (app_nil_r (_ ++ _ ++ _)).
  apply says_bind; [apply says_write|]. apply says_quiet, keeps_ret.
Qed.

(** What only the last of two parts decides. *)
Lemma wp_last {A B} (m1 : io D A) (m2 : io D B) Q k :
  (∀ k, wp m2 Q k) → wp (m1;; m2) Q k.
Proof. intros H. apply wp_bind. unfold wp at 1. destruct (m1 k) as [a k']. apply H. Qed.

Lemma says_panic f cr2 :
  says (report f cr2) (exception_panic f cr2) ∧
  ∀ k, has_bits (rflags (cpu (snd (exception_panic f cr2 k)))) IF_BIT = false.
Proof.
  split.
  - unfold report, exception_panic. apply says_bind; [apply says_write|].
    do 6 (apply says_bind; [apply says_print_hex|]).
    rewrite <- (app_nil_r (if vector f =? 14 then _ else _)). apply says_bind.
    { destruct (vector f =? 14); [apply says_print_hex|apply says_quiet, keeps_ret]. }
    apply (says_bind []); [apply says_quiet, keeps_wait_status|].
    intros k Hk. exists []. by split; [apply transmits_nil|].
  - intros k.
    assert (wp (exception_panic f cr2) (λ _ k', has_bits (rflags (cpu k')) IF_BIT = false) k) as H.
    { unfold exception_panic. do 9 (apply wp_last; intros ?). unfold wp. cbn.
      change IF_BIT with (bit64 9). by apply land_not_bit64. }
    unfold wp in H. by destruct (exception_panic f cr2 k).
Qed.

End panic.

(** ** Properties *)

(** C37: as the processor decodes them, the tables [tables_init] fills and loads
    are what the kernel means: within the loaded limits, ring-0 64-bit code and
    writable data at the selectors loaded, a present 64-bit task segment of 104
    bytes at the task register's selector whose base is the TSS wherever it
    lies, and for each of the 256 vectors a present ring-0 interrupt gate to its
    stub, on stack 1 for the double fault only; that stack and the kernel's are
    in the TSS, which has no I/O bitmap. *)
Theorem tables_init_descriptors sy stack_top t :
  List.length (kernel_gdt t) = 5%nat → List.length (kernel_idt t) = 256%nat →
  List.length (rsp (kernel_tss t)) = 3%nat → List.length (tss_ist (kernel_tss t)) = 7%nat →
  is_u64 (at_tss sy) → (∀ i, 0 ≤ i < 256 → is_u64 (isr_table sy i)) →
  is_u64 (at_double_fault_stack sy + sizeof_double_fault_stack) →
  let '(t', l) := tables_init sy stack_top t in
  let entry q := default 0 (kernel_gdt t' !! Z.to_nat q) in
  base (gdtr l) = at_gdt sy ∧ limit (gdtr l) + 1 = 8 * Z.of_nat (List.length (kernel_gdt t')) ∧
  base (idtr l) = at_idt sy ∧ limit (idtr l) + 1 = 16 * 256 ∧
  entry 0 = 0 ∧
  decode_segment (entry (cs l / 8)) =
    {| s_base := 0; s_limit := 0xfffff; s_type := 0xa; s_user := 1; s_dpl := 0; s_present := 1;
       s_long := 1; s_default := 0; s_granular := 1 |} ∧
  decode_segment (entry (data_segments l / 8)) =
    {| s_base := 0; s_limit := 0xfffff; s_type := 2; s_user := 1; s_dpl := 0; s_present := 1;
       s_long := 0; s_default := 1; s_granular := 1 |} ∧
  decode_system (entry (tr l / 8)) (entry (tr l / 8 + 1)) =
    {| s_base := at_tss sy; s_limit := sizeof_TSS - 1; s_type := 9; s_user := 0; s_dpl := 0;
       s_present := 1; s_long := 0; s_default := 0; s_granular := 0 |} ∧
  (∀ i, 0 ≤ i < 256 → ∃ g, kernel_idt t' !! Z.to_nat i = Some g ∧
     decode_gate (gate_low g) (gate_high g) =
       {| g_target := isr_table sy i; g_selector := cs l; g_ist := if i =? 8 then 1 else 0;
          g_type := 14; g_dpl := 0; g_present := 1 |}) ∧
  rsp (kernel_tss t') !! 0%nat = Some stack_top ∧
  tss_ist (kernel_tss t') !! 0%nat = Some (at_double_fault_stack sy + sizeof_double_fault_stack) ∧
  sizeof_TSS ≤ iomap_base (kernel_tss t').
Proof.
  intros Hgdt Hidt Hrsp Hist Htss Hisr Hdf.
  destruct t as [gdt idt tss]. cbn [kernel_gdt kernel_idt kernel_tss] in *.
  do 5 (destruct gdt as [|? gdt]; [done|]). destruct gdt; [|done].
  unfold tables_init. cbv zeta. cbn [kernel_gdt kernel_idt kernel_tss rsp tss_ist].
  repeat (split; [done|]). split; [by apply decode_tss|].
  split. { intros i Hi. eexists. split; [by apply fill_idt|]. by apply decode_idt_gate, Hisr. }
  split; [apply list_lookup_insert_eq; lia|]. split; [|done].
  rewrite list_lookup_insert_eq by lia. f_equal. by apply u64_small.
Qed.

(** A fatal exception ends with the interrupts off, whatever the hardware
    answers; what is sent is sent politely and, on hardware that is ready to
    send, is the whole report: the frame's registers in hexadecimal, and the
    faulting address for a page fault. *)
Theorem exception_panic_reports {D} `{!Device D} f cr2 (k : KERNEL D) :
  latch (line k) = false →
  let '(_, k') := exception_panic f cr2 k in
  has_bits (rflags (cpu k')) IF_BIT = false ∧
  latch (line k') = false ∧ (polite (line k) = true → polite (line k') = true) ∧
  ∃ p, wire (line k') = wire (line k) ++ p ∧ (prompt_hardware (D:=D) → p = expand (report f cr2)).
Proof.
  intros Hk. destruct (says_panic (D:=D) f cr2) as [H Hif]. specialize (H k). specialize (Hif k).
  unfold wp in H. destruct (exception_panic f cr2 k) as [u k'].
  destruct (H Hk) as (p & [Hl Hw Hp] & Hprompt).
  split; [done|]. split; [done|]. split; [done|]. by exists p.
Qed.

(** *** At concrete inputs *)

Definition demo_symbols : SYMBOLS := {|
  at_gdt := 0x140000; at_idt := 0x141000; at_tss := 0x80142040; at_double_fault_stack := 0x144000;
  isr_table i := 0x100000 + 16 * i;
|}.
Definition tables_bss : TABLES := {|
  kernel_gdt := replicate 5 0;
  kernel_idt := replicate 256 {| offset_low := 0; selector := 0; ist := 0; attributes := 0;
    offset_mid := 0; offset_high := 0; reserved := 0 |};
  kernel_tss := {| reserved0 := 0; rsp := replicate 3 0; reserved1 := 0; tss_ist := replicate 7 0;
    reserved2 := 0; reserved3 := 0; iomap_base := 0 |};
|}.

Lemma tables_init_descriptors_witness :
  let '(t', l) := tables_init demo_symbols 0x200000 tables_bss in
  rsp (kernel_tss t') !! 0%nat = Some 0x200000 ∧
  tss_ist (kernel_tss t') !! 0%nat = Some 0x148000.
Proof.
  pose proof (tables_init_descriptors demo_symbols 0x200000 tables_bss eq_refl eq_refl eq_refl eq_refl
    ltac:(unfold is_u64; simpl; lia) ltac:(unfold is_u64; simpl; lia)
    ltac:(unfold is_u64, sizeof_double_fault_stack; simpl; lia)) as H.
  destruct (tables_init demo_symbols 0x200000 tables_bss) as [t' l].
  destruct H as (_ & _ & _ & _ & _ & _ & _ & _ & _ & H1 & H2 & _). split; [exact H1|exact H2].
Defined.

#[local] Instance ready_uart : Device unit := {|
  port_in _ d := (0x60, d);
  port_out _ _ d := d;
  requests _ := [];
  requests_range _ := Forall_nil_2 _;
|}.

Definition faulting : KERNEL unit := {|
  cpu := {| rflags := 0x246; cr0 := 0; cr3 := 0; cr4 := 0; msr := ∅;
            cpuid := λ _ _, {| eax := 0; ebx := 0; ecx := 0; edx := 0 |}; tlb := ∅ |};
  device := tt; trace := []; serial := serial_bss; irq := irq_bss; timer := timer_bss |}.

End TablesSpec.
