(* ===== verification/Asm.v ===== *)
(** * The processor as the assembly sees it

    The general registers, the selectors, the table registers and the memory of
    the stack, around the state of the drivers, and the instructions of
    [kernel/interrupts.S] as steps on them: each with its effect on the
    flags. *)

From S2P Require Import Prelude State X86 Devices Tables.

Module Asm.
Import State X86 Devices.
Import Tables(TABLE_POINTER, limit, base).

(** ** The state *)

Inductive REG :=
  | RAX | RCX | RDX | RBX | RSP | RBP | RSI | RDI
  | R8 | R9 | R10 | R11 | R12 | R13 | R14 | R15.
#[export] Instance reg_eq_dec : EqDecision REG.
Proof. solve_decision. Defined.

Inductive SEG := CS | DS | ES | FS | GS | SS.
#[export] Instance seg_eq_dec : EqDecision SEG.
Proof. solve_decision. Defined.

(** The flags are those of the processor in [kernel]. *)
Record CORE (D : Type) := {
  reg : REG → Z;
  seg : SEG → Z;
  tr : Z;
  gdtr : TABLE_POINTER;
  idtr : TABLE_POINTER;
  cr2 : Z;
  stack : ram;
  kernel : KERNEL D;
}.
Arguments Build_CORE {D}.
Arguments reg {D}.
Arguments seg {D}.
Arguments tr {D}.
Arguments gdtr {D}.
Arguments idtr {D}.
Arguments cr2 {D}.
Arguments stack {D}.
Arguments kernel {D}.

(** The ways the code stops: a [hlt] that nothing wakes the processor from, and a
    fault that cannot be delivered. *)
Inductive stop := Halted | Shutdown.

(** ** The flags *)

Definition CF : Z := 0x1.
Definition ZF : Z := 0x40.
Definition DF : Z := 0x400.

(** CF, PF, AF, ZF, SF and OF. *)
Definition STATUS : Z := 0x8d5.

(** An even number of ones in the low byte. *)
Definition parity (x : Z) : bool :=
  Z.even (foldr (λ i n, Z.b2z (Z.testbit x i) + n) 0 (seqZ 0 8)).

(** The status flags for a result of [width] bits. *)
Definition status (width : Z) (cf af ovf : bool) (result : Z) : Z :=
  Z.b2z cf + 0x4 * Z.b2z (parity result) + 0x10 * Z.b2z af + ZF * Z.b2z (result =? 0) +
  0x80 * Z.b2z (Z.testbit result (width - 1)) + 0x800 * Z.b2z ovf.

Section machine.
Context {D : Type} `{!Device D}.
Implicit Types (s : CORE D) (k : KERNEL D).

Definition with_flags k (f : Z) : KERNEL D :=
  {| cpu := with_rflags (cpu k) f; device := device k; trace := trace k; serial := serial k;
     irq := irq k; timer := timer k |}.
Definition flags s : Z := rflags (cpu (kernel s)).

Definition set_reg (r : REG) (v : Z) s : CORE D :=
  {| reg := <[r := v]> (reg s); seg := seg s; tr := tr s; gdtr := gdtr s; idtr := idtr s;
     cr2 := cr2 s; stack := stack s; kernel := kernel s |}.
Definition set_seg (g : SEG) (v : Z) s : CORE D :=
  {| reg := reg s; seg := <[g := v]> (seg s); tr := tr s; gdtr := gdtr s; idtr := idtr s;
     cr2 := cr2 s; stack := stack s; kernel := kernel s |}.
Definition set_tables (t : Z) (g i : TABLE_POINTER) s : CORE D :=
  {| reg := reg s; seg := seg s; tr := t; gdtr := g; idtr := i; cr2 := cr2 s; stack := stack s;
     kernel := kernel s |}.
Definition set_stack (m : ram) s : CORE D :=
  {| reg := reg s; seg := seg s; tr := tr s; gdtr := gdtr s; idtr := idtr s; cr2 := cr2 s;
     stack := m; kernel := kernel s |}.
Definition set_kernel k s : CORE D :=
  {| reg := reg s; seg := seg s; tr := tr s; gdtr := gdtr s; idtr := idtr s; cr2 := cr2 s;
     stack := stack s; kernel := k |}.

(** ** The instructions *)

#[local] Abbreviation asm := (ex (CORE D) stop).

Definition step (f : CORE D → CORE D) : asm unit := lift (modify f).
Definition drive {A} (m : io D A) : asm A := lift (λ s,
  let '(a, k) := m (kernel s) in (a, set_kernel k s)).
Definition set_flags (f : Z → Z) : asm unit :=
  step (λ s, set_kernel (with_flags (kernel s) (f (flags s))) s).

(** An instruction's result in [dst], and its status flags. *)
Definition compute (dst : REG) (f : Z → Z * Z) : asm unit :=
  x ← lift (get (λ s, reg s dst));
  let '(result, st) := f x in
  step (set_reg dst result);;
  set_flags (λ fl, Z.lor (Z.land fl (not64 STATUS)) st).

Definition mov (src dst : REG) : asm unit := step (λ s, set_reg dst (reg s src) s).
Definition mov_imm (v : Z) (dst : REG) : asm unit := step (set_reg dst (u64 v)).
Definition mov_cr2 (dst : REG) : asm unit := step (λ s, set_reg dst (cr2 s) s).
(** [movq off(%base), %dst] *)
Definition mov_load (off : Z) (base dst : REG) : asm unit :=
  step (λ s, set_reg dst (load (stack s) (u64 (reg s base + off))) s).

Definition push_word (v : Z) : asm unit := step (λ s,
  let rsp := u64 (reg s RSP - 8) in set_reg RSP rsp (set_stack (store (stack s) rsp v) s)).
Definition pop_word : asm Z :=
  v ← lift (get (λ s, load (stack s) (reg s RSP)));
  step (λ s, set_reg RSP (u64 (reg s RSP + 8)) s);;
  mret v.

Definition push_imm (v : Z) : asm unit := push_word (u64 v).
Definition push (r : REG) : asm unit := v ← lift (get (λ s, reg s r)); push_word v.
Definition pop (r : REG) : asm unit := v ← pop_word; step (set_reg r v).
(** The image has RF and VM clear. *)
Definition pushfq : asm unit :=
  f ← lift (get flags);
  push_word (Z.land f (not64 0x30000)).

(** A list of pushes, and of pops, in the order of the code. *)
Definition push_all (l : list REG) : asm unit := foldr (λ r m, push r;; m) (mret tt) l.
Definition pop_all (l : list REG) : asm unit := foldr (λ r m, pop r;; m) (mret tt) l.

(** The manual leaves AF undefined after a logical instruction. *)
Definition and_imm (v : Z) (dst : REG) : asm unit := compute dst (λ x,
  let r := Z.land x (u64 v) in (r, status 64 false false false r)).
Definition add_imm (v : Z) (dst : REG) : asm unit := compute dst (λ x,
  let r := u64 (x + v) in
  (r, status 64 (2 ^ 64 <=? x + v) (16 <=? x mod 16 + v mod 16)
        (Bool.eqb (Z.testbit x 63) (Z.testbit v 63) && xorb (Z.testbit r 63) (Z.testbit x 63)) r)).
(** [cmpq] is a subtraction without its result. *)
Definition cmp_imm (v : Z) (dst : REG) : asm unit := compute dst (λ x,
  let r := u64 (x - v) in
  (x, status 64 (x <? v) (x mod 16 <? v mod 16)
        (xorb (Z.testbit x 63) (Z.testbit v 63) && xorb (Z.testbit r 63) (Z.testbit x 63)) r)).
(** [xor %reg, %reg] on the 32-bit register clears the whole of it. *)
Definition zero (dst : REG) : asm unit := compute dst (λ x,
  let r := Z.lxor (u32 x) (u32 x) in (r, status 32 false false false r)).

Definition cld : asm unit := set_flags (λ f, Z.land f (not64 DF)).
Definition std : asm unit := set_flags (λ f, Z.lor f DF).
Definition stc : asm unit := set_flags (λ f, Z.lor f CF).
Definition cli : asm unit := drive (set_cpu x86_disable_interrupts).
Definition sti : asm unit := drive (set_cpu x86_enable_interrupts).

Definition equal : asm bool := f ← lift (get flags); mret (has_bits f ZF).
(** [sete] writes the low byte. *)
Definition sete (dst : REG) : asm unit :=
  z ← equal;
  step (λ s, set_reg dst (Z.lor (Z.land (reg s dst) (not64 0xff)) (Z.b2z z)) s).
Definition movzbl (src dst : REG) : asm unit := step (λ s, set_reg dst (u8 (reg s src)) s).

(** The code that is called takes its return address from the stack. *)
Definition call (return_address : Z) (code : CORE D → CORE D) : asm unit :=
  push_word return_address;;
  step code.

(** The address that execution goes on at. *)
Definition ret : asm Z := pop_word.
Definition lretq : asm Z :=
  rip ← pop_word;
  selector ← pop_word;
  step (set_seg CS (u16 selector));;
  mret rip.
Definition iretq : asm Z :=
  rip ← pop_word;
  selector ← pop_word;
  f ← pop_word;
  sp ← pop_word;
  stack_selector ← pop_word;
  step (set_seg CS (u16 selector));;
  set_flags (λ _, f);;
  step (set_reg RSP sp);;
  step (set_seg SS (u16 stack_selector));;
  mret rip.

(** The ten bytes of a table pointer at a multiple of eight. *)
Definition pointer_at (m : ram) (p : Z) : TABLE_POINTER :=
  {| limit := u16 (load m p);
     base := Z.lor (Z.shiftr (load m p) 16) (Z.shiftl (u16 (load m (p + 8))) 48) |}.
Definition lgdt (p : REG) : asm unit := step (λ s,
  set_tables (tr s) (pointer_at (stack s) (reg s p)) (idtr s) s).
Definition lidt (p : REG) : asm unit := step (λ s,
  set_tables (tr s) (gdtr s) (pointer_at (stack s) (reg s p)) s).
Definition ltr (v : REG) : asm unit := step (λ s,
  set_tables (u16 (reg s v)) (gdtr s) (idtr s) s).
Definition mov_seg (src : REG) (dst : SEG) : asm unit :=
  step (λ s, set_seg dst (u16 (reg s src)) s).
(** [movw $v, %ax] keeps the upper bits. *)
Definition mov_imm16 (v : Z) (dst : REG) : asm unit :=
  step (λ s, set_reg dst (Z.lor (Z.land (reg s dst) (not64 0xffff)) (u16 v)) s).

End machine.

Abbreviation asm D := (ex (CORE D) stop).

End Asm.
