(* ===== verification/AsmSpec.v ===== *)
(** * Reasoning about the assembly

    Proof rules for the instructions of [Asm], what sequences of pushes and pops
    do to the stack. *)

From S2P Require Import Prelude State X86 Devices Tables Asm.

Module AsmSpec.
Import State X86 Devices Asm.
Import Tables(TABLE_POINTER, limit, base).

(** ** Flags *)

(** Equal but for the status flags. *)
Definition alike (f g : Z) : Prop := Z.land f (not64 STATUS) = Z.land g (not64 STATUS).

#[export] Instance alike_equivalence : Equivalence alike.
Proof. split; red; unfold alike; congruence. Qed.

Lemma status_sound w cf af ovf r :
  is_u64 (status w cf af ovf r) ∧ Z.land (status w cf af ovf r) (not64 STATUS) = 0.
Proof.
  unfold status. generalize (parity r) (r =? 0) (Z.testbit r (w - 1)). intros a b c.
  by destruct cf, af, ovf, a, b, c.
Qed.

Lemma status_zero w cf af ovf r f :
  has_bits (Z.lor (Z.land f (not64 STATUS)) (status w cf af ovf r)) ZF = (r =? 0).
Proof.
  unfold has_bits. rewrite Z.land_lor_distr_l, <- Z.land_assoc. change (Z.land (not64 STATUS) ZF) with 0.
  rewrite Z.land_0_r, Z.lor_0_l.
  unfold status. generalize (parity r) (r =? 0) (Z.testbit r (w - 1)). intros a b c.
  by destruct cf, af, ovf, a, b, c.
Qed.

Lemma alike_lor f st : Z.land st (not64 STATUS) = 0 → alike (Z.lor (Z.land f (not64 STATUS)) st) f.
Proof. intros H. unfold alike. by rewrite Z.land_lor_distr_l, H, Z.lor_0_r, <- Z.land_assoc, Z.land_diag. Qed.

Lemma alike_testbit f g i : alike f g → Z.testbit (not64 STATUS) i = true → Z.testbit f i = Z.testbit g i.
Proof.
  intros H Hi. apply (f_equal (λ x, Z.testbit x i)) in H. by rewrite !Z.land_spec, Hi, !andb_true_r in H.
Qed.

#[export] Instance alike_land_proper : Proper (alike ==> eq ==> alike) Z.land.
Proof.
  intros f g H m _ <-. unfold alike in *.
  by rewrite <- !(Z.land_assoc _ m), (Z.land_comm m), !Z.land_assoc, H.
Qed.

(** ** Types *)

(** The registers hold words, the selectors 16 bits. *)
Record typed {D} (s : CORE D) : Prop := {
  ty_reg r : is_u64 (reg s r);
  ty_seg g : 0 ≤ seg s g < 2 ^ 16;
  ty_flags : is_u64 (flags s);
  ty_cr2 : is_u64 (cr2 s);
}.

(** ** Rules *)

Section rules.
Context {D : Type} `{!Device D}.
Implicit Types (s : CORE D) (k : KERNEL D).
Context (E : stop → CORE D → Prop).

Lemma flags_with k f s : flags (set_kernel (with_flags k f) s) = f.
Proof. done. Qed.

Lemma with_flags_twice k f g : with_flags (with_flags k f) g = with_flags k g.
Proof. done. Qed.

Lemma with_flags_same k : with_flags k (rflags (cpu k)) = k.
Proof. by destruct k as [[]]. Qed.

Lemma wpx_step f Q s : Q tt (f s) → wpx (step f) E Q s.
Proof. done. Qed.

Lemma wpx_the {A} (f : CORE D → A) Q s : Q (f s) s → wpx (lift (get f)) E Q s.
Proof. done. Qed.

Lemma wpx_drive {A} (m : io D A) (Q : A → CORE D → Prop) s :
  Q (fst (m (kernel s))) (set_kernel (snd (m (kernel s))) s) → wpx (drive m) E Q s.
Proof. unfold wpx, drive, lift. by destruct (m (kernel s)). Qed.

Lemma wpx_compute dst f (Q : unit → CORE D → Prop) s :
  Q tt (set_kernel (with_flags (kernel s)
    (Z.lor (Z.land (flags s) (not64 STATUS)) (snd (f (reg s dst)))))
    (set_reg dst (fst (f (reg s dst))) s)) →
  wpx (compute dst f) E Q s.
Proof.
  intros H. unfold compute. apply wpx_bind, wpx_the. destruct (f (reg s dst)) as [r st].
  apply wpx_bind, wpx_step. exact H.
Qed.

(** ** The stack *)

(** All of the processor but the general registers and the stack. *)
Definition outside s := (seg s, tr s, gdtr s, idtr s, cr2 s, kernel s).

(** [s'] is [s] after the words [ws] have been pushed. *)
Record pushed (ws : list Z) s s' : Prop := {
  pu_rsp : reg s' RSP = reg s RSP - 8 * Z.of_nat (length ws);
  pu_reg r : r ≠ RSP → reg s' r = reg s r;
  pu_words i w : ws !! i = Some w → load (stack s') (reg s RSP - 8 * (Z.of_nat i + 1)) = w;
  pu_above a : reg s RSP ≤ a → load (stack s') a = load (stack s) a;
}.

Lemma pushed_nil s : pushed [] s s.
Proof. split; cbn [length]; [lia|done|done|done]. Qed.

(** Only the registers and the stack count. *)
Lemma pushed_from ws s t s' : reg t = reg s → stack t = stack s → pushed ws t s' → pushed ws s s'.
Proof. intros Hr Hs [Hp1 Hr1 Hw1 Ha1]. rewrite Hr, Hs in *. by split. Qed.

Lemma pushed_app ws1 ws2 s1 s2 s3 :
  pushed ws1 s1 s2 → pushed ws2 s2 s3 → pushed (ws1 ++ ws2) s1 s3.
Proof.
  intros [Hp1 Hr1 Hw1 Ha1] [Hp2 Hr2 Hw2 Ha2]. split.
  - rewrite length_app. lia.
  - intros r Hr. by rewrite Hr2, Hr1.
  - intros i w Hi. apply lookup_app_Some in Hi as [Hi|[Hge Hi]].
    + rewrite Ha2; [by apply Hw1|]. apply lookup_lt_Some in Hi. lia.
    + apply Hw2 in Hi. rewrite <- Hi. f_equal. lia.
  - intros a Ha. rewrite Ha2, Ha1 by lia. done.
Qed.

Lemma wpx_push_word v (Q : unit → CORE D → Prop) s :
  is_u64 v → 8 ≤ reg s RSP < 2 ^ 64 → (∀ s', pushed [v] s s' → outside s' = outside s → Q tt s') →
  wpx (push_word v) E Q s.
Proof.
  intros Hv Hp HQ. apply wpx_step, HQ; [|done]. rewrite u64_small by (unfold is_u64; lia). split; cbn [length].
  - cbn [set_reg reg]. by rewrite fn_lookup_insert.
  - intros r Hr. cbn [set_reg reg]. by rewrite fn_lookup_insert_ne.
  - intros [|i] w; [|done]. intros [= <-]. cbn [set_reg set_stack stack].
    replace (_ - 8 * _) with (reg s RSP - 8) by lia. by apply load_store_eq.
  - intros a Ha. cbn [set_reg set_stack stack]. apply load_store_ne. lia.
Qed.

(** One more word. *)
Lemma wpx_push_more ws v (Q : unit → CORE D → Prop) s0 s :
  pushed ws s0 s → is_u64 v → 8 * Z.of_nat (length ws) + 8 ≤ reg s0 RSP < 2 ^ 64 →
  (∀ s', pushed (ws ++ [v]) s0 s' → outside s' = outside s → Q tt s') → wpx (push_word v) E Q s.
Proof.
  intros Hs Hv Hp HQ. pose proof (pu_rsp _ _ _ Hs). apply wpx_push_word; [done|lia|].
  intros s' H' Ho. apply HQ; [by eapply pushed_app|done].
Qed.

Lemma wpx_push r (Q : unit → CORE D → Prop) s :
  is_u64 (reg s r) → 8 ≤ reg s RSP < 2 ^ 64 → (∀ s', pushed [reg s r] s s' → outside s' = outside s → Q tt s') →
  wpx (push r) E Q s.
Proof. intros Hv Hp HQ. by apply wpx_bind, wpx_the, wpx_push_word. Qed.

Lemma wpx_push_all l (Q : unit → CORE D → Prop) s :
  RSP ∉ l → (∀ r, is_u64 (reg s r)) → 8 * Z.of_nat (length l) ≤ reg s RSP →
  (∀ s', pushed (reg s <$> l) s s' → outside s' = outside s → Q tt s') → wpx (push_all l) E Q s.
Proof.
  revert Q s. induction l as [|r l IH]; intros Q s Hl Hu Hp HQ; cbn [push_all foldr].
  - apply wpx_ret, HQ; [apply pushed_nil|done].
  - cbn [length] in Hp. apply not_elem_of_cons in Hl as [Hr Hl]. pose proof (Hu RSP) as [H0 H64].
    apply wpx_bind, wpx_push; [done|lia|]. intros s1 H1 Ho1. pose proof (pu_rsp _ _ _ H1) as Hp1.
    cbn [length] in Hp1. apply IH; [done| |lia|].
    + intros r'. destruct (decide (r' = RSP)) as [->|Hne]; [rewrite Hp1; unfold is_u64; lia|].
      by rewrite (pu_reg _ _ _ H1).
    + intros s2 H2 Ho2. apply HQ; [|congruence]. rewrite fmap_cons. apply (pushed_app [_] _ _ _ _ H1).
      replace (reg s <$> l) with (reg s1 <$> l); [done|]. apply list_fmap_ext.
      intros i r' Hi%list_elem_of_lookup_2. apply (pu_reg _ _ _ H1). by intros ->.
Qed.

(** [s'] is [s] after pops into the registers [l]. *)
Record popped (l : list REG) s s' : Prop := {
  po_rsp : reg s' RSP = reg s RSP + 8 * Z.of_nat (length l);
  po_words i r : l !! i = Some r → reg s' r = load (stack s) (reg s RSP + 8 * Z.of_nat i);
  po_reg r : r ≠ RSP → r ∉ l → reg s' r = reg s r;
  po_stack : stack s' = stack s;
  po_outside : outside s' = outside s;
}.

Lemma wpx_pop_word (Q : Z → CORE D → Prop) s :
  Q (load (stack s) (reg s RSP)) (set_reg RSP (u64 (reg s RSP + 8)) s) → wpx pop_word E Q s.
Proof. intros H. apply wpx_bind, wpx_the, wpx_bind, wpx_step. exact H. Qed.

Lemma wpx_pop r (Q : unit → CORE D → Prop) s :
  r ≠ RSP → 0 ≤ reg s RSP → reg s RSP + 8 < 2 ^ 64 → (∀ s', popped [r] s s' → Q tt s') →
  wpx (pop r) E Q s.
Proof.
  intros Hr H0 Hp HQ. apply wpx_bind, wpx_pop_word, wpx_step, HQ.
  rewrite u64_small by (unfold is_u64; lia). split; cbn [length]; [| | |done|done].
  - cbn [set_reg reg]. rewrite fn_lookup_insert_ne, fn_lookup_insert by done. lia.
  - intros [|i] r'; [|done]. intros [= <-]. cbn [set_reg reg stack]. rewrite fn_lookup_insert.
    f_equal. lia.
  - intros r' Hr' Hn. cbn [set_reg reg]. rewrite !fn_lookup_insert_ne by set_solver. done.
Qed.

Lemma popped_cons r l s1 s2 s3 :
  r ≠ RSP → r ∉ l → popped [r] s1 s2 → popped l s2 s3 → popped (r :: l) s1 s3.
Proof.
  intros Hr Hn [Hp1 Hw1 Hr1 Hs1 Ho1] [Hp2 Hw2 Hr2 Hs2 Ho2]. cbn [length] in *. split.
  - cbn [length]. lia.
  - intros [|i] r' Hi; cbn in Hi.
    + injection Hi as <-. rewrite Hr2 by done. by apply (Hw1 0%nat).
    + rewrite (Hw2 _ _ Hi), Hs1. f_equal. lia.
  - intros r' Hne [Hr' Hl]%not_elem_of_cons. rewrite Hr2, Hr1 by set_solver. done.
  - congruence.
  - congruence.
Qed.

Lemma wpx_pop_all l (Q : unit → CORE D → Prop) s :
  RSP ∉ l → NoDup l → 0 ≤ reg s RSP → reg s RSP + 8 * Z.of_nat (length l) < 2 ^ 64 →
  (∀ s', popped l s s' → Q tt s') → wpx (pop_all l) E Q s.
Proof.
  revert Q s. induction l as [|r l IH]; intros Q s Hl Hd H0 Hp HQ; cbn [pop_all foldr].
  - apply wpx_ret, HQ. split; cbn [length]; [lia|done..].
  - cbn [length] in Hp. apply not_elem_of_cons in Hl as [Hr Hl]. apply NoDup_cons in Hd as [Hn Hd].
    apply wpx_bind, wpx_pop; [done|done|lia|]. intros s1 H1. pose proof (po_rsp _ _ _ H1) as Hp1.
    cbn [length] in Hp1. apply IH; [done|done|lia|lia|]. intros s2 H2. apply HQ. by eapply popped_cons.
Qed.

(** Pushes undone by the pops in the opposite order, whatever happened in between
    below the saved words. *)
Lemma pushed_popped l s1 s2 s3 s4 :
  pushed (reg s1 <$> l) s1 s2 → reg s3 RSP = reg s2 RSP →
  (∀ a, reg s2 RSP ≤ a → load (stack s3) a = load (stack s2) a) → popped (reverse l) s3 s4 →
  reg s4 RSP = reg s1 RSP ∧ ∀ r, r ∈ l → reg s4 r = reg s1 r.
Proof.
  intros [Hp1 _ Hw1 _] H3 Hl [Hp4 Hw4 _ _ _]. rewrite length_fmap in Hp1. rewrite length_reverse in Hp4.
  split; [lia|]. intros r Hr. apply elem_of_reverse, list_elem_of_lookup in Hr as [i Hi].
  rewrite (Hw4 _ _ Hi), Hl by lia. pose proof (lookup_lt_Some _ _ _ Hi) as Hlt.
  rewrite length_reverse in Hlt. rewrite reverse_lookup in Hi by done.
  rewrite <- (Hw1 (length l - S i)%nat (reg s1 r)) by (by rewrite list_lookup_fmap, Hi).
  f_equal. lia.
Qed.

End rules.

End AsmSpec.
