(* ===== verification/Disabled.v ===== *)
(** * The drivers with interrupts disabled

    While interrupts are off, no part of the drivers depends on the flags nor
    changes them: what runs between the entry of a stub, which has changed the
    flags by then, and its end is what runs from the flags of the interrupted
    code. *)

From S2P Require Import Prelude State X86 RxBuffer Devices SerialIrq Irq Serial Tables Asm.

Module Disabled.
Import State X86 RxBuffer Devices SerialIrq Irq Serial Tables.
Import Asm(with_flags).

Definition off (f : Z) : Prop := is_u64 f ∧ has_bits f IF_BIT = false.

(** Clearing IF changes nothing when it is clear. *)
Lemma off_land f : off f → Z.land f (not64 IF_BIT) = f.
Proof.
  intros [Hu Hf]. change IF_BIT with (bit64 9) in *. rewrite has_bits_bit64 in Hf by lia.
  apply Z.bits_inj'. intros i Hi. rewrite Z.land_spec.
  destruct (Z.ltb_spec i 64) as [Hlt|Hge].
  - rewrite testbit_not64, testbit_bit64 by lia.
    destruct (Z.eqb_spec i 9) as [->|]; [by rewrite Hf|by rewrite andb_true_r].
  - by rewrite testbit_u64_high.
Qed.

Section blind.
Context {D : Type} `{!Device D}.
Implicit Types (k : KERNEL D).

Definition blind {A} (m : io D A) : Prop := ∀ k f g, off f → off g →
  ∃ a k', m (with_flags k f) = (a, with_flags k' f) ∧ m (with_flags k g) = (a, with_flags k' g).

Lemma blind_ret {A} (a : A) : blind (mret a).
Proof. intros k f g _ _. by exists a, k. Qed.

Lemma blind_bind {A B} (m : io D A) (c : A → io D B) :
  blind m → (∀ a, blind (c a)) → blind (m ≫= c).
Proof.
  intros Hm Hc k f g Hf Hg. destruct (Hm k f g Hf Hg) as (a & k1 & H1 & H2).
  destruct (Hc a k1 f g Hf Hg) as (b & k2 & H3 & H4).
  exists b, k2. unfold mbind, st_bind. by rewrite H1, H2, H3, H4.
Qed.

(** A variable that is not the flags. *)
Lemma blind_get {A} (p : KERNEL D → A) : (∀ k f, p (with_flags k f) = p k) → blind (get p).
Proof. intros H k f g _ _. exists (p k), k. unfold get. by rewrite !H. Qed.

Lemma blind_set_serial h : blind (set_serial h).
Proof. intros k f g _ _. by exists tt, (snd (set_serial h k)). Qed.
Lemma blind_set_irq h : blind (set_irq h).
Proof. intros k f g _ _. by exists tt, (snd (set_irq h k)). Qed.
Lemma blind_set_timer h : blind (set_timer h).
Proof. intros k f g _ _. by exists tt, (snd (set_timer h k)). Qed.

Lemma blind_inb p : blind (x86_inb p).
Proof.
  intros k f g _ _. exists (fst (x86_inb p k)), (snd (x86_inb p k)). unfold x86_inb.
  change (device (with_flags k ?h)) with (device k). by destruct (port_in (u16 p) (device k)).
Qed.
Lemma blind_outb p v : blind (x86_outb p v).
Proof. intros k f g _ _. by exists tt, (snd (x86_outb p v k)). Qed.

Lemma blind_for {R} lo hi (body : Z → io D (option R)) :
  (∀ i, blind (body i)) → blind (st_for lo hi body).
Proof.
  intros Hb k f g Hf Hg. unfold st_for.
  match goal with |- context [for_step lo 1 hi ?b _] => set (turn := b) end.
  cut (∀ n i k, Z.to_nat (hi - i) = n → ∃ c k',
    for_step i 1 hi turn (with_flags k f) =
      match c with None => Next (with_flags k' f) | Some r => Stop (r, with_flags k' f) end ∧
    for_step i 1 hi turn (with_flags k g) =
      match c with None => Next (with_flags k' g) | Some r => Stop (r, with_flags k' g) end).
  { intros H. destruct (H _ lo k eq_refl) as ([r|] & k' & -> & ->); by eexists _, k'. }
  intros n. induction n as [n IH] using lt_wf_ind. intros i k1 Hn.
  rewrite !(for_step_unfold i) by lia. destruct (Z.ltb_spec i hi) as [Hlt|Hge]; [|by exists None, k1].
  destruct (Hb i k1 f g Hf Hg) as (r & k2 & H1 & H2). unfold turn at 1 3. rewrite H1, H2.
  destruct r as [r|]; [by exists (Some r), k2|]. apply (IH (Z.to_nat (hi - (i + 1)))); lia.
Qed.

End blind.

Create HintDb blind.
#[export] Hint Constants Opaque : blind.
#[export] Hint Resolve blind_ret blind_set_serial blind_set_irq blind_set_timer blind_inb blind_outb : blind.
#[export] Hint Extern 1 (blind (get _)) => apply blind_get; intros; reflexivity : blind.

(** Goes through a function of a driver. *)
Ltac blinding :=
  repeat first
    [ match goal with |- blind (mbind _ _) => apply blind_bind; [|intros ?] end
    | match goal with |- blind (st_for _ _ _) => apply blind_for; intros ? end
    | match goal with |- blind (if ?b then _ else _) => destruct b end
    | match goal with |- blind (match ?x with _ => _ end) => destruct x end
    | progress auto with blind nocore ].

Section driver.
Context {D : Type} `{!Device D}.
Implicit Types (k : KERNEL D).

(** The flags are saved, and put back as they are. *)
Lemma blind_receive_error : blind (D:=D) receive_error.
Proof.
  assert (∀ k f, off f → receive_error (with_flags k f) =
    (tt, with_flags (snd (count_dropped (snd (set_receive_buffer rx_fail k)))) f)) as H.
  { intros k f Hf. unfold receive_error, mbind, st_bind, on_cpu, set_cpu, x86_irq_save, x86_read_rflags,
      x86_irq_restore, x86_disable_interrupts. cbn. pose proof (off_land f Hf) as Hl.
    rewrite Hl. unfold off, IF_BIT in Hf. by rewrite (proj2 Hf). }
  intros k f g Hf Hg. eexists tt, _. by rewrite !H.
Qed.
#[local] Hint Resolve blind_receive_error : blind.

Lemma blind_push b : blind (D:=D) (push b).
Proof. unfold push, set_receive_buffer. blinding. Qed.
#[local] Hint Resolve blind_push : blind.

Lemma blind_receive_byte : blind (D:=D) receive_byte.
Proof. unfold receive_byte, count_overflow, count_dropped. blinding. Qed.
#[local] Hint Resolve blind_receive_byte : blind.

Lemma blind_serial_interrupt : blind (D:=D) serial_interrupt.
Proof. unfold serial_interrupt, serve_cause, count_interrupt. blinding. Qed.
#[local] Hint Resolve blind_serial_interrupt : blind.

Lemma blind_irq_dispatch v : blind (D:=D) (irq_dispatch v).
Proof. unfold irq_dispatch, spurious, handle, timer_interrupt, count_unexpected. blinding. Qed.

(** No interrupt is taken. *)
Lemma blind_interrupts : blind (D:=D) interrupts.
Proof.
  intros k f g Hf Hg. exists tt, k.
  assert (∀ f, off f → interrupts (with_flags k f) = (tt, with_flags k f)) as H.
  { intros h [_ Hh]. unfold interrupts, mbind, st_bind, get, x86_read_rflags.
    cbn [with_flags cpu rflags with_rflags]. unfold IF_BIT in Hh. by rewrite Hh. }
  by rewrite !H.
Qed.
#[local] Hint Resolve blind_interrupts : blind.

Lemma blind_wait_status mask : blind (D:=D) (wait_status mask).
Proof. unfold wait_status, poll. blinding. Qed.
#[local] Hint Resolve blind_wait_status : blind.

Lemma blind_serial_write t : blind (D:=D) (serial_write t).
Proof. induction t as [|c t IH]; cbn [serial_write]; unfold put_byte in *; blinding. Qed.
#[local] Hint Resolve blind_serial_write : blind.

Lemma blind_exception_panic frame cr2 : blind (D:=D) (exception_panic frame cr2).
Proof.
  unfold exception_panic, print_hex, serial_flush. blinding.
  intros k f g Hf Hg. exists tt, k. unfold set_cpu, on_cpu, x86_disable_interrupts. cbn.
  by rewrite !off_land.
Qed.

End driver.

End Disabled.
