(* ===== verification/Stubs.v ===== *)
(** * The assembly of [kernel/interrupts.S]

    How the processor enters an interrupt or an exception through the tables
    of [Tables], and the stubs it enters: the frame they complete, the call of
    [irq_dispatch] with every register saved and restored, the call of
    [exception_panic] that is not returned from; the check of the registers
    across an interrupt, and the loading of the tables. The code the compiler
    makes of the two C functions is a parameter. *)

From S2P Require Import Prelude State X86 Devices Tables TablesSpec Asm.

Module Stubs.
Import State X86 Devices Tables TablesSpec Asm.

(** The compiled functions, from their entry to their return, and the addresses
    the calls return to. *)
Record CODE (D : Type) := {
  irq_dispatch : CORE D → CORE D;
  exception_panic : CORE D → CORE D;
  after_dispatch : Z;
  after_panic : Z;
}.
Arguments Build_CODE {D}.
Arguments irq_dispatch {D}.
Arguments exception_panic {D}.
Arguments after_dispatch {D}.
Arguments after_panic {D}.

(** What makes the processor enter a gate: the address of the interrupted
    instruction, the error code where the vector has one, and whether the
    processor marks the image of the flags to resume past a breakpoint. *)
Record EVENT := { e_vector : Z; e_rip : Z; e_error : Z; e_resume : bool }.

(** The exceptions the processor pushes an error code for. *)
Definition has_error (v : Z) : bool := existsb (Z.eqb v) [8; 10; 11; 12; 13; 14; 17; 21; 29; 30].

Section stubs.
Context {D : Type} `{!Device D} (P : CODE D).
Implicit Types (s : CORE D).

(** ** The stubs *)

(** [2: hlt; jmp 2b]: with interrupts off nothing ends the first [hlt]. *)
Definition exception_halt {A} : asm D A :=
  cli;;
  exit Halted.

Definition exception_common {A} : asm D A :=
  cld;;
  mov_cr2 RSI;;
  mov RSP RDI;;
  and_imm (-16) RSP;;
  call (after_panic P) (exception_panic P);;
  exception_halt.

Definition saved_registers : list REG :=
  [RAX; RCX; RDX; RBX; RBP; RSI; RDI; R8; R9; R10; R11; R12; R13; R14; R15].
Definition restored_registers : list REG :=
  [R15; R14; R13; R12; R11; R10; R9; R8; RDI; RSI; RBP; RBX; RDX; RCX; RAX].

(** Up to the address that [iretq] goes on at. *)
Definition irq_common : asm D Z :=
  push_all saved_registers;;
  cld;;
  mov_load 120 RSP RDI;;
  mov RSP RBX;;
  and_imm (-16) RSP;;
  call (after_dispatch P) (irq_dispatch P);;
  mov RBX RSP;;
  pop_all restored_registers;;
  add_imm 16 RSP;;
  iretq.

Definition isr (number : Z) : asm D Z :=
  (if negb (number =? 8) && negb (number =? 10) && negb (number =? 11) && negb (number =? 12) &&
      negb (number =? 13) && negb (number =? 14) && negb (number =? 17) && negb (number =? 21) &&
      negb (number =? 29) && negb (number =? 30)
   then push_imm 0 else mret tt);;
  push_imm number;;
  if (32 <=? number) && (number <? 48) then irq_common else exception_common.

(** ** Entering a gate *)

Context (sy : SYMBOLS) (T : TABLES).

(** The stack a gate switches to, or the one in use. *)
Definition entry_stack (g : GATE) (sp : Z) : Z :=
  if g_ist g =? 0 then sp else nth (Z.to_nat (g_ist g - 1)) (tss_ist (kernel_tss T)) 0.

(** Through an interrupt gate, from the privilege the kernel runs at: the frame
    on an aligned stack, then IF, TF, NT, RF and VM are cleared. A vector
    without a present interrupt gate ends the machine. *)
Definition deliver (e : EVENT) : asm D Z :=
  let g := match kernel_idt T !! Z.to_nat (e_vector e) with
           | Some i => decode_gate (gate_low i) (gate_high i)
           | None => decode_gate 0 0
           end in
  if negb ((g_present g =? 1) && (g_type g =? 14)) then exit Shutdown
  else
    sp ← lift (get (λ s, reg s RSP));
    f ← lift (get flags);
    old_ss ← lift (get (λ s, seg s SS));
    old_cs ← lift (get (λ s, seg s CS));
    step (set_reg RSP (Z.land (entry_stack g sp) (not64 15)));;
    push_word old_ss;;
    push_word sp;;
    push_word (if e_resume e then Z.lor f 0x10000 else f);;
    push_word old_cs;;
    push_word (e_rip e);;
    (if has_error (e_vector e) then push_word (e_error e) else mret tt);;
    set_flags (λ f, Z.land f (not64 0x34300));;
    step (set_seg CS (g_selector g));;
    mret (g_target g).

(** The stub at an address. *)
Definition stub_at (target : Z) : option Z :=
  List.find (λ v, isr_table sy v =? target) (seqZ 0 256).

(** The whole of an interrupt or exception, up to where the interrupted code goes
    on. *)
Definition enter (e : EVENT) : asm D Z :=
  target ← deliver e;
  match stub_at target with
  | Some v => isr v
  | None => exit Shutdown
  end.

(** ** The check of the registers *)

(** [hlt] with the interrupts that end it, taken before the instruction at
    [rip]. *)
Definition hlt (rip : Z) : asm D unit :=
  f ← lift (get flags);
  vectors ← lift (get (λ s, requests (device (kernel s))));
  if negb (has_bits f IF_BIT) then exit Halted
  else
    match vectors with
    | [] => exit Halted
    | _ =>
        foldr (λ v m,
          _ ← enter {| e_vector := v; e_rip := rip; e_error := 0; e_resume := false |}; m)
          (mret tt) vectors
    end.

(** [kernel_halt] of [entry.S], any number of turns of it; [jmp] is the address
    that an interrupt would return to. *)
Fixpoint kernel_halt (turns : nat) (jmp : Z) : asm D unit :=
  match turns with
  | O => mret tt
  | S turns => hlt jmp;; kernel_halt turns jmp
  end.

Definition patterns : list (REG * Z) :=
  [(RAX, 1); (RCX, 2); (RDX, 3); (RBX, 4); (RBP, 5); (RSI, 6); (RDI, 7); (R8, 8); (R9, 9);
   (R10, 10); (R11, 11); (R12, 12); (R13, 13); (R14, 14); (R15, 15)].

Definition fill_registers (l : list (REG * Z)) : asm D unit :=
  foldr (λ x m, mov_imm (snd x) (fst x);; m) (mret tt) l.

(** [CHECK_REGISTER] for each; [false] is the jump to [3:]. *)
Fixpoint check_registers (l : list (REG * Z)) : asm D bool :=
  match l with
  | [] => mret true
  | (r, v) :: l =>
      cmp_imm v r;;
      z ← equal;
      if (z : bool) then check_registers l else mret false
  end.

(** The routine around its [hlt], whatever happens in [wait]; up to the [ret]. *)
Definition check_across (wait : asm D unit) : asm D Z :=
  push_all [RBX; RBP; R12; R13; R14; R15];;
  fill_registers patterns;;
  std;;
  stc;;
  sti;;
  wait;;
  cli;;
  pushfq;;
  cld;;
  same ← check_registers patterns;
  (if (same : bool) then
     pop RAX;;
     and_imm 0x401 RAX;;
     cmp_imm 0x401 RAX;;
     sete RAX;;
     movzbl RAX RAX
   else
     add_imm 8 RSP;;
     zero RAX);;
  pop_all [R15; R14; R13; R12; RBP; RBX];;
  ret.

Definition timer_check_registers (after_hlt : Z) : asm D Z := check_across (hlt after_hlt).

End stubs.

(** ** Loading the tables *)

(** [next] is the address of the label [1:]. *)
Definition tables_load {D} (next : Z) : asm D Z :=
  cli;;
  lgdt RDI;;
  push_imm 0x08;;
  mov_imm next RAX;;
  push RAX;;
  target ← lretq;
  if negb (target =? next) then exit Shutdown
  else
    mov_imm16 0x10 RAX;;
    mov_seg RAX DS;;
    mov_seg RAX ES;;
    mov_seg RAX SS;;
    zero RAX;;
    mov_seg RAX FS;;
    mov_seg RAX GS;;
    mov_imm16 0x18 RAX;;
    ltr RAX;;
    lidt RSI;;
    ret.

End Stubs.
