(* ===== verification/StubsSpec.v ===== *)
(** * What the interrupt stubs promise

    An interrupt is transparent to the code it interrupts, an exception is
    reported with the registers it happened with, the check of the registers
    says whether an interrupt kept them, and the tables are loaded as [Tables]
    says. The compiled functions are assumed to keep to the calling convention
    and to do what the model of their source does. *)

From S2P Require Import Prelude Text State X86 Devices Irq SerialSpec Tables TablesSpec.
From S2P Require Import Asm AsmSpec Disabled Stubs.

Module StubsSpec.
Import State X86 Devices SerialSpec Tables TablesSpec Asm AsmSpec Disabled Stubs.

(** ** The calling convention *)

Section convention.
Context {D : Type} `{!Device D}.
Implicit Types (s : CORE D).

(** What a C function may rely on when it is called: an aligned stack with room,
    DF clear, here with interrupts off. *)
Record called (room : Z) s : Prop := {
  ca_regs r : is_u64 (reg s r);
  ca_room : room ≤ reg s RSP;
  ca_aligned : reg s RSP mod 16 = 8;
  ca_off : off (flags s);
  ca_df : Z.testbit (flags s) 10 = false;
}.

Definition callee_saved : list REG := [RBX; RBP; R12; R13; R14; R15].

(** What it has kept when it has returned; [irq_dispatch] and [exception_panic]
    are passed their arguments in registers. *)
Record returned s s' : Prop := {
  re_regs r : is_u64 (reg s' r);
  re_flags : is_u64 (flags s');
  re_rsp : reg s' RSP = u64 (reg s RSP + 8);
  re_saved r : r ∈ callee_saved → reg s' r = reg s r;
  re_stack a : reg s RSP + 8 ≤ a → load (stack s') a = load (stack s) a;
  re_seg g : seg s' g = seg s g;
  re_tables : (tr s', gdtr s', idtr s', cr2 s') = (tr s, gdtr s, idtr s, cr2 s);
}.

(** The frame that [exception_panic] gets a pointer to. *)
Definition frame_at (m : ram) (p : Z) : EXCEPTION_FRAME := {|
  vector := load m p; error := load m (p + 8); rip := load m (p + 16); frame_cs := load m (p + 24);
  frame_rflags := load m (p + 32); frame_rsp := load m (p + 40); frame_ss := load m (p + 48) |}.

(** The compiled code: the convention, and the source's effect on the kernel. The
    flags it leaves are its own. *)
Class Compiled (room : Z) (P : CODE D) : Prop := {
  compiled_addresses : is_u64 (after_dispatch P) ∧ is_u64 (after_panic P);
  compiled_dispatch s : called room s →
    returned s (irq_dispatch P s) ∧
    kernel (irq_dispatch P s) =
      with_flags (snd (Irq.irq_dispatch (reg s RDI) (kernel s))) (flags (irq_dispatch P s));
  compiled_panic s : called room s →
    is_u64 (flags (exception_panic P s)) ∧
    kernel (exception_panic P s) =
      with_flags (snd (Tables.exception_panic (frame_at (stack s) (reg s RDI)) (reg s RSI) (kernel s)))
        (flags (exception_panic P s));
}.

End convention.

(** The stubs are at different addresses. *)
Record stubs_placed (sy : SYMBOLS) : Prop := {
  sp_u64 v : 0 ≤ v < 256 → is_u64 (isr_table sy v);
  sp_distinct v w : 0 ≤ v < 256 → 0 ≤ w < 256 → isr_table sy v = isr_table sy w → v = w;
}.

Lemma stub_at_found sy v : stubs_placed sy → 0 ≤ v < 256 → stub_at sy (isr_table sy v) = Some v.
Proof.
  intros Hsy Hv. unfold stub_at. destruct (List.find _ _) as [w|] eqn:Hf.
  - apply List.find_some in Hf as [Hw%list_elem_of_In%elem_of_seqZ He]. zbool. f_equal.
    apply (sp_distinct _ Hsy); [lia|done|done].
  - assert (v ∈ seqZ 0 256) as Hin%list_elem_of_In by (apply elem_of_seqZ; lia).
    apply (List.find_none _ _ Hf) in Hin. zbool. done.
Qed.

(** ** Entering a stub *)

Section enter.
Context {D : Type} `{!Device D} (P : CODE D) (sy : SYMBOLS) (T : TABLES).
Implicit Types (s : CORE D).
Context (E : stop → CORE D → Prop).

Definition image (e : EVENT) s : Z := if e_resume e then Z.lor (flags s) 0x10000 else flags s.
Definition error_code (e : EVENT) : Z := if has_error (e_vector e) then e_error e else 0.

(** What a stub finds on the stack, from [top] down, and what it finds as it
    was. *)
Record framed (e : EVENT) (top : Z) s s' : Prop := {
  fr_rsp : reg s' RSP = top - 56;
  fr_reg r : r ≠ RSP → reg s' r = reg s r;
  fr_frame : frame_at (stack s') (top - 56) = {|
    vector := e_vector e; error := error_code e; rip := e_rip e; frame_cs := seg s CS;
    frame_rflags := image e s; frame_rsp := reg s RSP; frame_ss := seg s SS |};
  fr_above a : top ≤ a → load (stack s') a = load (stack s) a;
  fr_seg g : seg s' g = if decide (g = CS) then 8 else seg s g;
  fr_tables : (tr s', gdtr s', idtr s', cr2 s') = (tr s, gdtr s, idtr s, cr2 s);
  fr_kernel : kernel s' = with_flags (kernel s) (Z.land (flags s) (not64 0x34300));
}.

(** ** What the tables say *)

Context (Hsy : stubs_placed sy).
Context (HT : ∀ v, 0 ≤ v < 256 → kernel_idt T !! Z.to_nat v = Some (idt_gate (isr_table sy v) v)).

(** Where the frame starts: below the interrupted code's stack, or on the stack of
    the double fault. *)
Definition frame_top (v : Z) s : Z :=
  Z.land (if v =? 8 then nth 0 (tss_ist (kernel_tss T)) 0 else reg s RSP) (not64 15).

Lemma isr_pads v :
  negb (v =? 8) && negb (v =? 10) && negb (v =? 11) && negb (v =? 12) && negb (v =? 13) &&
  negb (v =? 14) && negb (v =? 17) && negb (v =? 21) && negb (v =? 29) && negb (v =? 30) =
  negb (has_error v).
Proof. unfold has_error. cbn [existsb]. by rewrite !negb_orb, !andb_assoc, andb_true_r. Qed.

Lemma is_u64_seg g s : typed s → is_u64 (seg s g).
Proof. intros H. pose proof (ty_seg _ H g). unfold is_u64. lia. Qed.

(** The words of the frame, once they are all pushed. *)
Lemma framed_pushed e top s s' :
  pushed [seg s SS; reg s RSP; image e s; seg s CS; e_rip e; error_code e; e_vector e]
    (set_reg RSP top s) s' →
  outside s' = (<[CS := 8]> (seg s), tr s, gdtr s, idtr s, cr2 s,
                with_flags (kernel s) (Z.land (flags s) (not64 0x34300))) →
  framed e top s s'.
Proof.
  intros [Hp Hr Hw Ha] Ho. cbn [set_reg reg stack length] in *. rewrite fn_lookup_insert in *.
  injection Ho as Hseg Ht Hg Hi Hc Hk. split.
  - lia.
  - intros r Hne. rewrite Hr by done. by apply fn_lookup_insert_ne.
  - pose proof (Hw 0%nat _ eq_refl). pose proof (Hw 1%nat _ eq_refl). pose proof (Hw 2%nat _ eq_refl).
    pose proof (Hw 3%nat _ eq_refl). pose proof (Hw 4%nat _ eq_refl). pose proof (Hw 5%nat _ eq_refl).
    pose proof (Hw 6%nat _ eq_refl). unfold frame_at.
    f_equal; (etrans; [|eassumption]); f_equal; lia.
  - done.
  - intros g. rewrite Hseg. unfold insert, fn_insert. by destruct (decide (CS = g)) as [<-|]; case_decide.
  - by rewrite Ht, Hg, Hi, Hc.
  - done.
Qed.

(** The last two words are the stub's, the ones before the processor's. *)
Lemma wpx_deliver e (Q : Z → CORE D → Prop) s :
  0 ≤ e_vector e < 256 → is_u64 (e_rip e) → is_u64 (e_error e) → typed s →
  56 ≤ frame_top (e_vector e) s < 2 ^ 64 →
  (∀ s', pushed ([seg s SS; reg s RSP; image e s; seg s CS; e_rip e] ++
                 (if has_error (e_vector e) then [e_error e] else []))
           (set_reg RSP (frame_top (e_vector e) s) s) s' → outside s' = outside s →
    Q (isr_table sy (e_vector e))
      (set_seg CS 8 (set_kernel (with_flags (kernel s) (Z.land (flags s) (not64 0x34300))) s'))) →
  wpx (deliver T e) E Q s.
Proof.
  intros Hv Hrip Herr Hty Htop HQ. unfold deliver. rewrite HT by done. cbv zeta.
  rewrite decode_idt_gate by (by apply (sp_u64 _ Hsy)). cbn [g_present g_type g_target g_selector].
  change (negb ((1 =? 1) && (14 =? 14))) with false. cbv iota.
  do 4 apply wpx_bind, wpx_the. apply wpx_bind, wpx_step. unfold entry_stack. cbn [g_ist].
  assert (Z.land (if (if e_vector e =? 8 then 1 else 0) =? 0 then reg s RSP else
    nth (Z.to_nat ((if e_vector e =? 8 then 1 else 0) - 1)) (tss_ist (kernel_tss T)) 0) (not64 15) =
    frame_top (e_vector e) s) as -> by (unfold frame_top; by destruct (e_vector e =? 8)).
  set (top := frame_top (e_vector e) s) in *. set (s0 := set_reg RSP top s).
  assert (reg s0 RSP = top) as H0 by apply fn_lookup_insert.
  assert (is_u64 (image e s)) as Him.
  { unfold image. destruct (e_resume e); [|apply Hty]. apply is_u64_lor; [apply Hty|by vm_compute]. }
  fold (image e s).
  assert (is_u64 (seg s SS)) as Hss by by apply is_u64_seg.
  assert (is_u64 (seg s CS)) as Hcs by by apply is_u64_seg. pose proof (ty_reg _ Hty RSP) as Hsp.
  do 5 (apply wpx_bind; eapply wpx_push_more; [by (eassumption || apply pushed_nil)|done
    |cbn [length app]; rewrite H0; lia|]; cbn [app];
    let Hp := fresh "Hpushed" in let Ho := fresh "Hout" in intros ? Hp Ho).
  match goal with H : pushed [_; _; _; _; _] _ ?x |- _ => rename x into s1, H into Hs1 end.
  assert (outside s1 = outside s) as Hs1o by (transitivity (outside s0); [congruence|done]). cbv beta.
  assert (∀ s2, pushed ([seg s SS; reg s RSP; image e s; seg s CS; e_rip e] ++
      (if has_error (e_vector e) then [e_error e] else [])) s0 s2 → outside s2 = outside s →
    wpx (set_flags (λ f, Z.land f (not64 0x34300));; step (set_seg CS 8);; mret (isr_table sy (e_vector e)))
      E Q s2) as Hend.
  { intros s2 H2 Ho2. apply wpx_bind, wpx_step, wpx_bind, wpx_step, wpx_ret.
    assert (kernel s2 = kernel s) as Hk by (by injection Ho2).
    unfold flags in HQ |- *. rewrite Hk. by apply HQ. }
  apply wpx_bind. destruct (has_error (e_vector e)) eqn:Hhas.
  - eapply wpx_push_more; [exact Hs1|done|cbn [length]; rewrite H0; lia|].
    intros s2 H2 Ho2. apply Hend; [done|congruence].
  - apply wpx_ret, Hend; done.
Qed.

(** From the interruption to the common part of the stubs. *)
Lemma wpx_enter e (Q : Z → CORE D → Prop) s :
  0 ≤ e_vector e < 256 → is_u64 (e_rip e) → is_u64 (e_error e) → typed s →
  56 ≤ frame_top (e_vector e) s < 2 ^ 64 →
  (∀ s', framed e (frame_top (e_vector e) s) s s' →
    wpx (if (32 <=? e_vector e) && (e_vector e <? 48) then irq_common P else exception_common P)
      E Q s') →
  wpx (enter P sy T e) E Q s.
Proof.
  intros Hv Hrip Herr Hty Htop HQ. apply wpx_bind, wpx_deliver; [done..|].
  intros s1 H1 Ho1. rewrite stub_at_found by done. set (top := frame_top (e_vector e) s) in *.
  set (s0 := set_reg RSP top s) in *. assert (reg s0 RSP = top) as H0 by apply fn_lookup_insert.
  set (s2 := set_seg CS 8 _). assert (pushed ([seg s SS; reg s RSP; image e s; seg s CS; e_rip e] ++
      (if has_error (e_vector e) then [e_error e] else [])) s0 s2) as H2.
  { destruct H1 as [Hp Hr Hw Ha]. by split. }
  assert (∀ s3, pushed [seg s SS; reg s RSP; image e s; seg s CS; e_rip e; error_code e] s0 s3 →
    outside s3 = outside s2 →
    wpx (push_imm (e_vector e);; if (32 <=? e_vector e) && (e_vector e <? 48) then irq_common P
                                 else exception_common P) E Q s3) as Hend.
  { intros s3 H3 Ho3. apply wpx_bind. eapply wpx_push_more; [exact H3|apply u64_range| |].
    { cbn [length]. rewrite H0. lia. }
    rewrite u64_small by (unfold is_u64; lia). cbn [app]. intros s4 H4 Ho4. apply HQ.
    apply (framed_pushed e top s s4); [done|]. rewrite Ho4, Ho3. unfold outside, s2.
    cbn [set_seg set_kernel seg tr gdtr idtr cr2 kernel]. by injection Ho1 as -> -> -> -> -> _. }
  unfold isr. rewrite isr_pads. apply wpx_bind. unfold error_code in *.
  destruct (has_error (e_vector e)); cbn [negb app] in *.
  - by apply wpx_ret, Hend.
  - eapply wpx_push_more; [exact H2|apply u64_range|cbn [length]; rewrite H0; lia|].
    intros s3 H3 Ho3. by apply Hend.
Qed.

(** ** Returning *)

(** Everything the interrupted code can see but the kernel's variables. *)
Record restored s s' : Prop := {
  rs_reg r : reg s' r = reg s r;
  rs_seg g : seg s' g = seg s g;
  rs_tables : (tr s', gdtr s', idtr s', cr2 s') = (tr s, gdtr s, idtr s, cr2 s);
  rs_stack a : reg s RSP ≤ a → load (stack s') a = load (stack s) a;
}.

(** [iretq] from a frame. *)
Lemma wpx_iretq fr (Q : Z → CORE D → Prop) s :
  0 ≤ reg s RSP → reg s RSP + 40 < 2 ^ 64 → frame_at (stack s) (reg s RSP - 16) = fr →
  0 ≤ frame_cs fr < 2 ^ 16 → 0 ≤ frame_ss fr < 2 ^ 16 →
  (∀ s', (∀ r, reg s' r = if decide (r = RSP) then frame_rsp fr else reg s r) →
    (∀ g, seg s' g = if decide (g = CS) then frame_cs fr else if decide (g = SS) then frame_ss fr
                     else seg s g) →
    (tr s', gdtr s', idtr s', cr2 s') = (tr s, gdtr s, idtr s, cr2 s) → stack s' = stack s →
    kernel s' = with_flags (kernel s) (frame_rflags fr) → Q (rip fr) s') →
  wpx iretq E Q s.
Proof.
  intros H0 Hp Hfr Hcs Hss HQ. unfold iretq.
  do 5 apply wpx_bind, wpx_pop_word. do 4 apply wpx_bind, wpx_step. apply wpx_ret.
  cbn [set_reg reg stack]. rewrite !fn_lookup_insert.
  rewrite !(u64_small (reg s RSP + 8)), !(u64_small (reg s RSP + 8 + 8)),
    !(u64_small (reg s RSP + 8 + 8 + 8)), !(u64_small (reg s RSP + 8 + 8 + 8 + 8)) by (unfold is_u64; lia).
  pose proof (f_equal rip Hfr) as H1. pose proof (f_equal frame_cs Hfr) as H2.
  pose proof (f_equal frame_rflags Hfr) as H3. pose proof (f_equal frame_rsp Hfr) as H4.
  pose proof (f_equal frame_ss Hfr) as H5. cbn [frame_at rip frame_cs frame_rflags frame_rsp frame_ss] in *.
  replace (reg s RSP - 16 + 16) with (reg s RSP) in H1 by lia.
  replace (reg s RSP - 16 + 24) with (reg s RSP + 8) in H2 by lia.
  replace (reg s RSP - 16 + 32) with (reg s RSP + 16) in H3 by lia.
  replace (reg s RSP - 16 + 40) with (reg s RSP + 24) in H4 by lia.
  replace (reg s RSP - 16 + 48) with (reg s RSP + 32) in H5 by lia.
  replace (reg s RSP + 8 + 8 + 8 + 8) with (reg s RSP + 32) by lia.
  replace (reg s RSP + 8 + 8 + 8) with (reg s RSP + 24) by lia.
  replace (reg s RSP + 8 + 8) with (reg s RSP + 16) by lia.
  rewrite H1, H2, H3, H4, H5. unfold u16.
  rewrite (Z.mod_small (frame_cs fr)), (Z.mod_small (frame_ss fr)) by done.
  apply HQ; [| |done|done|done]; intros x; cbn [set_reg set_seg set_kernel reg seg];
    unfold insert, fn_insert; repeat case_decide; congruence.
Qed.

(** ** [irq_common] *)

Context (room : Z) `{!Compiled room P}.

Lemma align_down x : is_u64 x → Z.land x (u64 (-16)) = x / 16 * 16.
Proof. intros H. exact (land_align x 4 H ltac:(lia)). Qed.

(** IF and DF clear. *)
Definition clear (f : Z) : Prop := off f ∧ Z.testbit f 10 = false.

Lemma clear_alike f g : is_u64 f → alike f g → clear g → clear f.
Proof.
  intros Hf Ha [[_ H9] H10]. change IF_BIT with (bit64 9) in H9. rewrite has_bits_bit64 in H9 by lia.
  split; [split; [done|]|by rewrite (alike_testbit f g)].
  change IF_BIT with (bit64 9). rewrite has_bits_bit64 by lia. by rewrite (alike_testbit f g).
Qed.

Lemma clear_entry f : is_u64 f → clear (Z.land (Z.land f (not64 0x34300)) (not64 DF)).
Proof.
  intros Hf. split; [split|].
  - do 2 (apply is_u64_land; [|by vm_compute]). done.
  - change IF_BIT with (bit64 9). rewrite has_bits_bit64, !Z.land_spec by lia.
    change (Z.testbit (not64 0x34300) 9) with false. by rewrite andb_false_r.
  - rewrite !Z.land_spec. change (Z.testbit (not64 DF) 10) with false. by rewrite andb_false_r.
Qed.

(** The call of a C function from an unaligned stack. *)
Lemma wpx_aligned_call {A} ra code (c : asm D A) (Q : A → CORE D → Prop) s :
  (∀ r, is_u64 (reg s r)) → is_u64 ra → 0 ≤ room → room + 24 ≤ reg s RSP → clear (flags s) →
  (∀ s', called room s' → (∀ r, r ≠ RSP → reg s' r = reg s r) → reg s' RSP + 8 ≤ reg s RSP →
    (∀ a, reg s RSP ≤ a → load (stack s') a = load (stack s) a) → seg s' = seg s →
    (tr s', gdtr s', idtr s', cr2 s') = (tr s, gdtr s, idtr s, cr2 s) →
    (∃ f, off f ∧ kernel s' = with_flags (kernel s) f) → wpx c E Q (code s')) →
  wpx (and_imm (-16) RSP;; call ra code;; c) E Q s.
Proof.
  intros Hu Hra Hroom Hsp Hf HQ. apply wpx_bind, wpx_compute. cbn [fst snd].
  rewrite align_down by done. set (st := status _ _ _ _ _). set (f := Z.lor _ st).
  destruct (status_sound 64 false false false (reg s RSP / 16 * 16)) as [Hst Hz]. fold st in Hst, Hz.
  assert (clear f) as Hc.
  { apply (clear_alike f (flags s)); [|by apply alike_lor|done].
    apply is_u64_lor; [|done]. apply is_u64_land; [apply Hf|by vm_compute]. }
  set (s1 := set_kernel _ _). pose proof (Hu RSP) as [_ H64].
  assert (reg s1 RSP = reg s RSP / 16 * 16) as H1 by apply fn_lookup_insert.
  apply wpx_bind, wpx_bind, wpx_push_word; [done|rewrite H1; zdm|].
  intros s2 [Hp Hr _ Ha] Ho. cbn [length] in Hp. apply wpx_step.
  injection Ho as Hseg Ht Hg Hi Hcr Hk. change (flags s1) with f in *.
  assert (∀ r, r ≠ RSP → reg s2 r = reg s r) as Hregs.
  { intros r Hne. rewrite Hr by done. by apply fn_lookup_insert_ne. }
  apply HQ; [split| | | | | |].
  - intros r. destruct (decide (r = RSP)) as [->|Hne]; [|by rewrite Hregs].
    unfold is_u64. rewrite Hp, H1. zdm.
  - rewrite Hp, H1. zdm.
  - rewrite Hp, H1. zdm.
  - unfold flags. rewrite Hk. apply Hc.
  - unfold flags. rewrite Hk. apply Hc.
  - done.
  - rewrite Hp, H1. zdm.
  - intros a Hal. rewrite Ha; [done|]. rewrite H1. zdm.
  - done.
  - by rewrite Ht, Hg, Hi, Hcr.
  - exists f. split; [apply Hc|done].
Qed.

(** Dispatching from any flags with interrupts off, with the flags put back. *)
Lemma interrupt_any_flags v (k : KERNEL D) f :
  is_u64 (rflags (cpu k)) → off f →
  with_flags (snd (Irq.irq_dispatch v (with_flags k f))) (rflags (cpu k)) = snd (Irq.interrupt v k).
Proof.
  intros Hu Hf. set (g := Z.land (rflags (cpu k)) (not64 IF_BIT)).
  assert (off g) as Hg.
  { split; [by apply is_u64_land|]. apply (land_not_bit64 _ 9). lia. }
  destruct (blind_irq_dispatch v k f g Hf Hg) as (a & k' & H1 & H2). rewrite H1. cbn [snd].
  unfold Irq.interrupt, mbind, st_bind, on_cpu, set_cpu, x86_irq_save, x86_read_rflags,
    x86_disable_interrupts.
  match goal with |- context [Irq.irq_dispatch v ?x] => change x with (with_flags k g) end.
  by rewrite H2.
Qed.

Lemma saved_all r : r ≠ RSP → r ∈ saved_registers.
Proof. unfold saved_registers. destruct r; intros H; try done; repeat constructor. Qed.

(** The call of [irq_dispatch] with the vector that is 120 bytes up the stack. *)
Lemma wpx_dispatch {A} v (c : asm D A) (Q : A → CORE D → Prop) s :
  (∀ r, is_u64 (reg s r)) → 0 ≤ room → room + 24 ≤ reg s RSP → reg s RSP + 120 < 2 ^ 64 →
  load (stack s) (reg s RSP + 120) = v → clear (Z.land (flags s) (not64 DF)) →
  (∀ s', reg s' RSP = reg s RSP → (∀ a, reg s RSP ≤ a → load (stack s') a = load (stack s) a) →
    (∀ g, seg s' g = seg s g) → (tr s', gdtr s', idtr s', cr2 s') = (tr s, gdtr s, idtr s, cr2 s) →
    (∃ f g, off f ∧
      kernel s' = with_flags (snd (Irq.irq_dispatch v (with_flags (kernel s) f))) g) →
    wpx c E Q s') →
  wpx (cld;; mov_load 120 RSP RDI;; mov RSP RBX;; and_imm (-16) RSP;;
       call (after_dispatch P) (irq_dispatch P);; mov RBX RSP;; c) E Q s.
Proof.
  intros Hu Hroom Hsp H64 Hv Hf HQ. apply wpx_bind, wpx_step, wpx_bind, wpx_step, wpx_bind, wpx_step.
  cbv beta. match goal with |- wpx _ _ _ ?x => set (s3 := x) end.
  assert (stack s3 = stack s ∧ seg s3 = seg s ∧ flags s3 = Z.land (flags s) (not64 DF)) as (Hs3 & Hg3 & Hf3)
    by done.
  assert (reg s3 RSP = reg s RSP ∧ reg s3 RBX = reg s RSP) as [Hp3 Hb3].
  { unfold s3. cbn [set_reg set_kernel reg]. by rewrite fn_lookup_insert, !fn_lookup_insert_ne. }
  assert (reg s3 RDI = v) as Hd3.
  { unfold s3. cbn [set_reg set_kernel reg stack]. rewrite fn_lookup_insert_ne, fn_lookup_insert by done.
    rewrite u64_small by (unfold is_u64; pose proof (Hu RSP) as [??]; lia). done. }
  apply wpx_aligned_call; [|by apply compiled_addresses|done|by rewrite Hp3|by rewrite Hf3|].
  { intros r. unfold s3. cbn [set_reg set_kernel reg stack]. unfold insert, fn_insert.
    repeat case_decide; first [apply Hu|apply load_range]. }
  intros s4 H4 Hr4 Hp4 Ha4 Hseg4 Ht4 (f & Hf4 & Hk4).
  destruct (compiled_dispatch _ H4) as [[Hu5 _ _ Hcs5 Ha5 Hseg5 Ht5] Hk5].
  apply wpx_bind, wpx_step, HQ; cbn [set_reg reg stack seg tr gdtr idtr cr2 kernel].
  - rewrite fn_lookup_insert, Hcs5 by by left. by rewrite Hr4.
  - intros a Ha. rewrite Ha5, Ha4, Hs3 by lia. done.
  - intros g. by rewrite Hseg5, Hseg4, Hg3.
  - by rewrite Ht5, Ht4.
  - exists f. eexists. split; [done|]. rewrite Hk5, Hk4, Hr4, Hd3 by done. reflexivity.
Qed.

(** The dispatch of an interrupt, from its frame to the instruction it interrupted. *)
Lemma wpx_irq_common e top (Q : Z → CORE D → Prop) s s1 :
  typed s → framed e top s s1 → is_u64 (e_rip e) → e_resume e = false → 0 ≤ room →
  top ≤ reg s RSP → room + 200 ≤ top →
  (∀ s', restored s s' → kernel s' = snd (Irq.interrupt (e_vector e) (kernel s)) → Q (e_rip e) s') →
  wpx (irq_common P) E Q s1.
Proof.
  intros Hty [Hp1 Hr1 Hfr Ha1 Hseg1 Ht1 Hk1] Hrip Hres Hroom Hge Htop HQ.
  pose proof (ty_reg _ Hty RSP) as [_ H64].
  assert (∀ r, is_u64 (reg s1 r)) as Hu1.
  { intros r. destruct (decide (r = RSP)) as [->|Hne]; [unfold is_u64; lia|]. rewrite Hr1 by done.
    apply Hty. }
  unfold irq_common. apply wpx_bind, wpx_push_all;
    [by apply (bool_decide_unpack _)|done|rewrite Hp1; cbn [length saved_registers]; lia|].
  intros s2 H2 Ho2. pose proof (pu_rsp _ _ _ H2) as Hp2. cbn [length fmap list_fmap saved_registers] in Hp2.
  injection Ho2 as Hseg2 Htr2 Hg2 Hi2 Hc2 Hk2.
  apply (wpx_dispatch (e_vector e)); [|done|lia|lia| | |].
  { intros r. destruct (decide (r = RSP)) as [->|Hne]; [unfold is_u64; lia|].
    by rewrite (pu_reg _ _ _ H2). }
  { rewrite (pu_above _ _ _ H2) by lia. replace (reg s2 RSP + 120) with (top - 56) by lia.
    by apply (f_equal vector) in Hfr. }
  { unfold flags. rewrite Hk2, Hk1. apply clear_entry, Hty. }
  intros s3 Hp3 Ha3 Hseg3 Ht3 (f & g & Hf & Hk3).
  apply wpx_bind, wpx_pop_all; [by apply (bool_decide_unpack _)..|lia|cbn [length restored_registers]; lia|].
  intros s4 H4. destruct (pushed_popped _ _ _ _ _ H2 Hp3 Ha3 H4) as [Hp4 Hr4].
  pose proof (po_stack _ _ _ H4) as Hs4. pose proof (po_outside _ _ _ H4) as Ho4.
  injection Ho4 as Hseg4 Htr4 Hg4 Hi4 Hc4 Hk4.
  apply wpx_bind, wpx_compute. cbn [fst snd].
  rewrite u64_small by (unfold is_u64; lia).
  match goal with |- wpx _ _ _ ?x => set (s5 := x) end.
  assert (reg s5 RSP = top - 40) as Hp5 by (etrans; [apply fn_lookup_insert|]; lia).
  apply (wpx_iretq (frame_at (stack s1) (top - 56))); [lia|lia| | | |].
  { rewrite Hp5. change (stack s5) with (stack s4). rewrite Hs4. replace (top - 40 - 16) with (top - 56) by lia.
    unfold frame_at. f_equal; rewrite Ha3, (pu_above _ _ _ H2) by lia; done. }
  { rewrite Hfr. apply Hty. }
  { rewrite Hfr. apply Hty. }
  rewrite Hfr. cbn [rip frame_cs frame_ss frame_rsp frame_rflags]. unfold image. rewrite Hres.
  intros s6 Hr6 Hseg6 Ht6 Hs6 Hk6. apply HQ; [split|].
  - intros r. rewrite Hr6. case_decide as Hd; [by subst|]. unfold s5. cbn [set_kernel set_reg reg].
    rewrite fn_lookup_insert_ne, Hr4, Hr1 by (done || by apply saved_all). done.
  - intros g'. rewrite Hseg6. repeat case_decide; subst; try done.
    change (seg s5 g') with (seg s4 g'). rewrite Hseg4, Hseg3, Hseg2, Hseg1. by rewrite decide_False.
  - rewrite Ht6, <- Ht1. cbn. rewrite Htr4, Hg4, Hi4, Hc4, Ht3. by rewrite Htr2, Hg2, Hi2, Hc2.
  - intros a Ha. rewrite Hs6. change (stack s5) with (stack s4).
    rewrite Hs4, Ha3, (pu_above _ _ _ H2), Ha1 by lia. done.
  - rewrite Hk6. change (kernel s5) with (with_flags (kernel s4) (flags s5)).
    rewrite Hk4, Hk3, Hk2, Hk1, !with_flags_twice. by apply interrupt_any_flags; [apply Hty|].
Qed.

Lemma frame_top_range v s :
  is_u64 (nth 0 (tss_ist (kernel_tss T)) 0) → typed s →
  frame_top v s mod 16 = 0 ∧ 0 ≤ frame_top v s < 2 ^ 64.
Proof.
  clear E. intros Hist Hty. unfold frame_top.
  assert (is_u64 (if v =? 8 then nth 0 (tss_ist (kernel_tss T)) 0 else reg s RSP)) as Hu
    by (destruct (v =? 8); [done|apply Hty]).
  rewrite (land_align _ 4) by (done || lia). unfold is_u64 in Hu. change (2 ^ 4) with 16. split; zdm.
Qed.

(** An interrupt of the controllers. *)
Lemma wpx_interrupt e (Q : Z → CORE D → Prop) s :
  32 ≤ e_vector e < 48 → is_u64 (e_rip e) → is_u64 (e_error e) → e_resume e = false → typed s →
  0 ≤ room → room + 216 ≤ reg s RSP →
  (∀ s', restored s s' → kernel s' = snd (Irq.interrupt (e_vector e) (kernel s)) → Q (e_rip e) s') →
  wpx (enter P sy T e) E Q s.
Proof.
  intros Hv Hrip Herr Hres Hty Hroom Hsp HQ. pose proof (ty_reg _ Hty RSP) as Hu.
  assert (frame_top (e_vector e) s = reg s RSP / 16 * 16) as Htop.
  { unfold frame_top. replace (e_vector e =? 8) with false by lia. by rewrite (land_align _ 4). }
  unfold is_u64 in Hu. apply wpx_enter; [lia|done|done|done|rewrite Htop; zdm|].
  intros s1 H1. replace ((32 <=? e_vector e) && (e_vector e <? 48)) with true by lia.
  rewrite Htop in H1. eapply wpx_irq_common; [done|exact H1|done|done|done|zdm|zdm|done].
Qed.

(** The report of an exception, from any flags with interrupts off. *)
Lemma panic_any_flags fr c2 (k : KERNEL D) f g :
  is_u64 (rflags (cpu k)) → off f →
  with_flags (snd (Tables.exception_panic fr c2 (with_flags k f))) g =
  with_flags (snd (Tables.exception_panic fr c2 (snd (set_cpu x86_disable_interrupts k)))) g.
Proof.
  intros Hu Hf. set (h := Z.land (rflags (cpu k)) (not64 IF_BIT)).
  assert (off h) as Hh.
  { split; [by apply is_u64_land|]. apply (land_not_bit64 _ 9). lia. }
  destruct (blind_exception_panic fr c2 k f h Hf Hh) as (a & k' & H1 & H2). rewrite H1.
  change (snd (set_cpu x86_disable_interrupts k)) with (with_flags k h). by rewrite H2.
Qed.

(** An exception, or any vector that is not the controllers'. *)
Lemma wpx_exception {A} e (Q : A → CORE D → Prop) s s1 :
  typed s → framed e (frame_top (e_vector e) s) s s1 → 0 ≤ room →
  room + 80 ≤ frame_top (e_vector e) s < 2 ^ 64 →
  (∀ s' f, off f → kernel s' = with_flags (snd (Tables.exception_panic
      {| vector := e_vector e; error := error_code e; rip := e_rip e; frame_cs := seg s CS;
         frame_rflags := image e s; frame_rsp := reg s RSP; frame_ss := seg s SS |}
      (cr2 s) (snd (set_cpu x86_disable_interrupts (kernel s))))) f →
    E Halted s') →
  wpx (exception_common P (A:=A)) E Q s1.
Proof.
  intros Hty [Hp1 Hr1 Hfr Ha1 Hseg1 Ht1 Hk1] Hroom Htop HE. set (top := frame_top (e_vector e) s) in *.
  unfold exception_common. apply wpx_bind, wpx_step, wpx_bind, wpx_step, wpx_bind, wpx_step. cbv beta.
  match goal with |- wpx _ _ _ ?x => set (s2 := x) end.
  assert (reg s2 RSP = top - 56 ∧ reg s2 RDI = top - 56 ∧ reg s2 RSI = cr2 s) as (Hp2 & Hd2 & Hi2).
  { unfold s2. cbn [set_reg set_kernel reg]. rewrite fn_lookup_insert, !fn_lookup_insert_ne by done.
    rewrite fn_lookup_insert. injection Ht1 as _ _ _ Hc. done. }
  assert (flags s2 = Z.land (Z.land (flags s) (not64 0x34300)) (not64 DF)) as Hf2.
  { change (flags s2) with (Z.land (flags s1) (not64 DF)). unfold flags. by rewrite Hk1. }
  apply wpx_aligned_call; [|by apply compiled_addresses|done|lia|rewrite Hf2; apply clear_entry, Hty|].
  { intros r. unfold s2. cbn [set_reg set_kernel reg]. unfold insert, fn_insert.
    assert (is_u64 (reg s1 RSP)) by (rewrite Hp1; unfold is_u64; lia).
    repeat case_decide; try done; [injection Ht1 as _ _ _ Hc; change (is_u64 (cr2 s1)); rewrite Hc; apply Hty|].
    destruct (decide (r = RSP)) as [->|Hne]; [done|]. rewrite Hr1 by done. apply Hty. }
  intros s3 H3 Hr3 Hp3 Ha3 _ _ (f & Hf & Hk3). destruct (compiled_panic _ H3) as [Hu4 Hk4].
  set (s4 := Stubs.exception_panic P s3) in *. apply wpx_bind, wpx_drive, wpx_exit.
  eapply (HE _ (Z.land (flags s4) (not64 IF_BIT))).
  { split; [by apply is_u64_land|]. apply (land_not_bit64 _ 9). lia. }
  cbn [set_kernel kernel]. unfold set_cpu at 1, on_cpu. cbn [snd].
  match goal with |- ?x = _ => change x with (with_flags (kernel s4) (Z.land (flags s4) (not64 IF_BIT))) end.
  rewrite Hk4, with_flags_twice, Hk3, !Hr3, Hd2, Hi2 by done.
  assert (frame_at (stack s3) (top - 56) = frame_at (stack s1) (top - 56)) as ->.
  { unfold frame_at. f_equal; rewrite Ha3 by lia; done. }
  rewrite Hfr. change (kernel s2) with (with_flags (kernel s1) (flags s2)).
  rewrite with_flags_twice, Hk1, with_flags_twice. by apply panic_any_flags; [apply Hty|].
Qed.

End enter.

(** ** The halt *)

(** As the console's [halt] enters it, with interrupts off, it is never left. *)
Lemma kernel_halt_halts {D} `{!Device D} (P : CODE D) sy T turns jmp (s : CORE D) :
  has_bits (flags s) IF_BIT = false → kernel_halt P sy T (S turns) jmp s = exit Halted s.
Proof.
  intros Hf. cbn [kernel_halt]. unfold hlt, mbind, ex_bind, lift, get, st_bind.
  rewrite Hf. done.
Qed.

(** ** Properties *)

(** The static tables before [tables_init] fills them. *)
Record tables_room (t : TABLES) : Prop := {
  tt_idt : length (kernel_idt t) = 256%nat;
  tt_ist : length (tss_ist (kernel_tss t)) = 7%nat;
  tt_u64 : Forall is_u64 (tss_ist (kernel_tss t));
}.

Section filled.
Context (sy : SYMBOLS) (stack_top : Z) (t : TABLES) (Ht : tables_room t).

Abbreviation filled := (fst (tables_init sy stack_top t)).

Lemma filled_gates v :
  0 ≤ v < 256 → kernel_idt filled !! Z.to_nat v = Some (idt_gate (isr_table sy v) v).
Proof. intros Hv. apply (fill_idt (λ i, idt_gate (isr_table sy i) i)); [apply Ht|done]. Qed.

Lemma filled_ist : Forall is_u64 (tss_ist (kernel_tss filled)).
Proof. apply Forall_insert; [apply Ht|apply u64_range]. Qed.

Lemma filled_df_stack : is_u64 (nth 0 (tss_ist (kernel_tss filled)) 0).
Proof.
  pose proof filled_ist as H. destruct (tss_ist (kernel_tss filled)) as [|x l]; [by vm_compute|].
  by apply Forall_cons in H as [H _].
Qed.

End filled.

(** ** Loading the tables *)

Lemma low_word x v : u16 (Z.lor (Z.land x (not64 0xffff)) (u16 v)) = u16 v.
Proof.
  unfold u16. rewrite <- !Z.land_ones by lia. rewrite Z.land_lor_distr_l, <- !Z.land_assoc.
  change (Z.land (not64 65535) (Z.ones 16)) with 0. by rewrite Z.land_0_r, Z.land_diag.
Qed.

Section load.
Context {D : Type} `{!Device D}.
Implicit Types (s : CORE D).
Context (E : stop → CORE D → Prop).

(** The far return into the new code segment. *)
Lemma wpx_far_return {A} next (c : Z → asm D A) (Q : A → CORE D → Prop) s :
  is_u64 next → 16 ≤ reg s RSP → reg s RSP < 2 ^ 64 →
  (∀ s', reg s' RSP = reg s RSP → (∀ r, r ≠ RSP → r ≠ RAX → reg s' r = reg s r) →
    (∀ a, reg s RSP ≤ a → load (stack s') a = load (stack s) a) → seg s' CS = 8 →
    tr s' = tr s → gdtr s' = gdtr s → idtr s' = idtr s → kernel s' = kernel s → wpx (c next) E Q s') →
  wpx (push_imm 0x08;; mov_imm next RAX;; push RAX;; target ← lretq; c target) E Q s.
Proof.
  intros Hnext Hsp H64 HQ. apply wpx_bind, wpx_push_word; [apply u64_range|lia|].
  intros s2 [Hp2 Hr2 Hw2 Ha2] Ho2. cbn [length] in Hp2.
  apply wpx_bind, wpx_step. rewrite (u64_small next) by done. set (s3 := set_reg RAX next s2).
  assert (reg s3 RSP = reg s RSP - 8) as Hp3 by (etrans; [by apply fn_lookup_insert_ne|lia]).
  assert (reg s3 RAX = next) as Hx3 by apply fn_lookup_insert.
  apply wpx_bind, wpx_push; [by rewrite Hx3|lia|]. rewrite Hx3.
  intros s4 [Hp4 Hr4 Hw4 Ha4] Ho4. change (stack s3) with (stack s2) in *. cbn [length] in Hp4.
  assert (load (stack s4) (reg s4 RSP) = next) as Hl4.
  { rewrite <- (Hw4 0%nat _ eq_refl). f_equal. lia. }
  assert (load (stack s4) (reg s4 RSP + 8) = 8) as Hl5.
  { rewrite Ha4 by lia. etrans; [|exact (Hw2 0%nat _ eq_refl)]. f_equal. lia. }
  injection Ho2 as Hg2 Ht2 Hgd2 Hid2 Hc2 Hk2. injection Ho4 as Hg4 Ht4 Hgd4 Hid4 Hc4 Hk4.
  apply wpx_bind, wpx_bind, wpx_pop_word, wpx_bind, wpx_pop_word, wpx_bind, wpx_step, wpx_ret.
  cbn [set_reg reg stack]. rewrite fn_lookup_insert, Hl4.
  rewrite !(u64_small (reg s4 RSP + 8)), Hl5, (u64_small (reg s4 RSP + 8 + 8)) by (unfold is_u64; lia).
  apply HQ; cbn [set_seg set_reg reg stack tr gdtr idtr kernel]; try congruence.
  - rewrite fn_lookup_insert. lia.
  - intros r Hne Hne'. rewrite !fn_lookup_insert_ne, Hr4 by done. unfold s3. cbn [set_reg reg].
    rewrite fn_lookup_insert_ne by done. by apply Hr2.
  - intros a Hal. rewrite Ha4, Ha2 by lia. done.
  - apply fn_lookup_insert.
Qed.

(** The rest: the selectors, the task register and the table of the gates. *)
Lemma wpx_load_selectors (Q : Z → CORE D → Prop) s :
  is_u64 (flags s) → 0 ≤ reg s RSP → reg s RSP + 8 < 2 ^ 64 →
  (∀ s', (∀ g, seg s' g = if decide (g = CS) then seg s CS
                          else if decide (g = FS ∨ g = GS) then 0 else 0x10) →
    tr s' = 0x18 → gdtr s' = gdtr s → idtr s' = pointer_at (stack s) (reg s RSI) →
    reg s' RSP = reg s RSP + 8 → (∀ r, r ≠ RSP → r ≠ RAX → reg s' r = reg s r) →
    stack s' = stack s → kernel s' = with_flags (kernel s) (flags s') → alike (flags s') (flags s) →
    Q (load (stack s) (reg s RSP)) s') →
  wpx (mov_imm16 0x10 RAX;; mov_seg RAX DS;; mov_seg RAX ES;; mov_seg RAX SS;; zero RAX;;
       mov_seg RAX FS;; mov_seg RAX GS;; mov_imm16 0x18 RAX;; ltr RAX;; lidt RSI;; ret) E Q s.
Proof.
  intros Hf H0 H64 HQ. do 4 apply wpx_bind, wpx_step. apply wpx_bind, wpx_compute. cbn [fst snd].
  rewrite Z.lxor_nilpotent. destruct (status_sound 32 false false false 0) as [_ Hst].
  set (st := status _ _ _ _ _) in *. do 5 apply wpx_bind, wpx_step. apply wpx_pop_word.
  cbn [set_reg set_seg set_tables set_kernel reg seg stack tr gdtr idtr kernel].
  rewrite !(fn_lookup_insert_ne _ RAX RSP) by done. rewrite u64_small by (unfold is_u64; lia).
  apply HQ; cbn [set_reg set_seg set_tables set_kernel reg seg stack tr gdtr idtr kernel]; try done.
  - intros g. rewrite !fn_lookup_insert, low_word. destruct g; done.
  - intros r Hne Hne'. by rewrite !fn_lookup_insert_ne.
  - by apply alike_lor.
Qed.

End load.

(** C5: an interrupt of the controllers is transparent. Taken through the tables
    that [tables_init] fills, by the stub of its vector, with any compiled
    [irq_dispatch] that keeps to the calling convention, it goes on at the
    interrupted instruction with all sixteen registers, the selectors, the
    table registers and the stack from RSP up as they were, and with exactly the
    kernel state - flags included - that the model of an interrupt used by the
    drivers says. *)
Theorem interrupt_is_transparent {D} `{!Device D} room (P : CODE D) `{!Compiled room P}
    sy stack_top t v rip (s : CORE D) :
  0 ≤ room → stubs_placed sy → tables_room t → 32 ≤ v < 48 → is_u64 rip → typed s →
  room + 216 ≤ reg s RSP →
  wpx (enter P sy (fst (tables_init sy stack_top t))
         {| e_vector := v; e_rip := rip; e_error := 0; e_resume := false |})
    (λ _ _, False)
    (λ rip' s', rip' = rip ∧ restored s s' ∧ kernel s' = snd (Irq.interrupt v (kernel s))) s.
Proof.
  intros Hroom Hsy Ht Hv Hrip Hty Hsp.
  eapply (wpx_interrupt P sy _ _ Hsy (filled_gates sy stack_top t Ht) room); try done.
Qed.

(** C6: an exception, or any vector that is not the controllers', is reported. From
    whatever the processor was doing, through the tables that [tables_init]
    fills and with any compiled [exception_panic] that keeps to the calling
    convention, the machine halts with the interrupts off; what is sent is sent
    politely and, on hardware that is ready to send, is the whole report of the
    vector, its error code or zero, and the registers it happened with. *)
Theorem exceptions_are_reported {D} `{!Device D} room (P : CODE D) `{!Compiled room P}
    sy stack_top t e (s : CORE D) :
  let T := fst (tables_init sy stack_top t) in
  0 ≤ room → stubs_placed sy → tables_room t → 0 ≤ e_vector e < 256 → ¬ 32 ≤ e_vector e < 48 →
  is_u64 (e_rip e) → is_u64 (e_error e) → typed s → room + 80 ≤ frame_top T (e_vector e) s →
  latch (line (kernel s)) = false →
  wpx (enter P sy T e)
    (λ r s', r = Halted ∧ has_bits (flags s') IF_BIT = false ∧
      latch (line (kernel s')) = false ∧
      (polite (line (kernel s)) = true → polite (line (kernel s')) = true) ∧
      ∃ p, wire (line (kernel s')) = wire (line (kernel s)) ++ p ∧
        (prompt_hardware (D:=D) → p = expand (report
          {| vector := e_vector e; error := error_code e; rip := e_rip e; frame_cs := seg s CS;
             frame_rflags := image e s; frame_rsp := reg s RSP; frame_ss := seg s SS |} (cr2 s))))
    (λ _ _, False) s.
Proof.
  intros T Hroom Hsy Ht Hv Hirq Hrip Herr Hty Hsp Hl.
  destruct (frame_top_range T (e_vector e) s (filled_df_stack sy stack_top t Ht) Hty) as [_ Htop].
  apply (wpx_enter P sy T _ Hsy (filled_gates sy stack_top t Ht)); [done..|lia|].
  intros s1 H1. replace ((32 <=? e_vector e) && (e_vector e <? 48)) with false by lia.
  eapply (wpx_exception P T _ room); [exact Hty|exact H1|done|lia|].
  intros s' f [_ Hf] Hk. split; [done|]. unfold flags. rewrite Hk. split; [exact Hf|].
  match type of Hk with context [Tables.exception_panic ?fr ?c ?k] =>
    pose proof (proj1 (says_panic fr c) k) as H end. unfold wp in H.
  destruct (Tables.exception_panic _ _ _) as [u k']. cbn [snd] in *.
  destruct (H Hl) as (p & [Hl' Hw Hp] & Hprompt). split; [exact Hl'|]. split; [exact Hp|].
  by exists p.
Qed.

(** C8: the assembly of [tables_load] loads what [Tables] says it does. From the
    two pointers in memory that the registers lead to, the table registers, the
    code segment, the data segments and the task register are those of
    [Tables.tables_load], and so - when these are the pointers to the tables -
    those that [tables_init] ends with; FS and GS are null. It returns to its
    caller with the stack popped, every register but RAX and all of the stack as
    they were, and the interrupts off. *)
Theorem tables_load_loads {D} `{!Device D} next (s : CORE D) :
  typed s → is_u64 next → 16 ≤ reg s RSP → reg s RSP + 8 < 2 ^ 64 → reg s RSP ≤ reg s RSI →
  reg s RDI mod 8 = 0 → reg s RSI mod 8 = 0 →
  let gdt := pointer_at (stack s) (reg s RDI) in
  let idt := pointer_at (stack s) (reg s RSI) in
  wpx (tables_load next) (λ _ _, False)
    (λ rip s',
      let loaded := {| Tables.gdtr := gdtr s'; Tables.idtr := idtr s'; cs := seg s' CS;
                       data_segments := seg s' DS; Tables.tr := tr s' |} in
      rip = load (stack s) (reg s RSP) ∧ loaded = Tables.tables_load gdt idt ∧
      (∀ sy stack_top t,
        gdt = {| limit := 8 * 5 - 1; base := at_gdt sy |} →
        idt = {| limit := 16 * 256 - 1; base := at_idt sy |} →
        loaded = snd (tables_init sy stack_top t)) ∧
      seg s' ES = seg s' DS ∧ seg s' SS = seg s' DS ∧ seg s' FS = 0 ∧ seg s' GS = 0 ∧
      reg s' RSP = reg s RSP + 8 ∧ (∀ r, r ≠ RSP → r ≠ RAX → reg s' r = reg s r) ∧
      (∀ a, reg s RSP ≤ a → load (stack s') a = load (stack s) a) ∧
      kernel s' = with_flags (kernel s) (flags s') ∧
      alike (flags s') (Z.land (flags s) (not64 IF_BIT))) s.
Proof.
  intros Hty Hnext Hsp H64 Hrsi _ _ gdt idt. apply wpx_bind, wpx_drive, wpx_bind, wpx_step.
  match goal with |- wpx _ _ _ ?x => set (s1 := x) end.
  simple apply wpx_far_return; [done|done|change (reg s1) with (reg s); lia|].
  change (reg s1) with (reg s).
  intros s2 Hp2 Hr2 Ha2 Hcs2 Ht2 Hg2 Hi2 Hk2. rewrite Z.eqb_refl. cbn [negb].
  assert (pointer_at (stack s2) (reg s2 RSI) = idt) as Hptr.
  { rewrite Hr2 by done. unfold idt, pointer_at. by rewrite !Ha2 by lia. }
  assert (flags s2 = Z.land (flags s) (not64 IF_BIT)) as Hf2 by (unfold flags at 1; by rewrite Hk2).
  simple apply wpx_load_selectors; [rewrite Hf2; by apply is_u64_land; [apply Hty|]|lia|lia|].
  rewrite Hp2, Ha2, Hptr, Hf2, Hg2, Hk2 by lia. intros s3 Hseg3 Ht3 Hg3 Hi3 Hp3 Hr3 Hs3 Hk3 Ha3.
  cbv zeta. rewrite !Hseg3, Hcs2, Ht3, Hg3, Hi3, Hs3, Hp3. split; [done|]. split; [done|].
  split; [intros sy stack_top t Hgdt Hidt; change (gdtr s1) with gdt; by rewrite Hgdt, Hidt|].
  do 5 (split; [done|]).
  split; [intros r Hne Hne'; by rewrite Hr3, Hr2|]. split; [done|]. split; [exact Hk3|exact Ha3].
Qed.

(** ** At concrete inputs *)

(** Compiled functions that do what the models of their sources do, and leave
    other values in the registers they may change, on the stack below them and
    in the status flags. *)
Section demo.
Context {D : Type} `{!Device D}.

Definition clobber (s : CORE D) : CORE D := {|
  reg r := if decide (r = RSP) then u64 (reg s RSP + 8)
           else if decide (r ∈ callee_saved) then reg s r else 0xdead;
  seg := seg s; tr := tr s; gdtr := gdtr s; idtr := idtr s; cr2 := cr2 s;
  stack := store (stack s) (reg s RSP) 0xdead; kernel := kernel s |}.

Definition demo_code : CODE D := {|
  irq_dispatch s :=
    set_kernel (with_flags (snd (Irq.irq_dispatch (reg s RDI) (kernel s))) 0x8d7) (clobber s);
  exception_panic s :=
    set_kernel (with_flags (snd (Tables.exception_panic (frame_at (stack s) (reg s RDI)) (reg s RSI)
      (kernel s))) 0x8d7) (clobber s);
  after_dispatch := 0x101000; after_panic := 0x101800 |}.

Lemma clobber_returned (s : CORE D) (k : KERNEL D) :
  called 8 s → returned s (set_kernel (with_flags k 0x8d7) (clobber s)).
Proof.
  intros [Hu Hroom Hal [Hf _] _]. split; rewrite ?flags_with.
  - intros r. cbn [set_kernel clobber reg].
    repeat case_decide; [apply u64_range|apply Hu|by vm_compute].
  - by vm_compute.
  - done.
  - intros r Hr. cbn [set_kernel clobber reg]. rewrite decide_False by (intros ->; revert Hr; by apply (bool_decide_unpack (RSP ∉ callee_saved))).
    by rewrite decide_True.
  - intros a Ha. apply load_store_ne. lia.
  - done.
  - done.
Qed.

#[export] Instance demo_compiled : Compiled 8 demo_code.
Proof.
  split.
  - by split; vm_compute.
  - intros s Hs. split; [by apply clobber_returned|reflexivity].
  - intros s _. split; [|reflexivity]. unfold is_u64. change (0 ≤ 0x8d7 < 2 ^ 64). lia.
Qed.

End demo.

#[local] Existing Instance TablesSpec.ready_uart.

(** Code interrupted in the middle of a function, its registers different from each
    other. *)
Definition interrupted : CORE unit := {|
  reg r := match r with
           | RAX => 0xa | RCX => 0xb | RDX => 0xc | RBX => 0xd | RSP => 0x1fff38 | RBP => 0xe
           | RSI => 0xf | RDI => 0x10 | R8 => 0x18 | R9 => 0x19 | R10 => 0x1a | R11 => 0x1b
           | R12 => 0x1c | R13 => 0x1d | R14 => 0x1e | R15 => 0xffffffffffffffff
           end;
  seg g := match g with CS => 8 | FS | GS => 0 | _ => 0x10 end;
  tr := 0x18; gdtr := {| limit := 39; base := 0x140000 |}; idtr := {| limit := 4095; base := 0x141000 |};
  cr2 := 0xdead000; stack := <[0x1fff38 := 42]> ∅;
  kernel := TablesSpec.faulting |}.

Lemma interrupted_typed : typed interrupted.
Proof. split; [intros []; by vm_compute|intros []; by vm_compute|by vm_compute..]. Qed.

Lemma demo_placed : stubs_placed demo_symbols.
Proof. split; cbn [demo_symbols isr_table]; [unfold is_u64; lia|lia]. Qed.

Lemma demo_tables : tables_room tables_bss.
Proof. split; [done|done|by repeat constructor]. Qed.

(** The timer's interrupt. *)
Lemma interrupt_is_transparent_witness :
  let '(r, s') := enter demo_code demo_symbols (fst (tables_init demo_symbols 0x200000 tables_bss))
    {| e_vector := 32; e_rip := 0x100abc; e_error := 0; e_resume := false |} interrupted in
  r = inr 0x100abc ∧ reg s' R15 = 0xffffffffffffffff ∧ load (stack s') 0x1fff38 = 42 ∧
  flags s' = 0x246 ∧ ticks (timer (kernel s')) = 1.
Proof.
  pose proof (interrupt_is_transparent 8 demo_code demo_symbols 0x200000 tables_bss 32 0x100abc
    interrupted ltac:(lia) demo_placed demo_tables ltac:(lia) ltac:(unfold is_u64; lia)
    interrupted_typed ltac:(cbn; lia)) as H.
  revert H. generalize (enter (D:=unit) demo_code demo_symbols (fst (tables_init demo_symbols 0x200000 tables_bss))
    {| e_vector := 32; e_rip := 0x100abc; e_error := 0; e_resume := false |}).
  intros m H. unfold wpx in H. destruct (m interrupted) as [[e|r] s']; [done|].
  destruct H as (-> & [Hr _ _ Hs] & Hk). split; [done|]. split; [rewrite Hr; reflexivity|].
  split; [rewrite Hs by (cbn; lia); by vm_compute|]. unfold flags. rewrite Hk.
  split; by vm_compute.
Defined.

(** A page fault, on hardware that is ready to send. *)
Lemma exceptions_are_reported_witness :
  let '(r, s') := enter demo_code demo_symbols (fst (tables_init demo_symbols 0x200000 tables_bss))
    {| e_vector := 14; e_rip := 0x100abc; e_error := 2; e_resume := true |} interrupted in
  r = inl Halted ∧ wire (line (kernel s')) = [] ++ expand (report
    {| vector := 14; error := 2; rip := 0x100abc; frame_cs := 8; frame_rflags := 0x10246;
       frame_rsp := 0x1fff38; frame_ss := 0x10 |} 0xdead000).
Proof.
  pose proof (exceptions_are_reported 8 demo_code demo_symbols 0x200000 tables_bss
    {| e_vector := 14; e_rip := 0x100abc; e_error := 2; e_resume := true |}
    interrupted ltac:(lia) demo_placed demo_tables ltac:(cbn; lia) ltac:(cbn; lia)
    ltac:(unfold is_u64; cbn; lia) ltac:(unfold is_u64; cbn; lia) interrupted_typed) as H.
  specialize (H ltac:(vm_compute; congruence) eq_refl).
  revert H. generalize (enter (D:=unit) demo_code demo_symbols (fst (tables_init demo_symbols 0x200000 tables_bss))
    {| e_vector := 14; e_rip := 0x100abc; e_error := 2; e_resume := true |}).
  intros m H. unfold wpx in H. destruct (m interrupted) as [[e|r] s']; [|done].
  destruct H as (-> & _ & _ & _ & p & Hw & Hp). split; [done|].
  assert (prompt_hardware (D:=unit)) as Hready.
  { apply idle_prompt. intros d. by vm_compute. }
  rewrite (Hp Hready) in Hw. exact Hw.
Defined.

(** The call from [tables_init], with the pointers above the return address. *)
Definition loading : CORE unit := {|
  reg r := match r with RSP => 0x1fff38 | RDI => 0x1fff40 | RSI => 0x1fff50 | _ => 0 end;
  seg _ := 0x38; tr := 0; gdtr := {| limit := 0; base := 0 |}; idtr := {| limit := 0; base := 0 |};
  cr2 := 0;
  stack := <[0x1fff38 := 0x100abc]> (<[0x1fff40 := 39 + Z.shiftl (at_gdt demo_symbols) 16]>
    (<[0x1fff50 := 4095 + Z.shiftl (at_idt demo_symbols) 16]> ∅));
  kernel := TablesSpec.faulting |}.

Lemma loading_typed : typed loading.
Proof. split; [intros []; by vm_compute|intros []; by vm_compute|by vm_compute..]. Qed.

Lemma tables_load_loads_witness :
  let '(r, s') := tables_load 0x101900 loading in
  r = inr 0x100abc ∧
  {| Tables.gdtr := gdtr s'; Tables.idtr := idtr s'; cs := seg s' CS; data_segments := seg s' DS;
     Tables.tr := tr s' |} = snd (tables_init demo_symbols 0x200000 tables_bss) ∧
  seg s' SS = 0x10 ∧ reg s' RSP = 0x1fff40.
Proof.
  pose proof (tables_load_loads 0x101900 loading loading_typed ltac:(unfold is_u64; lia)
    ltac:(cbn; lia) ltac:(cbn; lia) ltac:(cbn; lia) eq_refl eq_refl) as H.
  cbv zeta in H. revert H. generalize (tables_load (D:=unit) 0x101900). intros m H. unfold wpx in H.
  destruct (m loading) as [[e|r] s']; [done|].
  destruct H as (-> & Hl & Hi & _ & Hss & _ & _ & Hsp & _).
  split; [f_equal; by vm_compute|]. split; [apply Hi; by vm_compute|].
  split; [|rewrite Hsp; by vm_compute]. rewrite Hss. exact (f_equal data_segments Hl).
Defined.

End StubsSpec.
