(* ===== verification/Firmware.v ===== *)
(** * The firmware as the loader sees it: [boot/efi.h]

    The protocols the header declares, as classes of operations on a firmware
    state; the loader's state, which is the memory, the firmware, the processor
    and the history of the calls; and one computation per service. The firmware
    is a parameter: any implementation of the protocols. *)

From S2P Require Import Prelude State X86 Elf.

Module Firmware.
Export State.
Export Elf(EFI_SUCCESS, EFI_ERROR_BIT, EFI_ERROR, EFI_LOAD_ERROR, EFI_UNSUPPORTED, memory).

(** ** Constants and structures *)

Definition EFI_DEVICE_ERROR : Z := Z.lor EFI_ERROR_BIT 7.
Definition EFI_INVALID_PARAMETER : Z := Z.lor EFI_ERROR_BIT 2.

Record EFI_GUID := { Data1 : Z; Data2 : Z; Data3 : Z; Data4 : list Z }.

Definition NoParity : Z := 1.
Definition OneStopBit : Z := 1.

(** The fields the loader reads; its [BootServices] are those of the firmware. *)
Record EFI_SYSTEM_TABLE := { ConOut : Z; StdErr : Z }.

(** ** The protocols

    An operation returns its status and what it stores through its pointers;
    where it need not store anything, it is handed the value that is there. *)

Class EFI_BOOT_SERVICES (W : Type) := {
  bs_AllocatePages (type memory_type pages address : Z) : W → (Z * Z) * W;
  bs_FreePages (base pages : Z) : W → Z * W;
  (** the map's bytes, the key, the size of a descriptor and its version *)
  bs_GetMemoryMap (capacity : Z) : W → (Z * list Z * Z * Z * Z) * W;
  bs_AllocatePool (type size buffer : Z) : W → (Z * Z) * W;
  bs_FreePool (buffer : Z) : W → Z * W;
  bs_HandleProtocol (handle : Z) (protocol : EFI_GUID) (interface : Z) : W → (Z * Z) * W;
  bs_ExitBootServices (image key : Z) : W → Z * W;
  bs_SetWatchdogTimer (timeout code size data : Z) : W → Z * W;
  bs_LocateProtocol (protocol : EFI_GUID) (registration interface : Z) : W → (Z * Z) * W;
}.

Class EFI_SIMPLE_TEXT_OUTPUT_PROTOCOL (W : Type) := {
  to_OutputString (this : Z) (text : list Z) : W → Z * W;
}.

(** [DeviceHandle] is a field of the structure behind the interface. *)
Class EFI_LOADED_IMAGE_PROTOCOL (W : Type) := {
  li_DeviceHandle (this : Z) : W → Z;
}.

Class EFI_FILE_PROTOCOL (W : Type) := {
  f_Open (this file : Z) (path : list Z) (mode attributes : Z) : W → (Z * Z) * W;
  f_Close (this : Z) : W → Z * W;
  (** the bytes stored into the buffer *)
  f_Read (this count : Z) : W → (Z * list Z) * W;
  f_GetPosition (this : Z) : W → (Z * Z) * W;
  f_SetPosition (this position : Z) : W → Z * W;
}.

Class EFI_SIMPLE_FILE_SYSTEM_PROTOCOL (W : Type) := {
  fs_OpenVolume (this root : Z) : W → (Z * Z) * W;
}.

Class EFI_SERIAL_IO_PROTOCOL (W : Type) := {
  s_SetAttributes (this baud depth timeout parity data_bits stop_bits : Z) : W → Z * W;
  s_Write (this : Z) (text : list Z) : W → (Z * Z) * W;
}.

Class Protocols (W : Type) := {
  #[global] boot_services :: EFI_BOOT_SERVICES W;
  #[global] text_output :: EFI_SIMPLE_TEXT_OUTPUT_PROTOCOL W;
  #[global] loaded_image :: EFI_LOADED_IMAGE_PROTOCOL W;
  #[global] file_protocol :: EFI_FILE_PROTOCOL W;
  #[global] file_system :: EFI_SIMPLE_FILE_SYSTEM_PROTOCOL W;
  #[global] serial_io :: EFI_SERIAL_IO_PROTOCOL W;
}.

(** ** The loader's state *)

(** What the history records of a call: the resources it hands out or takes
    back, the pointer a refused [AllocatePool] or [Open] leaves, the data it
    moves. [Called] is any other call, and any other call that failed. *)
Inductive event :=
  | PagesAllocated (base pages : Z)
  | PagesFreed (base pages : Z)
  | PoolAllocated (buffer : Z)
  | PoolRefused (buffer : Z)
  | PoolFreed (buffer : Z)
  | FileOpened (file : Z)
  | OpenRefused (file : Z)
  | FileClosed (file : Z)
  | FileRead (bytes : list Z)
  | MapTaken (bytes : list Z) (key descriptor_size descriptor_version : Z)
  | ExitTried (key status : Z)
  | Displayed (text : list Z)
  | SerialSent (text : list Z)
  | Called.

Record LOADER (W : Type) := {
  mem : memory;
  firmware : W;
  cpu : X86.CPU;
  calls : list event;
  boot_exit_failure : Z;
}.
Arguments Build_LOADER {W}.
Arguments mem {W}.
Arguments firmware {W}.
Arguments cpu {W}.
Arguments calls {W}.
Arguments boot_exit_failure {W}.

Abbreviation boot W := (st (LOADER W)).

(** ** Memory *)

(** Consecutive bytes at an address, and the little-endian integers there. *)
Fixpoint put_bytes (a : Z) (bytes : list Z) (m : memory) : memory :=
  match bytes with
  | [] => m
  | b :: bytes => put_bytes (a + 1) bytes (<[a := u8 b]> m)
  end.
Definition get_bytes (a n : Z) (m : memory) : list Z := (λ i, default 0 (m !! (a + i))) <$> seqZ 0 n.

Fixpoint bytes_of (n : nat) (v : Z) : list Z :=
  match n with
  | O => []
  | S n => v mod 256 :: bytes_of n (v / 256)
  end.
Fixpoint value_of (bytes : list Z) : Z :=
  match bytes with
  | [] => 0
  | b :: bytes => u8 b + 256 * value_of bytes
  end.

Definition put32 (a v : Z) (m : memory) : memory := put_bytes a (bytes_of 4 v) m.
Definition put64 (a v : Z) (m : memory) : memory := put_bytes a (bytes_of 8 v) m.
Definition get64 (a : Z) (m : memory) : Z := value_of (get_bytes a 8 m).

Section services.
Context {W : Type} `{!Protocols W}.
Implicit Types (s : LOADER W).

Definition with_memory s (m : memory) : LOADER W :=
  Build_LOADER m (firmware s) (cpu s) (calls s) (boot_exit_failure s).
Definition set_memory (f : memory → memory) : boot W unit :=
  modify (λ s, with_memory s (f (mem s))).
Definition set_cpu (f : X86.CPU → X86.CPU) : boot W unit :=
  modify (λ s, Build_LOADER (mem s) (firmware s) (f (cpu s)) (calls s) (boot_exit_failure s)).
Definition set_exit_failure (status : Z) : boot W unit :=
  modify (λ s, Build_LOADER (mem s) (firmware s) (cpu s) (calls s) status).

(** A call of the firmware, recorded. *)
Definition call {A} (f : W → A * W) (e : A → event) : boot W A := λ s,
  let '(a, w) := f (firmware s) in
  (a, Build_LOADER (mem s) w (cpu s) (calls s ++ [e a]) (boot_exit_failure s)).

Definition on_success (status : Z) (e : event) : event := if EFI_ERROR status then Called else e.

(** The registers and fields that carry an answer are 64 bits wide. *)
Definition word (f : W → Z * W) : W → Z * W := λ w, let '(a, w) := f w in (u64 a, w).
Definition words (f : W → (Z * Z) * W) : W → (Z * Z) * W := λ w,
  let '((a, b), w) := f w in ((u64 a, u64 b), w).

Definition AllocatePages (type memory_type pages address : Z) : boot W (Z * Z) :=
  call (words (bs_AllocatePages type memory_type pages address))
    (λ '(status, base), on_success status (PagesAllocated base pages)).
Definition FreePages (base pages : Z) : boot W Z :=
  call (word (bs_FreePages base pages)) (λ _, PagesFreed base pages).
Definition AllocatePool (type size buffer : Z) : boot W (Z * Z) :=
  call (words (bs_AllocatePool type size buffer))
    (λ '(status, buffer), if EFI_ERROR status then PoolRefused buffer else PoolAllocated buffer).
Definition FreePool (buffer : Z) : boot W Z :=
  call (word (bs_FreePool buffer)) (λ _, PoolFreed buffer).
Definition HandleProtocol (handle : Z) (protocol : EFI_GUID) (interface : Z) : boot W (Z * Z) :=
  call (words (bs_HandleProtocol handle protocol interface)) (λ _, Called).
Definition ExitBootServices (image key : Z) : boot W Z :=
  call (word (bs_ExitBootServices image key)) (λ status, ExitTried key status).
Definition SetWatchdogTimer (timeout code size data : Z) : boot W Z :=
  call (word (bs_SetWatchdogTimer timeout code size data)) (λ _, Called).
Definition LocateProtocol (protocol : EFI_GUID) (registration interface : Z) : boot W (Z * Z) :=
  call (words (bs_LocateProtocol protocol registration interface)) (λ _, Called).
Definition OutputString (this : Z) (text : list Z) : boot W Z :=
  call (word (to_OutputString this text)) (λ _, Displayed text).
Definition DeviceHandle (this : Z) : boot W Z := get (λ s, u64 (li_DeviceHandle this (firmware s))).
Definition Open (this file : Z) (path : list Z) (mode attributes : Z) : boot W (Z * Z) :=
  call (words (f_Open this file path mode attributes))
    (λ '(status, file), if EFI_ERROR status then OpenRefused file else FileOpened file).
Definition Close (this : Z) : boot W Z := call (word (f_Close this)) (λ _, FileClosed this).
Definition GetPosition (this : Z) : boot W (Z * Z) :=
  call (words (f_GetPosition this)) (λ _, Called).
Definition SetPosition (this position : Z) : boot W Z :=
  call (word (f_SetPosition this position)) (λ _, Called).
Definition OpenVolume (this root : Z) : boot W (Z * Z) :=
  call (words (fs_OpenVolume this root)) (λ '(status, root), on_success status (FileOpened root)).
Definition SetAttributes (this baud depth timeout parity data_bits stop_bits : Z) : boot W Z :=
  call (word (s_SetAttributes this baud depth timeout parity data_bits stop_bits)) (λ _, Called).
Definition SerialWrite (this : Z) (text : list Z) : boot W (Z * Z) :=
  call (words (s_Write this text)) (λ _, SerialSent text).

(** [Read(file, &count, buffer)]: the status and the count, which is the number
    of bytes stored. *)
Definition Read (this count buffer : Z) : boot W (Z * Z) :=
  '(status, bytes) ← call (λ w, let '((status, bytes), w) := f_Read this count w in
                                ((u64 status, bytes), w))
    (λ '(status, bytes), on_success status (FileRead bytes));
  set_memory (put_bytes buffer bytes);;
  mret (status, Z.of_nat (List.length bytes)).

(** [GetMemoryMap(&size, map, &key, &descriptor_size, &descriptor_version)] *)
Definition GetMemoryMap (capacity map : Z) : boot W (Z * Z * Z * Z * Z) :=
  '(status, bytes, key, dsize, dversion) ←
    call (λ w, let '((status, bytes, key, dsize, dversion), w) := bs_GetMemoryMap capacity w in
               ((u64 status, bytes, u64 key, u64 dsize, u32 dversion), w))
      (λ '(status, bytes, key, dsize, dversion),
         on_success status (MapTaken bytes key dsize dversion));
  set_memory (put_bytes map bytes);;
  mret (status, Z.of_nat (List.length bytes), key, dsize, dversion).

End services.

End Firmware.
