(* ===== verification/Load.v ===== *)
(** * Reading the kernel: [boot/load.c], the firmware part

    [read_entire_file] and [load_kernel]: the file is found, read into a buffer
    and handed to [place_kernel] ([Elf]). *)

From Stdlib Require Import String.
From S2P Require Import Prelude Text Elf Firmware.

Module Load.
Import Text Firmware.
Import Elf(LOADED_KERNEL, k_base, k_pages, k_entry, sizeof_ELF_HEADER).

Section loader.
Context {W : Type} `{!Protocols W}.

(** The loop, with [fuel] turns at most; [None] when they do not suffice. *)
Fixpoint read_loop (fuel : nat) (file buffer length total : Z) : boot W (option Z) :=
  if total <? length then
    match fuel with
    | O => mret None
    | S fuel =>
        '(status, count) ← Read file (length - total) (buffer + total);
        if EFI_ERROR status then mret (Some status)
        else if (count =? 0) || (length - total <? count) then mret (Some EFI_LOAD_ERROR)
        else read_loop fuel file buffer length (total + count)
    end
  else mret (Some EFI_SUCCESS).

(** Every turn reads a byte at least, so [length] turns are enough
    ([LoadSpec.wp_read_loop]). *)
Definition read_entire_file (file buffer length : Z) : boot W Z :=
  status ← read_loop (Z.to_nat length) file buffer length 0;
  mret (default EFI_LOAD_ERROR status).

Definition loaded_guid : EFI_GUID :=
  {| Data1 := 0x5b1b31a1; Data2 := 0x9562; Data3 := 0x11d2;
     Data4 := [0x8e; 0x3f; 0; 0xa0; 0xc9; 0x69; 0x72; 0x3b] |}.
Definition fs_guid : EFI_GUID :=
  {| Data1 := 0x964e5b22; Data2 := 0x6459; Data3 := 0x11d2;
     Data4 := [0x8e; 0x39; 0; 0xa0; 0xc9; 0x69; 0x72; 0x3b] |}.

(** UTF-16 text with its terminator. *)
Definition utf16 (t : list Z) : list Z := t ++ [0].
Definition path : list Z := utf16 (txt "\kernel.elf").

(** [place_kernel] on the bytes of the buffer. *)
Definition place_buffer (buffer length : Z) : boot W (Z * option LOADED_KERNEL) := λ s,
  let '(status, kernel, m, s) :=
    Elf.place_kernel AllocatePages (get_bytes buffer length (mem s)) length (mem s) s in
  ((status, kernel), with_memory s m).

(** From the opening of the file to [cleanup]: the status, the file and the
    buffer as the clean-up finds them, and the kernel. *)
Definition load_file (root : Z) : boot W (Z * Z * Z * option LOADED_KERNEL) :=
  '(status, file) ← Open root 0 path 1 0;
  if EFI_ERROR status then mret (status, file, 0, None)
  else
    status ← SetPosition file UINT64_MAX;
    if EFI_ERROR status then mret (status, file, 0, None)
    else
      '(status, length) ← GetPosition file;
      if EFI_ERROR status then mret (status, file, 0, None)
      else if (length <? sizeof_ELF_HEADER) || (16 * 1024 * 1024 <? length)
      then mret (EFI_LOAD_ERROR, file, 0, None)
      else
        status ← SetPosition file 0;
        if EFI_ERROR status then mret (status, file, 0, None)
        else
          '(status, buffer) ← AllocatePool 2 length 0;
          if EFI_ERROR status then mret (status, file, buffer, None)
          else
            status ← read_entire_file file buffer length;
            if EFI_ERROR status then mret (status, file, buffer, None)
            else
              '(status, kernel) ← place_buffer buffer length;
              mret (status, file, buffer, kernel).

Definition load_kernel (image : Z) : boot W (Z * option LOADED_KERNEL) :=
  '(status, interface) ← HandleProtocol image loaded_guid 0;
  if EFI_ERROR status then mret (status, None)
  else
    handle ← DeviceHandle interface;
    '(status, interface) ← HandleProtocol handle fs_guid interface;
    if EFI_ERROR status then mret (status, None)
    else
      '(status, root) ← OpenVolume interface 0;
      if EFI_ERROR status then mret (status, None)
      else
        '(status, file, buffer, kernel) ← load_file root;
        (if negb (buffer =? 0) then FreePool buffer else mret 0);;
        (if negb (file =? 0) then Close file else mret 0);;
        Close root;;
        mret (status, kernel).

End loader.

End Load.
