(* ===== verification/BootMain.v ===== *)
(** * The loader: [boot/main.c]

    The report of a failure, the hand-off area, the exit from the boot services
    and the entry of the kernel. *)

From Stdlib Require Import String.
From S2P Require Import Prelude Text BootInfo X86 Elf Firmware Load.

Module BootMain.
Import Text Firmware Load.
Import Elf(LOADED_KERNEL, k_base, k_pages, k_entry).

Definition handoff_pages : Z := 35.
Definition map_capacity : Z := 16 * 4096.

(** How [efi_main] ends: it returns a status to the firmware, it enters the
    kernel - which never returns - with the two arguments, or it spins with
    interrupts off. *)
Inductive OUTCOME :=
  | Returned (status : Z)
  | Entered (entry info stack_top : Z)
  | Dead.

Definition crlf : list Z := [13; 10].

Section loader.
Context {W : Type} `{!Protocols W}.
Context (table : EFI_SYSTEM_TABLE).

Fixpoint display (output : Z) (operation : list Z) : boot W unit :=
  match operation with
  | [] => mret tt
  | c :: operation => OutputString output [u8 c; 0];; display output operation
  end.

Definition report_error (operation : list Z) (status : Z) : boot W Z :=
  let output := if negb (StdErr table =? 0) then StdErr table else ConOut table in
  (if negb (output =? 0) then
     OutputString output (utf16 (crlf ++ txt "BOOT ERROR: "));;
     display output operation;;
     let code := put_hex status 10 (utf16 (txt " status=0x0000000000000000" ++ crlf)) in
     OutputString output code;;
     mret tt
   else mret tt);;
  mret status.

(** The information is written field by field. *)
Definition allocate_handoff (kernel : LOADED_KERNEL) : boot W (Z * Z) :=
  '(status, handoff_base) ← AllocatePages 0 2 handoff_pages 0;
  if EFI_ERROR status then mret (status, 0)
  else
    set_memory (for_all 0 1 (handoff_pages * 4096) (λ i m, <[handoff_base + i := 0]> m));;
    let info := handoff_base in
    set_memory (put64 info BOOT_INFO_MAGIC);;
    set_memory (put32 (info + 8) BOOT_INFO_VERSION);;
    set_memory (put32 (info + 12) sizeof_BOOT_INFO);;
    set_memory (put64 (info + 16) (u64 (handoff_base + 4096)));;
    set_memory (put64 (info + 48) (k_base kernel));;
    set_memory (put64 (info + 56) (u64 (k_pages kernel * 4096)));;
    map ← get (λ s, get64 (info + 16) (mem s));
    set_memory (put64 (info + 64) (u64 (map + map_capacity + 4096)));;
    set_memory (put64 (info + 72) (16 * 4096));;
    mret (EFI_SUCCESS, info).

(** One attempt to leave the boot services: [inl] ends the loader, [inr] leaves
    the loop with a status, [None] goes on with the next attempt. *)
Definition exit_attempt (image : Z) (kernel : LOADED_KERNEL) (info attempt : Z)
    : boot W (option (OUTCOME + Z)) :=
  map ← get (λ s, get64 (info + 16) (mem s));
  '(status, size, map_key, descriptor_size, descriptor_version) ← GetMemoryMap map_capacity map;
  if EFI_ERROR status then
    if attempt =? 0 then
      FreePages info handoff_pages;;
      FreePages (k_base kernel) (k_pages kernel);;
      status ← report_error (txt "GetMemoryMap") status;
      mret (Some (inl (Returned status)))
    else mret (Some (inr status))
  else
    set_memory (put64 (info + 24) size);;
    set_memory (put64 (info + 32) descriptor_size);;
    set_memory (put32 (info + 40) descriptor_version);;
    status ← ExitBootServices image map_key;
    if status =? EFI_SUCCESS then
      set_memory (put64 (info + 80) BOOT_SERVICES_EXITED);;
      set_cpu X86.x86_disable_interrupts;;
      stack_top ← get (λ s, u64 (get64 (info + 64) (mem s) + get64 (info + 72) (mem s)));
      mret (Some (inl (Entered (k_entry kernel) info stack_top)))
    else if negb (status =? EFI_INVALID_PARAMETER) then mret (Some (inr status))
    else mret None.

(** The loop goes on after [EFI_INVALID_PARAMETER] only, which is therefore the
    status it is left with when the attempts are used up. *)
Definition start_kernel (image : Z) (kernel : LOADED_KERNEL) : boot W OUTCOME :=
  '(status, info) ← allocate_handoff kernel;
  if EFI_ERROR status then
    FreePages (k_base kernel) (k_pages kernel);;
    status ← report_error (txt "AllocatePages(boot information)") status;
    mret (Returned status)
  else
    left ← st_for 0 8 (exit_attempt image kernel info);
    match left with
    | Some (inl outcome) => mret outcome
    | Some (inr status) =>
        set_exit_failure status;;
        set_cpu X86.x86_disable_interrupts;;
        mret Dead
    | None =>
        set_exit_failure EFI_INVALID_PARAMETER;;
        set_cpu X86.x86_disable_interrupts;;
        mret Dead
    end.

Definition serial_guid : EFI_GUID :=
  {| Data1 := 0xbb25cf6f; Data2 := 0xf1d4; Data3 := 0x11d2;
     Data4 := [0x9a; 0x0c; 0x00; 0x90; 0x27; 0x3f; 0xc1; 0xfd] |}.

Definition banner : list Z :=
  crlf ++ txt "BOOT: UEFI x86_64 C entry" ++ crlf ++
  txt "BOOT: EFI_SERIAL_IO_PROTOCOL via LocateProtocol" ++ crlf ++
  txt "BOOT: serial ready (115200 8N1)" ++ crlf ++
  txt "BOOT: loading kernel.elf" ++ crlf.

Definition fail (operation : list Z) (status : Z) : boot W OUTCOME :=
  status ← report_error operation status; mret (Returned status).

Definition announce_entry (serial : Z) (kernel : LOADED_KERNEL) : boot W (Z * bool) :=
  let entry := put_hex (k_entry kernel) 21
    (txt "BOOT: kernel entry=0x0000000000000000" ++ crlf) in
  '(status, size) ← SerialWrite serial entry;
  mret (status, size =? Z.of_nat (List.length entry)).

(** [garbage] is what is on the stack where [kernel] is declared; it is
    overwritten whenever the status is not an error. *)
Definition efi_main (garbage : LOADED_KERNEL) (image : Z) : boot W OUTCOME :=
  status ← SetWatchdogTimer 0 0 0 0;
  if EFI_ERROR status then fail (txt "SetWatchdogTimer") status
  else
    '(status, interface) ← LocateProtocol serial_guid 0 0;
    if EFI_ERROR status then fail (txt "LocateProtocol(Serial IO)") status
    else if interface =? 0 then fail (txt "LocateProtocol(Serial IO)") EFI_DEVICE_ERROR
    else
      let serial := interface in
      status ← SetAttributes serial 115200 0 10000 NoParity 8 OneStopBit;
      if EFI_ERROR status then fail (txt "Serial IO SetAttributes") status
      else
        '(status, size) ← SerialWrite serial banner;
        let status :=
          if negb (EFI_ERROR status) && negb (size =? Z.of_nat (List.length banner))
          then EFI_DEVICE_ERROR else status in
        if EFI_ERROR status then fail (txt "Serial IO Write") status
        else
          '(status, kernel) ← load_kernel image;
          if EFI_ERROR status then fail (txt "load kernel.elf") status
          else
            let kernel := default garbage kernel in
            '(status, whole) ← announce_entry serial kernel;
            if EFI_ERROR status || negb whole then
              FreePages (k_base kernel) (k_pages kernel);;
              fail (txt "Serial IO Write") (if EFI_ERROR status then status else EFI_DEVICE_ERROR)
            else start_kernel image kernel.

End loader.

End BootMain.
