(* ===== verification/FirmwareSpec.v ===== *)
(** * Reasoning about the firmware's services

    The ledger of what the loader holds, what it relies on the firmware for, and
    the rules for the services and for bytes in memory. *)

From S2P Require Import Prelude X86 Elf Firmware.

Module FirmwareSpec.
Import Firmware.

(** ** Resources *)

Record HELD := { pages : list (Z * Z); pools : list Z; files : list Z }.

Definition nothing : HELD := {| pages := []; pools := []; files := [] |}.

(** A list without the first occurrence of an element. *)
Fixpoint give_back {X} `{EqDecision X} (x : X) (l : list X) : option (list X) :=
  match l with
  | [] => None
  | y :: l => if decide (x = y) then Some l else cons y <$> give_back x l
  end.

(** What is held after an event; [None] when something is given back that is
    not held. *)
Definition account (e : event) (h : HELD) : option HELD :=
  match e with
  | PagesAllocated base n => Some {| pages := (base, n) :: pages h; pools := pools h; files := files h |}
  | PagesFreed base n =>
      l ← give_back (base, n) (pages h); Some {| pages := l; pools := pools h; files := files h |}
  | PoolAllocated b => Some {| pages := pages h; pools := b :: pools h; files := files h |}
  | PoolFreed b => l ← give_back b (pools h); Some {| pages := pages h; pools := l; files := files h |}
  | FileOpened f => Some {| pages := pages h; pools := pools h; files := f :: files h |}
  | FileClosed f => l ← give_back f (files h); Some {| pages := pages h; pools := pools h; files := l |}
  | _ => Some h
  end.

Fixpoint ledger (l : list event) (h : HELD) : option HELD :=
  match l with
  | [] => Some h
  | e :: l => h ← account e h; ledger l h
  end.

Lemma ledger_app l1 l2 h : ledger (l1 ++ l2) h = ledger l1 h ≫= ledger l2.
Proof. revert h. induction l1 as [|e l1 IH]; intros h; cbn [ledger app]; [done|]. destruct (account e h); [apply IH|done]. Qed.

Lemma give_back_head {X} `{EqDecision X} (x : X) l : give_back x (x :: l) = Some l.
Proof. cbn. by rewrite decide_True. Qed.

(** The pointers that refused calls have left, unless null, and what would be held
    if they had been held before. *)
Definition refused_pools (l : list event) : list Z :=
  l ≫= λ e, match e with PoolRefused b => if b =? 0 then [] else [b] | _ => [] end.
Definition refused_files (l : list event) : list Z :=
  l ≫= λ e, match e with OpenRefused f => if f =? 0 then [] else [f] | _ => [] end.
Definition refused (l : list event) : list Z := refused_pools l ++ refused_files l.
Definition owing (l : list event) (h : HELD) : HELD := {|
  pages := pages h; pools := refused_pools l ++ pools h; files := refused_files l ++ files h |}.

Lemma refused_pools_app l1 l2 : refused_pools (l1 ++ l2) = refused_pools l1 ++ refused_pools l2.
Proof. apply bind_app. Qed.
Lemma refused_files_app l1 l2 : refused_files (l1 ++ l2) = refused_files l1 ++ refused_files l2.
Proof. apply bind_app. Qed.

Lemma refused_nil l1 l2 : refused l1 = [] → refused l2 = [] → refused (l1 ++ l2) = [].
Proof.
  unfold refused. rewrite refused_pools_app, refused_files_app.
  by intros [-> ->]%app_nil [-> ->]%app_nil.
Qed.

Lemma owing_nil l h : refused l = [] → owing l h = h.
Proof. unfold refused, owing. intros [-> ->]%app_nil. by destruct h. Qed.

Lemma owing_app l1 l2 h : refused l2 = [] → owing (l1 ++ l2) h = owing l1 h.
Proof.
  unfold refused, owing. rewrite refused_pools_app, refused_files_app.
  intros [-> ->]%app_nil. by rewrite !app_nil_r.
Qed.

Lemma owing_app_r l1 l2 h : refused l1 = [] → owing (l1 ++ l2) h = owing l2 h.
Proof.
  unfold refused, owing. rewrite refused_pools_app, refused_files_app.
  by intros [-> ->]%app_nil.
Qed.

(** An event before the attempts to leave the boot services; one that, moreover,
    takes, gives and displays nothing; one that displays. *)
Definition calm (e : event) : Prop := match e with ExitTried _ _ => False | _ => True end.
Definition plain (e : event) : Prop :=
  match e with
  | FileRead _ | MapTaken _ _ _ _ | SerialSent _ | Called => True
  | _ => False
  end.
Definition speech (e : event) : Prop := match e with Displayed _ => True | _ => False end.

Lemma ledger_plain l h : Forall plain l → ledger l h = Some h.
Proof. induction 1 as [|e l He _ IH]; cbn [ledger]; [done|]. by destruct e. Qed.

Lemma ledger_speech l h : Forall speech l → ledger l h = Some h.
Proof. induction 1 as [|e l He _ IH]; cbn [ledger]; [done|]. by destruct e. Qed.

Lemma refused_plain l : Forall plain l → refused l = [].
Proof. induction 1 as [|e l He _ IH]; [done|]. apply (refused_nil [e]); [by destruct e|done]. Qed.
Lemma refused_speech l : Forall speech l → refused l = [].
Proof. induction 1 as [|e l He _ IH]; [done|]. apply (refused_nil [e]); [by destruct e|done]. Qed.

Lemma speech_calm l : Forall speech l → Forall calm l.
Proof. intros H. eapply Forall_impl; [done|]. by intros []. Qed.

(** What the firmware's console shows, without the terminators. *)
Definition shown (l : list event) : list Z :=
  l ≫= λ e, match e with Displayed t => removelast t | _ => [] end.

Lemma shown_app l1 l2 : shown (l1 ++ l2) = shown l1 ++ shown l2.
Proof. apply bind_app. Qed.

Lemma plain_shown l : Forall plain l → shown l = [].
Proof. induction 1 as [|e l He _ IH]; [done|]. by destruct e. Qed.

Lemma plain_calm l : Forall plain l → Forall calm l.
Proof. intros H. eapply Forall_impl; [done|]. by intros []. Qed.

(** The bytes of the reads. *)
Definition delivered (l : list event) : list Z :=
  l ≫= λ e, match e with FileRead bytes => bytes | _ => [] end.

(** ** The firmware's side *)

(** What the loader relies on. A successful [Open] or [AllocatePool] stores a
    pointer that is not null - what a failed one leaves is undefined; pages requested at an address are
    granted there; pages are aligned and lie in the address space; the map fits
    the buffer. *)
Class Conforming (W : Type) `{!Protocols W} := {
  open_pointer this path mode attributes w :
    let '((status, file), _) := f_Open this 0 path mode attributes w in
    EFI_ERROR (u64 status) = false → u64 file ≠ 0;
  pool_pointer type size w :
    let '((status, buffer), _) := bs_AllocatePool type size 0 w in
    EFI_ERROR (u64 status) = false → u64 buffer ≠ 0;
  pages_fixed memory_type n a w :
    let '((status, base), _) := bs_AllocatePages 2 memory_type n a w in
    EFI_ERROR (u64 status) = false → u64 base = a;
  pages_region type memory_type n a w :
    let '((status, base), _) := bs_AllocatePages type memory_type n a w in
    EFI_ERROR (u64 status) = false →
    0 < u64 base ∧ u64 base mod 4096 = 0 ∧ u64 base + 4096 * n ≤ 2 ^ 64;
  map_fits capacity w :
    let '((status, bytes, _, _, _), _) := bs_GetMemoryMap capacity w in
    EFI_ERROR (u64 status) = false → Z.of_nat (List.length bytes) ≤ capacity;
}.

Section loader.
Context {W : Type} `{!Protocols W}.
Implicit Types (s : LOADER W).

(** A part of the loader has made the calls [l], and has changed nothing else
    but memory. *)
Record made (l : list event) s s' : Prop := {
  md_calls : calls s' = calls s ++ l;
  md_cpu : cpu s' = cpu s;
  md_failure : boot_exit_failure s' = boot_exit_failure s;
}.

Lemma made_nil s : made [] s s.
Proof. split; [by rewrite app_nil_r|done..]. Qed.

Lemma made_app l1 l2 s1 s2 s3 : made l1 s1 s2 → made l2 s2 s3 → made (l1 ++ l2) s1 s3.
Proof. intros [H1 ??] [H2 ??]. split; [by rewrite H2, H1, app_assoc|congruence..]. Qed.

Lemma made_memory f l s s1 : made l s s1 → made l s (with_memory s1 (f (mem s1))).
Proof. by intros []. Qed.

(** One call that does not touch memory. *)
Lemma wp_call {A} (f : W → A * W) (e : A → event) s :
  wp (call f e) (λ a s', made [e a] s s' ∧ mem s' = mem s ∧ a = fst (f (firmware s))) s.
Proof. unfold wp, call. by destruct (f (firmware s)). Qed.

(** One whose event does not depend on the answer. *)
Lemma wp_call_event {A} (f : W → A * W) (e : event) s :
  wp (call f (λ _, e)) (λ _ s', made [e] s s' ∧ mem s' = mem s) s.
Proof. eapply wp_mono; [apply wp_call|]. by intros a s' (? & ? & _). Qed.

Lemma wp_set_memory f s :
  wp (set_memory f) (λ _ s', made [] s s' ∧ mem s' = f (mem s)) s.
Proof. split; [|done]. split; [by rewrite app_nil_r|done..]. Qed.

Lemma plain_on_success status e : plain e → plain (on_success status e).
Proof. intros He. unfold on_success. by destruct (EFI_ERROR status). Qed.

Lemma wp_Read file count buffer s :
  wp (Read file count buffer) (λ '(status, n) s',
    ∃ bytes, made [on_success status (FileRead bytes)] s s' ∧
      n = Z.of_nat (List.length bytes) ∧ mem s' = put_bytes buffer bytes (mem s)) s.
Proof.
  unfold Read. apply wp_bind. eapply wp_mono; [apply wp_call|].
  intros [status bytes] s1 (H1 & Hm & _). apply wp_bind.
  eapply wp_mono; [apply wp_set_memory|]. intros [] s2 [H2 Hm2]. apply wp_ret.
  exists bytes. split; [|split; [done|by rewrite Hm2, Hm]].
  rewrite <- (app_nil_r [_]). by eapply made_app.
Qed.

End loader.

(** ** Bytes in memory *)

Lemma put_bytes_lookup a bytes m x :
  put_bytes a bytes m !! x =
    if decide (a ≤ x < a + Z.of_nat (List.length bytes))
    then u8 <$> bytes !! Z.to_nat (x - a) else m !! x.
Proof.
  revert a m. induction bytes as [|b bytes IH]; intros a m; cbn [put_bytes List.length].
  { by rewrite decide_False by lia. }
  rewrite IH. destruct (decide (a + 1 ≤ x < _)) as [H|H].
  - rewrite decide_True by lia. by replace (Z.to_nat (x - a)) with (S (Z.to_nat (x - (a + 1)))) by lia.
  - destruct (decide (x = a)) as [->|Hne].
    + rewrite decide_True, Z.sub_diag, lookup_insert_eq by lia. done.
    + by rewrite decide_False, lookup_insert_ne by lia.
Qed.

Lemma get_bytes_length a n m : List.length (get_bytes a n m) = Z.to_nat n.
Proof. unfold get_bytes. by rewrite length_fmap, length_seqZ. Qed.

(** The bytes [b] lie at [a]. *)
Definition holds (m : memory) (a : Z) (b : list Z) : Prop :=
  ∀ i : nat, (i < List.length b)%nat → m !! (a + Z.of_nat i) = u8 <$> b !! i.

Lemma holds_put a b c m :
  holds m a b → holds (put_bytes (a + Z.of_nat (List.length b)) c m) a (b ++ c).
Proof.
  intros Hb i Hi. rewrite length_app in Hi. rewrite put_bytes_lookup.
  destruct (decide (i < List.length b)%nat) as [H|H].
  - rewrite decide_False, lookup_app_l by lia. by apply Hb.
  - rewrite decide_True, lookup_app_r by lia. do 2 f_equal. lia.
Qed.

Lemma holds_get_bytes m a b :
  holds m a b → get_bytes a (Z.of_nat (List.length b)) m = u8 <$> b.
Proof.
  intros H. apply list_eq. intros i. unfold get_bytes. rewrite !list_lookup_fmap.
  destruct (decide (i < List.length b)%nat) as [Hi|Hi].
  - rewrite lookup_seqZ_lt by lia. cbn. rewrite Z.add_0_l, H by done.
    destruct (lookup_lt_is_Some_2 b i Hi) as [x ->]. done.
  - rewrite lookup_seqZ_ge, lookup_ge_None_2 by lia. done.
Qed.

(** *** Integers *)

Definition get32 (a : Z) (m : memory) : Z := value_of (get_bytes a 4 m).

Lemma get_bytes_ext a n m m' :
  (∀ x, a ≤ x < a + n → m' !! x = m !! x) → get_bytes a n m' = get_bytes a n m.
Proof.
  intros H. unfold get_bytes. apply list_fmap_ext. intros i x [-> Hx]%lookup_seqZ. rewrite H; [done|lia].
Qed.

Lemma get_bytes_put_ne a n b bytes m :
  a + n ≤ b ∨ b + Z.of_nat (List.length bytes) ≤ a →
  get_bytes a n (put_bytes b bytes m) = get_bytes a n m.
Proof.
  intros H. apply get_bytes_ext. intros x Hx. rewrite put_bytes_lookup, decide_False by lia. done.
Qed.

Lemma get_bytes_put a n bytes m :
  n = Z.of_nat (List.length bytes) → get_bytes a n (put_bytes a bytes m) = u8 <$> bytes.
Proof.
  intros ->. apply holds_get_bytes. intros i Hi. rewrite put_bytes_lookup, decide_True by lia.
  do 2 f_equal. lia.
Qed.

Lemma bytes_of_length n v : List.length (bytes_of n v) = n.
Proof. revert v. induction n as [|n IH]; intros v; cbn; [done|]. by rewrite IH. Qed.

Lemma value_of_u8 l : value_of (u8 <$> l) = value_of l.
Proof.
  induction l as [|b l IH]; cbn; [done|]. rewrite IH. unfold u8. by rewrite Zmod_mod.
Qed.

Lemma value_of_bytes n v : value_of (bytes_of n v) = v mod 2 ^ (8 * Z.of_nat n).
Proof.
  revert v. induction n as [|n IH]; intros v; [cbn; by rewrite Z.mod_1_r|].
  cbn [bytes_of value_of]. rewrite IH. replace (8 * Z.of_nat (S n)) with (8 + 8 * Z.of_nat n) by lia.
  rewrite Z.pow_add_r, Z.rem_mul_r by lia. unfold u8. rewrite Zmod_mod. done.
Qed.

Lemma value_of_app l1 l2 :
  value_of (l1 ++ l2) = value_of l1 + 2 ^ (8 * Z.of_nat (List.length l1)) * value_of l2.
Proof.
  induction l1 as [|b l1 IH]; cbn [app value_of List.length]; [lia|]. rewrite IH.
  replace (8 * Z.of_nat (S (List.length l1))) with (8 + 8 * Z.of_nat (List.length l1)) by lia.
  rewrite Z.pow_add_r by lia. lia.
Qed.

Lemma get64_put64 a v m : get64 a (put64 a v m) = u64 v.
Proof. unfold get64, put64. rewrite get_bytes_put by done. rewrite value_of_u8. apply value_of_bytes. Qed.
Lemma get32_put32 a v m : get32 a (put32 a v m) = u32 v.
Proof. unfold get32, put32. rewrite get_bytes_put by done. rewrite value_of_u8. apply value_of_bytes. Qed.

Lemma get64_put_ne a b bytes m :
  a + 8 ≤ b ∨ b + Z.of_nat (List.length bytes) ≤ a → get64 a (put_bytes b bytes m) = get64 a m.
Proof. intros H. unfold get64. by rewrite get_bytes_put_ne. Qed.
Lemma get32_put_ne a b bytes m :
  a + 4 ≤ b ∨ b + Z.of_nat (List.length bytes) ≤ a → get32 a (put_bytes b bytes m) = get32 a m.
Proof. intros H. unfold get32. by rewrite get_bytes_put_ne. Qed.

Lemma get64_put64_ne a b v m : a + 8 ≤ b ∨ b + 8 ≤ a → get64 a (put64 b v m) = get64 a m.
Proof. intros H. apply get64_put_ne. by rewrite bytes_of_length. Qed.
Lemma get64_put32_ne a b v m : a + 8 ≤ b ∨ b + 4 ≤ a → get64 a (put32 b v m) = get64 a m.
Proof. intros H. apply get64_put_ne. by rewrite bytes_of_length. Qed.
Lemma get32_put64_ne a b v m : a + 4 ≤ b ∨ b + 8 ≤ a → get32 a (put64 b v m) = get32 a m.
Proof. intros H. apply get32_put_ne. by rewrite bytes_of_length. Qed.
Lemma get32_put32_ne a b v m : a + 4 ≤ b ∨ b + 4 ≤ a → get32 a (put32 b v m) = get32 a m.
Proof. intros H. apply get32_put_ne. by rewrite bytes_of_length. Qed.

Lemma get64_halves a m : get64 a m = get32 a m + 2 ^ 32 * get32 (a + 4) m.
Proof.
  unfold get64, get32.
  assert (get_bytes a 8 m = get_bytes a 4 m ++ get_bytes (a + 4) 4 m) as ->; [|apply value_of_app].
  unfold get_bytes. change 8 with (4 + 4). rewrite seqZ_app, fmap_app by lia. f_equal.
  change (seqZ (0 + 4) 4) with [4 + 0; 4 + 1; 4 + 2; 4 + 3]. change (seqZ 0 4) with [0; 1; 2; 3].
  cbn [fmap list_fmap]. by rewrite !Z.add_assoc.
Qed.

Lemma value_of_range l : 0 ≤ value_of l < 2 ^ (8 * Z.of_nat (List.length l)).
Proof.
  induction l as [|b l IH]; cbn [value_of List.length]; [lia|].
  assert (0 ≤ u8 b < 2 ^ 8) by (apply Z.mod_pos_bound; lia).
  replace (8 * Z.of_nat (S (List.length l))) with (8 + 8 * Z.of_nat (List.length l)) by lia.
  rewrite Z.pow_add_r by lia. lia.
Qed.

Lemma get32_range a m : 0 ≤ get32 a m < 2 ^ 32.
Proof. pose proof (value_of_range (get_bytes a 4 m)) as H. by rewrite get_bytes_length in H. Qed.
Lemma get64_range a m : is_u64 (get64 a m).
Proof. pose proof (value_of_range (get_bytes a 8 m)) as H. by rewrite get_bytes_length in H. Qed.

(** Reads a field through the writes in front of it. *)
Ltac reading :=
  repeat first
    [ rewrite get64_put64
    | rewrite get32_put32
    | rewrite get64_put64_ne by lia
    | rewrite get64_put32_ne by lia
    | rewrite get32_put64_ne by lia
    | rewrite get32_put32_ne by lia
    | rewrite get64_put_ne by lia
    | rewrite get32_put_ne by lia ].

End FirmwareSpec.
