(* ===== verification/LoadSpec.v ===== *)
(** * What reading the kernel promises

    Every resource the loader takes from the firmware while it reads the kernel
    is given back, on every path; what is placed is the file. Where a refused
    call has left a pointer, the loader gives that back as well, although it does
    not hold it. *)

From S2P Require Import Prelude Text X86 Elf ElfSpec Firmware FirmwareSpec Load.

Module LoadSpec.
Import Firmware FirmwareSpec Load ElfSpec.
Import Elf(LOADED_KERNEL, k_base, k_pages, k_entry, sizeof_ELF_HEADER).

Section loader.
Context {W : Type} `{!Protocols W}.
Implicit Types (s : LOADER W).

(** ** Reading *)

(** The loop runs to an end, and a success has delivered the [length] bytes, in
    order, to the buffer. *)
Lemma wp_read_loop fuel file buffer length total d s :
  0 ≤ total ≤ length → length < 2 ^ 64 → (Z.to_nat (length - total) ≤ fuel)%nat →
  total = Z.of_nat (List.length d) → holds (mem s) buffer d →
  wp (read_loop fuel file buffer length total) (λ r s',
    ∃ status l, r = Some status ∧ made l s s' ∧ Forall plain l ∧
      (EFI_ERROR status = false → holds (mem s') buffer (d ++ delivered l) ∧
         Z.of_nat (List.length (d ++ delivered l)) = length)) s.
Proof.
  intros Ht Hl. revert total d s Ht.
  induction fuel as [|fuel IH]; intros total d s Ht Hf Hd Hh; cbn [read_loop];
    destruct (Z.ltb_spec total length) as [Hlt|Hge].
  - lia.
  - apply wp_ret. exists EFI_SUCCESS, []. split; [done|]. split; [apply made_nil|].
    split; [done|]. intros _. unfold delivered. cbn. rewrite app_nil_r. split; [done|lia].
  - apply wp_bind. eapply wp_mono; [apply wp_Read|].
    intros [status n] s1 (bytes & H1 & -> & Hm).
    destruct (EFI_ERROR status) eqn:He.
    { apply wp_ret. exists status, [Called]. unfold on_success in H1. rewrite He in H1.
      split; [done|]. split; [done|]. split; [by repeat constructor|]. congruence. }
    unfold on_success in H1. rewrite He in H1.
    assert (Forall plain [FileRead bytes]) as Hidle by by repeat constructor.
    destruct (_ || _) eqn:Hcount.
    { apply wp_ret. exists EFI_LOAD_ERROR, [FileRead bytes]. do 3 (split; [done|]). done. }
    apply orb_false_iff in Hcount as [Hz%Z.eqb_neq Hb%Z.ltb_ge].
    assert ((d ++ delivered [FileRead bytes]) = d ++ bytes) as Hdb
      by (unfold delivered; cbn; by rewrite app_nil_r).
    eapply wp_mono; [apply (IH _ (d ++ bytes))|].
    + lia.
    + lia.
    + rewrite length_app. lia.
    + rewrite Hm, Hd. by apply holds_put.
    + intros r s2 (st & l & -> & H2 & Hi & Hok). exists st, (FileRead bytes :: l).
      split; [done|]. split; [by apply (made_app [_] l s s1)|].
      split; [by apply (Forall_app_2 _ [_])|].
      change (delivered (FileRead bytes :: l)) with (bytes ++ delivered l).
      by rewrite app_assoc.
  - apply wp_ret. exists EFI_SUCCESS, []. split; [done|]. split; [apply made_nil|].
    split; [done|]. intros _. unfold delivered. cbn. rewrite app_nil_r. split; [done|lia].
Qed.

Lemma wp_read_entire_file file buffer length s :
  0 ≤ length → length < 2 ^ 64 →
  wp (read_entire_file file buffer length) (λ status s',
    ∃ l, made l s s' ∧ Forall plain l ∧
      (EFI_ERROR status = false → get_bytes buffer length (mem s') = u8 <$> delivered l ∧
         Z.of_nat (List.length (delivered l)) = length)) s.
Proof.
  intros H0 Hl. unfold read_entire_file. apply wp_bind.
  eapply wp_mono; [apply (wp_read_loop _ _ _ _ _ []); [lia|done|lia|done|]|].
  { intros i Hi. cbn in Hi. lia. }
  intros r s' (status & l & -> & Hm & Hi & Hok). apply wp_ret. exists l.
  split; [done|]. split; [done|]. intros He. destruct (Hok He) as [Hh <-]. cbn in Hh |- *.
  split; [by apply holds_get_bytes|done].
Qed.

(** ** Loading *)

Definition unless_null {X} `{EqDecision X} (null x : X) (l : list X) : list X :=
  if decide (x = null) then l else x :: l.

(** What is held besides [h] while the kernel is read. *)
Definition used (file buffer : Z) (kernel : option LOADED_KERNEL) (h : HELD) : HELD := {|
  pages := match kernel with Some k => (k_base k, k_pages k) :: pages h | None => pages h end;
  pools := unless_null 0 buffer (pools h);
  files := unless_null 0 file (files h);
|}.

Record reached (file buffer : Z) (kernel : option LOADED_KERNEL) (d : list Z) s s' (l : list event)
    : Prop := {
  re_made : made l s s';
  re_ledger h : ledger l h = Some (used file buffer kernel h);
  re_calm : Forall calm l;
  re_delivered : delivered l = d;
  re_shown : shown l = [];
  re_refused : refused l = [];
}.

Lemma delivered_app l1 l2 : delivered (l1 ++ l2) = delivered l1 ++ delivered l2.
Proof. apply bind_app. Qed.

Lemma reached_plain file buffer kernel d s s1 s2 l1 l2 :
  reached file buffer kernel d s s1 l1 → made l2 s1 s2 → Forall plain l2 →
  reached file buffer kernel (d ++ delivered l2) s s2 (l1 ++ l2).
Proof.
  intros [H1 Hled Hc Hd Hsh Hre] H2 Hp. split.
  - by eapply made_app.
  - intros h. rewrite ledger_app, Hled. cbn. by apply ledger_plain.
  - apply Forall_app_2; [done|by apply plain_calm].
  - by rewrite delivered_app, Hd.
  - by rewrite shown_app, Hsh, plain_shown.
  - by apply refused_nil, refused_plain.
Qed.

Definition reaches (file buffer : Z) (kernel : option LOADED_KERNEL) (d : list Z) s s' : Prop :=
  ∃ l, reached file buffer kernel d s s' l.

Lemma reaches_plain file buffer kernel d s s1 s2 l :
  reaches file buffer kernel d s s1 → made l s1 s2 → Forall plain l →
  reaches file buffer kernel (d ++ delivered l) s s2.
Proof. intros [l1 H1] H2 Hp. eexists. by eapply reached_plain. Qed.

Lemma reached_app k d s s1 s2 l1 l2 :
  reached 0 0 None [] s s1 l1 → reached 0 0 k d s1 s2 l2 → reached 0 0 k d s s2 (l1 ++ l2).
Proof.
  intros [H1 L1 C1 D1 S1 R1] [H2 L2 C2 D2 S2 R2]. split.
  - by eapply made_app.
  - intros h. rewrite ledger_app, L1, <- L2. by destruct h.
  - by apply Forall_app_2.
  - by rewrite delivered_app, D1, D2.
  - by rewrite shown_app, S1, S2.
  - by apply refused_nil.
Qed.

(** A call that neither takes nor gives, nor delivers. *)
Lemma wp_call_plain {A} (f : W → A * W) (e : A → event) file buffer kernel d s0 s :
  reaches file buffer kernel d s0 s → (∀ a, plain (e a) ∧ delivered [e a] = []) →
  wp (call f e) (λ _ s', reaches file buffer kernel d s0 s') s.
Proof.
  intros Hr He. eapply wp_mono; [apply wp_call|]. intros a s1 (H1 & _ & _).
  destruct (He a) as [Hp Hd]. rewrite <- (app_nil_r d), <- Hd.
  eapply reaches_plain; [done|done|by repeat constructor].
Qed.

(** The kernel that [d], the bytes of a file, describes is in memory. *)
Definition kernel_in_memory (d : list Z) (k : LOADED_KERNEL) (m : memory) : Prop :=
  ∃ r m0, image_placed (u8 <$> d) (Z.of_nat (List.length d)) r k m0 m ∧ k_base k = Elf.base r.

Definition kernel_result (status : Z) (kernel : option LOADED_KERNEL) (d : list Z) (m : memory)
    : Prop :=
  match kernel with
  | None => EFI_ERROR status = true
  | Some k => status = EFI_SUCCESS ∧ kernel_in_memory d k m
  end.

Lemma AllocatePages_answer type mt n a s st base s' :
  AllocatePages type mt n a s = ((st, base), s') →
  made [on_success st (PagesAllocated base n)] s s' ∧ mem s' = mem s ∧
  ∃ st' base' w, bs_AllocatePages type mt n a (firmware s) = ((st', base'), w) ∧
    st = u64 st' ∧ base = u64 base'.
Proof.
  intros Ha. pose proof (wp_call (words (bs_AllocatePages type mt n a))
    (λ '(status, base), on_success status (PagesAllocated base n)) s) as H.
  unfold AllocatePages in Ha. unfold wp in H. rewrite Ha in H. destruct H as (H1 & H2 & H3).
  split; [done|]. split; [done|]. unfold words in H3.
  destruct (bs_AllocatePages type mt n a (firmware s)) as [[st' base'] w].
  injection H3 as -> ->. by exists st', base', w.
Qed.

Context `{!Conforming W}.

Lemma wp_place_buffer file buffer d s0 s :
  reaches file buffer None d s0 s →
  get_bytes buffer (Z.of_nat (List.length d)) (mem s) = u8 <$> d →
  wp (place_buffer buffer (Z.of_nat (List.length d))) (λ '(status, kernel) s',
    reaches file buffer kernel d s0 s' ∧ kernel_result status kernel d (mem s')) s.
Proof.
  intros [l Hr] Hb. unfold wp, place_buffer. rewrite Hb.
  destruct (Elf.place_kernel AllocatePages (u8 <$> d) _ (mem s) s) as [[[st [k|]] m] s1] eqn:Hp.
  - apply place_kernel_placed in Hp as (-> & r & Him & st & Ha & Hst).
    apply AllocatePages_answer in Ha as (Hmade & Hm & st' & base' & w & Ha & -> & Hbase).
    pose proof (pages_fixed 1 (k_pages k) (Elf.base r) (firmware s)) as Hfix. rewrite Ha in Hfix.
    unfold on_success in Hmade. rewrite Hst in Hmade.
    split; [|split; [done|]; exists r, (mem s); split; [done|]; rewrite Hbase; by apply Hfix].
    exists (l ++ [PagesAllocated (k_base k) (k_pages k)]).
    destruct Hr as [H1 Hled Hc Hd Hsh Hre]. split.
    + apply (made_memory (λ _, m)). by eapply made_app.
    + intros h. by rewrite ledger_app, Hled.
    + apply Forall_app_2; [done|by repeat constructor].
    + rewrite delivered_app, Hd. cbn. by rewrite app_nil_r.
    + by rewrite shown_app, Hsh.
    + by apply refused_nil.
  - apply place_kernel_refused in Hp as (He & -> & [-> |(n & a & ad & Ha)]); (split; [|exact He]).
    + exists l. destruct Hr as [H1 ?????]. split; [|done..]. by apply (made_memory (λ _, mem s)).
    + apply AllocatePages_answer in Ha as (Hmade & _ & _).
      unfold on_success in Hmade. rewrite He in Hmade. rewrite <- (app_nil_r d).
      apply (reaches_plain file buffer None d s0 s _ [Called]); [by exists l| |by repeat constructor].
      by apply (made_memory (λ _, mem s)).
Qed.

(** How [load_file] fails: with what it has taken, or upon a refusal that leaves
    the file or the buffer undefined. *)
Inductive gave_up (file buffer : Z) : list event → Prop :=
  | gu_clean l : refused l = [] → (∀ h, ledger l h = Some (used file buffer None h)) →
      gave_up file buffer l
  | gu_open : buffer = 0 → gave_up file buffer [OpenRefused file]
  | gu_pool l : refused l = [] → (∀ h, ledger l h = Some (used file 0 None h)) →
      gave_up file buffer (l ++ [PoolRefused buffer]).

(** What it leaves for the clean-up. *)
Definition file_result s0 : Z * Z * Z * option LOADED_KERNEL → LOADER W → Prop :=
  λ '(status, file, buffer, kernel) s',
    match kernel with
    | None => EFI_ERROR status = true ∧
        ∃ l, made l s0 s' ∧ Forall calm l ∧ shown l = [] ∧ gave_up file buffer l
    | Some k => status = EFI_SUCCESS ∧
        ∃ d, reaches file buffer (Some k) d s0 s' ∧ kernel_in_memory d k (mem s')
    end.

Lemma wp_give_up status file buffer d s0 s :
  reaches file buffer None d s0 s → EFI_ERROR status = true →
  wp (mret (status, file, buffer, None)) (file_result s0) s.
Proof.
  intros [l [Hm Hled Hc _ Hs Hr]] He. apply wp_ret. split; [done|]. exists l.
  do 3 (split; [done|]). by apply gu_clean.
Qed.

Lemma wp_load_file root s : wp (load_file root) (file_result s) s.
Proof.
  unfold load_file. apply wp_bind. eapply wp_mono; [apply wp_call|].
  intros [status file] s1 (H1 & _ & E1).
  pose proof (open_pointer root path 1 0 (firmware s)) as Hopen.
  unfold words in E1. destruct (f_Open _ _ _ _ _ _) as [[st f] w]. injection E1 as -> ->.
  destruct (EFI_ERROR (u64 st)) eqn:He; cbn beta iota in H1.
  { apply wp_ret. split; [done|]. exists [OpenRefused (u64 f)].
    split; [exact H1|]. split; [by repeat constructor|]. split; [done|]. by apply gu_open. }
  assert (reaches (u64 f) 0 None [] s s1) as Hr.
  { exists [FileOpened (u64 f)]. split; [exact H1| |by repeat constructor|done..].
    intros h. unfold used, unless_null. rewrite (decide_False (P := u64 f = 0)) by by apply Hopen.
    by destruct h. }
  clear H1 Hopen.
  apply wp_bind. eapply wp_mono; [eapply wp_call_plain; [exact Hr|done]|].
  intros st2 s2 Hr2. destruct (EFI_ERROR st2) eqn:He2; [eapply wp_give_up; [exact Hr2|done]|].
  apply wp_bind. eapply wp_mono; [eapply wp_call_plain; [exact Hr2|done]|].
  intros [st3 length] s3 Hr3. destruct (EFI_ERROR st3) eqn:He3; [eapply wp_give_up; [exact Hr3|done]|].
  destruct (_ || _) eqn:Hlen; [eapply wp_give_up; [exact Hr3|done]|].
  apply orb_false_iff in Hlen as [Hlo%Z.ltb_ge Hhi%Z.ltb_ge].
  apply wp_bind. eapply wp_mono; [eapply wp_call_plain; [exact Hr3|done]|].
  intros st4 s4 Hr4. destruct (EFI_ERROR st4) eqn:He4; [eapply wp_give_up; [exact Hr4|done]|].
  apply wp_bind. eapply wp_mono; [apply wp_call|].
  intros [status buffer] s5 (H5 & _ & E5).
  pose proof (pool_pointer 2 length (firmware s4)) as Hpool.
  unfold words in E5. destruct (bs_AllocatePool _ _ _ _) as [[st5 b] w5]. injection E5 as -> ->.
  destruct Hr4 as [l [Hm Hled Hc Hd Hsh Hre]].
  destruct (EFI_ERROR (u64 st5)) eqn:He5; cbn beta iota in H5.
  { apply wp_ret. split; [done|]. exists (l ++ [PoolRefused (u64 b)]).
    split; [by eapply made_app|]. split; [apply Forall_app_2; [done|by repeat constructor]|].
    split; [by rewrite shown_app, Hsh|]. by apply gu_pool. }
  assert (reaches (u64 f) (u64 b) None [] s s5) as Hr5.
  { exists (l ++ [PoolAllocated (u64 b)]). split.
    - by eapply made_app.
    - intros h. rewrite ledger_app, Hled. unfold used, unless_null. cbn.
      rewrite (decide_False (P := u64 b = 0)) by by apply Hpool. by destruct h.
    - apply Forall_app_2; [done|by repeat constructor].
    - by rewrite delivered_app, Hd.
    - by rewrite shown_app, Hsh.
    - by apply refused_nil. }
  clear H5 Hpool.
  apply wp_bind. eapply wp_mono; [apply wp_read_entire_file; unfold sizeof_ELF_HEADER in Hlo; lia|].
  intros st6 s6 (l6 & H6 & Hp6 & Hok6).
  pose proof (reaches_plain _ _ _ _ _ _ _ _ Hr5 H6 Hp6) as Hr6. cbn [app] in Hr6.
  destruct (EFI_ERROR st6) eqn:He6; [eapply wp_give_up; [exact Hr6|done]|].
  destruct (Hok6 eq_refl) as [Hbytes <-].
  apply wp_bind. eapply wp_mono; [by apply wp_place_buffer|].
  intros [st7 [k|]] s7 [Hr7 Hk]; [|by eapply wp_give_up].
  destruct Hk as [-> Hk]. apply wp_ret. split; [done|]. by exists (delivered l6).
Qed.

(** The clean-up gives back what is not null. *)
Lemma wp_cleanup (b : bool) (m : boot W Z) (e : event) s :
  wp m (λ _ s', made [e] s s' ∧ mem s' = mem s) s →
  wp (if b then m else mret 0) (λ _ s', made (if b then [e] else []) s s' ∧ mem s' = mem s) s.
Proof. destruct b; [done|]. intros _. apply wp_ret. split; [apply made_nil|done]. Qed.

Lemma ledger_cleanup file buffer root kernel h :
  ledger ((if negb (buffer =? 0) then [PoolFreed buffer] else []) ++
          (if negb (file =? 0) then [FileClosed file] else []) ++ [FileClosed root])
    (used file buffer kernel {| pages := pages h; pools := pools h; files := root :: files h |}) =
  Some (used 0 0 kernel h).
Proof.
  destruct h as [ps bs fs]. unfold used, unless_null. cbn [pages pools files].
  destruct (Z.eqb_spec buffer 0) as [->|Hb], (Z.eqb_spec file 0) as [->|Hf];
    rewrite ?(decide_True (P := 0 = 0)), ?(decide_False (P := buffer = 0)),
      ?(decide_False (P := file = 0)) by done; cbn [negb app ledger account pages pools files];
    repeat (rewrite give_back_head; cbn [mbind option_bind ledger account pages pools files]); done.
Qed.

(** The failure as a whole. *)
Lemma ledger_gave_up file buffer root l h :
  gave_up file buffer l →
  ledger ([FileOpened root] ++ l ++ (if negb (buffer =? 0) then [PoolFreed buffer] else []) ++
          (if negb (file =? 0) then [FileClosed file] else []) ++ [FileClosed root]) (owing l h) = Some h.
Proof.
  intros Hl. cbn [app ledger account mbind option_bind]. rewrite ledger_app. destruct Hl as [l Hr Hl| ->|l Hr Hl].
  - rewrite owing_nil, Hl by done. etrans; [apply ledger_cleanup|]. by destruct h.
  - cbn [ledger account mbind option_bind Z.eqb negb app].
    unfold owing, refused_pools, refused_files. cbn [mbind list_bind app pages pools files].
    destruct h as [ps bs fs], (Z.eqb_spec file 0) as [->|Hf]; cbn [negb app ledger account pages pools files].
    { by rewrite give_back_head. }
    cbn [give_back]. destruct (decide (file = root)) as [<-|Hne].
    { cbn [mbind option_bind ledger account files]. by rewrite give_back_head. }
    rewrite decide_True by done. cbn [fmap option_fmap option_map mbind option_bind ledger account files].
    by rewrite give_back_head.
  - rewrite ledger_app, owing_app_r, Hl by done. cbn [mbind option_bind ledger account].
    unfold owing, refused_pools, refused_files. cbn [mbind list_bind app pages pools files used unless_null].
    destruct h as [ps bs fs]. pose proof (ledger_cleanup file buffer root None {| pages := ps; pools := bs; files := fs |}) as Hc.
    change (used 0 0 None _) with {| pages := ps; pools := bs; files := fs |} in Hc. rewrite <- Hc. clear Hc. unfold used, unless_null. cbn [pages pools files].
    rewrite (decide_True (P := 0 = 0)) by done.
    rewrite app_nil_r.
    destruct (Z.eqb_spec buffer 0) as [->|Hb];
      [by rewrite (decide_True (P := 0 = 0))|by rewrite (decide_False (P := buffer = 0))].
Qed.

Lemma refused_gave_up file buffer l : gave_up file buffer l → (length (refused l) ≤ 1)%nat.
Proof.
  intros [l0 -> _| _|l0 Hr _]; [cbn; lia|unfold refused; cbn; destruct (_ =? 0); cbn; lia|].
  unfold refused in Hr |- *. apply app_nil in Hr as [Hp Hf]. rewrite refused_pools_app, refused_files_app, Hp, Hf.
  cbn. destruct (_ =? 0); cbn; lia.
Qed.

(** Everything is given back, and at most one pointer that a refusal has left. *)
Record failed (l : list event) s s' : Prop := {
  fa_made : made l s s';
  fa_ledger h : ledger l (owing l h) = Some h;
  fa_refused : (List.length (refused l) ≤ 1)%nat;
  fa_calm : Forall calm l;
  fa_shown : shown l = [];
}.

Lemma reached_failed d s s' l : reached 0 0 None d s s' l → failed l s s'.
Proof.
  intros [Hm Hled Hc _ Hs Hr]. split; [done| |by rewrite Hr; cbn; lia|done..].
  intros h. rewrite owing_nil, Hled by done. by destruct h.
Qed.

Lemma failed_app l1 l2 d s s1 s2 :
  reached 0 0 None d s s1 l1 → failed l2 s1 s2 → failed (l1 ++ l2) s s2.
Proof.
  intros [H1 L1 C1 _ S1 R1] [H2 L2 R2 C2 S2]. split.
  - by eapply made_app.
  - intros h. rewrite owing_app_r, ledger_app, L1 by done. exact (L2 h).
  - unfold refused in R1, R2 |- *. apply app_nil in R1 as [Hp Hf].
    rewrite refused_pools_app, refused_files_app, Hp, Hf. exact R2.
  - by apply Forall_app_2.
  - by rewrite shown_app, S1, S2.
Qed.

Definition load_result s0 : Z * option LOADED_KERNEL → LOADER W → Prop :=
  λ '(status, kernel) s',
    match kernel with
    | None => EFI_ERROR status = true ∧ ∃ l, failed l s0 s'
    | Some k => status = EFI_SUCCESS ∧
        ∃ d, reaches 0 0 (Some k) d s0 s' ∧ kernel_in_memory d k (mem s')
    end.

Lemma reaches_nil s : reaches 0 0 None [] s s.
Proof. exists []. split; [apply made_nil| |done..]. by intros []. Qed.

Lemma wp_no_kernel status d s0 s :
  reaches 0 0 None d s0 s → EFI_ERROR status = true → wp (mret (status, None)) (load_result s0) s.
Proof. intros [l Hr] He. apply wp_ret. split; [done|]. exists l. by eapply reached_failed. Qed.

Lemma wp_load_kernel image s : wp (load_kernel image) (load_result s) s.
Proof.
  unfold load_kernel. apply wp_bind.
  eapply wp_mono; [eapply wp_call_plain; [apply (reaches_nil s)|done]|].
  intros [st1 interface] s1 Hr1. destruct (EFI_ERROR st1) eqn:He1; [by eapply wp_no_kernel|].
  apply wp_bind, wp_get, wp_bind.
  eapply wp_mono; [eapply wp_call_plain; [exact Hr1|done]|].
  intros [st2 interface2] s2 Hr2. destruct (EFI_ERROR st2) eqn:He2; [by eapply wp_no_kernel|].
  apply wp_bind. eapply wp_mono; [apply wp_call|].
  intros [st3 root] s3 (H3 & _ & _). unfold on_success in H3.
  destruct (EFI_ERROR st3) eqn:He3.
  { eapply wp_no_kernel; [|done].
    by apply (reaches_plain 0 0 None [] s s2 s3 [Called]); [|done|repeat constructor]. }
  apply wp_bind. eapply wp_mono; [apply wp_load_file|].
  intros [[[st4 file] buffer] kernel] s4 H4.
  apply wp_bind. eapply wp_mono; [apply wp_cleanup, wp_call_event|].
  intros ? s5 [H5 Hm5]. apply wp_bind.
  eapply wp_mono; [apply wp_cleanup, wp_call_event|].
  intros ? s6 [H6 Hm6]. apply wp_bind.
  eapply wp_mono; [apply wp_call|]. intros ? s7 (H7 & Hm7 & _).
  apply wp_ret. destruct Hr2 as [l2 Hr2].
  set (cleanup := (if negb (buffer =? 0) then [PoolFreed buffer] else []) ++
    (if negb (file =? 0) then [FileClosed file] else []) ++ [FileClosed root]).
  assert (made cleanup s4 s7) as H47 by (eapply made_app; [exact H5|]; by eapply made_app).
  assert (Forall calm cleanup ∧ delivered cleanup = [] ∧ shown cleanup = [] ∧ refused cleanup = [])
    as (Hcc & Hcd & Hcs & Hcr)
    by (unfold cleanup; destruct (buffer =? 0), (file =? 0); cbn; repeat constructor).
  destruct kernel as [k|]; cbn [file_result load_result] in H4 |- *.
  - destruct H4 as [-> (d & [l4 [H4 L4 C4 D4 S4 R4]] & Hk)]. split; [done|]. exists d.
    split; [|by rewrite Hm7, Hm6, Hm5].
    assert (reached 0 0 (Some k) d s2 s7 ([FileOpened root] ++ l4 ++ cleanup)) as Hr.
    { split.
      - eapply made_app; [exact H3|]. by eapply made_app.
      - intros h. transitivity (ledger (l4 ++ cleanup)
          {| pages := pages h; pools := pools h; files := root :: files h |}); [done|].
        rewrite ledger_app, L4. apply ledger_cleanup.
      - apply Forall_app_2; [by repeat constructor|by apply Forall_app_2].
      - rewrite !delivered_app, D4, Hcd. by rewrite app_nil_r.
      - by rewrite !shown_app, S4, Hcs.
      - do 2 (apply refused_nil; [done|]). done. }
    eexists. eapply reached_app; [exact Hr2|exact Hr].
  - destruct H4 as [He (l4 & H4 & C4 & S4 & Hg)]. split; [done|].
    exists (l2 ++ [FileOpened root] ++ l4 ++ cleanup). eapply failed_app; [exact Hr2|].
    assert (refused ([FileOpened root] ++ l4 ++ cleanup) = refused l4) as Hre.
    { unfold refused in Hcr |- *. apply app_nil in Hcr as [Hp Hf].
      by rewrite !refused_pools_app, !refused_files_app, Hp, Hf, !app_nil_r. }
    split.
    + eapply made_app; [exact H3|]. by eapply made_app.
    + intros h. rewrite owing_app_r, owing_app by done. by apply ledger_gave_up.
    + rewrite Hre. by eapply refused_gave_up.
    + apply Forall_app_2; [by repeat constructor|by apply Forall_app_2].
    + by rewrite !shown_app, S4, Hcs.
Qed.

End loader.
End LoadSpec.
