(* ===== verification/BootSpec.v ===== *)
(** * What the loader promises

    The failure paths give everything back and report; the exit from the boot
    services follows the firmware's protocol; the kernel is entered with its
    image in memory and with complete boot information. *)

From Stdlib Require Import String.
From S2P Require Import Prelude Text BootInfo X86 Elf ElfSpec Firmware FirmwareSpec Load LoadSpec BootMain.

Module BootSpec.
Import Text Firmware FirmwareSpec Load LoadSpec BootMain ElfSpec(fill_lookup).
Import Elf(LOADED_KERNEL, k_base, k_pages, k_entry).

(** ** Reports *)

Definition report (operation : list Z) (status : Z) : list Z :=
  crlf ++ txt "BOOT ERROR: " ++ (u8 <$> operation) ++ txt " status=0x" ++ numeral status ++ crlf.

(** Where reports go: the error output, or the console, or nowhere. *)
Definition output_of (table : EFI_SYSTEM_TABLE) : Z :=
  if negb (StdErr table =? 0) then StdErr table else ConOut table.

(** ** The hand-off area *)

(** An aligned area of 35 pages. *)
Record area (info : Z) : Prop := {
  ar_low : 0 < info;
  ar_aligned : info mod 4096 = 0;
  ar_high : info + 35 * 4096 ≤ 2 ^ 64;
}.

Definition in_area (info x : Z) : Prop := info ≤ x < info + 35 * 4096.

(** The fields that are fixed before the boot services are left. *)
Record handoff (info : Z) (k : LOADED_KERNEL) (m : memory) : Prop := {
  ho_magic : get64 info m = BOOT_INFO_MAGIC;
  ho_version : get32 (info + 8) m = BOOT_INFO_VERSION;
  ho_size : get32 (info + 12) m = sizeof_BOOT_INFO;
  ho_map : get64 (info + 16) m = info + 4096;
  ho_reserved : get32 (info + 44) m = 0;
  ho_base : get64 (info + 48) m = u64 (k_base k);
  ho_pages : get64 (info + 56) m = u64 (k_pages k * 4096);
  ho_stack : get64 (info + 64) m = info + 4096 + map_capacity + 4096;
  ho_stack_size : get64 (info + 72) m = 16 * 4096;
}.

(** The information is complete: the final map with its geometry, and the mark
    that the boot services are gone. *)
Record complete (info : Z) (k : LOADED_KERNEL) (map : list Z) (dsize dversion : Z) (m : memory)
    : Prop := {
  co_handoff : handoff info k m;
  co_map : get_bytes (info + 4096) (Z.of_nat (List.length map)) m = u8 <$> map;
  co_map_size : get64 (info + 24) m = Z.of_nat (List.length map);
  co_descriptor_size : get64 (info + 32) m = dsize;
  co_descriptor_version : get32 (info + 40) m = dversion;
  co_flags : get64 (info + 80) m = BOOT_SERVICES_EXITED;
  co_fits : Z.of_nat (List.length map) ≤ map_capacity;
}.

(** ** Leaving the boot services *)

(** The calls of attempts that the firmware has refused because the map had
    changed: each takes the map and leaves with its key. *)
Inductive attempts : nat → list event → Prop :=
  | attempts_none : attempts 0 []
  | attempts_more n l map key dsize dversion :
      attempts n l →
      attempts (S n) (l ++ [MapTaken map key dsize dversion; ExitTried key EFI_INVALID_PARAMETER]).

(** The calls of the last attempt, and what it leaves the loop with: the map
    could not be taken again, or the firmware has refused for another reason. *)
Inductive last_attempt : nat → list event → Z → Prop :=
  | last_map n status : EFI_ERROR status = true → n ≠ 0%nat → last_attempt n [Called] status
  | last_exit n map key dsize dversion status :
      status ≠ EFI_SUCCESS → status ≠ EFI_INVALID_PARAMETER →
      last_attempt n [MapTaken map key dsize dversion; ExitTried key status] status.

Section loader.
Context {W : Type} `{!Protocols W}.
Context (table : EFI_SYSTEM_TABLE).
Implicit Types (s : LOADER W).

(** Calls that neither take nor give, memory untouched. *)
Record passes (l : list event) s s' : Prop := {
  pa_made : made l s s';
  pa_speech : Forall speech l;
  pa_mem : mem s' = mem s;
}.

Lemma passes_nil s : passes [] s s.
Proof. split; [apply made_nil|done|done]. Qed.

Lemma passes_app l1 l2 s1 s2 s3 : passes l1 s1 s2 → passes l2 s2 s3 → passes (l1 ++ l2) s1 s3.
Proof.
  intros [H1 Hp1 Hm1] [H2 Hp2 Hm2].
  split; [by eapply made_app|by apply Forall_app_2|congruence].
Qed.

Lemma wp_OutputString this text s :
  wp (OutputString this text) (λ _ s', passes [Displayed text] s s') s.
Proof.
  eapply wp_mono; [apply wp_call_event|]. intros ? s' [H Hm]. split; [done|by repeat constructor|done].
Qed.

Lemma wp_display output operation s :
  wp (display output operation) (λ _ s', ∃ l, passes l s s' ∧ shown l = u8 <$> operation) s.
Proof.
  revert s. induction operation as [|c operation IH]; intros s; cbn [display].
  { apply wp_ret. exists []. split; [apply passes_nil|done]. }
  apply wp_bind. eapply wp_mono; [apply wp_OutputString|]. intros ? s1 H1.
  eapply wp_mono; [apply IH|]. intros ? s2 (l & H2 & Hl). exists ([Displayed [u8 c; 0]] ++ l).
  split; [eapply passes_app; [exact H1|exact H2]|]. by rewrite shown_app, Hl.
Qed.

Lemma status_code status :
  removelast (put_hex status 10 (utf16 (txt " status=0x0000000000000000" ++ crlf))) =
    txt " status=0x" ++ numeral status ++ crlf.
Proof.
  change (utf16 _) with (txt " status=0x" ++ txt "0000000000000000" ++ crlf ++ [0]).
  change 10%nat with (List.length (txt " status=0x")). rewrite put_hex_spec by done.
  rewrite !app_assoc. by rewrite removelast_last.
Qed.

Lemma wp_report_error operation status s :
  wp (report_error table operation status) (λ r s', r = status ∧ ∃ l, passes l s s' ∧
    shown l = if output_of table =? 0 then [] else report operation status) s.
Proof.
  unfold report_error. fold (output_of table). apply wp_bind.
  destruct (output_of table =? 0); cbn [negb].
  { apply wp_ret. split; [done|]. exists []. split; [apply passes_nil|done]. }
  apply wp_bind. eapply wp_mono; [apply wp_OutputString|]. intros ? s1 H1.
  apply wp_bind. eapply wp_mono; [apply wp_display|]. intros ? s2 (l & H2 & Hl).
  apply wp_bind. eapply wp_mono; [apply wp_OutputString|]. intros ? s3 H3.
  apply wp_ret. split; [done|]. eexists.
  split; [eapply passes_app; [exact H1|eapply passes_app; [exact H2|exact H3]]|].
  rewrite !shown_app, Hl. unfold report. cbn [shown mbind list_bind]. rewrite status_code, !app_nil_r.
  unfold utf16. rewrite removelast_last. by rewrite <- app_assoc.
Qed.

(** *** [allocate_handoff] *)

(** The memory that [allocate_handoff] leaves. *)
Definition handoff_memory (info : Z) (k : LOADED_KERNEL) (m : memory) : memory :=
  let m := for_all 0 1 (handoff_pages * 4096) (λ i m, <[info + i := 0]> m) m in
  let m := put64 info BOOT_INFO_MAGIC m in
  let m := put32 (info + 8) BOOT_INFO_VERSION m in
  let m := put32 (info + 12) sizeof_BOOT_INFO m in
  let m := put64 (info + 16) (u64 (info + 4096)) m in
  let m := put64 (info + 48) (k_base k) m in
  let m := put64 (info + 56) (u64 (k_pages k * 4096)) m in
  let m := put64 (info + 64) (u64 (get64 (info + 16) m + map_capacity + 4096)) m in
  put64 (info + 72) (16 * 4096) m.

Lemma handoff_memory_fields info k m : area info → handoff info k (handoff_memory info k m).
Proof.
  intros [Hlo Hal Hhi]. unfold handoff_memory. cbv zeta.
  set (m0 := for_all _ _ _ _ _).
  assert (get32 (info + 44) m0 = 0) as Hzero.
  { unfold get32, get_bytes, m0. change (seqZ 0 4) with [0; 1; 2; 3]. cbn [fmap list_fmap].
    rewrite !(fill_lookup (λ _, 0)), !decide_True by (unfold handoff_pages; lia). reflexivity. }
  clearbody m0.
  assert (u64 (info + 4096) = info + 4096) as Hmap by (apply u64_small; unfold is_u64; lia).
  unfold map_capacity. split; reading; rewrite ?Hmap; try done.
  - unfold u64. by rewrite Zmod_mod.
  - unfold map_capacity. rewrite !u64_small by (unfold is_u64; rewrite ?u64_small; unfold is_u64; lia).
    done.
Qed.

Lemma put_frame info a bytes m x :
  ¬ in_area info x → info ≤ a → a + Z.of_nat (List.length bytes) ≤ info + 35 * 4096 →
  put_bytes a bytes m !! x = m !! x.
Proof. intros Hx Ha Hb. rewrite put_bytes_lookup, decide_False; [done|]. unfold in_area in Hx. lia. Qed.

Lemma handoff_memory_frame info k m x : ¬ in_area info x → handoff_memory info k m !! x = m !! x.
Proof.
  intros Hx. unfold handoff_memory. cbv zeta. unfold put64, put32.
  rewrite !(put_frame info) by (done || rewrite ?bytes_of_length; lia).
  rewrite (fill_lookup (λ _, 0)), decide_False; [done|]. exact Hx.
Qed.

Lemma wp_set f {A} (m : boot W A) Q s :
  wp m Q (with_memory s (f (mem s))) → wp (set_memory f;; m) Q s.
Proof. done. Qed.

Context `{!Conforming W}.

Lemma wp_AllocatePages type mt n a s :
  wp (AllocatePages type mt n a) (λ '(status, base) s',
    made [on_success status (PagesAllocated base n)] s s' ∧ mem s' = mem s ∧
    (EFI_ERROR status = false → 0 < base ∧ base mod 4096 = 0 ∧ base + 4096 * n ≤ 2 ^ 64)) s.
Proof.
  unfold wp. destruct (AllocatePages type mt n a s) as [[status base] s1] eqn:Ha.
  apply AllocatePages_answer in Ha as (Hmade & Hm & st & b & w & Ha & -> & ->).
  split; [done|]. split; [done|].
  pose proof (pages_region type mt n a (firmware s)) as Hreg. by rewrite Ha in Hreg.
Qed.

Lemma wp_allocate_handoff k s :
  wp (allocate_handoff k) (λ '(status, info) s',
    if EFI_ERROR status then made [Called] s s' ∧ mem s' = mem s
    else made [PagesAllocated info handoff_pages] s s' ∧ area info ∧
         mem s' = handoff_memory info k (mem s)) s.
Proof.
  unfold allocate_handoff. apply wp_bind. eapply wp_mono; [apply wp_AllocatePages|].
  intros [status info] s1 (H1 & Hm & Hreg). unfold on_success in H1.
  destruct (EFI_ERROR status) eqn:He; [apply wp_ret; by rewrite He|].
  destruct (Hreg eq_refl) as (Hlo & Hal & Hhi).
  do 7 apply wp_set. apply wp_bind, wp_get. do 2 apply wp_set. apply wp_ret.
  change (EFI_ERROR EFI_SUCCESS) with false. cbv iota.
  split; [by destruct H1|]. split; [split; [done|done|unfold handoff_pages in Hhi; lia]|].
  unfold handoff_memory. cbv zeta. cbn [mem with_memory]. rewrite Hm. reflexivity.
Qed.

(** *** The attempts *)

Lemma wp_GetMemoryMap capacity map s :
  wp (GetMemoryMap capacity map) (λ '(status, size, key, dsize, dversion) s', ∃ bytes,
    made [on_success status (MapTaken bytes key dsize dversion)] s s' ∧
    size = Z.of_nat (List.length bytes) ∧ mem s' = put_bytes map bytes (mem s) ∧
    is_u64 dsize ∧ 0 ≤ dversion < 2 ^ 32 ∧
    (EFI_ERROR status = false → size ≤ capacity)) s.
Proof.
  unfold GetMemoryMap. apply wp_bind. eapply wp_mono; [apply wp_call|].
  intros [[[[status bytes] key] dsize] dversion] s1 (H1 & Hm & E).
  apply wp_set, wp_ret. exists bytes. split; [by apply (made_memory (λ m, put_bytes map bytes m))|].
  split; [done|]. split; [cbn; by rewrite Hm|].
  pose proof (map_fits capacity (firmware s)) as Hfit.
  destruct (bs_GetMemoryMap capacity (firmware s)) as [[[[[st b] ky] ds] dv] w].
  injection E as -> -> -> -> ->. split; [apply Z.mod_pos_bound; lia|].
  split; [by apply Z.mod_pos_bound|done].
Qed.

(** The state between two attempts. *)
Record waiting (n : nat) info k s0 s : Prop := {
  wa_calls : ∃ l, attempts n l ∧ made l s0 s;
  wa_handoff : handoff info k (mem s);
  wa_frame x : ¬ in_area info x → mem s !! x = mem s0 !! x;
}.

(** The memory after an attempt has taken a map. *)
Definition with_map (info : Z) (map : list Z) (dsize dversion : Z) (m : memory) : memory :=
  put32 (info + 40) dversion (put64 (info + 32) dsize
    (put64 (info + 24) (Z.of_nat (List.length map)) (put_bytes (info + 4096) map m))).

Lemma with_map_handoff info k map dsize dversion m :
  handoff info k m → handoff info k (with_map info map dsize dversion m).
Proof. intros []. unfold with_map. split; reading; done. Qed.

Lemma with_map_frame info map dsize dversion m x :
  ¬ in_area info x → Z.of_nat (List.length map) ≤ map_capacity →
  with_map info map dsize dversion m !! x = m !! x.
Proof.
  unfold map_capacity. intros Hx Hlen. unfold with_map, put64, put32.
  by rewrite !(put_frame info) by (done || rewrite ?bytes_of_length; lia).
Qed.

Lemma with_map_complete info k map dsize dversion m :
  handoff info k m → Z.of_nat (List.length map) ≤ map_capacity → is_u64 dsize → 0 ≤ dversion < 2 ^ 32 →
  complete info k map dsize dversion
    (put64 (info + 80) BOOT_SERVICES_EXITED (with_map info map dsize dversion m)).
Proof.
  unfold map_capacity. intros Hh Hlen Hd Hv. split.
  - apply (with_map_handoff info k map dsize dversion) in Hh as []. split; reading; done.
  - unfold with_map, put64, put32. rewrite !get_bytes_put_ne by (rewrite bytes_of_length; lia).
    by apply get_bytes_put.
  - unfold with_map. reading. apply u64_small. unfold is_u64. lia.
  - unfold with_map. reading. by apply u64_small.
  - unfold with_map. reading. by apply Z.mod_small.
  - reading. done.
  - done.
Qed.

(** What a report of a failure shows. *)
Definition reported (l : list event) (status : Z) : Prop :=
  ∃ operation, shown l = if output_of table =? 0 then [] else report operation status.

Definition stack_top_of (info : Z) : Z := info + 4096 + map_capacity + 4096 + 16 * 4096.

(** The kernel is entered from [s]: the last two calls have succeeded. *)
Record entering info k s (entry info' top : Z) s' : Prop := {
  en_entry : entry = k_entry k;
  en_info : info' = info;
  en_top : top = stack_top_of info;
  en_left : ∃ map key dsize dversion,
    calls s' = calls s ++ [MapTaken map key dsize dversion; ExitTried key EFI_SUCCESS] ∧
    complete info k map dsize dversion (mem s');
  en_cpu : cpu s' = X86.x86_disable_interrupts (cpu s);
  en_frame x : ¬ in_area info x → mem s' !! x = mem s !! x;
}.

Definition attempt_result (n : nat) info k s (r : option (OUTCOME + Z)) s' : Prop :=
  match r with
  | None => ∃ map key dsize dversion,
      made [MapTaken map key dsize dversion; ExitTried key EFI_INVALID_PARAMETER] s s' ∧
      handoff info k (mem s') ∧ ∀ x, ¬ in_area info x → mem s' !! x = mem s !! x
  | Some (inr status) => ∃ l, last_attempt n l status ∧ made l s s'
  | Some (inl (Entered entry info' top)) => entering info k s entry info' top s'
  | Some (inl (Returned status)) =>
      n = 0%nat ∧ EFI_ERROR status = true ∧ ∃ l,
        made ([Called; PagesFreed info handoff_pages; PagesFreed (k_base k) (k_pages k)] ++ l) s s' ∧
        Forall speech l ∧ reported l status
  | Some (inl Dead) => False
  end.

Lemma wp_exit_attempt n image info k s :
  area info → handoff info k (mem s) →
  wp (exit_attempt table image k info (Z.of_nat n)) (attempt_result n info k s) s.
Proof.
  intros Har Hh. unfold exit_attempt. apply wp_bind, wp_get, wp_bind.
  rewrite (ho_map _ _ _ Hh). eapply wp_mono; [apply wp_GetMemoryMap|].
  intros [[[[status size] key] dsize] dversion] s1 (map & H1 & -> & Hm & Hd & Hv & Hfit).
  unfold on_success in H1. destruct (EFI_ERROR status) eqn:He.
  { destruct (Z.eqb_spec (Z.of_nat n) 0) as [Hn|Hn].
    - apply wp_bind. eapply wp_mono; [apply wp_call_event|]. intros ? s2 [H2 _].
      apply wp_bind. eapply wp_mono; [apply wp_call_event|]. intros ? s3 [H3 _].
      apply wp_bind. eapply wp_mono; [apply wp_report_error|]. intros ? s4 (-> & l & [H4 Hp _] & Hl).
      apply wp_ret. split; [lia|]. split; [done|]. exists l. split; [|split; [done|by eexists]].
      eapply (made_app [_; _; _]); [|exact H4].
      eapply (made_app [_; _]); [eapply (made_app [_]); eassumption|eassumption].
    - apply wp_ret. exists [Called]. split; [|done]. apply last_map; [done|lia]. }
  specialize (Hfit eq_refl). do 3 apply wp_set. cbn [mem with_memory]. rewrite Hm.
  fold (with_map info map dsize dversion (mem s)).
  apply wp_bind. eapply wp_mono; [apply wp_call|]. intros st s2 (H2 & Hm2 & _).
  cbn [mem with_memory] in Hm2.
  assert (made [MapTaken map key dsize dversion; ExitTried key st] s s2) as H.
  { eapply (made_app [_] [_]); [|exact H2]. by destruct H1. }
  destruct (Z.eqb_spec st EFI_SUCCESS) as [->|Hst].
  - apply wp_set, wp_bind, wp_modify, wp_bind, wp_get, wp_ret. cbn [mem with_memory].
    pose proof (with_map_complete info k map dsize dversion (mem s) Hh Hfit Hd Hv) as Hc.
    rewrite <- Hm2 in Hc. split; cbn [mem with_memory calls cpu].
    + done.
    + done.
    + rewrite (ho_stack _ _ _ (co_handoff _ _ _ _ _ _ Hc)), (ho_stack_size _ _ _ (co_handoff _ _ _ _ _ _ Hc)).
      destruct Har. unfold stack_top_of, map_capacity in *. apply u64_small. unfold is_u64. lia.
    + exists map, key, dsize, dversion. split; [apply H|exact Hc].
    + by rewrite (md_cpu _ _ _ H).
    + intros x Hx. unfold put64. rewrite (put_frame info) by (done || rewrite ?bytes_of_length; lia).
      rewrite Hm2. by apply with_map_frame.
  - destruct (Z.eqb_spec st EFI_INVALID_PARAMETER) as [->|Hst2]; cbn [negb]; apply wp_ret.
    + exists map, key, dsize, dversion. split; [done|]. rewrite Hm2.
      split; [by apply with_map_handoff|]. intros x Hx. by apply with_map_frame.
    + eexists. split; [by apply last_exit|done].
Qed.

(** *** [start_kernel] *)

(** The memory at entry is that of [s] but for the hand-off area. *)
Definition start_result k s (o : OUTCOME) s' : Prop :=
  match o with
  | Returned status =>
      EFI_ERROR status = true ∧ ∃ l, made l s s' ∧ Forall calm l ∧ reported l status ∧
        refused l = [] ∧ ∀ h, ledger l {| pages := (k_base k, k_pages k) :: pages h; pools := pools h; files := files h |} =
             Some h
  | Entered entry info top => ∃ n l s1,
      area info ∧ attempts n l ∧ (n < 8)%nat ∧ made (PagesAllocated info handoff_pages :: l) s s1 ∧
      (∀ x, ¬ in_area info x → mem s1 !! x = mem s !! x) ∧ entering info k s1 entry info top s'
  | Dead => ∃ info n l,
      attempts n l ∧ cpu s' = X86.x86_disable_interrupts (cpu s) ∧
      (n = 8%nat ∧ boot_exit_failure s' = EFI_INVALID_PARAMETER ∧
         calls s' = calls s ++ PagesAllocated info handoff_pages :: l ∨
       (n < 8)%nat ∧ ∃ l', last_attempt n l' (boot_exit_failure s') ∧
         calls s' = calls s ++ PagesAllocated info handoff_pages :: l ++ l')
  end.

Lemma passes_ledger l s s' h : passes l s s' → ledger l h = Some h.
Proof. intros [_ Hp _]. by apply ledger_speech. Qed.

(** A refused attempt, and what [account] makes of the attempts. *)
Lemma ledger_returned info k l h :
  Forall speech l →
  ledger ((PagesAllocated info handoff_pages ::
           [Called; PagesFreed info handoff_pages; PagesFreed (k_base k) (k_pages k)]) ++ l)
    {| pages := (k_base k, k_pages k) :: pages h; pools := pools h; files := files h |} = Some h.
Proof.
  intros Hl. destruct h as [ps bs fs]. cbn [pages pools files app ledger account mbind option_bind].
  rewrite give_back_head. cbn [mbind option_bind pages]. rewrite give_back_head. by apply ledger_speech.
Qed.

Record between (n : nat) info k s s1 : Prop := {
  bt_calls : ∃ l, attempts n l ∧ made (PagesAllocated info handoff_pages :: l) s s1;
  bt_handoff : handoff info k (mem s1);
  bt_frame x : ¬ in_area info x → mem s1 !! x = mem s !! x;
}.

Lemma wp_attempts image info k s s1 :
  area info → between 0 info k s s1 →
  wp (st_for 0 8 (exit_attempt table image k info)) (λ r s',
    match r with
    | None => between 8 info k s s'
    | Some r => ∃ n s2, (n < 8)%nat ∧ between n info k s s2 ∧ attempt_result n info k s2 (Some r) s'
    end) s1.
Proof.
  intros Har H0. apply (wp_for 0 8 _ (λ i s2, between (Z.to_nat i) info k s s2)).
  - done.
  - intros i s2 Hi Hbt. replace i with (Z.of_nat (Z.to_nat i)) at 1 by lia.
    eapply wp_mono; [by apply wp_exit_attempt, Hbt|].
    intros [r|] s3 Hr; [by exists (Z.to_nat i), s2; split; [lia|]|].
    destruct Hr as (map & key & ds & dv & Hm & Hh & Hf). destruct Hbt as [(l & Hl & Hl') _ Hfr].
    replace (Z.to_nat (i + 1)) with (S (Z.to_nat i)) by lia. split.
    + eexists. split; [by apply (attempts_more _ l map key ds dv)|]. by apply (made_app (_ :: l) _ s s2).
    + done.
    + intros x Hx. by rewrite Hf, Hfr.
  - intros s2 H. exact H.
Qed.

Lemma wp_dead status l s s' :
  made l s s' →
  wp (set_exit_failure status;; set_cpu X86.x86_disable_interrupts;; mret Dead) (λ o s'',
    o = Dead ∧ cpu s'' = X86.x86_disable_interrupts (cpu s) ∧ boot_exit_failure s'' = status ∧
    calls s'' = calls s ++ l) s'.
Proof. intros [Hc Hp _]. split; [done|]. cbn. by rewrite Hc, Hp. Qed.

Lemma wp_start_kernel image k s : wp (start_kernel table image k) (start_result k s) s.
Proof.
  unfold start_kernel. apply wp_bind. eapply wp_mono; [apply wp_allocate_handoff|].
  intros [status info] s1 H1. destruct (EFI_ERROR status) eqn:He.
  { destruct H1 as [H1 _]. apply wp_bind. eapply wp_mono; [apply wp_call_event|]. intros ? s2 [H2 _].
    apply wp_bind. eapply wp_mono; [apply wp_report_error|]. intros ? s3 (-> & l & [H3 Hp _] & Hl).
    apply wp_ret. split; [done|]. exists ([Called; PagesFreed (k_base k) (k_pages k)] ++ l).
    split; [eapply (made_app [_; _]); [by eapply (made_app [_])|done]|].
    split; [apply Forall_app_2; [by repeat constructor|by apply speech_calm]|].
    split; [by eexists|]. split; [by apply (refused_nil [_; _] l), refused_speech|].
    intros h. destruct h as [ps bs fs].
    cbn [pages pools files app ledger account mbind option_bind]. rewrite give_back_head.
    by apply ledger_speech. }
  destruct H1 as (H1 & Har & Hm).
  assert (between 0 info k s s1) as Hbt.
  { split; [exists []; by split; [constructor|]|rewrite Hm; exact (handoff_memory_fields info k (mem s) Har)|].
    intros x Hx. rewrite Hm. exact (handoff_memory_frame info k (mem s) x Hx). }
  apply wp_bind. eapply wp_mono; [by apply wp_attempts|].
  intros [[[status'|entry info' top|]|status']|] s2.
  - intros (n & s3 & Hn & [(l0 & Hl0 & H3) _ _] & -> & Hst & l & H4 & Hp & Hrep). apply wp_ret.
    inversion Hl0; subst. split; [done|]. eexists. split; [eapply made_app; [exact H3|exact H4]|].
    split; [by repeat (apply Forall_cons; split; [done|]); apply speech_calm|].
    split; [done|]. split; [by apply (refused_nil [_; _; _; _] l), refused_speech|].
    intros h. by apply ledger_returned.
  - intros (n & s3 & Hn & [(l0 & Hl0 & H3) _ Hfr] & Hen). apply wp_ret.
    pose proof Hen as [_ -> _ _ _ _]. exists n, l0, s3. repeat (split; [assumption|]). exact Hen.
  - by intros (n & s3 & _ & _ & []).
  - intros (n & s3 & Hn & [(l0 & Hl0 & H3) _ _] & l & Hl & H4).
    eapply wp_mono; [eapply wp_dead, made_app; [exact H3|exact H4]|].
    intros o s4 (-> & Hcpu & <- & Hcalls). exists info, n, l0. split; [exact Hl0|]. split; [exact Hcpu|].
    right. split; [exact Hn|]. exists l. split; [exact Hl|exact Hcalls].
  - intros [(l0 & Hl0 & H3) _ _]. eapply wp_mono; [by eapply wp_dead|].
    intros o s4 (-> & Hcpu & Hf & Hcalls). exists info, 8%nat, l0. split; [exact Hl0|]. split; [exact Hcpu|].
    left. split; [reflexivity|]. split; [exact Hf|exact Hcalls].
Qed.

(** *** [efi_main] *)

Definition main_result s (o : OUTCOME) s' : Prop :=
  match o with
  | Returned status =>
      EFI_ERROR status = true ∧ ∃ l, made l s s' ∧ Forall calm l ∧ reported l status ∧
        (List.length (refused l) ≤ 1)%nat ∧ ∀ h, ledger l (owing l h) = Some h
  | _ => ∃ l k d s1,
      reached 0 0 (Some k) d s s1 l ∧ kernel_in_memory d k (mem s1) ∧ start_result k s1 o s'
  end.

(** Nothing is taken or given after the last step. *)
Lemma wp_fail_with operation status l s0 s :
  failed l s0 s → EFI_ERROR status = true →
  wp (fail table operation status) (main_result s0) s.
Proof.
  intros [H1 Hled Hr Hc Hs] He. unfold fail. apply wp_bind.
  eapply wp_mono; [apply wp_report_error|]. intros ? s1 (-> & l1 & [H2 Hp _] & Hsh).
  pose proof (refused_speech l1 Hp) as Hr1.
  apply wp_ret. split; [exact He|]. exists (l ++ l1). split; [eapply made_app; [exact H1|exact H2]|].
  split; [apply Forall_app_2; [done|by apply speech_calm]|].
  split; [exists operation; by rewrite shown_app, Hs|]. split.
  - unfold refused in Hr1, Hr |- *. apply app_nil in Hr1 as [Hq Hf].
    by rewrite refused_pools_app, refused_files_app, Hq, Hf, !app_nil_r.
  - intros h. rewrite owing_app, ledger_app, Hled by done. by apply ledger_speech.
Qed.

Lemma wp_fail operation status d s0 s :
  reaches 0 0 None d s0 s → EFI_ERROR status = true →
  wp (fail table operation status) (main_result s0) s.
Proof. intros [l Hl] He. eapply wp_fail_with; [by eapply reached_failed|done]. Qed.

(** The announcement moves no memory. *)
Lemma wp_announce serial k s :
  wp (announce_entry serial k) (λ _ s', made [SerialSent (txt "BOOT: kernel entry=0x" ++
      numeral (k_entry k) ++ crlf)] s s' ∧ mem s' = mem s) s.
Proof.
  unfold announce_entry.
  change (txt "BOOT: kernel entry=0x0000000000000000" ++ crlf) with
    (txt "BOOT: kernel entry=0x" ++ txt "0000000000000000" ++ crlf).
  change 21%nat with (List.length (txt "BOOT: kernel entry=0x")). rewrite put_hex_spec by done.
  apply wp_bind. eapply wp_mono; [apply wp_call_event|]. intros [st size] s' H. by apply wp_ret.
Qed.

(** The kernel is announced and started, or given back. *)
Lemma wp_finish serial image k d s0 s l :
  reached 0 0 (Some k) d s0 s l → kernel_in_memory d k (mem s) →
  wp ('(status, whole) ← announce_entry serial k;
      if EFI_ERROR status || negb whole then
        FreePages (k_base k) (k_pages k);;
        fail table (txt "Serial IO Write") (if EFI_ERROR status then status else EFI_DEVICE_ERROR)
      else start_kernel table image k) (main_result s0) s.
Proof.
  intros Hr Hk. apply wp_bind. eapply wp_mono; [apply wp_announce|].
  intros [status whole] s1 [H1 Hm1].
  pose proof (reached_plain _ _ _ _ _ _ _ _ _ Hr H1 ltac:(by repeat constructor)) as Hr1.
  cbn [delivered mbind list_bind] in Hr1. rewrite app_nil_r in Hr1. rewrite <- Hm1 in Hk.
  destruct (_ || _).
  - apply wp_bind. eapply wp_mono; [apply wp_call_event|]. intros ? s2 [H2 _].
    apply (wp_fail _ _ d); [|by destruct (EFI_ERROR status) eqn:?].
    destruct Hr1 as [M1 L1 C1 D1 S1 R1]. eexists. split.
    + eapply made_app; [exact M1|exact H2].
    + intros h. rewrite ledger_app, L1. destruct h as [ps bs fs].
      cbn [used mbind option_bind ledger account pages pools files unless_null].
      rewrite give_back_head. done.
    + apply Forall_app_2; [done|by repeat constructor].
    + rewrite delivered_app, D1. cbn. by rewrite app_nil_r.
    + by rewrite shown_app, S1.
    + by apply refused_nil.
  - eapply wp_mono; [apply wp_start_kernel|]. intros o s2 Ho.
    destruct o as [st|entry info top|].
    + destruct Ho as (He & l2 & H2 & Hc2 & Hrep & Hr2 & Hled). destruct Hr1 as [M1 L1 C1 D1 S1 R1].
      split; [exact He|]. eexists. split; [eapply made_app; [exact M1|exact H2]|].
      split; [by apply Forall_app_2|].
      split; [destruct Hrep as [op Hop]; exists op; by rewrite shown_app, S1|].
      rewrite refused_nil by done. split; [cbn; lia|].
      intros h. rewrite owing_nil by by apply refused_nil. rewrite ledger_app, L1. apply Hled.
    + eexists _, k, d, s1. split; [exact Hr1|]. split; [exact Hk|exact Ho].
    + eexists _, k, d, s1. split; [exact Hr1|]. split; [exact Hk|exact Ho].
Qed.

Lemma wp_efi_main garbage image s : wp (efi_main table garbage image) (main_result s) s.
Proof.
  unfold efi_main. apply wp_bind.
  eapply wp_mono; [eapply wp_call_plain; [apply (reaches_nil s)|done]|].
  intros st1 s1 Hr1. destruct (EFI_ERROR st1) eqn:He1; [eapply wp_fail; [exact Hr1|done]|].
  apply wp_bind. eapply wp_mono; [eapply wp_call_plain; [exact Hr1|done]|].
  intros [st2 serial] s2 Hr2. destruct (EFI_ERROR st2) eqn:He2; [eapply wp_fail; [exact Hr2|done]|].
  destruct (serial =? 0); [eapply wp_fail; [exact Hr2|done]|].
  apply wp_bind. eapply wp_mono; [eapply wp_call_plain; [exact Hr2|done]|].
  intros st3 s3 Hr3. destruct (EFI_ERROR st3) eqn:He3; [eapply wp_fail; [exact Hr3|done]|].
  apply wp_bind. eapply wp_mono; [eapply wp_call_plain; [exact Hr3|done]|].
  intros [st4 size] s4 Hr4. cbv zeta.
  match goal with |- context [if EFI_ERROR ?x then fail _ _ _ else _] =>
    destruct (EFI_ERROR x) eqn:He4 end; [eapply wp_fail; [exact Hr4|exact He4]|].
  apply wp_bind. eapply wp_mono; [apply wp_load_kernel|].
  intros [st5 [k|]] s5; cbn [load_result].
  - intros (-> & d & [l5 Hr5] & Hk). destruct Hr4 as [l4 Hr4]. eapply wp_finish; [|exact Hk].
    eapply reached_app; [exact Hr4|exact Hr5].
  - intros [He (l5 & H5)]. rewrite He. destruct Hr4 as [l4 Hr4].
    eapply wp_fail_with; [eapply failed_app; [exact Hr4|exact H5]|exact He].
Qed.

End loader.

End BootSpec.
