(* ===== verification/LoaderSpec.v ===== *)
(** * The loader as a whole

    What a run of [efi_main] comes to, on any conforming firmware, and the boot
    information as the kernel reads it. *)

From Stdlib Require Import String.
From S2P Require Import Prelude Text BootInfo X86 Elf ElfSpec Firmware FirmwareSpec Load LoadSpec BootMain BootSpec.

Module LoaderSpec.
Import Text Firmware FirmwareSpec Load LoadSpec BootMain BootSpec ElfSpec.
Import Elf(LOADED_KERNEL, k_base, k_pages, k_entry).

(** ** The kernel's view *)

(** The words of the RAM are the bytes of the memory. *)
Definition words_of (m : memory) (r : ram) : Prop := ∀ a, a mod 8 = 0 → load r a = get64 a m.

(** The boot information of a kernel [k], with a map of [n] bytes. *)
Definition info_of (info : Z) (k : LOADED_KERNEL) (n dsize dversion : Z) : BOOT_INFO := {|
  magic := BOOT_INFO_MAGIC; version := BOOT_INFO_VERSION; info_size := sizeof_BOOT_INFO;
  memory_map := info + 4096; memory_map_size := n;
  descriptor_size := dsize; descriptor_version := dversion; reserved := 0;
  kernel_base := k_base k; kernel_size := k_pages k * 4096;
  stack_base := info + 4096 + map_capacity + 4096; stack_size := 16 * 4096;
  flags := BOOT_SERVICES_EXITED;
|}.

Lemma low_half a m : low32 (get64 a m) = get32 a m.
Proof.
  unfold low32, u32. rewrite get64_halves. pose proof (get32_range a m). zdm.
Qed.

Lemma high_half a m : high32 (get64 a m) = get32 (a + 4) m.
Proof.
  unfold high32, u32. rewrite Z.shiftr_div_pow2, get64_halves by lia.
  pose proof (get32_range a m). pose proof (get32_range (a + 4) m). zdm.
Qed.

(** The image's place, as [inspect_segments] bounds it. *)
Lemma kernel_in_memory_shape d k m :
  kernel_in_memory d k m →
  0x100000 ≤ k_base k ∧ k_base k mod 4096 = 0 ∧ 0 < k_pages k ∧
  k_base k + 4096 * k_pages k ≤ 2 ^ 32.
Proof.
  intros (r & m0 & Him & Hb). pose proof (ip_pages _ _ _ _ _ _ Him) as Hp.
  destruct (image_range_shape _ _ _ _ (ip_image _ _ _ _ _ _ Him)) as (Hal & _ & Hbe & Hlim & _).
  rewrite Hb. split; [lia|]. split; [done|]. lia.
Qed.

(** Only the image's own pages matter. *)
Lemma kernel_in_memory_frame d k m m' :
  kernel_in_memory d k m →
  (∀ x, k_base k ≤ x < k_base k + 4096 * k_pages k → m' !! x = m !! x) →
  kernel_in_memory d k m'.
Proof.
  intros (r & m0 & [Hi He Hp Hs Hf] & Hb) Hm. exists r, m'. split; [|done].
  split; [done..| |done]. intros i j Hi' Hl Hj. destruct (Hs i j Hi' Hl Hj) as [Hr Hx].
  split; [done|]. rewrite Hm, Hx; [done|]. lia.
Qed.

Lemma complete_read_info info k map dsize dversion m r :
  area info → is_u64 (k_base k) → is_u64 (k_pages k * 4096) →
  complete info k map dsize dversion m → words_of m r →
  read_info r info = info_of info k (Z.of_nat (List.length map)) dsize dversion.
Proof.
  intros [Hlo Hal Hhi] Hb Hp [[] _ Hn Hd Hv Hf _] Hw.
  assert (∀ x, x mod 8 = 0 → load r (info + x) = get64 (info + x) m) as Hload by (intros x Hx; apply Hw; zdm).
  unfold read_info, info_of.
  rewrite !Hload, (Hw info) by (done || zdm). rewrite !low_half, !high_half.
  rewrite <- !Z.add_assoc. cbn [Z.add Pos.add Pos.succ Pos.add_carry].
  f_equal; rewrite ?u64_small in * by done; try done. lia.
Qed.

(** ** Resources *)

Lemma give_back_subset {X} `{EqDecision X} (x y : X) l l' :
  give_back x l = Some l' → y ∈ l' → y ∈ l.
Proof.
  revert l'. induction l as [|z l IH]; intros l' H; cbn in H; [done|].
  destruct (decide (x = z)) as [->|]; [injection H as ->; intros ?; apply elem_of_cons; by right|].
  destruct (give_back x l) as [l1|]; [|done]. injection H as <-.
  intros [->|Hy]%elem_of_cons; [apply elem_of_cons; by left|].
  apply elem_of_cons. right. by apply (IH l1).
Qed.

(** Pages that are held have been granted. *)
Lemma granted_event l h h' x n :
  ledger l h = Some h' → (x, n) ∈ pages h' → (x, n) ∈ pages h ∨ PagesAllocated x n ∈ l.
Proof.
  revert h. induction l as [|e l IH]; intros h Hl Hx; cbn [ledger] in Hl.
  { injection Hl as ->. by left. }
  destruct (account e h) as [h1|] eqn:He; [|done].
  destruct (IH h1 Hl Hx) as [Hin|Hin]; [|right; apply elem_of_cons; by right].
  destruct e; cbn [account] in He; try (injection He as <-; by left);
    try (destruct (give_back _ _) as [l'|] eqn:Hg; [|done]; injection He as <-).
  - injection He as <-. cbn in Hin. apply elem_of_cons in Hin as [[= -> ->]|Hin]; [|by left].
    right. apply elem_of_cons. by left.
  - left. by eapply give_back_subset.
  - by left.
  - by left.
Qed.

(** The firmware grants no page twice. *)
Definition grants (l : list event) : list (Z * Z) :=
  l ≫= λ e, match e with PagesAllocated a n => [(a, n)] | _ => [] end.
Fixpoint separate (g : list (Z * Z)) : Prop :=
  match g with
  | [] => True
  | (a, n) :: g => Forall (λ '(b, m), a + 4096 * n ≤ b ∨ b + 4096 * m ≤ a) g ∧ separate g
  end.
Definition separate_grants (l : list event) : Prop := separate (grants l).

Lemma separate_grants_spec l1 a n l2 b m l3 :
  separate_grants (l1 ++ PagesAllocated a n :: l2 ++ PagesAllocated b m :: l3) →
  a + 4096 * n ≤ b ∨ b + 4096 * m ≤ a.
Proof.
  unfold separate_grants, grants. rewrite bind_app. cbn [mbind list_bind app].
  fold (grants l1). rewrite bind_app. cbn [mbind list_bind app].
  induction (grants l1) as [|[c k] g IH]; cbn [app separate].
  - intros [[_ [H _]%Forall_cons]%Forall_app _]. exact H.
  - intros [_ H]. by apply IH.
Qed.

Lemma attempts_ledger n l h : attempts n l → ledger l h = Some h ∧ delivered l = [].
Proof.
  induction 1 as [|n l map key dsize dversion _ [IH Hd]]; [done|].
  rewrite ledger_app, IH, delivered_app, Hd. done.
Qed.

(** ** The hand-over *)

(** What the loader leaves when it enters the kernel [k], after the calls [l]. *)
Record handed_over {W} (s s' : LOADER W) (entry info top : Z) (l : list event) (k : LOADED_KERNEL)
    (map : list Z) (dsize dversion : Z) : Prop := {
  hv_calls : calls s' = calls s ++ l;
  hv_last : ∃ before key, l = before ++ [MapTaken map key dsize dversion; ExitTried key EFI_SUCCESS];
  hv_held : ledger l nothing = Some
    {| pages := [(info, handoff_pages); (k_base k, k_pages k)]; pools := []; files := [] |};
  hv_area : area info;
  hv_kernel : 0x100000 ≤ k_base k ∧ k_base k mod 4096 = 0 ∧ 0 < k_pages k ∧
    k_base k + 4096 * k_pages k ≤ 2 ^ 32;
  hv_apart : separate_grants l →
    info + 35 * 4096 ≤ k_base k ∨ k_base k + 4096 * k_pages k ≤ info;
  hv_image : separate_grants l → kernel_in_memory (delivered l) k (mem s');
  hv_entry : entry = k_entry k;
  hv_top : top = info + 4096 + map_capacity + 4096 + 16 * 4096;
  hv_complete : complete info k map dsize dversion (mem s');
  hv_cpu : cpu s' = X86.x86_disable_interrupts (cpu s);
}.

Lemma handed_over_info {W} (s s' : LOADER W) entry info top l k map dsize dversion r :
  handed_over s s' entry info top l k map dsize dversion → words_of (mem s') r →
  read_info r info = info_of info k (Z.of_nat (List.length map)) dsize dversion.
Proof.
  intros [_ _ _ Har Hk _ _ _ _ Hco _]. apply complete_read_info; [done| | |done]; unfold is_u64; lia.
Qed.

Lemma efi_main_handed_over {W} `{!Protocols W, !Conforming W} table garbage image (s : LOADER W) :
  match efi_main table garbage image s with
  | (Entered entry info top, s') => ∃ l k map dsize dversion,
      handed_over s s' entry info top l k map dsize dversion
  | _ => True
  end.
Proof.
  pose proof (wp_efi_main table garbage image s) as H. unfold wp in H.
  destruct (efi_main table garbage image s) as [[status|entry info top|] s']; [done| |done].
  destruct H as (l & k & d & s1 & [[Hc1 Hp1 _] Hled _ <- _ _] & Hk &
    n & l0 & s2 & Har & Hl0 & Hn & [Hc2 Hp2 _] & Hf2 & Hen).
  destruct Hen as [-> _ -> (map & key & ds & dv & Hc3 & Hco) Hcpu Hf3].
  set (l' := (l ++ PagesAllocated info handoff_pages :: l0) ++
    [MapTaken map key ds dv; ExitTried key EFI_SUCCESS]).
  destruct (attempts_ledger _ _ {| pages := [(info, handoff_pages); (k_base k, k_pages k)];
    pools := []; files := [] |} Hl0) as [Hled0 Hdel0].
  assert (separate_grants l' →
    info + 35 * 4096 ≤ k_base k ∨ k_base k + 4096 * k_pages k ≤ info) as Hap.
  { intros Hsep. specialize (Hled nothing). apply granted_event with (x := k_base k) (n := k_pages k) in Hled
      as [Hnil|(l1 & l2 & ->)%list_elem_of_split]; [by apply elem_of_nil in Hnil| |by left].
    unfold l' in Hsep. rewrite <- !app_assoc in Hsep. cbn [app] in Hsep.
    apply separate_grants_spec in Hsep.
    unfold handoff_pages in Hsep. lia. }
  exists l', k, map, ds, dv. split; try done.
  - unfold l'. by rewrite Hc3, Hc2, Hc1, <- !app_assoc.
  - by exists (l ++ PagesAllocated info handoff_pages :: l0), key.
  - unfold l'. rewrite !ledger_app, Hled.
    change (used 0 0 (Some k) nothing) with
      {| pages := [(k_base k, k_pages k)]; pools := []; files := [] |}.
    cbn [mbind option_bind ledger account pages pools files]. by rewrite Hled0.
  - by apply (kernel_in_memory_shape (delivered l) k (mem s1)).
  - intros Hsep. specialize (Hap Hsep). unfold l'. rewrite !delivered_app.
    change (delivered (PagesAllocated info handoff_pages :: l0)) with (delivered l0).
    rewrite Hdel0, !app_nil_r. eapply kernel_in_memory_frame; [exact Hk|].
    intros x Hx. rewrite Hf3; [apply Hf2|]; intros Hin; unfold in_area in Hin; lia.
  - by rewrite Hcpu, Hp2, Hp1.
Qed.

(** ** Properties *)

Section properties.
Context {W : Type} `{!Protocols W} `{!Conforming W}.
Context (table : EFI_SYSTEM_TABLE).

(** C39: a loader that returns to the firmware returns an error, has given back
    every page, every pool buffer and every file it has taken, has not tried to
    leave the boot services, and has reported an operation and the status on the
    error output, or else on the console. It gives back nothing it does not hold,
    with one exception: the pointer, other than null, that a refused [Open] or
    [AllocatePool] has left - the ledger balances exactly when that, of which
    there is one at most, is counted as held before. *)
Theorem efi_main_failure_leaves_nothing garbage image (s : LOADER W) :
  match efi_main table garbage image s with
  | (Returned status, s') =>
      EFI_ERROR status = true ∧ cpu s' = cpu s ∧
      ∃ l, calls s' = calls s ++ l ∧ Forall calm l ∧
        (∀ h, ledger l (owing l h) = Some h) ∧ (List.length (refused l) ≤ 1)%nat ∧
        (refused l = [] → ∀ h, ledger l h = Some h) ∧
        ∃ operation, shown l = if output_of table =? 0 then [] else report operation status
  | _ => True
  end.
Proof.
  pose proof (wp_efi_main table garbage image s) as H. unfold wp in H.
  destruct (efi_main table garbage image s) as [[status|e i t|] s']; [|done..].
  destruct H as (He & l & [Hc Hp _] & Hcalm & Hrep & Hn & Hl). split; [done|]. split; [done|].
  exists l. do 4 (split; [done|]). split; [|exact Hrep]. intros Hr h. by rewrite <- (owing_nil l h Hr) at 1.
Qed.

(** C40: the boot services are left as the firmware demands: the calls before are
    none of the exit's; every attempt takes the memory map and exits with its
    key, with no call in between; an attempt follows only upon
    [EFI_INVALID_PARAMETER], at most eight are made, and no call follows a
    success. When the loader gives up it has recorded the last status and has
    disabled interrupts. *)
Theorem efi_main_exit_protocol garbage image (s : LOADER W) :
  let '(o, s') := efi_main table garbage image s in
  ∃ before l, calls s' = calls s ++ before ++ l ∧ Forall calm before ∧
    match o with
    | Returned _ => l = []
    | Entered _ _ _ => ∃ n l0 map key dsize dversion, (n < 8)%nat ∧ attempts n l0 ∧
        l = l0 ++ [MapTaken map key dsize dversion; ExitTried key EFI_SUCCESS]
    | Dead => cpu s' = X86.x86_disable_interrupts (cpu s) ∧ ∃ n l0, attempts n l0 ∧
        (n = 8%nat ∧ l = l0 ∧ boot_exit_failure s' = EFI_INVALID_PARAMETER ∨
         (n < 8)%nat ∧ ∃ l1, last_attempt n l1 (boot_exit_failure s') ∧ l = l0 ++ l1)
    end.
Proof.
  pose proof (wp_efi_main table garbage image s) as H. unfold wp in H.
  destruct (efi_main table garbage image s) as [[status|e i t|] s'].
  - destruct H as (_ & l & [Hc _ _] & Hcalm & _ & _). exists l, []. by rewrite app_nil_r.
  - destruct H as (l & k & d & s1 & [[Hc1 _ _] _ Hcalm _ _ _] & _ &
      n & l0 & s2 & _ & Hl0 & Hn & [Hc2 _ _] & _ & Hen).
    destruct (en_left _ _ _ _ _ _ _ Hen) as (map & key & ds & dv & Hc3 & _).
    exists (l ++ [PagesAllocated i handoff_pages]), (l0 ++ [MapTaken map key ds dv; ExitTried key EFI_SUCCESS]).
    split; [rewrite Hc3, Hc2, Hc1, <- !app_assoc; reflexivity|].
    split; [apply Forall_app_2; [done|by repeat constructor]|]. by exists n, l0, map, key, ds, dv.
  - destruct H as (l & k & d & s1 & [[Hc1 Hp1 _] _ Hcalm _ _ _] & _ & info & n & l0 & Hl0 & Hcpu & H).
    exists (l ++ [PagesAllocated info handoff_pages]). rewrite Hp1 in Hcpu.
    assert (Forall calm (l ++ [PagesAllocated info handoff_pages])) as Hcalm'
      by (apply Forall_app_2; [done|by repeat constructor]).
    destruct H as [(-> & Hf & Hc)|(Hn & l1 & Hl1 & Hc)]; rewrite Hc1 in Hc.
    + exists l0. split; [rewrite Hc, <- !app_assoc; reflexivity|]. split; [done|].
      split; [done|]. exists 8%nat, l0. split; [done|]. by left.
    + exists (l0 ++ l1). split; [rewrite Hc, <- !app_assoc; reflexivity|]. split; [done|].
      split; [done|]. exists n, l0. split; [done|]. right. split; [done|]. by exists l1.
Qed.

(** C38: a loader that enters the kernel has loaded it and tells it the truth. The
    memory holds the image that the bytes read from the file describe (provided
    the firmware has granted no page twice); the entry point and the kernel's
    range are the image's; of all it has taken, the loader still holds the
    image's pages and the hand-off area, nothing else; the boot information, as
    the kernel reads it, is complete, and its map is the one whose key has ended
    the boot services; the second argument is the aligned top of the stack that
    the information names; interrupts are disabled. *)
Theorem efi_main_hands_over garbage image (s : LOADER W) :
  match efi_main table garbage image s with
  | (Entered entry info top, s') => ∃ l k map dsize dversion,
      calls s' = calls s ++ l ∧ entry = k_entry k ∧
      (separate_grants l → kernel_in_memory (delivered l) k (mem s')) ∧
      ledger l nothing = Some
        {| pages := [(info, handoff_pages); (k_base k, k_pages k)]; pools := []; files := [] |} ∧
      (∃ before key, l = before ++ [MapTaken map key dsize dversion; ExitTried key EFI_SUCCESS]) ∧
      (∀ r, words_of (mem s') r →
         read_info r info = info_of info k (Z.of_nat (List.length map)) dsize dversion) ∧
      get_bytes (info + 4096) (Z.of_nat (List.length map)) (mem s') = u8 <$> map ∧
      Z.of_nat (List.length map) ≤ map_capacity ∧
      top = info + 4096 + map_capacity + 4096 + 16 * 4096 ∧ top mod 16 = 0 ∧
      cpu s' = X86.x86_disable_interrupts (cpu s)
  | _ => True
  end.
Proof.
  pose proof (efi_main_handed_over table garbage image s) as H.
  destruct (efi_main table garbage image s) as [[status|entry info top|] s']; [done| |done].
  destruct H as (l & k & map & ds & dv & H). exists l, k, map, ds, dv.
  pose proof (λ r, handed_over_info _ _ _ _ _ _ _ _ _ _ r H) as Hinfo.
  destruct H as [Hc Hl Hh [Hlo Hal Hhi] Hk _ Him He -> Hco Hcpu].
  do 5 (split; [done|]). split; [exact Hinfo|]. split; [apply Hco|]. split; [apply Hco|].
  split; [done|]. split; [unfold map_capacity; zdm|done].
Qed.

End properties.

(** Reading a file ends: whatever counts the firmware reports, the loop leaves
    after at most as many turns as the file has bytes, with a status; on success
    the buffer holds exactly the bytes of the reads, in order, [length] of
    them. *)
Theorem read_entire_file_terminates {W} `{!Protocols W} fuel file buffer length (s : LOADER W) :
  0 ≤ length < 2 ^ 64 → (Z.to_nat length ≤ fuel)%nat →
  let '(r, s') := read_loop fuel file buffer length 0 s in
  ∃ status l, r = Some status ∧ calls s' = calls s ++ l ∧ Forall plain l ∧
    (EFI_ERROR status = false →
       get_bytes buffer length (mem s') = u8 <$> delivered l ∧
       Z.of_nat (List.length (delivered l)) = length).
Proof.
  intros Hl Hf. pose proof (wp_read_loop fuel file buffer length 0 [] s) as H.
  unfold wp in H. destruct (read_loop fuel file buffer length 0 s) as [r s'].
  destruct H as (status & l & -> & [Hc _ _] & Hp & Hok); [lia|lia|lia|done|intros i Hi; cbn in Hi; lia|].
  exists status, l. split; [done|]. split; [done|]. split; [done|]. intros He.
  destruct (Hok He) as [Hh Hn]. cbn [app] in Hh, Hn. split; [|done].
  rewrite <- Hn. by apply holds_get_bytes.
Qed.

(** ** A small firmware *)

Module Demo.

Record FIRMWARE := { position : Z; exits : Z; served : bool; spare : bool }.

(** The kernel's file, in chunks of at most 100 bytes; the image's pages and an
    area at 2 MiB; a map of two descriptors; the first exit is refused. [served]
    tells whether there is a file, [spare] whether there is memory for the
    pool; a refused [AllocatePool] leaves an arbitrary pointer. *)
Definition map_entry (type start pages : Z) : list Z :=
  bytes_of 8 type ++ bytes_of 8 start ++ bytes_of 8 0 ++ bytes_of 8 pages ++ bytes_of 8 8.
Definition map : list Z := map_entry 2 0x100000 0x200 ++ map_entry 7 0x300000 0x100.

Definition granted (type address pages : Z) : bool :=
  if type =? 0 then pages =? 35
  else (0 <? address) && (address <? 2 ^ 64) && (address mod 4096 =? 0)
       && (address + 4096 * pages <=? 2 ^ 64).

#[local] Instance protocols : Protocols FIRMWARE := {|
  boot_services := {|
    bs_AllocatePages type _ n a w :=
      if granted type a n then ((EFI_SUCCESS, if type =? 0 then 0x200000 else a), w)
      else ((EFI_LOAD_ERROR, a), w);
    bs_FreePages _ _ w := (EFI_SUCCESS, w);
    bs_GetMemoryMap capacity w :=
      if capacity <? 80 then ((EFI_LOAD_ERROR, [], 0, 0, 0), w)
      else ((EFI_SUCCESS, map, 7 + exits w, 40, 1), w);
    bs_AllocatePool _ _ _ w :=
      (if spare w then (EFI_SUCCESS, 0x180000) else (EFI_LOAD_ERROR, 0xdead0000), w);
    bs_FreePool _ w := (EFI_SUCCESS, w);
    bs_HandleProtocol _ _ _ w := ((EFI_SUCCESS, 3), w);
    bs_ExitBootServices _ _ w :=
      (if exits w =? 0 then EFI_INVALID_PARAMETER else EFI_SUCCESS,
       {| position := position w; exits := exits w + 1; served := served w; spare := spare w |});
    bs_SetWatchdogTimer _ _ _ _ w := (EFI_SUCCESS, w);
    bs_LocateProtocol _ _ _ w := ((EFI_SUCCESS, 4), w);
  |};
  text_output := {| to_OutputString _ _ w := (EFI_SUCCESS, w) |};
  loaded_image := {| li_DeviceHandle _ _ := 5 |};
  file_protocol := {|
    f_Open _ file _ _ _ w := (if served w then (EFI_SUCCESS, 2) else (EFI_LOAD_ERROR, 0), w);
    f_Close _ w := (EFI_SUCCESS, w);
    f_Read _ count w :=
      let bytes := take (Z.to_nat (Z.min count 100)) (drop (Z.to_nat (position w)) small_elf) in
      ((EFI_SUCCESS, bytes),
       {| position := position w + Z.of_nat (List.length bytes); exits := exits w; served := served w; spare := spare w |});
    f_GetPosition _ w := ((EFI_SUCCESS, position w), w);
    f_SetPosition _ p w :=
      (EFI_SUCCESS, {| position := Z.min p 240; exits := exits w; served := served w; spare := spare w |});
  |};
  file_system := {| fs_OpenVolume _ _ w := ((EFI_SUCCESS, 1), w) |};
  serial_io := {|
    s_SetAttributes _ _ _ _ _ _ _ w := (EFI_SUCCESS, w);
    s_Write _ text w := ((EFI_SUCCESS, Z.of_nat (List.length text)), w);
  |};
|}.

#[local] Instance conforming : Conforming FIRMWARE.
Proof.
  split; cbn [boot_services file_protocol protocols f_Open bs_AllocatePool bs_AllocatePages bs_GetMemoryMap].
  - intros this path mode attributes w. by destruct (served w).
  - intros type size w. by destruct (spare w).
  - intros mt n a w. unfold granted. cbn [Z.eqb]. destruct (_ && _) eqn:H; [|done].
    intros _. apply u64_small. unfold is_u64. lia.
  - intros type mt n a w. unfold granted. destruct (Z.eqb_spec type 0) as [->|Ht].
    + destruct (Z.eqb_spec n 35) as [->|]; [|done]. intros _. by vm_compute.
    + destruct (_ && _) eqn:H; [|done]. intros _. rewrite u64_small; [|unfold is_u64]; lia.
  - intros capacity w. destruct (Z.ltb_spec capacity 80); [done|]. intros _.
    change (Z.of_nat (List.length map)) with 80. lia.
Qed.

Definition table : EFI_SYSTEM_TABLE := {| ConOut := 9; StdErr := 0 |}.

(** A processor that [paging_init] supports. *)
Definition processor : X86.CPU := {|
  X86.rflags := 0x202; X86.cr0 := 0x80000033; X86.cr3 := 0x7fc01000; X86.cr4 := 0x20;
  X86.msr := {[0x277 := 0x0007040600070406]};
  X86.cpuid := λ leaf _,
    if leaf =? 0x80000000 then X86.Build_X86_CPUID_RESULT 0x80000008 0 0 0
    else if leaf =? 0x80000001 then X86.Build_X86_CPUID_RESULT 0 0 0 0x20100000
    else X86.Build_X86_CPUID_RESULT 0 0 0 0;
  X86.tlb := ∅ |}.

Definition machine_with (served spare : bool) : LOADER FIRMWARE := {|
  mem := ∅; firmware := {| position := 0; exits := 0; served := served; spare := spare |};
  cpu := processor; calls := []; boot_exit_failure := 0 |}.
Definition machine (served : bool) : LOADER FIRMWARE := machine_with served true.

Definition garbage : LOADED_KERNEL := {| k_base := 0; k_pages := 0; k_entry := 0 |}.

(** The words of the boot information and of the two descriptors. *)
Definition boot_words : list Z :=
  ((λ i, 0x200000 + 8 * i) <$> seqZ 0 11) ++ ((λ i, 0x201000 + 8 * i) <$> seqZ 0 10).
Definition boot_values : list Z :=
  [BOOT_INFO_MAGIC; 2 + Z.shiftl 88 32; 0x201000; 80; 40; 1; 0x100000; 0x2000; 0x212000; 0x10000; 1;
   2; 0x100000; 0; 0x200; 8; 7; 0x300000; 0; 0x100; 8].

(** The kernel is entered, after one refused exit. *)
Lemma machine_runs :
  (let '(o, s') := efi_main table garbage 6 (machine true) in
   (o, grants (calls s'), (λ x, get64 x (mem s')) <$> boot_words)) =
  (Entered 0x100002 0x200000 0x222000, [(0x100000, 2); (0x200000, 35)], boot_values).
Proof. by vm_compute. Qed.

Lemma machine_enters :
  let '(o, s') := efi_main table garbage 6 (machine true) in
  o = Entered 0x100002 0x200000 0x222000 ∧ separate_grants (calls s') ∧
  (λ x, get64 x (mem s')) <$> boot_words = boot_values.
Proof.
  pose proof machine_runs as E. destruct (efi_main table garbage 6 (machine true)) as [o s'].
  apply pair_equal_spec in E as [[Ho Hg]%pair_equal_spec Hw]. split; [done|]. split; [|done].
  unfold separate_grants. rewrite Hg. repeat constructor; lia.
Qed.

Lemma machine_fails :
  (let '(o, s') := efi_main table garbage 6 (machine false) in (o, refused (calls s'))) =
  (Returned EFI_LOAD_ERROR, []).
Proof. by vm_compute. Qed.

End Demo.

#[local] Existing Instances Demo.protocols Demo.conforming.
Import Demo.

(** Without a file nothing is refused with a pointer left, and the ledger
    balances. *)
Lemma efi_main_failure_leaves_nothing_witness :
  ∃ s', efi_main table garbage 6 (machine false) = (Returned EFI_LOAD_ERROR, s') ∧
    cpu s' = cpu (machine false) ∧ Forall calm (calls s') ∧ (∀ h, ledger (calls s') h = Some h) ∧
    ∃ operation, shown (calls s') = report operation EFI_LOAD_ERROR.
Proof.
  pose proof (efi_main_failure_leaves_nothing table garbage 6 (machine false)) as H.
  pose proof machine_fails as E. destruct (efi_main table garbage 6 (machine false)) as [o s'].
  apply pair_equal_spec in E as [-> Hr]. exists s'. split; [reflexivity|].
  destruct H as (_ & Hc & l & Hl & Hcalm & _ & _ & Hled & Hs). cbn [calls machine machine_with app] in Hl.
  rewrite Hl in Hr |- *. split; [exact Hc|]. split; [exact Hcalm|]. split; [exact (Hled Hr)|exact Hs].
Defined.

(** Without memory for the pool the loader frees the pointer that the refused
    [AllocatePool] has left: a buffer that it does not hold. *)
Lemma refused_pool_is_freed :
  let '(o, s') := efi_main table garbage 6 (machine_with true false) in
  o = Returned EFI_LOAD_ERROR ∧ PoolFreed 0xdead0000 ∈ calls s' ∧
  Forall (λ e, match e with PoolAllocated _ => False | _ => True end) (calls s') ∧
  ledger (calls s') nothing = None.
Proof.
  assert (let '(o, s') := efi_main table garbage 6 (machine_with true false) in
    (o, existsb (λ e, match e with PoolFreed b => b =? 0xdead0000 | _ => false end) (calls s'),
     forallb (λ e, match e with PoolAllocated _ => false | _ => true end) (calls s'),
     ledger (calls s') nothing) = (Returned EFI_LOAD_ERROR, true, true, None)) as E by by vm_compute.
  destruct (efi_main _ _ _ _) as [o s']. injection E as -> H1 H2 H3.
  split; [done|]. split; [|split; [|exact H3]].
  - apply existsb_exists in H1 as (e & He & Hb). apply list_elem_of_In in He.
    destruct e; try discriminate Hb. apply Z.eqb_eq in Hb as ->. exact He.
  - apply Forall_forall. intros e He%list_elem_of_In. rewrite forallb_forall in H2.
    specialize (H2 e He). by destruct e.
Qed.

Lemma efi_main_exit_protocol_witness :
  ∃ s' before l, efi_main table garbage 6 (machine true) = (Entered 0x100002 0x200000 0x222000, s') ∧
    calls s' = [] ++ before ++ l ∧ Forall calm before ∧
    ∃ n l0 map key dsize dversion, (n < 8)%nat ∧ attempts n l0 ∧
      l = l0 ++ [MapTaken map key dsize dversion; ExitTried key EFI_SUCCESS].
Proof.
  pose proof (efi_main_exit_protocol table garbage 6 (machine true)) as H.
  pose proof machine_enters as E. destruct (efi_main table garbage 6 (machine true)) as [o s'].
  destruct E as [-> _]. destruct H as (before & l & H). exists s', before, l.
  split; [reflexivity|exact H].
Defined.

Lemma efi_main_hands_over_witness :
  ∃ s' l k map dsize dversion,
    efi_main table garbage 6 (machine true) = (Entered 0x100002 0x200000 0x222000, s') ∧
    calls s' = [] ++ l ∧ 0x100002 = k_entry k ∧ kernel_in_memory (delivered l) k (mem s') ∧
    ledger l nothing = Some
      {| pages := [(0x200000, handoff_pages); (k_base k, k_pages k)]; pools := []; files := [] |} ∧
    ∃ before key, l = before ++ [MapTaken map key dsize dversion; ExitTried key EFI_SUCCESS].
Proof.
  pose proof (efi_main_hands_over table garbage 6 (machine true)) as H.
  pose proof machine_enters as E.
  destruct (efi_main table garbage 6 (machine true)) as [o s'].
  destruct E as (-> & Hs & _). destruct H as (l & k & map & ds & dv & Hc & He & Hk & Hl & Hb & _).
  rewrite Hc in Hs. exists s', l, k, map, ds, dv.
  exact (conj eq_refl (conj Hc (conj He (conj (Hk Hs) (conj Hl Hb))))).
Defined.

End LoaderSpec.
