(* ===== verification/PagingWorld.v ===== *)
(** * Callers of the dynamic interface

    The rules by which code that uses the page tables is verified: calls of the
    dynamic interface as steps of the abstract address space, pages the caller
    takes from the allocator and gives back, and memory read and written through
    the processor's translation. *)

From S2P Require Import Prelude State BootInfo PmmInterface X86.
From S2P Require Import Paging PagingBits PagingModel PagingOps PagingStep PagingSpace.
Import State X86 Paging PagingBits PagingModel PagingOps PagingStep PagingSpace.

Module PagingWorld.

Section world.
Context {A : Type} `{!PmmApi A} `{!PmmContract A}.
Implicit Types (k : PAGING A) (r : radix) (s : space).

(** ** The caller's own steps *)

(** The tables and the tree of two states that differ in the allocator, which
    has the same tables in use. *)
Lemma good_with_pmm k r (p : A) :
  good k r → pmm_inv p → list_to_set (table_list k) ⊆ pmm_used p → good (with_pmm k p) r.
Proof.
  intros [Hr Hl Hlf Ht Hro] Hp Hu. split; [|done..]. destruct Hr. split; try done.
  intros x t Hx. apply Hu, elem_of_list_to_set, rep_list0. by exists x.
Qed.

Lemma alloc_good k r p a :
  good k r → pmm_alloc (pmm k) = (Some a, p) →
  good (with_pmm k p) r ∧ a ∈ pmm_pool (pmm k) ∖ pmm_used (pmm k) ∧
  others (with_pmm k p) = {[a]} ∪ others k ∧ pmm_pool p = pmm_pool (pmm k) ∧
  pmm_available p = pmm_available (pmm k) - 1.
Proof.
  intros Hg Ha. pose proof (g_rep k r Hg) as Hr. pose proof (rep_pmm k r Hr) as Hp.
  pose proof (pmm_alloc_count _ _ _ Hp Ha) as Hc.
  apply pmm_alloc_some in Ha as (Hp' & Hin & Hpool & Hused); [|done].
  pose proof (table_list_used k r Hr) as Htu.
  split; [apply good_with_pmm; [done|done|set_solver]|]. split; [done|].
  split; [|done]. unfold others. change (table_list (with_pmm k p)) with (table_list k).
  change (pmm (with_pmm k p)) with p. rewrite Hused. set_solver.
Qed.

Lemma free_good k r p a :
  good k r → pmm_free a (pmm k) = (true, p) → a ∈ others k →
  good (with_pmm k p) r ∧ others (with_pmm k p) = others k ∖ {[a]} ∧
  pmm_pool p = pmm_pool (pmm k) ∧ pmm_available p = pmm_available (pmm k) + 1.
Proof.
  intros Hg Ha Ho. pose proof (g_rep k r Hg) as Hr. pose proof (rep_pmm k r Hr) as Hp.
  pose proof (pmm_free_count _ _ _ Hp Ha) as Hc.
  apply pmm_free_true in Ha as (Hp' & Hin & Hpool & Hused); [|done].
  pose proof (table_list_used k r Hr) as Htu.
  split; [apply good_with_pmm; [done|done|]; rewrite Hused; unfold others in Ho; set_solver|].
  split; [|done]. unfold others. change (table_list (with_pmm k p)) with (table_list k).
  change (pmm (with_pmm k p)) with p. rewrite Hused. set_solver.
Qed.

(** The tree depends on the words of the table pages only. *)
Lemma good_with_mem k r m :
  good k r → (∀ x, page_of x ∈ table_list k → load m x = load (mem k) x) → good (with_mem k m) r.
Proof.
  intros [Hr Hl Hlf Ht Hro] Hm. split; [|done..]. pose proof Hr as []. split; try done.
  intros l q t i Hq Hi. rewrite <- (rep_entry0 l q t i Hq Hi). unfold read_entry.
  apply Hm. rewrite (page_of_words t); [|by apply (rep_frame k r _ _ Hr Hq)|by apply entry_in_words].
  apply (rep_list k r Hr). by eexists.
Qed.

(** A word in a page of the callers is no entry of a table. *)
Lemma store_good k r x v :
  good k r → page_of x ∈ others k → good (with_mem k (store (mem k) x v)) r.
Proof.
  intros Hg Ho. unfold others in Ho. apply elem_of_difference in Ho as [_ Hx].
  apply good_with_mem; [done|].
  intros y Hy. rewrite load_store_ne; [done|]. intros ->.
  by apply Hx, elem_of_list_to_set.
Qed.

(** ** The world *)

(** What a caller leaves alone, seen from the state [k0] it started in. *)
Record carried k0 k : Prop := {
  ca_pool : pmm_pool (pmm k) = pmm_pool (pmm k0);
  ca_root : paging_root k = paging_root k0;
  ca_active : active k = active k0;
  ca_previous : paging_previous_cr3 k = paging_previous_cr3 k0;
  ca_registers : registers (cpu k) = registers (cpu k0);
  ca_memory a : page_of a ∉ pmm_pool (pmm k0) ∖ others k0 → load (mem k) a = load (mem k0) a;
}.

(** The state implements the space [s]; the caller owns the pages [own]; its
    words are in [mem k]. *)
Record world k0 (own : gset Z) (s : space) k : Prop := {
  wo_sees : ∃ r, good k r ∧ abstract k r = s;
  wo_callers : sp_callers s = own ∪ others k0;
  wo_own : own ⊆ pmm_pool (pmm k0) ∖ others k0;
  wo_carried : carried k0 k;
}.

(** The callers' words stay. *)
Definition same_words s k k' : Prop :=
  ∀ a, page_of a ∈ sp_callers s → load (mem k') a = load (mem k) a.

Lemma world_start k r : good k r → world k ∅ (abstract k r) k.
Proof. intros Hg. split; [by exists r|cbn; set_solver|set_solver|by split]. Qed.

Lemma world_frame k0 own s k a : world k0 own s k → a ∈ own → frame a ∧ a ∈ pmm_pool (pmm k0).
Proof.
  intros [(r & Hg & _) _ Hown Hc] Ha. apply Hown in Ha as [Ha _]%elem_of_difference. split; [|done].
  rewrite <- (ca_pool _ _ Hc) in Ha. apply (pmm_pool_frame (pmm k)); [|done].
  apply (rep_pmm k r), Hg.
Qed.

Lemma world_caller_frame k0 own s k a : world k0 own s k → a ∈ sp_callers s → frame a.
Proof.
  intros [(r & Hg & <-) _ _ _] Ha. apply (others_frame k r); [apply Hg|exact Ha].
Qed.

Lemma world_step e k0 own s k :
  typed e → world k0 own s k →
  let '(x, k') := kernel_step e k in
  x = fst (space_step e s) ∧ world k0 own (snd (space_step e s)) k' ∧ same_words s k k'.
Proof.
  intros He [(r & Hg & <-) Hcal Hown Hc].
  destruct (kernel_step_simulates e k r He Hg) as (r' & Hg' & Hs & Hp).
  destruct (kernel_step e k) as [x k']. cbn [fst snd] in Hg', Hs, Hp. rewrite Hs. cbn [fst snd].
  assert (others k = own ∪ others k0) as Ho by exact Hcal.
  split; [done|]. split; [split|].
  - by exists r'.
  - change (others k' = own ∪ others k0). rewrite <- Ho. apply Hp.
  - done.
  - destruct Hc as [Hc1 Hc2 Hc3 Hc4 Hc5 Hc6], Hp as [Hp1 Hp2 Hp3 Hp4 Hp5 Hp6 Hp7]. split; try congruence.
    intros a Ha. rewrite Hp7; [by apply Hc6|]. rewrite Hc1, Ho. set_solver.
  - intros a Ha. apply (pr_memory _ _ Hp). change (page_of a ∈ others k) in Ha. set_solver.
Qed.

Lemma world_alloc k0 own s k a p :
  world k0 own s k → pmm_alloc (pmm k) = (Some a, p) →
  world k0 ({[a]} ∪ own)
    (Space (sp_enabled s) ({[a]} ∪ sp_callers s) (sp_map s) (sp_frames s - 1) (sp_tables s))
    (with_pmm k p) ∧ a ∉ sp_callers s ∧ a ∈ pmm_pool (pmm k0).
Proof.
  intros [(r & Hg & <-) Hcal Hown Hc] Ha. cbn [abstract sp_callers] in Hcal.
  destruct (alloc_good k r p a Hg Ha) as (Hg' & Hin & Ho & Hpool & Hav).
  apply elem_of_difference in Hin as [Hin Hnot]. rewrite (ca_pool _ _ Hc) in Hin.
  assert (a ∉ others k) as Hno by (unfold others; set_solver).
  split; [|by split]. split.
  - exists r. split; [done|]. transitivity (Space (enabled k) (others (with_pmm k p)) (decode <$> leaf r) (pmm_available p)
      (paging_table_count k)); [done|]. by rewrite Ho, Hav.
  - cbn [sp_callers abstract]. rewrite Hcal. set_solver.
  - rewrite Hcal in Hno. set_solver.
  - destruct Hc. split; try done. by etrans.
Qed.

Lemma world_alloc_none k0 own s k p :
  world k0 own s k → pmm_alloc (pmm k) = (None, p) → sp_frames s = 0.
Proof.
  intros [(r & Hg & <-) Hcal Hown Hc] Ha. pose proof (rep_pmm k r (g_rep k r Hg)) as Hp.
  apply pmm_alloc_none in Ha as [_ Hsub]; [|done]. cbn. rewrite pmm_available_spec by done.
  assert (pmm_pool (pmm k) ∖ pmm_used (pmm k) = ∅) as -> by set_solver. done.
Qed.

Lemma world_free k0 own s k a :
  world k0 own s k → a ∈ own →
  ∃ p, pmm_free a (pmm k) = (true, p) ∧
    world k0 (own ∖ {[a]})
      (Space (sp_enabled s) (sp_callers s ∖ {[a]}) (sp_map s) (sp_frames s + 1) (sp_tables s))
      (with_pmm k p).
Proof.
  intros [(r & Hg & <-) Hcal Hown Hc] Ha. cbn [abstract sp_callers] in Hcal.
  pose proof (rep_pmm k r (g_rep k r Hg)) as Hp.
  assert (a ∈ others k) as Ho by (rewrite Hcal; set_solver).
  destruct (pmm_free_used (pmm k) a Hp) as [p Hf]; [unfold others in Ho; set_solver|].
  destruct (free_good k r p a Hg Hf Ho) as (Hg' & Ho' & Hpool & Hav).
  exists p. split; [done|]. split.
  - exists r. split; [done|]. transitivity (Space (enabled k) (others (with_pmm k p)) (decode <$> leaf r) (pmm_available p)
      (paging_table_count k)); [done|]. by rewrite Ho', Hav.
  - cbn [sp_callers abstract]. rewrite Hcal. set_solver.
  - set_solver.
  - destruct Hc. split; try done. by etrans.
Qed.

Lemma world_store k0 own s k x v :
  world k0 own s k → page_of x ∈ own → world k0 own s (with_mem k (store (mem k) x v)).
Proof.
  intros [(r & Hg & <-) Hcal Hown [Hc1 Hc2 Hc3 Hc4 Hc5 Hc6]] Hx. cbn [abstract sp_callers] in Hcal.
  split; [|done..|].
  - exists r. split; [apply store_good; [done|rewrite Hcal; set_solver]|done].
  - split; try done. intros a Ha. rewrite <- (Hc6 a Ha). unfold load, store. cbn [mem with_mem].
    rewrite lookup_insert_ne; [done|]. intros ->. apply Ha, Hown, Hx.
Qed.

End world.

End PagingWorld.
