(* ===== verification/PagingCheck.v ===== *)
(** * The boot check of dynamic paging: [kernel/paging_check.c]

    The self-test the kernel runs before it goes on: what the dynamic interface
    must refuse, aliases, permissions and stale translations, and the clean-up
    of a mapping that fails halfway. Memory is read and written through the
    processor's translation, which may fault. *)

From S2P Require Import Prelude State BootInfo PmmInterface X86 Paging PagingSpace PagingInit.
Import State X86 Paging PagingSpace PagingInit.

Module PagingCheck.

(** How the code is left early: it returns, the processor raises a page fault with
    an error code for an access to an address, or [check_failed] spins. The last
    two are no outcomes of the program: it would run code this model does not
    have, or a loop's fuel would not suffice ([PagingCheckSpec] shows that neither
    happens). *)
Inductive leave :=
  | Return (b : bool)
  | Fault (address error : Z)
  | Spins
  | Derails
  | Exhausted.

Section check.
Context {A : Type} `{!PmmApi A}.
Context (L : LAYOUT) (kernel_boot_info : Z).
Implicit Types (k : PAGING A).

Abbreviation check := (ex (PAGING A) leave).

(** ** Statements *)

(** [if (b) return false;] and its negation. *)
Definition refuse (b : bool) : check unit := if b then exit (Return false) else mret tt.
Definition require (b : bool) : check unit := refuse (negb b).

(** A call of a function that returns a truth value. *)
Definition call (m : check bool) : check bool := λ k,
  match m k with
  | (inl (Return b), k) => (inr b, k)
  | other => other
  end.

Definition map (address physical flags : Z) : check bool := lift (paging_map address physical flags).
Definition unmap (address : Z) : check bool := lift (paging_unmap address).
Definition protect (address flags : Z) : check bool := lift (paging_protect address flags).
Definition query (address : Z) : check (option (Z * Z)) :=
  lift (get (paging_query address true)).

Definition alloc : check (option Z) := lift (λ k,
  let '(p, s) := pmm_alloc (pmm k) in (p, with_pmm k s)).
Definition free (page : Z) : check bool := lift (λ k,
  let '(b, s) := pmm_free page (pmm k) in (b, with_pmm k s)).
Definition available : check Z := lift (get (λ k, pmm_available (pmm k))).

(** [if (!pmm_alloc(&p)) return false;] *)
Definition take : check Z :=
  p ← alloc;
  match p with
  | Some p => mret p
  | None => exit (Return false)
  end.

(** A [uint64_t] at a virtual address. A store needs a writable page. The error
    code of a fault says whether the page is present, and whether the access is
    a store or a fetch of code. *)
Definition PRESENT : Z := 1.
Definition STORE : Z := 2.
Definition FETCH : Z := 16.

Definition read (a : Z) : check Z :=
  t ← lift (access a);
  match t with
  | None => exit (Fault a 0)
  | Some (frame, _) => lift (get (λ k, load (mem k) (frame + a mod 4096)))
  end.
Definition write (a v : Z) : check unit :=
  t ← lift (access a);
  match t with
  | None => exit (Fault a STORE)
  | Some (frame, permissions) =>
      if has_bits permissions PAGING_WRITE
      then lift (modify (λ k, with_mem k (store (mem k) (frame + a mod 4096) v)))
      else exit (Fault a (Z.lor PRESENT STORE))
  end.

(** ** The checks *)

Definition rejects_invalid_mappings (p : Z) : check bool :=
  let v := PAGING_DYNAMIC_BASE in
  b ← map v (kernel_text_start L) PAGING_WRITE; refuse b;;
  b ← map v (kernel_rodata_start L) PAGING_WRITE; refuse b;;
  guard ← lift (get (λ k, u64 (stack_base (read_info (mem k) kernel_boot_info) - 4096)));
  b ← map v guard PAGING_WRITE; refuse b;;
  b ← map v (double_fault_guard_low L) PAGING_WRITE; refuse b;;
  b ← map 0x100000 p 0; refuse b;;
  b ← map (v + 1) p 0; refuse b;;
  b ← map (v + PAGING_DYNAMIC_SIZE) p 0; refuse b;;
  b ← map 0x800000000000 p 0; refuse b;;
  b ← map v (p + 1) 0; refuse b;;
  b ← map v 0 0; refuse b;;
  b ← map v p 4; refuse b;;
  b ← unmap v; refuse b;;
  b ← protect v 0; refuse b;;
  t ← query v; refuse (bool_decide (is_Some t));;
  let '(result, flags) := default (123, 123) t in
  require (result =? 123);;
  require (flags =? 123);;
  mret true.

Definition check_aliases_and_permissions : check bool :=
  let v := PAGING_DYNAMIC_BASE in
  let other := v + 0x200000 in
  before ← available;
  p ← take;
  q ← take;
  b ← call (rejects_invalid_mappings p); require b;;
  b ← map v p PAGING_WRITE; require b;;
  b ← map v q 0; refuse b;;
  b ← map other p 0; require b;;
  let alias := v in
  write alias 0x123456789abcdef0;;
  x ← read p; y ← read alias; refuse (negb (x =? y));;
  x ← read other; y ← read alias; refuse (negb (x =? y));;
  t ← query v; require (bool_decide (is_Some t));;
  let '(result, flags) := default (0, 0) t in
  require (result =? p);;
  require (flags =? PAGING_WRITE);;
  b ← protect v 0; require b;;
  t ← query v; require (bool_decide (is_Some t));;
  let '(result, flags) := default (0, 0) t in
  require (flags =? 0);;
  b ← protect v PAGING_WRITE; require b;;
  write alias 42;;
  b ← unmap v; require b;;
  t ← query v; refuse (bool_decide (is_Some t));;
  b ← unmap v; refuse b;;
  b ← map v q PAGING_WRITE; require b;;
  write alias 99;;
  x ← read q; refuse (negb (x =? 99));;
  x ← read p; refuse (negb (x =? 42));;
  b ← unmap v; require b;;
  b ← unmap other; require b;;
  b ← free p; require b;;
  b ← free q; require b;;
  now ← available; refuse (negb (now =? before));;
  mret true.

(** [while (pmm_available() > 2)]: the pages taken are linked through their
    first words. *)
Fixpoint hold_pages (fuel : nat) (held : Z) : check Z :=
  n ← available;
  if negb (2 <? n) then mret held
  else
    match fuel with
    | O => exit Exhausted
    | S fuel =>
        q ← take;
        write q held;;
        hold_pages fuel q
    end.

(** [while (held)] *)
Fixpoint release_pages (fuel : nat) (held : Z) : check unit :=
  if held =? 0 then mret tt
  else
    match fuel with
    | O => exit Exhausted
    | S fuel =>
        q ← read held;
        b ← free held; require b;;
        release_pages fuel q
    end.

(** A page is taken at most once in either loop. *)
Definition check_failed_map_cleanup : check bool :=
  let v := PAGING_DYNAMIC_BASE in
  before ← available;
  p ← take;
  fuel ← lift (get (λ k, Z.to_nat (pmm_total (pmm k))));
  held ← hold_pages fuel 0;
  b ← map v p PAGING_WRITE; refuse b;;
  n ← available; refuse (negb (n =? 2));;
  t ← query v; refuse (bool_decide (is_Some t));;
  release_pages fuel held;;
  b ← map v p PAGING_WRITE; require b;;
  b ← unmap v; require b;;
  b ← free p; require b;;
  n ← available;
  mret (n =? before).

Definition paging_boot_check : check bool :=
  b ← call check_aliases_and_permissions; require b;;
  call check_failed_map_cleanup.

(** ** The fixtures

    Entered by the debugger instead of [kernel_halt]; each violates one
    protection. The one of [kernel/entry.S] is in [PagingFaults], with what the
    processor makes of the faults. *)

Definition check_failed {X} : check X := exit Spins.
Definition insist (b : bool) : check unit := if b then mret tt else check_failed.

(** A byte at a virtual address. *)
Definition read_byte (a : Z) : check Z := x ← read a; mret (Z.land x 0xff).
Definition write_byte (a v : Z) : check unit :=
  t ← lift (access a);
  match t with
  | None => exit (Fault a STORE)
  | Some (frame, permissions) =>
      if has_bits permissions PAGING_WRITE
      then lift (modify (λ k,
        let x := frame + a mod 4096 in
        with_mem k (store (mem k) x (Z.lor (Z.land (load (mem k) x) (not64 0xff)) v))))
      else exit (Fault a (Z.lor PRESENT STORE))
  end.

(** A call of the code at [a], which must be a single [ret]. *)
Definition invoke (a : Z) : check unit :=
  t ← lift (access a);
  match t with
  | None => exit (Fault a FETCH)
  | Some (frame, permissions) =>
      if has_bits permissions PAGING_EXEC then
        code ← lift (get (λ k, load (mem k) (frame + a mod 4096)));
        if Z.land code 0xff =? 0xc3 then mret tt else exit Derails
      else exit (Fault a (Z.lor PRESENT FETCH))
  end.

Definition fault_check (mode : Z) : check unit :=
  let v := PAGING_DYNAMIC_BASE in
  p ← alloc;
  b ← match p with Some p => map v p PAGING_WRITE | None => mret false end;
  insist b;;
  let alias := v in
  write alias 0xc3;;
  (if mode =? 0 then
     b ← protect v 0; insist b;;
     write alias 1
   else if mode =? 1 then
     b ← protect v PAGING_EXEC; insist b;;
     invoke v;;
     b ← protect v 0; insist b;;
     invoke v
   else
     b ← unmap v; insist b;;
     read alias;;
     mret tt);;
  check_failed.

Definition paging_test_readonly : check unit := fault_check 0.
Definition paging_test_nx : check unit := fault_check 1.
Definition paging_test_unmapped : check unit := fault_check 2.

Definition paging_test_text_write : check unit := write_byte (kernel_text_start L) 0;; check_failed.
Definition paging_test_rodata_write : check unit :=
  write_byte (kernel_rodata_start L) 0;; check_failed.

(** [nx_data] is a static byte, [code] one on the stack, at the addresses
    given. *)
Definition paging_test_data_exec (nx_data : Z) : check unit := invoke nx_data;; check_failed.
Definition paging_test_stack_exec (code : Z) : check unit :=
  write_byte code 0xc3;; invoke code;; check_failed.

Definition paging_test_stack_low : check unit :=
  guard ← lift (get (λ k, u64 (stack_base (read_info (mem k) kernel_boot_info) - 4096)));
  read_byte guard;; check_failed.
Definition paging_test_stack_high : check unit :=
  guard ← lift (get (λ k, let b := read_info (mem k) kernel_boot_info in
    u64 (stack_base b + stack_size b)));
  read_byte guard;; check_failed.

Definition paging_test_df_low : check unit := read_byte (double_fault_guard_low L);; check_failed.
Definition paging_test_df_high : check unit := read_byte (double_fault_guard_high L);; check_failed.

End check.

End PagingCheck.
