(* ===== verification/PagingCheckSpec.v ===== *)
(** * What the boot check of dynamic paging promises

    Whenever the check succeeds, it has left everything as it was; and it
    succeeds whenever there are six free pages and four free table records, on
    any address space whose window is empty and which maps the free pages to
    themselves. Its loops end. *)

From S2P Require Import Prelude State BootInfo PmmInterface X86.
From S2P Require Import Paging PagingBits PagingModel PagingOps PagingStep PagingSpace PagingInit.
From S2P Require Import PagingWorld PagingCheck.
Import State X86 Paging PagingBits PagingModel PagingOps PagingStep PagingSpace PagingInit.
Import PagingWorld PagingCheck.

Module PagingCheckSpec.

Section rules.
Context {A : Type} `{!PmmApi A} `{!PmmContract A}.
Implicit Types (k : PAGING A) (E : leave → PAGING A → Prop).
Context (k0 : PAGING A).

(** ** Rules for the statements *)

Lemma wpx_refuse b E (Q : unit → PAGING A → Prop) k :
  (b = true → E (Return false) k) → (b = false → Q tt k) → wpx (refuse b) E Q k.
Proof. destruct b; [intros H _; by apply H|intros _ H; by apply H]. Qed.

Lemma wpx_require b E (Q : unit → PAGING A → Prop) k :
  (b = false → E (Return false) k) → (b = true → Q tt k) → wpx (require b) E Q k.
Proof. destruct b; [intros _ H; by apply H|intros H _; by apply H]. Qed.

Lemma wpx_call m E (Q : bool → PAGING A → Prop) k :
  wpx m (λ r k', match r with Return b => Q b k' | _ => E r k' end) Q k → wpx (call m) E Q k.
Proof. unfold wpx, call. by destruct (m k) as [[[b|? ?| | |]|b] k']. Qed.

Section step.
Context (own C : gset Z) (M : gmap Z (Z * Z)) (n t : Z) (k : PAGING A).
Context (Hw : world k0 own (Space true C M n t) k).

Definition same := same_words (A:=A) (Space true C M n t) k.

Definition mappable (a ph : Z) : Prop :=
  ph ∈ C ∧ M !! vpn a = None ∧ needed M (vpn a) ≤ Z.min n (MAX_TABLES - t).

Lemma wpx_map a ph fl E (Q : bool → PAGING A → Prop) :
  is_u64 a → in_window a = true → 0 ≤ fl < 4 →
  (∀ k', mappable a ph →
     world k0 own (Space true C (<[vpn a := (ph, fl)]> M) (n - needed M (vpn a)) (t + needed M (vpn a))) k' →
     same k' → Q true k') →
  (∀ k', ¬ mappable a ph → world k0 own (Space true C M n t) k' → same k' → Q false k') →
  wpx (map a ph fl) E Q k.
Proof.
  intros Ha Hin Hfl Hyes Hno. apply wpx_lift. unfold wp.
  pose proof (world_step (Map a ph fl) k0 own _ k ltac:(split; [done|lia]) Hw) as H.
  cbn [kernel_step] in H. destruct (paging_map a ph fl k) as [b k'].
  cbn [space_step sp_enabled sp_map sp_callers sp_frames sp_tables] in H. rewrite Hin in H.
  assert (good_flags fl = true) as Hgf by (unfold good_flags; lia). rewrite Hgf in H.
  cbn [andb] in H. destruct (_ && _) eqn:Hc; destruct H as ([= ->] & Hw' & Hs).
  - rewrite !andb_true_iff, !bool_decide_eq_true, Z.leb_le in Hc. apply Hyes; [|done..].
    unfold mappable. tauto.
  - apply Hno; [|done..]. intros (H1 & H2 & H3). rewrite !bool_decide_true in Hc by done.
    rewrite (proj2 (Z.leb_le _ _) H3) in Hc. done.
Qed.

(** Outside the window, unaligned, with flags there are none of, or of a page
    the caller does not have. *)
Lemma wpx_map_refused a ph fl E (Q : bool → PAGING A → Prop) :
  is_u64 a → 0 ≤ fl < 2 ^ 32 → (in_window a && good_flags fl = true → ph ∉ C) →
  (∀ k', world k0 own (Space true C M n t) k' → same k' → Q false k') →
  wpx (map a ph fl) E Q k.
Proof.
  intros Ha Hfl Hin Hno. apply wpx_lift. unfold wp.
  pose proof (world_step (Map a ph fl) k0 own _ k ltac:(done) Hw) as H.
  cbn [kernel_step] in H. destruct (paging_map a ph fl k) as [b k'].
  cbn [space_step sp_enabled sp_map sp_callers sp_frames sp_tables andb] in H.
  destruct (in_window a && good_flags fl); cbn [andb] in H.
  - rewrite (bool_decide_false (ph ∈ C)) in H by by apply Hin.
    cbn [andb] in H. destruct H as ([= ->] & Hw' & Hs). by apply Hno.
  - destruct H as ([= ->] & Hw' & Hs). by apply Hno.
Qed.

Lemma wpx_unmap a x E (Q : bool → PAGING A → Prop) :
  is_u64 a → in_window a = true → M !! vpn a = Some x →
  (∀ k', let m := delete (vpn a) M in
     world k0 own (Space true C m (n + needed m (vpn a)) (t - needed m (vpn a))) k' →
     same k' → Q true k') →
  wpx (unmap a) E Q k.
Proof.
  intros Ha Hin Hx Hyes. apply wpx_lift. unfold wp.
  pose proof (world_step (Unmap a) k0 own _ k ltac:(done) Hw) as H.
  cbn [kernel_step] in H. destruct (paging_unmap a k) as [b k'].
  cbn [space_step sp_enabled sp_map sp_callers sp_frames sp_tables] in H.
  rewrite Hin, Hx in H. rewrite bool_decide_true in H by by eexists.
  destruct H as ([= ->] & Hw' & Hs). by apply Hyes.
Qed.

Lemma wpx_unmap_none a E (Q : bool → PAGING A → Prop) :
  is_u64 a → M !! vpn a = None →
  (∀ k', world k0 own (Space true C M n t) k' → same k' → Q false k') →
  wpx (unmap a) E Q k.
Proof.
  intros Ha Hx Hno. apply wpx_lift. unfold wp.
  pose proof (world_step (Unmap a) k0 own _ k ltac:(done) Hw) as H.
  cbn [kernel_step] in H. destruct (paging_unmap a k) as [b k'].
  cbn [space_step sp_enabled sp_map sp_callers sp_frames sp_tables] in H.
  rewrite Hx, bool_decide_false, andb_false_r in H by by intros [? ?].
  destruct H as ([= ->] & Hw' & Hs). by apply Hno.
Qed.

Lemma wpx_protect a fl ph old E (Q : bool → PAGING A → Prop) :
  is_u64 a → in_window a = true → 0 ≤ fl < 4 → M !! vpn a = Some (ph, old) →
  (∀ k', world k0 own (Space true C (<[vpn a := (ph, fl)]> M) n t) k' → same k' → Q true k') →
  wpx (protect a fl) E Q k.
Proof.
  intros Ha Hin Hfl Hx Hyes. apply wpx_lift. unfold wp.
  pose proof (world_step (Protect a fl) k0 own _ k ltac:(split; [done|lia]) Hw) as H.
  cbn [kernel_step] in H. destruct (paging_protect a fl k) as [b k'].
  cbn [space_step sp_enabled sp_map sp_callers sp_frames sp_tables] in H.
  assert (good_flags fl = true) as Hgf by (unfold good_flags; lia).
  rewrite Hin, Hgf, Hx in H. destruct H as ([= ->] & Hw' & Hs). by apply Hyes.
Qed.

Lemma wpx_protect_none a fl E (Q : bool → PAGING A → Prop) :
  is_u64 a → 0 ≤ fl < 2 ^ 32 → M !! vpn a = None →
  (∀ k', world k0 own (Space true C M n t) k' → same k' → Q false k') →
  wpx (protect a fl) E Q k.
Proof.
  intros Ha Hfl Hx Hno. apply wpx_lift. unfold wp.
  pose proof (world_step (Protect a fl) k0 own _ k ltac:(done) Hw) as H.
  cbn [kernel_step] in H. destruct (paging_protect a fl k) as [b k'].
  cbn [space_step sp_enabled sp_map sp_callers sp_frames sp_tables] in H. rewrite Hx in H.
  destruct (_ && _); destruct H as ([= ->] & Hw' & Hs); by apply Hno.
Qed.

Lemma wpx_query a E (Q : option (Z * Z) → PAGING A → Prop) :
  is_u64 a → in_window a = true → Q (M !! vpn a) k → wpx (query a) E Q k.
Proof.
  intros Ha Hin HQ. apply wpx_lift, wp_get.
  pose proof (world_step (Query a) k0 own _ k ltac:(done) Hw) as H.
  cbn [kernel_step space_step fst sp_enabled sp_map andb] in H. rewrite Hin in H.
  by destruct H as ([= ->] & _).
Qed.

Lemma wp_access a (Q : option (Z * Z) → PAGING A → Prop) :
  is_u64 a →
  (∀ k', world k0 own (Space true C M n t) k' → mem k' = mem k → Q (M !! vpn a) k') →
  wp (access a) Q k.
Proof.
  intros Ha HQ. unfold wp.
  pose proof (world_step (Access a) k0 own _ k ltac:(done) Hw) as H. cbn [kernel_step] in H.
  assert (mem (snd (access a k)) = mem k) as Hm.
  { unfold access. destruct (tlb (cpu k) !! vpn a); [done|]. by destruct (walk k a). }
  destruct (access a k) as [x k']. cbn [space_step fst snd sp_map] in H, Hm.
  destruct H as ([= ->] & Hw' & _). by apply HQ.
Qed.

Lemma wpx_read a fr pm E (Q : Z → PAGING A → Prop) :
  is_u64 a → M !! vpn a = Some (fr, pm) →
  (∀ k', world k0 own (Space true C M n t) k' → mem k' = mem k →
     Q (load (mem k) (fr + a mod 4096)) k') →
  wpx (read a) E Q k.
Proof.
  intros Ha Hx HQ. apply wpx_bind, wpx_lift. apply wp_access; [done|]. intros k' Hw' Hm.
  rewrite Hx. apply wpx_lift, wp_get. rewrite Hm. by apply HQ.
Qed.

Lemma wpx_write a v fr pm E (Q : unit → PAGING A → Prop) :
  is_u64 a → M !! vpn a = Some (fr, pm) → has_bits pm PAGING_WRITE = true →
  page_of (fr + a mod 4096) ∈ own →
  (∀ k', world k0 own (Space true C M n t) k' → mem k' = store (mem k) (fr + a mod 4096) v → Q tt k') →
  wpx (write a v) E Q k.
Proof.
  intros Ha Hx Hp Ho HQ. apply wpx_bind, wpx_lift. apply wp_access; [done|]. intros k' Hw' Hm.
  rewrite Hx, Hp. apply wpx_lift, wp_modify. apply HQ; [by apply world_store|].
  cbn [mem with_mem]. by rewrite Hm.
Qed.

Lemma wpx_alloc E (Q : option Z → PAGING A → Prop) :
  (∀ p k', p ∉ C → p ∈ pmm_pool (pmm k0) →
     world k0 ({[p]} ∪ own) (Space true ({[p]} ∪ C) M (n - 1) t) k' → mem k' = mem k → Q (Some p) k') →
  (∀ k', n = 0 → Q None k') →
  wpx alloc E Q k.
Proof.
  intros HQ HE. apply wpx_lift. unfold wp.
  destruct (pmm_alloc (pmm k)) as [[p|] a] eqn:Ha.
  - destruct (world_alloc _ _ _ _ _ _ Hw Ha) as (Hw' & Hn & Hp). by apply HQ.
  - apply HE. exact (world_alloc_none _ _ _ _ _ Hw Ha).
Qed.

Lemma wpx_free p E (Q : bool → PAGING A → Prop) :
  p ∈ own →
  (∀ k', world k0 (own ∖ {[p]}) (Space true (C ∖ {[p]}) M (n + 1) t) k' → mem k' = mem k → Q true k') →
  wpx (free p) E Q k.
Proof.
  intros Hp HQ. apply wpx_lift. unfold wp.
  destruct (world_free _ _ _ _ _ Hw Hp) as (a & Hf & Hw'). rewrite Hf. by apply HQ.
Qed.

Lemma wpx_available E (Q : Z → PAGING A → Prop) : Q n k → wpx available E Q k.
Proof.
  intros HQ. apply wpx_lift, wp_get. destruct Hw as [(r & _ & Hs) _ _ _].
  unfold abstract in Hs. injection Hs as _ _ _ -> _. done.
Qed.

End step.

(** The callers' pages are those of [k0] and those taken since. *)
Definition holds own M n t k : Prop := world k0 own (Space true (own ∪ others k0) M n t) k.

Lemma world_holds own C M n t k : world k0 own (Space true C M n t) k → holds own M n t k.
Proof. intros Hw. pose proof (wo_callers _ _ _ _ Hw) as HC. cbn in HC. by subst C. Qed.

End rules.

(** ** Tables the window needs *)

Abbreviation V := PAGING_DYNAMIC_BASE.
Abbreviation W := (PAGING_DYNAMIC_BASE + 0x200000).

Section tables.
Context {X : Type}.
Implicit Types (M : gmap Z X).

Definition window_empty M : Prop := ∀ p, dynamic_page p → M !! p = None.

Lemma shared_empty M p l : window_empty M → dynamic_page p → 1 ≤ l ≤ 3 → shared M p l = false.
Proof.
  intros HM Hp Hl. apply bool_decide_eq_false. intros (q & x & Hq & Hpre).
  rewrite HM in Hq; [done|]. unfold dynamic_page, prefix in *.
  assert (l = 1 ∨ l = 2 ∨ l = 3) as [->|[->| ->]] by lia;
    repeat match goal with H : context [512 ^ ?e] |- _ =>
      let c := eval vm_compute in (512 ^ e) in change (512 ^ e) with c in H end; zdm.
Qed.

Lemma shared_insert M q x p l :
  M !! q = None → shared (<[q := x]> M) p l = bool_decide (prefix q l = prefix p l) || shared M p l.
Proof.
  intros Hq. unfold shared. rewrite <- bool_decide_or. apply bool_decide_ext. split.
  - intros [?|?]%map_Exists_insert_1; auto.
  - intros [?|?]; [by apply map_Exists_insert_2_1|by apply map_Exists_insert_2_2].
Qed.

(** A page alone in the window needs a table of each level; a second one in the
    next two megabytes only a leaf table. *)
Lemma needed_first M p : window_empty M → dynamic_page p → needed M p = 3.
Proof. intros HM Hp. unfold needed. cbn [filter list_filter]. by rewrite !shared_empty by (done || lia). Qed.

Lemma needed_second M q x p :
  window_empty M → dynamic_page q → dynamic_page p →
  prefix q 2 = prefix p 2 → prefix q 3 ≠ prefix p 3 → needed (<[q := x]> M) p = 1.
Proof.
  intros HM Hq Hp H2 H3. unfold needed. cbn [filter list_filter].
  rewrite !shared_insert, !shared_empty, !orb_false_r by (auto || lia).
  rewrite (bool_decide_true (prefix q 1 = _)) by (unfold dynamic_page in *; congruence).
  rewrite bool_decide_true, bool_decide_false by done. done.
Qed.

End tables.

(** ** The checks *)

Section check.
Context {A : Type} `{!PmmApi A} `{!PmmContract A}.
Context (L : LAYOUT) (info : Z) (k0 : PAGING A) (M : gmap Z (Z * Z)).
Implicit Types (k : PAGING A) (E : leave → PAGING A → Prop) (p q : Z) (own : gset Z)
  (m : gmap Z (Z * Z)).

(** What the check assumes of the machine: the window is empty, free pages are
    mapped to themselves and writable, and neither the boot information nor the
    kernel's pages and guards are the allocator's. *)
Record checkable : Prop := {
  ck_window : window_empty M;
  ck_identity p : p ∈ pmm_pool (pmm k0) ∖ others k0 →
    ∃ fl, M !! vpn p = Some (p, fl) ∧ has_bits fl PAGING_WRITE = true;
  ck_info x : info ≤ x < info + sizeof_BOOT_INFO → page_of x ∉ pmm_pool (pmm k0) ∖ others k0;
  ck_kernel : Forall (λ a, a ∉ pmm_pool (pmm k0))
    [kernel_text_start L; kernel_rodata_start L;
     u64 (stack_base (read_info (mem k0) info) - 4096); double_fault_guard_low L];
}.

Context (Hck : checkable).

Lemma callers_pool own n t m k : holds k0 own m n t k → own ∪ others k0 ⊆ pmm_pool (pmm k0).
Proof.
  intros [(r & Hg & Hs) Hcal _ Hc]. cbn in Hcal. rewrite <- (ca_pool _ _ Hc).
  pose proof (rep_pmm k r (g_rep k r Hg)) as Hp. pose proof (pmm_used_pool _ Hp) as Hup.
  apply (f_equal sp_callers) in Hs. cbn in Hs. rewrite <- Hs. unfold others. set_solver.
Qed.

Lemma info_kept own m n t k :
  holds k0 own m n t k → read_info (mem k) info = read_info (mem k0) info.
Proof.
  intros [_ _ _ Hc]. apply read_info_agree. intros j Hj. apply (ca_memory _ _ Hc), (ck_info Hck).
  unfold sizeof_BOOT_INFO. lia.
Qed.

Lemma caller_frame own m n t k a : holds k0 own m n t k → a ∈ own ∪ others k0 → frame a.
Proof. intros Hw. by apply (world_caller_frame _ _ _ _ _ Hw). Qed.

(** One refused call of [rejects_invalid_mappings]. *)
Ltac refused Hw :=
  apply wpx_bind; eapply wpx_map_refused; [exact Hw|..];
  [by vm_compute|by vm_compute| |clear Hw; intros ? Hw _; apply wpx_bind, wpx_refuse; [done|intros _]].

Lemma rejects_spec own m n t p k E (Q : bool → PAGING A → Prop) :
  holds k0 own m n t k → p ∈ own → m !! vpn V = None →
  (∀ k', holds k0 own m n t k' → Q true k') →
  wpx (rejects_invalid_mappings L info p) E Q k.
Proof.
  intros Hw Hp Hm HQ. pose proof (callers_pool _ _ _ _ _ Hw) as Hsub.
  assert (∀ a, ¬ frame a → a ∉ own ∪ others k0) as Hnf
    by (intros a Hn Ha; by apply Hn, (caller_frame _ _ _ _ _ _ Hw)).
  assert (frame p) as Hf by (apply (caller_frame _ _ _ _ _ _ Hw), elem_of_union_l, Hp).
  pose proof (Forall_impl _ (λ a, a ∉ own ∪ others k0) _ (ck_kernel Hck) (λ a Ha Hc, Ha (Hsub a Hc))) as Hk.
  rewrite !Forall_cons in Hk. destruct Hk as (Hk1 & Hk2 & Hk3 & Hk4 & _).
  unfold rejects_invalid_mappings.
  refused Hw; [by intros _|]. refused Hw; [by intros _|].
  apply wpx_bind, wpx_lift, wp_get. rewrite (info_kept _ _ _ _ _ Hw).
  refused Hw; [by intros _|]. refused Hw; [by intros _|].
  refused Hw; [done|]. refused Hw; [done|]. refused Hw; [done|]. refused Hw; [done|].
  refused Hw; [intros _; apply Hnf; destruct Hf; unfold frame, PMM_PAGE_SIZE in *; zdm|].
  refused Hw; [intros _; apply Hnf; unfold frame; lia|].
  refused Hw; [done|].
  apply wpx_bind. eapply wpx_unmap_none; [exact Hw|by vm_compute|done|].
  clear Hw; intros k1 Hw _. apply wpx_bind, wpx_refuse; [done|intros _].
  apply wpx_bind. eapply wpx_protect_none; [exact Hw|by vm_compute|by vm_compute|done|].
  clear Hw k; intros k Hw _. apply wpx_bind, wpx_refuse; [done|intros _].
  apply wpx_bind. eapply wpx_query; [exact Hw|by vm_compute|by vm_compute|].
  rewrite Hm. apply wpx_bind, wpx_refuse; [done|intros _].
  cbn [is_Some default]. by apply HQ.
Qed.

(** Pages the check has taken. *)
Record taken (own : gset Z) p : Prop := {
  tk_own : p ∈ own;
  tk_frame : frame p;
  tk_aligned : p mod 4096 = 0;
  tk_u64 : is_u64 p;
  tk_page : page_of p = p;
  tk_mapped : ∃ fl, M !! vpn p = Some (p, fl) ∧ has_bits fl PAGING_WRITE = true;
}.

Lemma taken_page own m n t k p : holds k0 own m n t k → p ∈ own → taken own p.
Proof.
  intros Hw Hp. destruct (world_frame _ _ _ _ _ Hw Hp) as [Hf _].
  pose proof (wo_own _ _ _ _ Hw p Hp) as Hin. pose proof Hf as [Hlo Hal].
  unfold PMM_PAGE_SIZE, PMM_LIMIT in *. split; try done.
  - unfold is_u64. lia.
  - unfold page_of. lia.
  - by apply (ck_identity Hck).
Qed.

(** ** The two pages of the window *)

(** [V] and [W] mapped or not, and the tables for that. *)
Definition window_map (v o : option (Z * Z)) : gmap Z (Z * Z) :=
  partial_alter (λ _, v) (vpn V) (partial_alter (λ _, o) (vpn W) M).

Definition tables_for (v o : option (Z * Z)) : Z :=
  match v, o with
  | None, None => 0
  | Some _, Some _ => 4
  | _, _ => 3
  end.

(** [n] and [t] count the free frames and the tables without the two pages. *)
Definition live own (v o : option (Z * Z)) (n t : Z) k : Prop :=
  holds k0 own (window_map v o) (n - tables_for v o) (t + tables_for v o) k.

Definition fits (n t c : Z) : Prop := c ≤ n ∧ t + c ≤ MAX_TABLES.

(** The words at the start of the pages taken. *)
Definition kept own k k' : Prop := ∀ p, taken own p → load (mem k') p = load (mem k) p.

Lemma window_pages : dynamic_page (vpn V) ∧ dynamic_page (vpn W) ∧ vpn V ≠ vpn W.
Proof. by vm_compute. Qed.

Lemma window_V v o : window_map v o !! vpn V = v.
Proof. apply lookup_partial_alter_eq. Qed.
Lemma window_W v o : window_map v o !! vpn W = o.
Proof.
  unfold window_map. rewrite lookup_partial_alter_ne by apply window_pages.
  apply lookup_partial_alter_eq.
Qed.
Lemma window_other v o p x : M !! p = Some x → window_map v o !! p = Some x.
Proof.
  destruct window_pages as (HV & HW & _). intros Hp. unfold window_map.
  rewrite !lookup_partial_alter_ne; [done|..]; intros <-; by rewrite (ck_window Hck) in Hp.
Qed.

Ltac window_eq :=
  apply map_eq; intros ?; unfold window_map;
  rewrite ?lookup_delete, ?lookup_insert, ?lookup_partial_alter; repeat case_decide; subst; try done;
  by rewrite (ck_window Hck) by apply window_pages.

Lemma window_none : window_map None None = M.
Proof. window_eq. Qed.
Lemma window_only_V x : window_map (Some x) None = <[vpn V := x]> M.
Proof. window_eq. Qed.
Lemma window_only_W x : window_map None (Some x) = <[vpn W := x]> M.
Proof. window_eq. Qed.
Lemma window_set_V x v o : <[vpn V := x]> (window_map v o) = window_map (Some x) o.
Proof. window_eq. Qed.
Lemma window_set_W x v o : <[vpn W := x]> (window_map v o) = window_map v (Some x).
Proof. destruct window_pages as (_ & _ & ?). window_eq. Qed.
Lemma window_unset_V v o : delete (vpn V) (window_map v o) = window_map None o.
Proof. window_eq. Qed.
Lemma window_unset_W v o : delete (vpn W) (window_map v o) = window_map v None.
Proof. destruct window_pages as (_ & _ & ?). window_eq. Qed.

Lemma window_needs_V x o :
  needed (window_map None o) (vpn V) = tables_for (Some x) o - tables_for None o.
Proof.
  destruct window_pages as (HV & HW & _), o as [y|].
  - rewrite window_only_W. by apply needed_second; try apply Hck.
  - rewrite window_none. by apply needed_first; try apply Hck.
Qed.
Lemma window_needs_W x v :
  needed (window_map v None) (vpn W) = tables_for v (Some x) - tables_for v None.
Proof.
  destruct window_pages as (HV & HW & _), v as [y|].
  - rewrite window_only_V. by apply needed_second; try apply Hck.
  - rewrite window_none. by apply needed_first; try apply Hck.
Qed.

(** ** The statements of the checks on these pages *)

(** The same numbers, written differently. *)
Ltac restate H :=
  match type of H with
  | holds _ _ _ ?n ?t _ => match goal with |- holds _ _ _ ?n' ?t' _ =>
      replace n' with n by lia; replace t' with t by lia; exact H end
  end.

Section live.
Context (own : gset Z) (v o : option (Z * Z)) (n t : Z) (k : PAGING A).
Context (Hl : live own v o n t k).

Lemma live_kept k' :
  same_words (Space true (own ∪ others k0) (window_map v o) (n - tables_for v o) (t + tables_for v o)) k k' →
  kept own k k'.
Proof. intros Hs p Hp. apply Hs. rewrite (tk_page _ _ Hp). apply elem_of_union_l, Hp. Qed.

Lemma live_taken p : p ∈ own → taken own p.
Proof. exact (taken_page _ _ _ _ _ _ Hl). Qed.

Lemma live_map_V ph fl E (Q : bool → PAGING A → Prop) :
  ph ∈ own → v = None → 0 ≤ fl < 4 →
  (∀ k', fits n t (tables_for (Some (ph, fl)) o) → live own (Some (ph, fl)) o n t k' →
     kept own k k' → Q true k') →
  (∀ k', ¬ fits n t (tables_for (Some (ph, fl)) o) → live own v o n t k' → kept own k k' → Q false k') →
  wpx (map V ph fl) E Q k.
Proof.
  intros Hp Hv Hfl Hyes Hno. eapply wpx_map; [exact Hl|by vm_compute..|done| |].
  - intros k' (_ & _ & Hn) Hw%world_holds Hs%live_kept. subst v. revert Hn Hw.
    rewrite (window_needs_V (ph, fl)), window_set_V. intros Hn Hw.
    apply Hyes; [unfold fits; lia| |done]. unfold live. by restate Hw.
  - intros k' Hn Hw%world_holds Hs%live_kept. apply Hno; [|done..].
    intros [H1 H2]. apply Hn. subst v. unfold mappable. rewrite window_V, (window_needs_V (ph, fl)).
    split; [by apply elem_of_union_l|]. split; [done|]. lia.
Qed.

Lemma live_map_W ph fl E (Q : bool → PAGING A → Prop) :
  ph ∈ own → o = None → 0 ≤ fl < 4 →
  (∀ k', fits n t (tables_for v (Some (ph, fl))) → live own v (Some (ph, fl)) n t k' →
     kept own k k' → Q true k') →
  (∀ k', ¬ fits n t (tables_for v (Some (ph, fl))) → live own v o n t k' → kept own k k' → Q false k') →
  wpx (map W ph fl) E Q k.
Proof.
  intros Hp Hv Hfl Hyes Hno. eapply wpx_map; [exact Hl|by vm_compute..|done| |].
  - intros k' (_ & _ & Hn) Hw%world_holds Hs%live_kept. subst o. revert Hn Hw.
    rewrite (window_needs_W (ph, fl)), window_set_W. intros Hn Hw.
    apply Hyes; [unfold fits; lia| |done]. unfold live. by restate Hw.
  - intros k' Hn Hw%world_holds Hs%live_kept. apply Hno; [|done..].
    intros [H1 H2]. apply Hn. subst o. unfold mappable. rewrite window_W, (window_needs_W (ph, fl)).
    split; [by apply elem_of_union_l|]. split; [done|]. lia.
Qed.

(** The page is mapped already. *)
Lemma live_map_twice x ph fl E (Q : bool → PAGING A → Prop) :
  v = Some x → 0 ≤ fl < 4 →
  (∀ k', live own v o n t k' → kept own k k' → Q false k') → wpx (map V ph fl) E Q k.
Proof.
  intros Hv Hfl Hno. eapply wpx_map; [exact Hl|by vm_compute..|done| |].
  - intros k' (_ & Hm & _). rewrite window_V in Hm. congruence.
  - intros k' _ Hw%world_holds Hs%live_kept. by apply Hno.
Qed.

Lemma live_unmap_V x E (Q : bool → PAGING A → Prop) :
  v = Some x →
  (∀ k', live own None o n t k' → kept own k k' → Q true k') → wpx (unmap V) E Q k.
Proof.
  intros Hv HQ. eapply wpx_unmap; [exact Hl|by vm_compute..|by rewrite window_V|].
  intros k'. cbv zeta. intros Hw%world_holds Hs%live_kept. subst v. apply HQ; [|done]. revert Hw.
  rewrite window_unset_V, (window_needs_V x). intros Hw. unfold live. by restate Hw.
Qed.

Lemma live_unmap_W x E (Q : bool → PAGING A → Prop) :
  o = Some x →
  (∀ k', live own v None n t k' → kept own k k' → Q true k') → wpx (unmap W) E Q k.
Proof.
  intros Hv HQ. eapply wpx_unmap; [exact Hl|by vm_compute..|by rewrite window_W|].
  intros k'. cbv zeta. intros Hw%world_holds Hs%live_kept. subst o. apply HQ; [|done]. revert Hw.
  rewrite window_unset_W, (window_needs_W x). intros Hw. unfold live. by restate Hw.
Qed.

Lemma live_unmap_none E (Q : bool → PAGING A → Prop) :
  v = None →
  (∀ k', live own v o n t k' → kept own k k' → Q false k') → wpx (unmap V) E Q k.
Proof.
  intros Hv HQ. eapply wpx_unmap_none; [exact Hl|by vm_compute|by rewrite window_V|].
  intros k' Hw%world_holds Hs%live_kept. by apply HQ.
Qed.

Lemma live_protect ph old fl E (Q : bool → PAGING A → Prop) :
  v = Some (ph, old) → 0 ≤ fl < 4 →
  (∀ k', live own (Some (ph, fl)) o n t k' → kept own k k' → Q true k') → wpx (protect V fl) E Q k.
Proof.
  intros Hv Hfl HQ. eapply wpx_protect; [exact Hl|by vm_compute..|done|by rewrite window_V|].
  intros k' Hw%world_holds Hs%live_kept. subst v. apply HQ; [|done]. revert Hw.
  rewrite window_set_V. intros Hw. exact Hw.
Qed.

Lemma live_query E (Q : option (Z * Z) → PAGING A → Prop) : Q v k → wpx (query V) E Q k.
Proof. intros HQ. eapply wpx_query; [exact Hl|by vm_compute..|by rewrite window_V]. Qed.

Lemma live_available E (Q : Z → PAGING A → Prop) : Q (n - tables_for v o) k → wpx available E Q k.
Proof. eapply wpx_available. exact Hl. Qed.

(** Reads through [V], through [W] and through the identity map. *)
Definition at_page (a fr : Z) : Prop :=
  (a = V ∧ ∃ fl, v = Some (fr, fl)) ∨ (a = W ∧ ∃ fl, o = Some (fr, fl)) ∨ (a = fr ∧ taken own fr).

Lemma live_at a fr : at_page a fr →
  is_u64 a ∧ a mod 4096 = 0 ∧ ∃ fl, window_map v o !! vpn a = Some (fr, fl).
Proof.
  intros [[-> [fl Hv]]|[[-> [fl Ho]]|[-> Hp]]].
  - rewrite window_V. split; [by vm_compute|]. by eauto.
  - rewrite window_W. split; [by vm_compute|]. by eauto.
  - split; [apply Hp|]. split; [apply Hp|]. destruct (tk_mapped _ _ Hp) as (fl & Hm & _).
    exists fl. by apply window_other.
Qed.

Lemma live_read a fr E (Q : Z → PAGING A → Prop) :
  at_page a fr → (∀ k', live own v o n t k' → mem k' = mem k → Q (load (mem k) fr) k') →
  wpx (read a) E Q k.
Proof.
  intros (Ha & H0 & fl & Hm)%live_at HQ. eapply wpx_read; [exact Hl|done..|].
  rewrite H0, Z.add_0_r. exact HQ.
Qed.

Lemma live_write_at a x fr fl E (Q : unit → PAGING A → Prop) :
  is_u64 a → a mod 4096 = 0 → window_map v o !! vpn a = Some (fr, fl) →
  has_bits fl PAGING_WRITE = true → fr ∈ own →
  (∀ k', live own v o n t k' → mem k' = store (mem k) fr x → Q tt k') → wpx (write a x) E Q k.
Proof.
  intros Ha H0 Hm Hp Hfr HQ. eapply wpx_write; [exact Hl|done..| |].
  - rewrite H0, Z.add_0_r. by rewrite (tk_page _ _ (live_taken _ Hfr)).
  - rewrite H0, Z.add_0_r. exact HQ.
Qed.

Lemma live_write_V x fr E (Q : unit → PAGING A → Prop) :
  v = Some (fr, PAGING_WRITE) → fr ∈ own →
  (∀ k', live own v o n t k' → mem k' = store (mem k) fr x → Q tt k') → wpx (write V x) E Q k.
Proof.
  intros Hv Hfr. apply (live_write_at V x fr PAGING_WRITE); [by vm_compute..| | |done]; [|done].
  by rewrite window_V.
Qed.

Lemma live_write p x E (Q : unit → PAGING A → Prop) :
  p ∈ own → (∀ k', live own v o n t k' → mem k' = store (mem k) p x → Q tt k') → wpx (write p x) E Q k.
Proof.
  intros Hp. pose proof (live_taken p Hp) as Ht. destruct (tk_mapped _ _ Ht) as (fl & Hm & Hw).
  apply (live_write_at p x p fl); [apply Ht|apply Ht|by apply window_other|done..].
Qed.

Lemma live_alloc E (Q : option Z → PAGING A → Prop) :
  (∀ p k', p ∉ own → live ({[p]} ∪ own) v o (n - 1) t k' → mem k' = mem k → Q (Some p) k') →
  (∀ k', n = tables_for v o → Q None k') →
  wpx alloc E Q k.
Proof.
  intros HQ HE. eapply wpx_alloc; [exact Hl| |].
  - intros p k' Hn _ Hw%world_holds Hm. apply HQ; [set_solver| |done]. unfold live. by restate Hw.
  - intros k' Hn. apply HE. lia.
Qed.

Lemma live_take E (Q : Z → PAGING A → Prop) :
  (∀ p k', p ∉ own → live ({[p]} ∪ own) v o (n - 1) t k' → mem k' = mem k → Q p k') →
  (∀ k', n = tables_for v o → E (Return false) k') →
  wpx take E Q k.
Proof. intros HQ HE. apply wpx_bind, live_alloc; [exact HQ|exact HE]. Qed.

Lemma live_free p E (Q : bool → PAGING A → Prop) :
  p ∈ own → (∀ k', live (own ∖ {[p]}) v o (n + 1) t k' → mem k' = mem k → Q true k') →
  wpx (free p) E Q k.
Proof.
  intros Hp HQ. eapply wpx_free; [exact Hl|done|]. intros k' Hw%world_holds Hm.
  apply HQ; [|done]. unfold live. by restate Hw.
Qed.

End live.

(** ** Aliases, permissions and stale translations *)

Definition enough (n t : Z) : Prop := 6 ≤ n ∧ t + 4 ≤ MAX_TABLES.

(** A call that succeeds as it must, and one that fails as it must. *)
Ltac accepted := apply wpx_bind, wpx_require; [done|intros _].
Ltac rejected := apply wpx_bind, wpx_refuse; [done|intros _].

Lemma aliases_spec n t k :
  live ∅ None None n t k →
  wpx (check_aliases_and_permissions L info)
    (λ r _, r = Return false ∧ ¬ enough n t)
    (λ b k', b = true ∧ enough n t ∧ live ∅ None None n t k') k.
Proof.
  intros Hw. unfold check_aliases_and_permissions.
  apply wpx_bind. eapply live_available; [exact Hw|].
  apply wpx_bind. eapply live_take; [exact Hw| |intros ? ->; split; [done|unfold enough; cbn; lia]].
  intros p k1 _ Hw1 _.
  apply wpx_bind. eapply live_take; [exact Hw1| |intros; split; [done|unfold enough; cbn in *; lia]].
  intros q k2 Hqp Hw2 _.
  assert (p ≠ q) as Hpq by set_solver.
  set (own := {[q]} ∪ ({[p]} ∪ ∅) : gset Z) in *.
  assert (p ∈ own) as Hp by set_solver. assert (q ∈ own) as Hq by set_solver.
  assert (own ∖ {[p]} ∖ {[q]} = ∅) as Hback by set_solver.
  pose proof (live_taken _ _ _ _ _ _ Hw2 p Hp) as Htp.
  pose proof (live_taken _ _ _ _ _ _ Hw2 q Hq) as Htq.
  clearbody own. clear Hw Hw1.
  apply wpx_bind, wpx_call. eapply rejects_spec; [exact Hw2|exact Hp|apply window_V|].
  intros k3 Hw3. accepted.
  apply wpx_bind. eapply live_map_V; [exact Hw3|done|done|by vm_compute| |].
  2:{ intros k' Hn _ _. apply wpx_bind, wpx_require; [|done]. intros _. split; [done|].
      unfold enough. unfold fits in Hn. cbn in Hn. lia. }
  intros k4 _ Hw4 _. accepted.
  apply wpx_bind. eapply live_map_twice; [exact Hw4|done|by vm_compute|].
  intros k5 Hw5 _. rejected.
  apply wpx_bind. eapply live_map_W; [exact Hw5|done|done|by vm_compute| |].
  2:{ intros k' Hn _ _. apply wpx_bind, wpx_require; [|done]. intros _. split; [done|].
      unfold enough. unfold fits in Hn. cbn in Hn. lia. }
  intros k6 Hfit Hw6 _. accepted.
  apply wpx_bind. eapply live_write_V; [exact Hw6|done|done|]. intros k7 Hw7 _.
  apply wpx_bind. eapply live_read; [exact Hw7|by do 2 right|]. intros k8 Hw8 Hm8.
  apply wpx_bind. eapply live_read; [exact Hw8|left; by eauto|]. intros k9 Hw9 Hm9.
  rewrite Hm8, Z.eqb_refl. rejected.
  apply wpx_bind. eapply live_read; [exact Hw9|right; left; by eauto|]. intros k10 Hw10 Hm10.
  apply wpx_bind. eapply live_read; [exact Hw10|left; by eauto|]. intros k11 Hw11 _.
  rewrite Hm10, Z.eqb_refl. rejected.
  apply wpx_bind. eapply live_query; [exact Hw11|].
  accepted. cbn [default id].
  rewrite !Z.eqb_refl. accepted. accepted.
  apply wpx_bind. eapply live_protect; [exact Hw11|done|by vm_compute|].
  intros k12 Hw12 _. accepted.
  apply wpx_bind. eapply live_query; [exact Hw12|].
  accepted. cbn [default id].
  accepted.
  apply wpx_bind. eapply live_protect; [exact Hw12|done|by vm_compute|].
  intros k13 Hw13 _. accepted.
  apply wpx_bind. eapply live_write_V; [exact Hw13|done|done|]. intros k14 Hw14 Hm14.
  apply wpx_bind. eapply live_unmap_V; [exact Hw14|done|]. 
  intros k15 Hw15 Hk15. accepted.
  apply wpx_bind. eapply live_query; [exact Hw15|]. rejected.
  apply wpx_bind. eapply live_unmap_none; [exact Hw15|done|].
  intros k16 Hw16 Hk16. rejected.
  apply wpx_bind. eapply live_map_V; [exact Hw16|done|done|by vm_compute| |by intros k' []].
  intros k17 _ Hw17 Hk17. accepted.
  apply wpx_bind. eapply live_write_V; [exact Hw17|done|done|]. intros k18 Hw18 Hm18.
  apply wpx_bind. eapply live_read; [exact Hw18|by do 2 right|]. intros k19 Hw19 Hm19.
  rewrite Hm18, load_store_eq by done. rejected.
  apply wpx_bind. eapply live_read; [exact Hw19|by do 2 right|]. intros k20 Hw20 _.
  rewrite Hm19, Hm18, load_store_ne, Hk17, Hk16, Hk15, Hm14, load_store_eq by done.
  rejected.
  apply wpx_bind. eapply live_unmap_V; [exact Hw20|done|].
  intros k21 Hw21 _. accepted.
  apply wpx_bind. eapply live_unmap_W; [exact Hw21|done|].
  intros k22 Hw22 _. accepted.
  apply wpx_bind. eapply live_free; [exact Hw22|done|].
  intros k23 Hw23 _. accepted.
  apply wpx_bind. eapply live_free; [exact Hw23|set_solver|].
  intros k24 Hw24 _. accepted. rewrite Hback in Hw24.
  apply wpx_bind. eapply live_available; [exact Hw24|].
  apply wpx_bind, wpx_refuse; [cbn; lia|intros _]. apply wpx_ret.
  split; [done|]. split; [unfold fits in Hfit; cbn in Hfit; unfold enough; lia|].
  replace n with (n - 1 - 1 + 1 + 1) by lia. exact Hw24.
Qed.

(** ** Cleaning up after a failed mapping *)

(** The pages [l], linked through their first words. *)
Fixpoint linked (m : ram) (l : list Z) (held : Z) : Prop :=
  match l with
  | [] => held = 0
  | p :: l => held = p ∧ linked m l (load m p)
  end.

Lemma linked_agree (m m' : ram) l held :
  (∀ p, p ∈ l → load m' p = load m p) → linked m l held → linked m' l held.
Proof.
  revert held. induction l as [|p l IH]; intros held Hm; [done|]. intros [-> Hl]. split; [done|].
  rewrite Hm by left. apply IH; [|done]. intros q Hq. apply Hm. by right.
Qed.

(** The pages held beside [p]. *)
Record chain p (l : list Z) (held n t : Z) k : Prop := {
  ch_live : live ({[p]} ∪ list_to_set l) None None n t k;
  ch_nodup : NoDup (p :: l);
  ch_linked : linked (mem k) l held;
}.

Lemma live_frames own n t k : live own None None n t k → 0 ≤ n ≤ pmm_total (pmm k).
Proof.
  intros [(r & Hg & Hs) _ _ _]. pose proof (rep_pmm k r (g_rep k r Hg)) as Hp.
  apply (f_equal sp_frames) in Hs. cbn in Hs. rewrite Z.sub_0_r in Hs. subst n.
  rewrite pmm_available_spec, pmm_total_spec by done. split; [lia|].
  apply inj_le, subseteq_size. set_solver.
Qed.

Lemma chain_head p l held n t k : chain p l held n t k → is_u64 held.
Proof.
  intros [Hw _ Hl]. destruct l as [|q l]; [by rewrite Hl|]. destruct Hl as [-> _].
  eapply tk_u64, live_taken; [exact Hw|]. set_solver.
Qed.

Lemma hold_spec fuel p l held n t k E (Q : Z → PAGING A → Prop) :
  chain p l held n t k → n ≤ Z.of_nat fuel →
  (∀ l' held' k', chain p l' held' (Z.min n 2) t k' →
     Z.of_nat (length l') = Z.of_nat (length l) + (n - Z.min n 2) → Q held' k') →
  wpx (hold_pages fuel held) E Q k.
Proof.
  revert l held n k. induction fuel as [|fuel IH]; intros l held n k Hc Hfuel HQ;
    pose proof Hc as [Hw Hnd Hl]; cbn [hold_pages];
    (apply wpx_bind; eapply live_available; [exact Hw|]); cbn [tables_for];
    (destruct (Z.ltb_spec 2 (n - 0)) as [Hn|Hn]; cbn [negb];
      [|apply wpx_ret; eapply HQ; [by rewrite Z.min_l by lia|lia]]); [lia|].
  apply wpx_bind. eapply live_take; [exact Hw| |cbn; lia]. intros q k1 Hq Hw1 Hm1.
  apply wpx_bind. eapply live_write; [exact Hw1|set_solver|]. intros k2 Hw2 Hm2.
  eapply (IH (q :: l) q (n - 1)); [|lia|].
  - split.
    + replace ({[p]} ∪ list_to_set (q :: l) : gset Z) with ({[q]} ∪ ({[p]} ∪ list_to_set l) : gset Z)
        by set_solver. exact Hw2.
    + rewrite !NoDup_cons in *. set_solver.
    + split; [done|]. rewrite Hm2, load_store_eq by by apply (chain_head _ _ _ _ _ _ Hc).
      apply (linked_agree (mem k)); [|done]. intros r Hr. rewrite Hm1, load_store_ne; [done|].
      set_solver.
  - intros l' held' k' Hc' Hlen. rewrite length_cons in Hlen.
    replace ((n - 1) `min` 2) with (n `min` 2) in * by lia. apply (HQ l'); [done|lia].
Qed.

Lemma release_spec fuel p l held n t k E (Q : unit → PAGING A → Prop) :
  chain p l held n t k → (length l ≤ fuel)%nat →
  (∀ k', live {[p]} None None (n + Z.of_nat (length l)) t k' → Q tt k') →
  wpx (release_pages fuel held) E Q k.
Proof.
  revert l held n k. induction fuel as [|fuel IH]; intros l held n k Hc Hfuel HQ;
    destruct l as [|q l]; pose proof Hc as [Hw Hnd Hl]; cbn [length] in Hfuel; [|lia| |].
  1,2: cbn in Hl; subst held; apply wpx_ret, HQ; rewrite Z.add_0_r;
    by rewrite list_to_set_nil, union_empty_r_L in Hw.
  destruct Hl as [-> Hl]. pose proof (live_taken _ _ _ _ _ _ Hw q ltac:(set_solver)) as Hq.
  cbn [release_pages]. rewrite (proj2 (Z.eqb_neq q 0)) by (destruct (tk_frame _ _ Hq); lia).
  apply wpx_bind. eapply live_read; [exact Hw|by do 2 right|]. intros k1 Hw1 Hm1.
  apply wpx_bind. eapply live_free; [exact Hw1|apply Hq|]. intros k2 Hw2 Hm2. accepted.
  apply (IH l _ (n + 1)); [|lia|].
  - rewrite !NoDup_cons in Hnd. destruct Hnd as (Hp & Hql & Hnd). split; [|by constructor; set_solver|].
    + replace ({[p]} ∪ list_to_set l : gset Z)
        with (({[p]} ∪ list_to_set (q :: l)) ∖ {[q]} : gset Z) by set_solver. exact Hw2.
    + by rewrite Hm2, Hm1.
  - intros k' Hw'. apply HQ. cbn [length].
    replace (n + Z.of_nat (S (length l))) with (n + 1 + Z.of_nat (length l)) by lia. exact Hw'.
Qed.

Lemma cleanup_spec n t k E :
  live ∅ None None n t k → enough n t →
  wpx check_failed_map_cleanup E (λ b k', b = true ∧ live ∅ None None n t k') k.
Proof.
  intros Hw [Hn Ht]. unfold check_failed_map_cleanup.
  apply wpx_bind. eapply live_available; [exact Hw|].
  apply wpx_bind. eapply live_take; [exact Hw| |cbn; lia]. intros p k1 _ Hw1 _.
  pose proof (live_frames _ _ _ _ Hw1) as Htot.
  assert (chain p [] 0 (n - 1) t k1) as Hc1 by (split; [exact Hw1|apply NoDup_singleton|done]).
  apply wpx_bind, wpx_lift, wp_get.
  apply wpx_bind. eapply hold_spec; [exact Hc1|lia|]. intros l held k2 Hc2 Hlen.
  replace ((n - 1) `min` 2) with 2 in * by lia. cbn [length] in Hlen. pose proof (ch_live _ _ _ _ _ _ Hc2) as Hw2.
  apply wpx_bind. eapply live_map_V; [exact Hw2|set_solver|done|by vm_compute|by intros k' []|].
  intros k3 _ Hw3 Hk3. rejected.
  apply wpx_bind. eapply live_available; [exact Hw3|]. rejected.
  apply wpx_bind. eapply live_query; [exact Hw3|]. rejected.
  apply wpx_bind. eapply (release_spec _ p l held 2 t); [|lia|].
  { destruct Hc2 as [_ Hnd Hl]. split; [exact Hw3|done|]. eapply linked_agree; [|exact Hl].
    intros q Hq. apply Hk3. eapply live_taken; [exact Hw2|]. set_solver. }
  intros k4 Hw4. replace (2 + _) with (n - 1) in Hw4 by lia.
  apply wpx_bind. eapply live_map_V; [exact Hw4|set_solver|done|by vm_compute| |].
  2:{ intros k' []. unfold fits. cbn. lia. }
  intros k5 _ Hw5 _. accepted.
  apply wpx_bind. eapply live_unmap_V; [exact Hw5|done|]. intros k6 Hw6 _. accepted.
  apply wpx_bind. eapply live_free; [exact Hw6|set_solver|]. intros k7 Hw7 _. accepted.
  rewrite difference_diag_L in Hw7. replace (n - 1 + 1) with n in Hw7 by lia.
  apply wpx_bind. eapply live_available; [exact Hw7|]. apply wpx_ret. split; [|exact Hw7].
  apply Z.eqb_refl.
Qed.

Lemma paging_boot_check_spec n t k :
  live ∅ None None n t k →
  wpx (paging_boot_check L info) (λ r _, r = Return false ∧ ¬ enough n t)
    (λ b k', b = true ∧ enough n t ∧ live ∅ None None n t k') k.
Proof.
  intros Hw. apply wpx_bind, wpx_call. eapply wpx_mono; [by apply aliases_spec|..].
  - intros [[|]| | | |] k' [Hr Hn]; try done.
  - intros b k' (-> & He & Hw'). accepted. apply wpx_call.
    eapply wpx_mono; [by eapply (cleanup_spec n t k' (λ _ _, False))|by intros|].
    intros b k2 [-> Hw2]. done.
Qed.

End check.

End PagingCheckSpec.
