(* ===== verification/BootMemory.v ===== *)
(** * Bringing up memory: [initialize_memory] of [kernel/main.c]

    The allocator, its check, the page tables, the check again and the check of
    dynamic paging, one after the other: what each leaves for the next, and
    when the whole succeeds. *)

From S2P Require Import Prelude State BootInfo PmmInterface Pmm PmmSpec PmmCheck X86.
From S2P Require Import Paging PagingBits PagingModel PagingOps PagingStep PagingSpace.
From S2P Require Import PagingInit PagingInitStep PagingInitSpec PagingWorld PagingCheck PagingCheckSpec.
Import State X86 Paging PagingBits PagingModel PagingOps PagingStep PagingSpace.
Import PagingInit PagingInitStep PagingInitSpec PagingWorld PagingCheck PagingCheckSpec.

Module BootMemory.

#[local] Existing Instances Pmm.Pmm_api Pmm.Pmm_contract Pmm.pmm_wf_dec.

(** Where the linker has put the sections and the guarded stack of double faults:
    whole pages inside the image. *)
Record linked (L : LAYOUT) (base size : Z) : Prop := {
  lk_text : base ≤ kernel_text_start L < kernel_text_end L ∧ kernel_text_end L ≤ base + size;
  lk_rodata : base ≤ kernel_rodata_start L < kernel_rodata_end L ∧
    kernel_rodata_end L ≤ base + size;
  lk_df : base ≤ double_fault_guard_low L < double_fault_guard_high L ∧
    double_fault_guard_high L < base + size;
  lk_aligned : Forall (λ a, a mod 4096 = 0)
    [kernel_text_start L; kernel_text_end L; kernel_rodata_start L; kernel_rodata_end L;
     double_fault_guard_low L; double_fault_guard_high L];
}.

(** And the loader the boot stack: its guards are outside usable memory. *)
Record placement (L : LAYOUT) (m : ram) (b : BOOT_INFO) : Prop := {
  pl_linked : linked L (kernel_base b) (kernel_size b);
  pl_stack : Forall (λ g, ¬ Pmm.usable_page m b (g / 4096))
    [u64 (stack_base b - 4096); u64 (stack_base b + stack_size b)];
}.

Section memory.
Context (L : LAYOUT) (info : Z).
Context (Hinfo : is_u64 info).
Implicit Types (k : PAGING Pmm.PMM) (m : ram) (s : Pmm.PMM).

Lemma inside_overlaps x base size : base ≤ x < base + size → Pmm.overlaps (x / 4096) base size.
Proof. unfold Pmm.overlaps. intros H. zdm. Qed.

(** ** The allocator's check *)

(** What it leaves: the same pages in use, and memory outside the free pages. *)
Definition checked k (s' : Pmm.PMM) (m' : ram) : PAGING Pmm.PMM := with_mem (with_pmm k s') m'.

Record check_keeps (s s' : Pmm.PMM) (m m' : ram) : Prop := {
  ch_wf : Pmm.pmm_wf s';
  ch_sets : PmmSpec.abstract s' = PmmSpec.abstract s;
  ch_free : pmm_available s' = pmm_available s;
  ch_memory x : x / 4096 ∉ Pmm.vacant_pages s → load m' x = load m x;
}.

Lemma boot_check_keeps s m :
  Pmm.pmm_wf s →
  match PmmCheck.pmm_boot_check s m with
  | (true, s', m') => 3 ≤ pmm_available s ∧ check_keeps s s' m m'
  | (false, _, _) => pmm_available s < 3
  end.
Proof.
  intros Hs. pose proof (PmmCheck.boot_check_cases s m Hs) as H.
  destruct (PmmCheck.pmm_boot_check s m) as [[[|] s'] m']; [|done].
  destruct H as (H3 & Hwf & Ha & Hav & Hm). done.
Qed.

Lemma checked_sets s s' m m' :
  check_keeps s s' m m' → pmm_pool s' = pmm_pool s ∧ pmm_used s' = pmm_used s.
Proof. intros [_ [= He Ha] _ _]. cbn. by rewrite He, Ha. Qed.

Lemma word_outside s x :
  page_of x ∉ pmm_pool s ∖ pmm_used s → x / 4096 ∉ Pmm.vacant_pages s.
Proof.
  intros Hx [He Ha]%elem_of_difference. apply Hx. destruct (page_of_page x) as [Hq Hal].
  apply elem_of_difference. cbn. rewrite !Pmm.elem_of_addresses, Hq. tauto.
Qed.

Lemma checked_stable k s' m' : check_keeps (pmm k) s' (mem k) m' → stable k (checked k s' m').
Proof.
  intros Hc. destruct (checked_sets _ _ _ _ Hc) as [Hpool Hused]. split; try done.
  - unfold others. change (pmm (checked k s' m')) with s'. by rewrite Hused.
  - intros x Hx. apply Hc, word_outside. unfold others in Hx. set_solver.
Qed.

Lemma checked_good k r s' m' :
  good k r → check_keeps (pmm k) s' (mem k) m' → good (checked k s' m') r.
Proof.
  intros Hg Hc. destruct (checked_sets _ _ _ _ Hc) as [Hpool Hused].
  pose proof (g_rep k r Hg) as Hr. pose proof (table_list_used k r Hr) as Htu.
  apply good_with_mem; [apply good_with_pmm; [done|apply Hc|by rewrite Hused]|].
  intros x Hx. apply Hc, word_outside. cbn [mem with_pmm] in Hx |- *.
  assert (page_of x ∈ pmm_used (pmm k)) by (apply Htu, elem_of_list_to_set; exact Hx).
  set_solver.
Qed.

Lemma checked_descriptors (c : CPU) m m' s s' :
  pmm_started m info s → check_keeps s s' m m' →
  read_info m' info = read_info m info ∧
  ∀ i, 0 ≤ i < Pmm.descriptor_count (read_info m info) →
    Pmm.descriptor m' (read_info m info) i = Pmm.descriptor m (read_info m info) i.
Proof.
  intros Hps Hc. destruct (started_validated m info s c Hinfo Hps) as [_ [Hd Hsh Hwf]].
  pose proof (checked_stable (booted m s c) s' m' Hc) as Hst.
  pose proof (read_info_stable _ _ info Hd Hst) as Hi. cbn in Hi. split; [done|].
  intros i Hir. pose proof (read_map_stable _ _ info i Hd Hsh Hst Hir) as H1.
  pose proof (read_map_stable _ _ info i Hd Hsh (reflexivity _) Hir) as H2.
  pose proof (boot_data_safe_stable _ _ info Hd Hst) as Hd1.
  pose proof (read_map_stable _ _ info i Hd1 ltac:(by cbn; rewrite Hi) (reflexivity _)
    ltac:(by cbn; rewrite Hi)) as H3.
  change (mem (checked (booted m s c) s' m')) with m' in *.
  change (mem (booted m s c)) with m in *. rewrite Hi in H3. congruence.
Qed.

Lemma checked_started (c : CPU) m m' s s' :
  pmm_started m info s → check_keeps s s' m m' →
  pmm_started m' info s' ∧ read_info m' info = read_info m info ∧
  ∀ q, Pmm.usable_page m' (read_info m info) q ↔ Pmm.usable_page m (read_info m info) q.
Proof.
  intros Hps Hc. destruct (checked_descriptors c m m' s s' Hps Hc) as [Hi Hdesc].
  pose proof (ps_map _ _ _ Hps) as Hwf.
  assert (∀ q, Pmm.usable_page m' (read_info m info) q ↔ Pmm.usable_page m (read_info m info) q) as Hus.
  { intros q. unfold Pmm.usable_page. split; intros (Hq & i & Hir & Hu); (split; [done|]); exists i;
      [rewrite <- Hdesc by done|rewrite Hdesc by done]; done. }
  split; [|done]. destruct Hc as [Hwf' [= He Ha] _ _].
  split; rewrite ?Hi; try done; [apply Hps| |..].
  - intros i Hir. rewrite Hdesc by done. split; [by apply Hwf|].
    intros j Hj. rewrite Hdesc by lia. by apply Hwf.
  - rewrite Ha. apply Hps.
  - intros q. by rewrite He, (ps_pages _ _ _ Hps q), Hus.
Qed.

(** ** The page tables *)

(** The pages of the sections are the kernel's. *)
Lemma placement_reserved m b x :
  placement L m b →
  x ∈ [kernel_text_start L; kernel_rodata_start L; double_fault_guard_low L; double_fault_guard_high L] →
  Pmm.boot_reserved info b (x / 4096).
Proof.
  intros [[? ? ? _] _] Hx. left. apply inside_overlaps.
  rewrite !elem_of_cons, elem_of_nil in Hx. lia.
Qed.

Lemma pool_page s m a :
  pmm_started m info s → a ∈ pmm_pool s →
  let q := a / 4096 in
  a = q * 4096 ∧ Pmm.usable_page m (read_info m info) q ∧ ¬ Pmm.boot_reserved info (read_info m info) q.
Proof. intros Hps [Ha Hq]%Pmm.elem_of_addresses. apply (ps_pages _ _ _ Hps) in Hq. split; [zdm|done]. Qed.

(** A free page is mapped to itself, writable. *)
Lemma pool_identity s m a :
  pmm_started m info s → placement L m (read_info m info) → a ∈ pmm_pool s →
  identity_page L m (read_info m info) (vpn a) ∧ decode (id_entry L (vpn a)) = (a, PAGING_WRITE).
Proof.
  intros Hps Hpl Ha. destruct (pool_page s m a Hps Ha) as (Heq & Hu & Hr).
  set (q := a / 4096) in *. pose proof Hu as (Hrg & i & Hi & [Hty Hrt] & Hin).
  rewrite Pmm.PAGE_COUNT_val in Hrg. rewrite Heq, vpn_page by lia. split; [split|].
  - exists i. split; [done|]. split; [split; [auto|done]|]. split; [lia|done].
  - unfold guard_page, guards. rewrite !fmap_cons, !elem_of_cons. pose proof (pl_stack _ _ _ Hpl) as Hst.
    rewrite !Forall_cons in Hst. destruct Hst as (Hg1 & Hg2 & _).
    intros [->|[->|[->|[->|Hq]]]]; [done|done| | |by apply elem_of_nil in Hq];
      apply Hr, (placement_reserved m _ _ Hpl); set_solver.
  - assert (Pmm.overlaps q (kernel_base (read_info m info)) (kernel_size (read_info m info)) → False) as Hno
      by (intros Ho; apply Hr; by left).
    destruct Hpl as [[Ht Hro _ _] _].
    assert (page_flags L (q * 4096) = leaf_flags PAGING_WRITE) as Hf.
    { unfold page_flags. unfold Pmm.overlaps in Hno.
      destruct (Z.leb_spec (kernel_text_start L) (q * 4096)), (Z.ltb_spec (q * 4096) (kernel_text_end L)),
        (Z.leb_spec (kernel_rodata_start L) (q * 4096)), (Z.ltb_spec (q * 4096) (kernel_rodata_end L));
        try done; exfalso; apply Hno; lia. }
    unfold id_entry. rewrite Hf. apply decode_entry; [|by vm_compute].
    unfold frame, PMM_LIMIT, PMM_PAGE_SIZE. split; [lia|zdm].
Qed.

(** What is mapped: pages to themselves, with the permissions of their section,
    and no guard. *)
Record kernel_mapping m (M : gmap Z (Z * Z)) : Prop := {
  km_identity q x : M !! q = Some x → 256 ≤ q < 2 ^ 20 ∧ x = decode (id_entry L q);
  km_mapped q : kernel_page info (read_info m info) q →
    ¬ guard_page (guards L (read_info m info)) q → M !! q = Some (decode (id_entry L q));
  km_guards q : guard_page (guards L (read_info m info)) q → M !! q = None;
  km_low q : kernel_page info (read_info m info) q ∨ guard_page (guards L (read_info m info)) q →
    256 ≤ q < 2 ^ 20;
}.

(** The state with the kernel's own page tables: the invariant of the dynamic
    interface, the identity map, an empty window, and every usable page that the
    boot data leaves free in the pool, in use for nothing but tables. *)
Record memory_up m k : Prop := {
  mu_space : ∃ r, good k r ∧ checkable L info k (decode <$> leaf r) ∧
    kernel_mapping m (decode <$> leaf r);
  mu_enabled : enabled k = true;
  mu_others : others k = ∅;
  mu_pool a : a ∈ pmm_pool (pmm k) ↔ a mod 4096 = 0 ∧
    Pmm.usable_page m (read_info m info) (a / 4096) ∧
    ¬ Pmm.boot_reserved info (read_info m info) (a / 4096);
  mu_info : read_info (mem k) info = read_info m info;
}.

Lemma init_running m s c k' :
  pmm_started m info s → placement L m (read_info m info) →
  paging_init L info (booted m s c) = (true, k') →
  memory_up m k' ∧ rflags (cpu k') = rflags c.
Proof.
  intros Hps Hpl Hi. destruct (started_validated m info s c Hinfo Hps) as [Hun Hbv].
  pose proof (paging_init_cases L info _ Hun Hbv) as Hc. rewrite Hi in Hc.
  destruct Hc as (Hsup & Hram & c0 & k2 & r2 & Hb & Hst & _ & ->).
  pose proof (boot_tree_good L (cr4 c) k2 r2 _ Hb) as Hg.
  change (cr4 (cpu (booted m s c))) with (cr4 c). set (k' := activate_page_tables (cr4 c) k2) in *.
  assert (others k' = ∅) as Ho by exact (eq_trans (st_others _ _ Hst)
    (eq_trans (unstarted_others _ Hun) (f_equal Pmm.addresses (ps_none _ _ _ Hps)))).
  assert (pmm_pool (pmm k') = pmm_pool s) as Hpool by exact (st_pool _ _ Hst).
  assert (read_info (mem k') info = read_info m info) as Hri
    by (apply (read_info_stable (with_root (booted m s c) c0) k2); [destruct (bv_data _ _ Hbv); by split|done]).
  assert (rflags (cpu k') = rflags c) as Hrf
    by (pose proof (st_registers _ _ Hst) as Hreg; by injection Hreg).
  split; [|done]. split; [|by apply (activate_enabled _ (cr4 c) c)|done| |done].
  2:{ intros a. rewrite Hpool. cbn. rewrite Pmm.elem_of_addresses. by rewrite (ps_pages _ _ _ Hps). }
  exists r2. split; [done|].
  assert (∀ q x, (decode <$> leaf r2) !! q = Some x →
    identity_page L m (read_info m info) q ∧ x = decode (id_entry L q)) as Hid.
  { intros q x. rewrite lookup_fmap. destruct (leaf r2 !! q) as [e|] eqn:He; [|done].
    apply (bt_leaf L k2 r2 _ Hb) in He as [Hq ->]. by intros [= <-]. }
  split; [|split].
  2:{ intros q x [[(i & _ & _ & Hq & _) _] Hx]%Hid. done. }
  2:{ intros q Hq Hng. rewrite lookup_fmap. erewrite (proj2 (bt_leaf L k2 r2 _ Hb q _)); [done|].
      split; [|reflexivity]. split; [|done]. apply Hram. by left. }
  2:{ intros q Hq. destruct ((decode <$> leaf r2) !! q) as [x|] eqn:Hx; [|done].
      by apply Hid in Hx as [[_ Hx] _]. }
  2:{ intros q (i & _ & _ & Hq & _)%Hram. done. }
  split; rewrite ?Ho, ?Hpool, ?Hri.
  - intros p Hp. rewrite lookup_fmap. destruct (leaf r2 !! p) as [e|] eqn:He; [exfalso|done].
    apply (bt_leaf L k2 r2 _ Hb) in He as [He%(bt_range L k2 r2 _ Hb) _].
    unfold dynamic_page, prefix in Hp. change (512 ^ (4 - 1)) with 134217728 in Hp. zdm.
  - intros p [Hp _]%elem_of_difference. destruct (pool_identity s m p Hps Hpl Hp) as [Hip Hdec].
    exists PAGING_WRITE. split; [|by vm_compute]. rewrite lookup_fmap.
    by rewrite (proj2 (bt_leaf L k2 r2 _ Hb _ _) (conj Hip eq_refl)), <- Hdec.
  - intros x Hx. pose proof (bs_info _ _ (bv_data _ _ Hbv) x Hx) as H.
    rewrite (unstarted_others _ Hun) in H.
    change (pmm_used _) with (Pmm.addresses (Pmm.allocated_pages s)) in H.
    rewrite (ps_none _ _ _ Hps) in H. exact H.
  - pose proof (pl_stack _ _ _ Hpl) as Hst'. rewrite Forall_cons in Hst'. destruct Hst' as [Hg1 _].
    rewrite !Forall_cons.
    assert (∀ a, Pmm.boot_reserved info (read_info m info) (a / 4096) → a ∉ pmm_pool s) as Hn.
    { intros a Ha (_ & _ & Hp)%(pool_page s m a Hps). done. }
    split; [|split; [|split; [|split; [|done]]]].
    1,2,4: apply Hn, (placement_reserved m _ _ Hpl); set_solver.
    intros (_ & Hp & _)%(pool_page s m _ Hps). done.
Qed.

(** What it leaves of the pages, and of the processor for the drivers. *)
Lemma init_counts m s c k' :
  pmm_started m info s → paging_init L info (booted m s c) = (true, k') →
  paging_table_count k' = Z.of_nat (size (tables_of (ram_pages m (read_info m info)))) ∧
  pmm_available (pmm k') + paging_table_count k' = pmm_available s ∧
  cpuid (cpu k') = cpuid c ∧ msr (cpu k') !! 0x1b = msr c !! 0x1b.
Proof.
  intros Hps Hi. destruct (started_validated m info s c Hinfo Hps) as [Hun Hbv].
  pose proof (paging_init_outcome L info _ Hun Hbv) as Hc. cbv zeta in Hc. rewrite Hi in Hc.
  destruct Hc as (_ & c0 & k2 & r2 & _ & Hst & _ & -> & Hcount & Hav).
  pose proof (st_registers _ _ Hst) as Hreg. change (cpu (with_root _ _)) with c in Hreg.
  unfold registers, with_tlb in Hreg. injection Hreg as _ _ _ _ Hmsr Hcpuid.
  split; [exact Hcount|]. split; [exact Hav|]. split; [exact Hcpuid|].
  rewrite <- Hmsr. by apply lookup_insert_ne.
Qed.

(** The check changes nothing of what [paging_init] depends on. *)
Lemma checked_initializable m m' s s' c :
  pmm_started m info s → check_keeps s s' m m' →
  initializable L info (booted m' s' c) ↔ initializable L info (booted m s c).
Proof.
  intros Hps Hc. destruct (checked_descriptors c m m' s s' Hps Hc) as [Hi Hd].
  set (b := read_info m info) in *.
  assert (∀ q, ram_page m' b q ↔ ram_page m b q) as Hram.
  { intros q. unfold ram_page. split; intros (i & Hir & Hq); exists i; (split; [done|]);
      [by rewrite <- Hd|by rewrite Hd]. }
  assert (ram_pages m' b = ram_pages m b) as Hpages.
  { unfold ram_pages. f_equal. apply list_fmap_ext. intros j i Hj. rewrite Hd; [done|].
    apply lookup_seqZ in Hj. lia. }
  assert (ram_cacheable m' b ↔ ram_cacheable m b) as Hca.
  { unfold ram_cacheable. split; intros H i Hir; [rewrite <- Hd by done|rewrite Hd by done]; auto. }
  assert (runs_on (ram_page m' b) info b ↔ runs_on (ram_page m b) info b) as Hru
    by (unfold runs_on; by rewrite !(covered_ext _ _ _ _ Hram)).
  pose proof (guardable_ext _ _ (guards L b) Hram) as Hgu. pose proof (ch_free _ _ _ _ Hc) as Hfree.
  assert (∀ (m0 : ram) s0, read_info m0 info = b → initializable L info (booted m0 s0 c) ↔
    info ≠ 0 ∧ supported_cpu_state (cr4 c) c = true ∧ ram_cacheable m0 b ∧
    Z.of_nat (size (tables_of (ram_pages m0 b))) ≤ pmm_available s0 ∧
    runs_on (ram_page m0 b) info b ∧ guardable (ram_page m0 b) (guards L b)) as H.
  { intros m0 s0 E. rewrite <- E. split; [by intros []|by intros (? & ? & ? & ? & ? & ?)]. }
  by rewrite (H m' s' Hi), (H m s eq_refl), Hpages, Hca, Hru, Hgu, Hfree.
Qed.

(** ** The check of dynamic paging *)

Lemma start_holds k r :
  good k r → enabled k = true →
  holds k ∅ (decode <$> leaf r) (pmm_available (pmm k)) (paging_table_count k) k ∧
  abstract k r = Space true (∅ ∪ others k) (decode <$> leaf r) (pmm_available (pmm k))
    (paging_table_count k).
Proof.
  intros Hg Hen. assert (abstract k r = Space true (∅ ∪ others k) (decode <$> leaf r)
    (pmm_available (pmm k)) (paging_table_count k)) as Ha
    by (unfold abstract; by rewrite Hen, union_empty_l_L).
  split; [|done]. unfold holds. rewrite <- Ha. by apply world_start.
Qed.

Lemma holds_live k0 M n t k :
  checkable L info k0 M → holds k0 ∅ M n t k ↔ live k0 M ∅ None None n t k.
Proof.
  intros Hck. unfold live. rewrite (window_none L info k0 M Hck).
  change (tables_for None None) with 0. by rewrite Z.sub_0_r, Z.add_0_r.
Qed.

Lemma dynamic_check k r :
  good k r → enabled k = true → checkable L info k (decode <$> leaf r) →
  match paging_boot_check L info k with
  | (inr b, k') =>
      b = true ∧ enough (pmm_available (pmm k)) (paging_table_count k) ∧ carried k k' ∧
      ∃ r', good k' r' ∧ abstract k' r' = abstract k r
  | (inl e, _) => e = Return false ∧ ¬ enough (pmm_available (pmm k)) (paging_table_count k)
  end.
Proof.
  intros Hg Hen Hck. destruct (start_holds k r Hg Hen) as [Hh Ha].
  apply (holds_live _ _ _ _ _ Hck) in Hh.
  pose proof (paging_boot_check_spec L info k _ Hck _ _ k Hh) as H. unfold wpx in H.
  destruct (paging_boot_check L info k) as [[e|b] k']; [done|].
  destruct H as (-> & He & Hl%(holds_live _ _ _ _ _ Hck)).
  destruct Hl as [(r' & Hg' & Hs) _ _ Hc]. split; [done|]. split; [done|]. split; [done|].
  exists r'. split; [done|]. by rewrite Hs, Ha.
Qed.

(** ** From step to step *)

(** Memories with the same boot information and the same usable pages. *)
Lemma memory_up_same m m' k :
  read_info m' info = read_info m info →
  (∀ q, Pmm.usable_page m' (read_info m info) q ↔ Pmm.usable_page m (read_info m info) q) →
  memory_up m' k → memory_up m k.
Proof.
  intros Hi Hu [(r & Hg & Hck & [Hk1 Hk2 Hk3 Hk4]) Hen Ho Hp Hri]. rewrite Hi in *. split; [|done|done| |done].
  - exists r. split; [done|]. by split.
  - intros a. by rewrite Hp, Hu.
Qed.

Lemma placement_same m m' :
  read_info m' info = read_info m info →
  (∀ q, Pmm.usable_page m' (read_info m info) q ↔ Pmm.usable_page m (read_info m info) q) →
  placement L m (read_info m info) → placement L m' (read_info m' info).
Proof.
  intros Hi Hu [H1 H2]. rewrite Hi. split; [done|].
  eapply Forall_impl; [exact H2|]. intros g. cbn. by rewrite Hu.
Qed.

Lemma checkable_same k k' M :
  pmm_pool (pmm k') = pmm_pool (pmm k) → others k' = others k →
  read_info (mem k') info = read_info (mem k) info → checkable L info k M → checkable L info k' M.
Proof. intros Hp Ho Hi []. split; rewrite ?Hp, ?Ho, ?Hi; done. Qed.

Lemma memory_up_checked m k s' m' :
  memory_up m k → check_keeps (pmm k) s' (mem k) m' → memory_up m (checked k s' m').
Proof.
  intros [(r & Hg & Hck & Hkm) Hen Ho Hp Hri] Hc. pose proof (checked_stable k s' m' Hc) as Hst.
  assert (read_info (mem (checked k s' m')) info = read_info (mem k) info) as Hi.
  { apply read_info_agree. intros j Hj. apply (st_memory _ _ Hst), (ck_info _ _ _ _ Hck).
    unfold sizeof_BOOT_INFO. lia. }
  split; [|done|by rewrite (st_others _ _ Hst)| |by rewrite Hi].
  - exists r. split; [by apply checked_good|]. split; [|done].
    by apply (checkable_same k); [apply (st_pool _ _ Hst)|apply (st_others _ _ Hst)|..].
  - intros a. by rewrite (st_pool _ _ Hst).
Qed.

Lemma memory_up_boot_check m k :
  memory_up m k →
  match paging_boot_check L info k with
  | (inr b, k') => b = true ∧ memory_up m k' ∧ registers (cpu k') = registers (cpu k) ∧
      enough (pmm_available (pmm k')) (paging_table_count k') ∧
      pmm_available (pmm k') = pmm_available (pmm k) ∧ paging_table_count k' = paging_table_count k
  | (inl e, _) => e = Return false ∧ ¬ enough (pmm_available (pmm k)) (paging_table_count k)
  end.
Proof.
  intros [(r & Hg & Hck & Hkm) Hen Ho Hp Hri]. pose proof (dynamic_check k r Hg Hen Hck) as H.
  destruct (paging_boot_check L info k) as [[e|b] k']; [apply H|].
  destruct H as (-> & He & [Hc1 _ _ _ Hc5 Hc6] & r' & Hg' & Ha).
  assert (enabled k' = enabled k) as Ha1 by exact (f_equal sp_enabled Ha).
  assert (others k' = others k) as Ha2 by exact (f_equal sp_callers Ha).
  assert (decode <$> leaf r' = decode <$> leaf r) as Ha3 by exact (f_equal sp_map Ha).
  assert (pmm_available (pmm k') = pmm_available (pmm k)) as Ha4 by exact (f_equal sp_frames Ha).
  assert (paging_table_count k' = paging_table_count k) as Ha5 by exact (f_equal sp_tables Ha).
  assert (read_info (mem k') info = read_info (mem k) info) as Hi.
  { apply read_info_agree. intros j Hj. apply Hc6, (ck_info _ _ _ _ Hck).
    unfold sizeof_BOOT_INFO. lia. }
  split; [done|]. split; [|split; [done|split; [by rewrite Ha4, Ha5|done]]].
  split; [|congruence..| |congruence].
  - exists r'. split; [done|]. rewrite Ha3. split; [|done]. by apply (checkable_same k).
  - intros a. by rewrite Hc1.
Qed.

End memory.

(** C26: the boot check of dynamic paging, on the state [pmm_init] and
    [paging_init] leave: it never faults and its loops end; it succeeds exactly
    when there are six free pages and room for four tables; and then everything
    is as before: the same address space, the same pages in use and available,
    the same registers, and the memory outside the free pages. *)
Theorem paging_boot_check_exact L m info s c k :
  is_u64 info → Pmm.pmm_init m info Pmm.pmm_bss = (true, s) →
  placement L m (read_info m info) → paging_init L info (booted m s c) = (true, k) →
  let room := 6 ≤ pmm_available (pmm k) ∧ paging_table_count k + 4 ≤ MAX_TABLES in
  match paging_boot_check L info k with
  | (inr b, k') =>
      b = true ∧ room ∧ carried k k' ∧
      ∃ r r', good k r ∧ good k' r' ∧ abstract k' r' = abstract k r
  | (inl e, _) => e = Return false ∧ ¬ room
  end.
Proof.
  intros Hu Hi Hpl Hp.
  destruct (init_running L info Hu m s c k (pmm_init_started m info s Hu Hi) Hpl Hp)
    as [[(r & Hg & Hck & _) Hen _ _ _] _].
  pose proof (dynamic_check L info k r Hg Hen Hck) as H.
  destruct (paging_boot_check L info k) as [[e|b] k']; [exact H|].
  destruct H as (Hb & Hroom & Hc & r' & Hg' & Ha). split; [done|]. split; [exact Hroom|].
  split; [done|]. by exists r, r'.
Qed.

(** ** On the small machine *)

Lemma demo_unusable q :
  0x110 ≤ q → ¬ Pmm.usable_page Demo.boot_ram (read_info Demo.boot_ram Demo.info_at) q.
Proof.
  intros Hq (_ & i & Hi & [Hty _] & [_ Hhi]).
  assert (Pmm.descriptor_count (read_info Demo.boot_ram Demo.info_at) = 3) as Hn by by vm_compute.
  assert (i = 0 ∨ i = 1 ∨ i = 2) as [->|[->| ->]] by lia; [|by vm_compute in Hty..].
  assert (Pmm.descriptor_limit (Pmm.descriptor Demo.boot_ram
    (read_info Demo.boot_ram Demo.info_at) 0) = 0x110000) as Hlim by by vm_compute.
  lia.
Qed.

Lemma demo_placement : placement Demo.layout Demo.boot_ram (read_info Demo.boot_ram Demo.info_at).
Proof.
  split; [split; [by vm_compute..|by repeat constructor]|].
  constructor; [|constructor; [|done]]; apply demo_unusable; by vm_compute.
Qed.

Lemma paging_boot_check_exact_witness :
  match paging_boot_check Demo.layout Demo.info_at Demo.running with
  | (inr b, k') =>
      b = true ∧
      (6 ≤ pmm_available (pmm Demo.running) ∧ paging_table_count Demo.running + 4 ≤ MAX_TABLES) ∧
      carried Demo.running k' ∧
      ∃ r r', good Demo.running r ∧ good k' r' ∧ abstract k' r' = abstract Demo.running r
  | (inl e, _) => e = Return false ∧
      ¬ (6 ≤ pmm_available (pmm Demo.running) ∧ paging_table_count Demo.running + 4 ≤ MAX_TABLES)
  end ∧ fst (paging_boot_check Demo.layout Demo.info_at Demo.running) = inr true.
Proof.
  split; [|by vm_compute].
  apply (paging_boot_check_exact Demo.layout Demo.boot_ram Demo.info_at Demo.pmm Demo.processor);
    [done|exact demo_init|exact demo_placement|apply demo_runs; by vm_compute].
Defined.

End BootMemory.
