(* ===== verification/Linker.v ===== *)
(** * The linker script: [kernel/linker.ld]

    The script as a function: from what the object files contribute to each
    section to the addresses of its symbols and to the three segments of the
    image. The location counter goes through the sections in the script's
    order. *)

From S2P Require Import Prelude PmmInterface Paging PagingInit.

Module Linker.
Import PagingInit(LAYOUT, Build_LAYOUT).

(** The size and the alignment of a section's contributions. *)
Record SECTION := { size : Z; alignment : Z }.

Record OBJECTS := {
  text : SECTION; rodata : SECTION; data : SECTION; bss : SECTION; df_stack : SECTION;
}.

(** A PT_LOAD segment: the flags of [PHDRS], and what lies in the file and in
    memory. *)
Record SEGMENT := { s_flags : Z; s_start : Z; s_file : Z; s_memory : Z }.

Record IMAGE := {
  layout : LAYOUT;
  kernel_entry : Z;
  segments : list SEGMENT;
  image_end : Z;
}.

(** [ALIGN(a)] at the location [dot]. *)
Definition ALIGN (dot a : Z) : Z := (dot + a - 1) / a * a.

(** A section without contributions is not part of the image. *)
Definition first_of (l : list (Z * Z)) (default : Z) : Z :=
  match List.find (λ x, 0 <? snd x) l with Some (address, _) => address | None => default end.

Section script.
Context (o : OBJECTS).

(** The location counter at each step: where the sections begin, and the symbols
    between them. *)
Definition kernel_text_start : Z := 0x100000.
Definition text_at : Z := ALIGN kernel_text_start (alignment (text o)).
Definition kernel_text_end : Z := ALIGN (text_at + size (text o)) 0x1000.
Definition kernel_rodata_start : Z := kernel_text_end.
Definition rodata_at : Z := ALIGN kernel_rodata_start (alignment (rodata o)).
Definition kernel_rodata_end : Z := ALIGN (rodata_at + size (rodata o)) 0x1000.
Definition data_at : Z := ALIGN kernel_rodata_end (alignment (data o)).
Definition bss_at : Z := ALIGN (data_at + size (data o)) (alignment (bss o)).
Definition stacks_at : Z := ALIGN (bss_at + size (bss o)) 0x1000.
Definition double_fault_guard_low : Z := stacks_at.
Definition double_fault_guard_high : Z :=
  ALIGN (double_fault_guard_low + 0x1000) (alignment (df_stack o)) + size (df_stack o).
Definition stacks_end : Z := double_fault_guard_high + 0x1000.

(** The data segment begins with its first section that is not empty. *)
Definition data_segment : Z :=
  first_of [(data_at, size (data o)); (bss_at, size (bss o))] stacks_at.

(** [None] when the script's assertion fails. [.text.entry] comes first, so that
    the entry point is the start of [.text]; [.bss] and [.stacks] are not in the
    file. *)
Definition link : option IMAGE :=
  if negb (double_fault_guard_high - double_fault_guard_low =? 0x5000) then None
  else Some {|
    layout := Build_LAYOUT kernel_text_start kernel_text_end kernel_rodata_start kernel_rodata_end
                double_fault_guard_low double_fault_guard_high;
    kernel_entry := text_at;
    segments :=
      [{| s_flags := 5; s_start := text_at; s_file := size (text o); s_memory := size (text o) |};
       {| s_flags := 4; s_start := rodata_at; s_file := size (rodata o); s_memory := size (rodata o) |};
       {| s_flags := 6; s_start := data_segment; s_file := size (data o);
          s_memory := stacks_end - data_segment |}];
    image_end := stacks_end |}.

End script.

End Linker.
