(* ===== verification/LinkerSpec.v ===== *)
(** * What the linker script promises

    The image the script describes is one the loader accepts, it starts at
    1 MiB, and its symbols are where the page tables need them: every byte of a
    segment gets the protection of the segment. *)

From S2P Require Import Prelude BootInfo PmmInterface Pmm Paging PagingBits PagingInit BootMemory.
From S2P Require Import Elf ElfSpec Linker Tables.

Module LinkerSpec.
Import Linker Elf ElfSpec.
Import Paging(NX, FLAGS) PagingInit BootMemory.

(** The object files: code and read-only data are there, contributions are not
    aligned to more than a page. *)
Record section_ok (x : SECTION) : Prop := {
  sx_size : 0 ≤ size x;
  sx_alignment : 0 < alignment x ∧ 4096 mod alignment x = 0;
}.

Record objects_ok (o : OBJECTS) : Prop := {
  ob_sections : Forall section_ok [text o; rodata o; data o; bss o; df_stack o];
  ob_text : 0 < size (text o);
  ob_rodata : 0 < size (rodata o);
}.

(** The file [d] of [n] bytes that the linker writes: the headers of the three
    segments, each somewhere in the file at an offset congruent to its address
    modulo a power of two. *)
Record written (x : IMAGE) (d : list Z) (n : Z) : Prop := {
  wr_header : valid_elf_header (read_header d) n = true;
  wr_count : phnum (read_header d) = 3;
  wr_entry : entry (read_header d) = kernel_entry x;
  wr_segment i s : segments x !! i = Some s →
    let p := program d (read_header d) (Z.of_nat i) in
    p_type p = 1 ∧ p_flags p = s_flags s ∧ vaddr p = s_start s ∧ paddr p = s_start s ∧
    filesz p = s_file s ∧ memsz p = s_memory s ∧ offset p + s_file s ≤ n ∧
    Z.land (align p) (align p - 1) = 0 ∧ vaddr p mod align p = offset p mod align p;
}.

(** ** The location counter *)

Lemma ALIGN_bounds dot a : 0 < a → dot ≤ ALIGN dot a < dot + a.
Proof. intros Ha. unfold ALIGN. pose proof (Z.div_mod (dot + a - 1) a ltac:(lia)).
  pose proof (Z.mod_pos_bound (dot + a - 1) a Ha). lia. Qed.

(** An address that is already aligned to a page. *)
Lemma ALIGN_page dot a : 0 < a → 4096 mod a = 0 → dot mod 4096 = 0 → ALIGN dot a = dot.
Proof.
  intros Ha Hd Hp. unfold ALIGN. apply Z.mod_divide in Hd as [k Hk]; [|lia].
  apply Z.mod_divide in Hp as [j ->]; [|lia]. rewrite Hk.
  replace (j * (k * a) + a - 1) with (a - 1 + (j * k) * a) by lia.
  rewrite Z.div_add, (Z.div_small (a - 1)) by lia. lia.
Qed.

Lemma ALIGN_aligned dot : ALIGN dot 0x1000 mod 4096 = 0.
Proof. unfold ALIGN. by rewrite Z.mod_mul. Qed.

#[local] Opaque ALIGN.

(** What the script computes, as inequalities between the addresses. *)
Record placed (o : OBJECTS) (x : IMAGE) (data_start : Z) : Prop := {
  pc_segments : segments x =
    [{| s_flags := 5; s_start := 0x100000; s_file := size (text o); s_memory := size (text o) |};
     {| s_flags := 4; s_start := kernel_rodata_start (layout x); s_file := size (rodata o);
        s_memory := size (rodata o) |};
     {| s_flags := 6; s_start := data_start; s_file := size (data o);
        s_memory := image_end x - data_start |}];
  pc_entry : kernel_entry x = 0x100000;
  pc_text : kernel_text_start (layout x) = 0x100000 ∧
    0x100000 + size (text o) ≤ kernel_text_end (layout x);
  pc_rodata : kernel_rodata_start (layout x) = kernel_text_end (layout x) ∧
    kernel_rodata_start (layout x) + size (rodata o) ≤ kernel_rodata_end (layout x);
  pc_data : kernel_rodata_end (layout x) ≤ data_start ∧
    data_start + size (data o) ≤ double_fault_guard_low (layout x);
  pc_df : double_fault_guard_high (layout x) = double_fault_guard_low (layout x) + 0x5000 ∧
    image_end x = double_fault_guard_high (layout x) + 0x1000;
  pc_aligned : Forall (λ a, a mod 4096 = 0)
    [kernel_text_start (layout x); kernel_text_end (layout x); kernel_rodata_start (layout x);
     kernel_rodata_end (layout x); double_fault_guard_low (layout x);
     double_fault_guard_high (layout x)];
}.

Lemma first_of_bounds d sd b sb stacks lo hi :
  0 ≤ sd → 0 ≤ sb → lo ≤ d → d + sd ≤ b → b + sb ≤ stacks → stacks ≤ hi →
  lo ≤ first_of [(d, sd); (b, sb)] stacks ∧ first_of [(d, sd); (b, sb)] stacks + sd ≤ hi.
Proof.
  intros. unfold first_of. cbn [List.find snd].
  destruct (Z.ltb_spec 0 sd); [lia|]. destruct (Z.ltb_spec 0 sb); lia.
Qed.

Lemma link_placed o x : objects_ok o → link o = Some x → ∃ data_start, placed o x data_start.
Proof.
  intros [Hs Ht Hr] Hx. rewrite !Forall_cons in Hs.
  destruct Hs as ([_ [Ha1 Hd1]] & [_ [Ha2 Hd2]] & [Hz3 [Ha3 _]] & [Hz4 [Ha4 _]] & [Hz5 [Ha5 Hd5]] & _).
  assert (text_at o = 0x100000) as Hta by by apply ALIGN_page.
  pose proof (ALIGN_bounds (text_at o + size (text o)) 0x1000 eq_refl) as [H1 _].
  pose proof (ALIGN_aligned (text_at o + size (text o))) as Hte.
  fold (Linker.kernel_text_end o) in H1, Hte.
  assert (rodata_at o = Linker.kernel_text_end o) as Hra by by apply ALIGN_page.
  pose proof (ALIGN_bounds (rodata_at o + size (rodata o)) 0x1000 eq_refl) as [H2 _].
  pose proof (ALIGN_aligned (rodata_at o + size (rodata o))) as Hre.
  fold (Linker.kernel_rodata_end o) in H2, Hre.
  pose proof (ALIGN_bounds (Linker.kernel_rodata_end o) (alignment (data o)) Ha3) as [H3 _].
  pose proof (ALIGN_bounds (data_at o + size (data o)) (alignment (bss o)) Ha4) as [H4 _].
  pose proof (ALIGN_bounds (bss_at o + size (bss o)) 0x1000 eq_refl) as [H5 _].
  pose proof (ALIGN_aligned (bss_at o + size (bss o))) as Hst.
  fold (data_at o) in H3. fold (bss_at o) in H4. fold (stacks_at o) in H5, Hst.
  pose proof (first_of_bounds (data_at o) (size (data o)) (bss_at o) (size (bss o)) (stacks_at o)
    (Linker.kernel_rodata_end o) (stacks_at o)) as Hfirst. fold (data_segment o) in Hfirst.
  unfold link in Hx.
  destruct (Z.eqb_spec (Linker.double_fault_guard_high o - Linker.double_fault_guard_low o) 0x5000) as [Hdf|]; [|done].
  cbn [negb] in Hx. injection Hx as <-. exists (data_segment o).
  split; cbn [segments layout kernel_entry image_end PagingInit.kernel_text_start PagingInit.kernel_text_end
    PagingInit.kernel_rodata_start PagingInit.kernel_rodata_end PagingInit.double_fault_guard_low
    PagingInit.double_fault_guard_high].
  - by rewrite Hta, Hra.
  - done.
  - unfold Linker.kernel_text_start. lia.
  - unfold Linker.kernel_rodata_start. lia.
  - apply Hfirst; lia.
  - unfold stacks_end. lia.
  - rewrite !Forall_cons. unfold Linker.kernel_rodata_start, Linker.double_fault_guard_low in *.
    do 5 (split; [done|]). split; [zdm|done].
Qed.

(** ** The image *)

Section image.
Context (o : OBJECTS) (x : IMAGE) (start : Z) (d : list Z) (n : Z).
Context (Ho : objects_ok o) (Hx : placed o x start) (Hd : written x d n).
Context (Hend : image_end x ≤ 0x100000 + 64 * 1024 * 1024).

Abbreviation h := (read_header d).

Lemma image_sizes :
  0 < size (text o) ∧ 0 < size (rodata o) ∧ 0 ≤ size (data o).
Proof.
  destruct Ho as [Hs Ht Hr]. rewrite !Forall_cons in Hs. destruct Hs as (_ & _ & [Hz _] & _). done.
Qed.

(** The three headers. *)
Lemma image_segment i : 0 ≤ i < 3 → ∃ s, segments x !! Z.to_nat i = Some s ∧
  let p := program d h i in
  p_type p = 1 ∧ p_flags p = s_flags s ∧ vaddr p = s_start s ∧ paddr p = s_start s ∧
  filesz p = s_file s ∧ memsz p = s_memory s ∧ offset p + s_file s ≤ n ∧
  Z.land (align p) (align p - 1) = 0 ∧ vaddr p mod align p = offset p mod align p.
Proof.
  intros Hi. destruct (segments x !! Z.to_nat i) as [s|] eqn:Hs.
  - exists s. split; [done|]. pose proof (wr_segment _ _ _ Hd _ _ Hs) as H.
    by rewrite Z2Nat.id in H by lia.
  - exfalso. rewrite (pc_segments _ _ _ Hx) in Hs. apply lookup_ge_None in Hs. cbn in Hs. lia.
Qed.

Lemma segment_cases i s :
  segments x !! i = Some s →
  (i = 0%nat ∧ s_flags s = 5 ∧ s_start s = 0x100000 ∧ s_file s = size (text o) ∧
     s_memory s = size (text o)) ∨
  (i = 1%nat ∧ s_flags s = 4 ∧ s_start s = kernel_rodata_start (layout x) ∧
     s_file s = size (rodata o) ∧ s_memory s = size (rodata o)) ∨
  (i = 2%nat ∧ s_flags s = 6 ∧ s_start s = start ∧ s_file s = size (data o) ∧
     s_memory s = image_end x - start).
Proof.
  rewrite (pc_segments _ _ _ Hx). destruct i as [|[|[|i]]]; intros [= <-]; cbn; tauto.
Qed.

(** Where a segment lies. *)
Lemma segment_range i s : segments x !! i = Some s →
  0x100000 ≤ s_start s ∧ 0 < s_memory s ∧ s_start s + s_memory s ≤ image_end x ∧
  0 ≤ s_file s ≤ s_memory s.
Proof.
  intros Hs. pose proof image_sizes as (Ht & Hr & Hdt).
  pose proof (pc_text _ _ _ Hx). pose proof (pc_rodata _ _ _ Hx). pose proof (pc_data _ _ _ Hx).
  pose proof (pc_df _ _ _ Hx). destruct (segment_cases _ _ Hs) as [H'|[H'|H']]; lia.
Qed.

Lemma segment_apart i j s t : segments x !! i = Some s → segments x !! j = Some t → (j < i)%nat →
  s_start t + s_memory t ≤ s_start s.
Proof.
  intros Hs Ht Hij. pose proof image_sizes as (Hst & Hsr & Hsd).
  pose proof (pc_text _ _ _ Hx). pose proof (pc_rodata _ _ _ Hx). pose proof (pc_data _ _ _ Hx).
  pose proof (pc_df _ _ _ Hx).
  destruct (segment_cases _ _ Hs) as [H'|[H'|H']], (segment_cases _ _ Ht) as [H''|[H''|H'']]; lia.
Qed.

(** The loader's condition. *)
Lemma image_loadable : loadable_image d h n {| base := 0x100000; end_ := image_end x |}.
Proof.
  pose proof (wr_count _ _ _ Hd) as Hn. pose proof image_sizes as (Ht & Hr & Hdt).
  pose proof (pc_df _ _ _ Hx) as [Hhi Hie]. pose proof (pc_aligned _ _ _ Hx) as Hal.
  rewrite !Forall_cons in Hal. destruct Hal as (_ & _ & _ & _ & _ & Hal & _).
  split; [split| |split|cbn [base end_]; lia]; rewrite ?Hn.
  - intros i Hi. destruct (image_segment i Hi) as (s & _ & -> & _). lia.
  - intros i Hi _. destruct (image_segment i Hi) as (s & Hs & _ & _ & Hv & Hp & Hf & Hm & Ho' & Ha & Hc).
    pose proof (segment_range _ _ Hs). split; [lia|congruence|lia|by right].
  - intros i j Hj Hi _ _. destruct (image_segment i ltac:(lia)) as (s & Hs & _ & _ & Hv & _ & _ & Hm & _).
    destruct (image_segment j ltac:(lia)) as (t & Ht' & _ & _ & Hv' & _ & _ & Hm' & _).
    pose proof (segment_apart _ _ _ _ Hs Ht' ltac:(lia)). right. lia.
  - exists 0. split; [lia|]. destruct (image_segment 0 ltac:(lia)) as (s & Hs & Hty & Hfl & Hv & _ & Hf & Hm & _).
    pose proof (segment_range _ _ Hs). destruct (segment_cases _ _ Hs) as [Hc|[Hc|Hc]]; try lia.
    split; [split; [done|lia]|]. rewrite Hfl, (wr_entry _ _ _ Hd), (pc_entry _ _ _ Hx).
    destruct Hc as (_ & -> & Hc). split; [done|lia].
  - intros i Hi _. destruct (image_segment i Hi) as (s & Hs & _ & _ & Hv & _ & _ & Hm & _).
    pose proof (segment_range _ _ Hs). unfold segment_start, segment_stop. cbn [base end_].
    rewrite Hv, Hm. split; zdm.
  - exists 0. split; [lia|]. destruct (image_segment 0 ltac:(lia)) as (s & Hs & Hty & _ & Hv & _ & _ & Hm & _).
    pose proof (segment_range _ _ Hs). destruct (segment_cases _ _ Hs) as [Hc|[Hc|Hc]]; try lia.
    split; [split; [done|lia]|]. unfold segment_start. cbn [base]. rewrite Hv.
    destruct Hc as (_ & _ & -> & _). done.
  - exists 2. split; [lia|]. destruct (image_segment 2 ltac:(lia)) as (s & Hs & Hty & _ & Hv & _ & _ & Hm & _).
    pose proof (segment_range _ _ Hs). destruct (segment_cases _ _ Hs) as [Hc|[Hc|Hc]]; try lia.
    split; [split; [done|lia]|]. unfold segment_stop. cbn [end_]. rewrite Hv, Hm. zdm.
Qed.

Lemma image_linked : linked (layout x) 0x100000 (image_end x - 0x100000).
Proof.
  pose proof image_sizes. pose proof (pc_text _ _ _ Hx). pose proof (pc_rodata _ _ _ Hx).
  pose proof (pc_data _ _ _ Hx). pose proof (pc_df _ _ _ Hx).
  split; [lia|lia|lia|exact (pc_aligned _ _ _ Hx)].
Qed.

(** The page a byte of a segment lies in. *)
Lemma image_page_flags i s a :
  segments x !! i = Some s → s_start s ≤ a < s_start s + s_memory s →
  page_flags (layout x) (a / 4096 * 4096) =
    if s_flags s =? 5 then 1 else if s_flags s =? 4 then Z.lor 1 NX else Z.lor FLAGS NX.
Proof.
  intros Hs Ha. pose proof image_sizes. pose proof (pc_text _ _ _ Hx). pose proof (pc_rodata _ _ _ Hx).
  pose proof (pc_data _ _ _ Hx) as Hdata. pose proof (pc_df _ _ _ Hx). pose proof (pc_aligned _ _ _ Hx) as Hal.
  rewrite !Forall_cons in Hal. destruct Hal as (Hal1 & Hal2 & Hal3 & Hal4 & _).
  assert (∀ lo, lo mod 4096 = 0 → (lo <=? a / 4096 * 4096) = (lo <=? a)) as Hlo.
  { intros lo Hl. destruct (Z.leb_spec lo a); [apply Z.leb_le|apply Z.leb_gt]; zdm. }
  assert (∀ hi, hi mod 4096 = 0 → (a / 4096 * 4096 <? hi) = (a <? hi)) as Hhi.
  { intros hi Hl. destruct (Z.ltb_spec a hi); [apply Z.ltb_lt|apply Z.ltb_ge]; zdm. }
  unfold page_flags. rewrite !Hlo, !Hhi by done.
  destruct (segment_cases _ _ Hs) as [(_ & -> & H')|[(_ & -> & H')|(_ & -> & H')]]; cbn [Z.eqb Pos.eqb].
  - rewrite (proj2 (Z.leb_le _ a)), (proj2 (Z.ltb_lt a _)) by lia. done.
  - rewrite (proj2 (Z.ltb_ge a (kernel_text_end (layout x)))), andb_false_r by lia.
    rewrite (proj2 (Z.leb_le _ a)), (proj2 (Z.ltb_lt a _)) by lia. done.
  - rewrite (proj2 (Z.ltb_ge a (kernel_text_end (layout x)))), andb_false_r by lia.
    by rewrite (proj2 (Z.ltb_ge a (kernel_rodata_end (layout x)))), andb_false_r by lia.
Qed.

End image.

(** The script's assertion is about the size of the double fault's stack. *)
Lemma link_stack o : objects_ok o →
  match link o with Some _ => size (df_stack o) = 0x4000 | None => size (df_stack o) ≠ 0x4000 end.
Proof.
  intros [Hs _ _]. rewrite !Forall_cons in Hs. destruct Hs as (_ & _ & _ & _ & [_ [Ha Hd]] & _).
  assert (stacks_at o mod 4096 = 0) as Hst by apply ALIGN_aligned.
  assert (Linker.double_fault_guard_high o = stacks_at o + 0x1000 + size (df_stack o)) as Hh.
  { unfold Linker.double_fault_guard_high, Linker.double_fault_guard_low.
    rewrite ALIGN_page by (done || zdm). done. }
  unfold link, Linker.double_fault_guard_low. rewrite Hh.
  destruct (Z.eqb_spec (stacks_at o + 4096 + size (df_stack o) - stacks_at o) 0x5000); cbn [negb]; lia.
Qed.

(** ** Properties *)

(** C9: the linked image is what the loader and the page tables need. The script
    refuses object files exactly when the double fault's stack is not the four
    pages that [tables_init] counts on. Otherwise any file with the image's
    segments is one that [inspect_segments] accepts, from 1 MiB to the image's
    end; the symbols satisfy all that the kernel assumes of them; and the
    protection [paging_init] gives to the page of any byte of a segment - not
    writable or not executable - is that of the segment's header. *)
Theorem linked_image_loads o d n :
  objects_ok o →
  match link o with
  | None => size (df_stack o) ≠ Tables.sizeof_double_fault_stack
  | Some x =>
      size (df_stack o) = Tables.sizeof_double_fault_stack ∧
      (image_end x ≤ 65 * 1024 * 1024 → written x d n →
       inspect_segments d (read_header d) n = inr {| base := 0x100000; end_ := image_end x |} ∧
       linked (layout x) 0x100000 (image_end x - 0x100000) ∧
       ∀ i a, 0 ≤ i < 3 → let p := program d (read_header d) i in
         vaddr p ≤ a < vaddr p + memsz p →
         let f := page_flags (layout x) (a / 4096 * 4096) in
         has_bits f 1 = true ∧ has_bits f 2 = has_bits (p_flags p) 2 ∧
         has_bits f NX = negb (has_bits (p_flags p) 1))
  end.
Proof.
  intros Ho. pose proof (link_stack o Ho) as Hdf. destruct (link o) as [x|] eqn:Hx; [|exact Hdf].
  split; [exact Hdf|]. intros Hend Hd. destruct (link_placed o x Ho Hx) as [start Hp].
  pose proof (image_loadable o x start d n Ho Hp Hd ltac:(lia)) as Hload.
  split; [|split].
  - apply inspect_exactly; [by rewrite (wr_count _ _ _ Hd)|done].
  - exact (image_linked o x start Ho Hp).
  - intros i a Hi p Ha. destruct (image_segment o x start d n Hp Hd i Hi) as (s & Hs & _ & Hf & Hv & _ & _ & Hm & _).
    unfold p in Ha. rewrite Hv, Hm in Ha. cbv zeta. unfold p. rewrite Hf.
    rewrite (image_page_flags o x start Ho Hp _ s a Hs Ha).
    by destruct (segment_cases o x start Hp _ s Hs) as [(_ & -> & _)|[(_ & -> & _)|(_ & -> & _)]].
Qed.

(** *** At a concrete input *)

Module Demo.

Definition objects : OBJECTS := {|
  text := {| size := 0x2345; alignment := 16 |}; rodata := {| size := 0xa00; alignment := 8 |};
  data := {| size := 8; alignment := 8 |}; bss := {| size := 0x21010; alignment := 16 |};
  df_stack := {| size := 0x4000; alignment := 4096 |} |}.

(** The headers of the file. *)
Definition file : list Z :=
  [0x7f; 0x45; 0x4c; 0x46; 2; 1; 1; 0; 0; 0; 0; 0; 0; 0; 0; 0] ++
  enc 2 2 ++ enc 2 62 ++ enc 4 1 ++ enc 8 0x100000 ++ enc 8 64 ++ enc 8 0 ++ enc 4 0 ++
  enc 2 64 ++ enc 2 56 ++ enc 2 3 ++ enc 2 0 ++ enc 2 0 ++ enc 2 0 ++
  enc_program 1 5 0x1000 0x100000 0x2345 0x2345 0x1000 ++
  enc_program 1 4 0x4000 0x103000 0xa00 0xa00 0x1000 ++
  enc_program 1 6 0x5000 0x104000 8 0x28000 0x1000.

Definition image : option IMAGE := Eval vm_compute in link objects.

Lemma objects_fine : objects_ok objects.
Proof. split; [|by vm_compute..]. by repeat constructor. Qed.

Lemma file_written : match image with Some x => written x file 0x6000 | None => False end.
Proof.
  split; [by vm_compute..|].
  intros [|[|[|i]]] s [= <-]; vm_compute; repeat split; congruence.
Qed.

End Demo.

Lemma linked_image_loads_witness :
  inspect_segments Demo.file (read_header Demo.file) 0x6000 = inr {| base := 0x100000; end_ := 0x12c000 |}.
Proof.
  pose proof (linked_image_loads Demo.objects Demo.file 0x6000 Demo.objects_fine) as H.
  change (link Demo.objects) with Demo.image in H. destruct H as [_ H].
  exact (proj1 (H ltac:(vm_compute; congruence) Demo.file_written)).
Defined.

End LinkerSpec.
