(* ===== verification/PagingFaults.v ===== *)
(** * Page faults on the kernel's own pages

    What the processor makes of a page fault: the frame of the exception goes
    onto the stack in use, or onto the one its gate asks for, through the page
    tables; when that faults too, the double fault is raised. With it the fixture
    of [kernel/entry.S], which pushes below the kernel's stack. *)

From S2P Require Import Prelude State BootInfo X86 Paging PagingSpace PagingCheck.
From S2P Require Import Tables TablesSpec Asm Stubs.

Module PagingFaults.
Import State X86 Paging PagingCheck.
Import Tables(TABLES, kernel_idt, LOADED, cs, data_segments).
Import TablesSpec(GATE, decode_gate, gate_low, gate_high, g_present, g_type).
Import Stubs(EVENT, Build_EVENT, e_vector, e_rip, e_error, e_resume, has_error, entry_stack).

(** Where the code that is executing ends up: in the handler of an exception,
    with the error code on its stack, an address in CR2 and the stack pointer; in
    a shutdown of the processor; or as it does without an exception. *)
Inductive fate :=
  | Handler (vector error cr2 sp : Z)
  | Shutdown
  | Leaves (l : leave).

Section faults.
Context {A : Type}.
(** The descriptor tables, the selectors in use, and whether a double fault sets
    RF in the flags it saves. *)
Context (T : TABLES) (ld : LOADED) (rf : bool).
Implicit Types (k : PAGING A).

(** A push onto the stack at [sp]; a page fault of it is reported with the address
    and the error code. *)
Definition push_word (sp v : Z) : ex (PAGING A) (option (Z * Z)) Z := λ k,
  match write (u64 (sp - 8)) v k with
  | (inr _, k) => (inr (u64 (sp - 8)), k)
  | (inl (Fault a error), k) => (inl (Some (a, error)), k)
  | (inl _, k) => (inl None, k)
  end.

Fixpoint push_words (sp : Z) (l : list Z) : ex (PAGING A) (option (Z * Z)) Z :=
  match l with
  | [] => mret sp
  | v :: l => sp ← push_word sp v; push_words sp l
  end.

(** Through an interrupt gate, from the privilege the kernel runs at, as
    [Stubs.deliver] does it: the frame on an aligned stack. The stack pointer of
    the handler; [None] without a present gate. *)
Definition deliver (e : EVENT) (sp : Z) : ex (PAGING A) (option (Z * Z)) Z :=
  let g := match kernel_idt T !! Z.to_nat (e_vector e) with
           | Some i => decode_gate (gate_low i) (gate_high i)
           | None => decode_gate 0 0
           end in
  if negb ((g_present g =? 1) && (g_type g =? 14)) then exit None
  else
    f ← lift (get (λ k, rflags (cpu k)));
    push_words (Z.land (entry_stack T g sp) (not64 15))
      ([data_segments ld; sp; if e_resume e then Z.lor f 0x10000 else f; cs ld; e_rip e] ++
       if has_error (e_vector e) then [e_error e] else []).

(** A page fault of the instruction at [rip]. When its delivery fails, the double
    fault is delivered instead; CR2 has the last address that faulted. *)
Definition page_fault (rip sp a error : Z) : st (PAGING A) fate := λ k,
  match deliver {| e_vector := 14; e_rip := rip; e_error := error; e_resume := true |} sp k with
  | (inr p, k) => (Handler 14 error a p, k)
  | (inl again, k) =>
      match deliver {| e_vector := 8; e_rip := rip; e_error := 0; e_resume := rf |} sp k with
      | (inr p, k) => (Handler 8 0 (default a (fst <$> again)) p, k)
      | (inl _, k) => (Shutdown, k)
      end
  end.

(** Code whose page faults happen at the instruction at [rip], with the stack at
    [sp]. *)
Definition executing {X} (rip sp : Z) (m : ex (PAGING A) leave X) : ex (PAGING A) fate X := λ k,
  match m k with
  | (inr x, k) => (inr x, k)
  | (inl (Fault a error), k) => let '(f, k) := page_fault rip sp a error k in (inl f, k)
  | (inl l, k) => (inl (Leaves l), k)
  end.

(** [ud2] at [rip], with [cr2] as it was; a page fault of its delivery is delivered
    in its place. *)
Definition ud2 {X} (rip sp cr2 : Z) : ex (PAGING A) fate X := λ k,
  match deliver {| e_vector := 6; e_rip := rip; e_error := 0; e_resume := true |} sp k with
  | (inr p, k) => (inl (Handler 6 0 cr2 p), k)
  | (inl (Some (a, error)), k) => let '(f, k) := page_fault rip sp a error k in (inl f, k)
  | (inl None, k) => (inl Shutdown, k)
  end.

(** The fixture: the stack pointer goes to the low end of the stack, then the two
    instructions at [push] and behind it. *)
Definition paging_test_stack_overflow (kernel_boot_info push cr2 : Z) : ex (PAGING A) fate unit :=
  rax ← lift (get (λ _, kernel_boot_info));
  rsp ← lift (get (λ k, stack_base (read_info (mem k) rax)));
  executing push rsp (write (u64 (rsp - 8)) rax);;
  ud2 (push + 1) (u64 (rsp - 8)) cr2.

End faults.

End PagingFaults.
