(* ===== verification/PagingFixtures.v ===== *)
(** * The fault fixtures of [kernel/paging_check.c] and [kernel/entry.S]

    Each fixture violates one protection on purpose. They show that the
    protections are real: each ends in the handler of the exception that its
    violation raises, with the error code that tells which it was. *)

From S2P Require Import Prelude State BootInfo PmmInterface Pmm X86.
From S2P Require Import Paging PagingBits PagingModel PagingOps PagingStep PagingSpace.
From S2P Require Import PagingInit PagingInitStep PagingInitSpec PagingWorld PagingCheck PagingCheckSpec.
From S2P Require Import Elf BootMain LoaderSpec BootMemory Linker LinkerSpec.
From S2P Require Import Tables TablesSpec Stubs StubsSpec PagingFaults.
Import State X86 Paging PagingBits PagingModel PagingOps PagingStep PagingSpace.
Import PagingInit PagingInitStep PagingInitSpec PagingWorld PagingCheck PagingCheckSpec BootMemory.

Module PagingFixtures.
Import PagingFaults.
Import Tables(SYMBOLS, TABLES, LOADED, at_double_fault_stack, isr_table, sizeof_double_fault_stack,
  kernel_idt, kernel_tss, tss_ist, idt_gate, tables_init).
Import Stubs(EVENT, Build_EVENT, e_vector, e_rip, e_error, e_resume, entry_stack).
Import TablesSpec(decode_idt_gate, g_present, g_type, g_ist).
Import StubsSpec(stubs_placed, sp_u64, tables_room, tt_ist, filled_gates).

(** ** Violations *)

Section violations.
Context {A : Type} `{!PmmApi A} `{!PmmContract A}.
Context (M : gmap Z (Z * Z)) (pool : gset Z).
Implicit Types (k : PAGING A).

(** The page tables map [M], and are made of pages of [pool]. *)
Definition intact k : Prop := ∃ r, good k r ∧ decode <$> leaf r = M ∧ pmm_pool (pmm k) = pool.

Lemma wp_intact_access a (Q : option (Z * Z) → PAGING A → Prop) k :
  intact k → (∀ k', intact k' → mem k' = mem k → Q (M !! vpn a) k') → wp (access a) Q k.
Proof.
  intros (r & Hg & HM & Hp) HQ. unfold wp. destruct (access_good k r a Hg) as [Hg' Ha].
  assert (mem (snd (access a k)) = mem k ∧ pmm (snd (access a k)) = pmm k) as [Hm Hpm].
  { unfold access. destruct (tlb (cpu k) !! vpn a); [done|]. by destruct (walk k a). }
  destruct (access a k) as [x k']. cbn [fst snd] in *. rewrite Ha, <- lookup_fmap, HM.
  apply HQ; [|done]. exists r. by rewrite Hpm.
Qed.

(** A store outside the pool is none into a table. *)
Lemma intact_store x v k :
  page_of x ∉ pool → intact k → intact (with_mem k (store (mem k) x v)).
Proof.
  intros Hx (r & Hg & HM & Hp). exists r. split; [|done]. apply good_with_mem; [done|].
  intros y Hy. apply load_store_ne. intros ->. apply Hx. rewrite <- Hp.
  pose proof (g_rep k r Hg) as Hr. apply (pmm_used_pool _ (rep_pmm k r Hr)).
  by apply (table_list_used k r Hr), elem_of_list_to_set.
Qed.

(** The address is one of a writable page, which is none of the pool. *)
Definition writable (a : Z) : Prop := ∃ fr fl,
  M !! vpn a = Some (fr, fl) ∧ has_bits fl PAGING_WRITE = true ∧ page_of (fr + a mod 4096) ∉ pool.

Lemma wpx_intact_write a x E (Q : unit → PAGING A → Prop) k :
  intact k → writable a → (∀ k', intact k' → Q tt k') → wpx (write a x) E Q k.
Proof.
  intros Hk (fr & fl & Hx & Hp & Ho) HQ. apply wpx_bind, wpx_lift, wp_intact_access; [done|].
  intros k' Hk' _. rewrite Hx, Hp. apply wpx_lift, wp_modify, HQ. by apply intact_store.
Qed.

Lemma wpx_intact_write_byte a x E (Q : unit → PAGING A → Prop) k :
  intact k → writable a → (∀ k', intact k' → Q tt k') → wpx (write_byte a x) E Q k.
Proof.
  intros Hk (fr & fl & Hx & Hp & Ho) HQ. apply wpx_bind, wpx_lift, wp_intact_access; [done|].
  intros k' Hk' _. rewrite Hx, Hp. apply wpx_lift, wp_modify, HQ. by apply intact_store.
Qed.

(** Only a page fault: neither the code behind nor another way out. *)
Definition raises {X} (a error : Z) (m : ex (PAGING A) leave X) k : Prop :=
  wpx m (λ r k', r = Fault a error ∧ intact k') (λ _ _, False) k.

Lemma raises_bind {X Y} a e (m : ex (PAGING A) leave X) (f : X → ex (PAGING A) leave Y) k :
  raises a e m k → raises a e (m ≫= f) k.
Proof. intros H. apply wpx_bind. by eapply wpx_mono; [exact H|..]. Qed.

(** What each access says of its violation. *)
Lemma raises_write a x fr fl k :
  intact k → M !! vpn a = Some (fr, fl) → has_bits fl PAGING_WRITE = false → raises a 3 (write a x) k.
Proof.
  intros Hk Hx Hp. apply wpx_bind, wpx_lift, wp_intact_access; [done|]. intros k' Hk' _.
  by rewrite Hx, Hp.
Qed.

Lemma raises_write_none a x k : intact k → M !! vpn a = None → raises a 2 (write a x) k.
Proof.
  intros Hk Hx. apply wpx_bind, wpx_lift, wp_intact_access; [done|]. intros k' Hk' _. by rewrite Hx.
Qed.

Lemma raises_write_byte a x fr fl k :
  intact k → M !! vpn a = Some (fr, fl) → has_bits fl PAGING_WRITE = false →
  raises a 3 (write_byte a x) k.
Proof.
  intros Hk Hx Hp. apply wpx_bind, wpx_lift, wp_intact_access; [done|]. intros k' Hk' _.
  by rewrite Hx, Hp.
Qed.

Lemma raises_read a k : intact k → M !! vpn a = None → raises a 0 (read a) k.
Proof.
  intros Hk Hx. apply wpx_bind, wpx_lift, wp_intact_access; [done|]. intros k' Hk' _. by rewrite Hx.
Qed.

Lemma raises_invoke a fr fl k :
  intact k → M !! vpn a = Some (fr, fl) → has_bits fl PAGING_EXEC = false → raises a 17 (invoke a) k.
Proof.
  intros Hk Hx Hp. apply wpx_bind, wpx_lift, wp_intact_access; [done|]. intros k' Hk' _.
  by rewrite Hx, Hp.
Qed.

(** ** Delivery *)

Context (T : TABLES) (ld : LOADED) (rf : bool).

Lemma wpx_push_words l sp E (Q : Z → PAGING A → Prop) k :
  intact k → 8 * Z.of_nat (length l) ≤ sp < 2 ^ 64 →
  (∀ j, 1 ≤ j ≤ Z.of_nat (length l) → writable (sp - 8 * j)) →
  (∀ k', intact k' → Q (sp - 8 * Z.of_nat (length l)) k') → wpx (push_words sp l) E Q k.
Proof.
  revert sp k. induction l as [|v l IH]; intros sp k Hk Hsp Hw HQ; cbn [push_words].
  { apply wpx_ret. specialize (HQ k Hk). cbn in HQ. by rewrite Z.sub_0_r in HQ. }
  cbn [length] in *.
  assert (u64 (sp - 8) = sp - 8) as Hu by (apply u64_small; unfold is_u64; lia).
  apply wpx_bind. unfold push_word. rewrite Hu.
  pose proof (wpx_intact_write (sp - 8) v (λ _ _, False) (λ _ k', intact k') k Hk) as H.
  unfold wpx in H |- *. replace (sp - 8) with (sp - 8 * 1) in H at 1 by lia.
  specialize (H (Hw 1 ltac:(lia)) ltac:(done)).
  destruct (write (sp - 8) v k) as [[r|u] k']; [done|].
  apply IH; [done|lia| |].
  - intros j Hj. replace (sp - 8 - 8 * j) with (sp - 8 * (j + 1)) by lia. apply Hw. lia.
  - intros k2 Hk2. replace (sp - 8 - 8 * Z.of_nat (length l)) with (sp - 8 * Z.of_nat (S (length l))) by lia.
    by apply HQ.
Qed.

(** Onto a page that is not there. *)
Lemma wpx_push_nowhere v l sp (E : option (Z * Z) → PAGING A → Prop) Q k :
  intact k → M !! vpn (u64 (sp - 8)) = None →
  (∀ k', intact k' → E (Some (u64 (sp - 8), 2)) k') → wpx (push_words sp (v :: l)) E Q k.
Proof.
  intros Hk Hx HE. apply wpx_bind. unfold push_word.
  pose proof (raises_write_none (u64 (sp - 8)) v k Hk Hx) as H. unfold raises, wpx in H |- *.
  destruct (write _ v k) as [[r|u] k']; [|done]. destruct H as [-> H]. by apply HE.
Qed.

Section gate.
Context (e : EVENT) (target : Z).
Context (Hg : kernel_idt T !! Z.to_nat (e_vector e) = Some (idt_gate target (e_vector e))).
Context (Htarget : is_u64 target).

(** The stack of the frame: the double fault has its own. *)
Definition frame_stack (sp : Z) : Z :=
  (if e_vector e =? 8 then nth 0 (tss_ist (kernel_tss T)) 0 else sp) / 16 * 16.

Lemma deliver_frame sp k :
  is_u64 sp → is_u64 (nth 0 (tss_ist (kernel_tss T)) 0) →
  deliver T ld e sp k = push_words (frame_stack sp)
    ([Tables.data_segments ld; sp; if e_resume e then Z.lor (rflags (cpu k)) 0x10000 else rflags (cpu k);
      Tables.cs ld; e_rip e] ++ if Stubs.has_error (e_vector e) then [e_error e] else []) k.
Proof.
  intros Hsp Hist. unfold deliver. rewrite Hg, decode_idt_gate by done.
  cbn [g_present g_type Z.eqb Pos.eqb andb negb].
  unfold mbind, ex_bind, lift, get. unfold entry_stack, frame_stack. cbn [g_ist].
  destruct (e_vector e =? 8); cbn [Z.eqb Z.sub Z.to_nat Z.add Z.opp Z.pos_sub];
    by rewrite (land_align _ 4) by (done || lia).
Qed.

End gate.

(** The handlers' gates, as [tables_init] fills them. *)
Context (gates : Z → Z).
Context (HT : ∀ v, 0 ≤ v < 256 → kernel_idt T !! Z.to_nat v = Some (idt_gate (gates v) v)).
Context (Hgates : ∀ v, 0 ≤ v < 256 → is_u64 (gates v)).
Context (Hist : is_u64 (nth 0 (tss_ist (kernel_tss T)) 0)).

(** The six words of a frame with an error code fit below [sp]. *)
Definition room_below (sp : Z) : Prop :=
  48 ≤ sp / 16 * 16 ∧ ∀ j, 1 ≤ j ≤ 6 → writable (sp / 16 * 16 - 8 * j).

Lemma executing_raises {X} rip sp a error (m : ex (PAGING A) leave X) k :
  raises a error m k → is_u64 sp → room_below sp →
  fst (executing T ld rf rip sp m k) = inl (Handler 14 error a (sp / 16 * 16 - 48)).
Proof.
  intros Hm Hsp [H48 Hw]. unfold raises, wpx in Hm. unfold executing.
  destruct (m k) as [[r|x] k']; [|done]. destruct Hm as [-> Hk']. unfold page_fault.
  rewrite (deliver_frame _ (gates 14)) by (apply HT || apply Hgates || done; cbn; lia).
  change (frame_stack _ sp) with (sp / 16 * 16). unfold is_u64 in Hsp.
  match goal with |- context [push_words _ ?l k'] =>
    pose proof (wpx_push_words l (sp / 16 * 16) (λ _ _, False) (λ p _, p = sp / 16 * 16 - 48) k' Hk') as H end.
  unfold wpx in H. change (Z.of_nat (length _)) with 6 in H. specialize (H ltac:(zdm) Hw ltac:(done)).
  destruct (push_words _ _ k') as [[r|p] k2]; [done|]. by subst p.
Qed.

(** Without room there, it is the double fault. *)
Lemma executing_double {X} rip sp error a (m : ex (PAGING A) leave X) k :
  let ist := nth 0 (tss_ist (kernel_tss T)) 0 in
  raises a error m k → is_u64 sp → M !! vpn (u64 (sp / 16 * 16 - 8)) = None → room_below ist →
  fst (executing T ld rf rip sp m k) =
    inl (Handler 8 0 (u64 (sp / 16 * 16 - 8)) (ist / 16 * 16 - 48)).
Proof.
  intros ist Hm Hsp Hx [H48 Hw]. unfold raises, wpx in Hm. unfold executing.
  destruct (m k) as [[r|x] k']; [|done]. destruct Hm as [-> Hk']. unfold page_fault.
  rewrite (deliver_frame _ (gates 14)) by (apply HT || apply Hgates || done; cbn; lia).
  change (frame_stack _ sp) with (sp / 16 * 16).
  match goal with |- context [push_words _ (?l ++ ?l') k'] =>
    pose proof (wpx_push_nowhere (hd 0 l) (tl l ++ l') (sp / 16 * 16)
      (λ r k2, r = Some (u64 (sp / 16 * 16 - 8), 2) ∧ intact k2) (λ _ _, False) k' Hk' Hx) as H end.
  unfold wpx in H. cbn [hd tl app] in H |- *. specialize (H ltac:(done)).
  destruct (push_words _ _ k') as [[r|p] k2]; [|done]. destruct H as [-> Hk2].
  rewrite (deliver_frame _ (gates 8)) by (apply HT || apply Hgates || done; cbn; lia).
  change (frame_stack _ sp) with (ist / 16 * 16). change (is_u64 ist) in Hist. unfold is_u64 in Hist.
  match goal with |- context [push_words _ ?l k2] =>
    pose proof (wpx_push_words l (ist / 16 * 16) (λ _ _, False) (λ p _, p = ist / 16 * 16 - 48) k2 Hk2) as H end.
  unfold wpx in H. change (Z.of_nat (length _)) with 6 in H. specialize (H ltac:(zdm) Hw ltac:(done)).
  destruct (push_words _ _ k2) as [[r|p] k3]; [done|]. by subst p.
Qed.

End violations.


(** ** The three fixtures of the dynamic window *)

Section window.
Context {A : Type} `{!PmmApi A} `{!PmmContract A}.
Context (L : LAYOUT) (info : Z) (k0 : PAGING A) (M : gmap Z (Z * Z)).
Context (Hck : checkable L info k0 M).
Implicit Types (k : PAGING A).

Lemma holds_intact own M' n t k : holds k0 own M' n t k → intact M' (pmm_pool (pmm k0)) k.
Proof.
  intros [(r & Hg & Ha) _ _ Hc]. exists r. split; [done|].
  split; [exact (f_equal sp_map Ha)|apply Hc].
Qed.

(** A call that returns. *)
Lemma wpx_invoke own M' n t a fr fl E (Q : unit → PAGING A → Prop) k :
  holds k0 own M' n t k →
  is_u64 a → a mod 4096 = 0 → M' !! vpn a = Some (fr, fl) → has_bits fl PAGING_EXEC = true →
  load (mem k) fr = 0xc3 →
  (∀ k', holds k0 own M' n t k' → Q tt k') → wpx (invoke a) E Q k.
Proof.
  intros Hw Ha H0 Hx Hp Hc HQ. apply wpx_bind, wpx_lift. eapply wp_access; [exact Hw|done|].
  intros k' Hw' Hm. rewrite Hx, Hp. apply wpx_bind, wpx_lift, wp_get.
  rewrite H0, Z.add_0_r, Hm, Hc. apply wpx_ret. by apply HQ.
Qed.

(** The error code of each mode's fault. *)
Definition mode_error (mode : Z) : Z := if mode =? 0 then 3 else if mode =? 1 then 17 else 0.

Definition fixture_raises (room : bool) (mode : Z) (r : leave) k' : Prop :=
  if room then r = Fault V (mode_error mode) ∧ ∃ v, intact (window_map M v None) (pmm_pool (pmm k0)) k'
  else r = Spins.

Lemma raises_fixture v mode {X} (m : ex (PAGING A) leave X) k :
  raises (window_map M v None) (pmm_pool (pmm k0)) V (mode_error mode) m k →
  wpx m (fixture_raises true mode) (λ _ _, False) k.
Proof.
  intros H. eapply wpx_mono; [exact H| |done]. intros r k' [-> Hk]. split; [done|]. by exists v.
Qed.

Lemma fault_check_spec mode n t k :
  live k0 M ∅ None None n t k →
  wpx (fault_check mode) (fixture_raises (bool_decide (4 ≤ n ∧ t + 3 ≤ MAX_TABLES)) mode) (λ _ _, False) k.
Proof.
  intros Hl. unfold fault_check. apply wpx_bind. eapply live_alloc; [exact Hck|exact Hl| |].
  2:{ intros k' ->. apply wpx_bind, wpx_ret, wpx_bind. cbn [insist].
      by rewrite bool_decide_false by (cbn; lia). }
  intros p k1 _ Hl1 _. apply wpx_bind.
  eapply live_map_V; [exact Hck|exact Hl1|set_solver|done|by vm_compute| |].
  2:{ intros k' Hn _ _. apply wpx_bind. rewrite bool_decide_false; [done|].
      intros []. apply Hn. unfold fits. cbn. lia. }
  intros k2 [H1 H2] Hl2 _. cbn in H1, H2. apply wpx_bind, wpx_ret.
  rewrite bool_decide_true by lia.
  apply wpx_bind. eapply live_write_V; [exact Hck|exact Hl2|done|set_solver|]. intros k3 Hl3 Hm3.
  apply wpx_bind. eapply (wpx_mono _ (fixture_raises true mode) _ (λ _ _, False)); [|done|done].
  unfold mode_error in *. destruct (mode =? 0) eqn:H0; [|destruct (mode =? 1) eqn:H17].
  - apply wpx_bind. eapply live_protect; [exact Hl3|done|by vm_compute|].
    intros k4 Hl4 _. apply wpx_bind, wpx_ret. eapply raises_fixture. unfold mode_error. rewrite H0.
    eapply raises_write; [by eapply holds_intact|by rewrite window_V|done].
  - apply wpx_bind. eapply live_protect; [exact Hl3|done|by vm_compute|].
    intros k4 Hl4 Hk4. apply wpx_bind, wpx_ret.
    apply wpx_bind. eapply wpx_invoke; [exact Hl4|by vm_compute|by vm_compute|apply window_V|by vm_compute| |].
    { rewrite Hk4, Hm3, load_store_eq; [done..|]. eapply live_taken; [exact Hck|exact Hl3|set_solver]. }
    intros k5 Hl5. apply wpx_bind. eapply live_protect; [exact Hl5|done|by vm_compute|].
    intros k6 Hl6 _. apply wpx_bind, wpx_ret. eapply raises_fixture. unfold mode_error. rewrite H0, H17.
    eapply raises_invoke; [by eapply holds_intact|by rewrite window_V|done].
  - apply wpx_bind. eapply live_unmap_V; [exact Hck|exact Hl3|done|].
    intros k4 Hl4 _. apply wpx_bind, wpx_ret. eapply raises_fixture. unfold mode_error. rewrite H0, H17.
    eapply raises_bind, raises_read; [by eapply holds_intact|by rewrite window_V].
Qed.

End window.

(** ** The fixtures of the kernel's own pages *)

(** The boot stack as the loader places it: whole pages, between guards that are
    not the image's. *)
Record boot_stack (b : BOOT_INFO) : Prop := {
  bs_aligned : stack_base b mod 4096 = 0 ∧ stack_size b mod 4096 = 0;
  bs_apart : kernel_base b + kernel_size b ≤ stack_base b - 4096 ∨
             stack_base b + stack_size b + 4096 ≤ kernel_base b;
}.

(** The double fault's stack as the linker script places it: between its guards,
    behind the code and the read-only data. *)
Record double_fault_placed (L : LAYOUT) (sy : SYMBOLS) : Prop := {
  dp_low : at_double_fault_stack sy = double_fault_guard_low L + 4096;
  dp_high : double_fault_guard_high L = at_double_fault_stack sy + sizeof_double_fault_stack;
  dp_text : kernel_text_end L ≤ double_fault_guard_low L;
  dp_rodata : kernel_rodata_end L ≤ double_fault_guard_low L;
}.


#[local] Existing Instances Pmm.Pmm_api Pmm.Pmm_contract Pmm.pmm_wf_dec.

Section kernel.
Context (L : LAYOUT) (m : ram) (info : Z) (M : gmap Z (Z * Z)).
Context (Hpl : placement L m (read_info m info)) (Hkm : kernel_mapping L info m M).

Lemma vpn_low a : 0 ≤ a → 256 ≤ a / 4096 < 2 ^ 20 → vpn a = a / 4096.
Proof. intros H0 Ha. unfold vpn. rewrite Z.mod_small; [done|lia]. Qed.

Lemma base_nonneg : 0 ≤ kernel_base (read_info m info).
Proof. pose proof (read_info_range m info) as H. unfold is_u64 in H. cbv zeta in H. lia. Qed.

Lemma image_vpn x :
  kernel_base (read_info m info) ≤ x <
    kernel_base (read_info m info) + kernel_size (read_info m info) → vpn x = x / 4096.
Proof.
  intros Hx. pose proof base_nonneg. apply vpn_low; [lia|]. apply (km_low _ _ _ _ Hkm). left. left. by apply inside_overlaps.
Qed.

Lemma guard_unmapped g :
  0 ≤ g → g ∈ guards L (read_info m info) → M !! vpn g = None.
Proof.
  intros H0 Hg.
  assert (guard_page (guards L (read_info m info)) (g / 4096)) as Hq
    by by apply (list_elem_of_fmap_2 (λ g, g / 4096)).
  rewrite vpn_low; [by apply (km_guards _ _ _ _ Hkm)|done|]. apply (km_low _ _ _ _ Hkm). by right.
Qed.

(** Below an aligned stack lies its guard. *)
Lemma stack_overflow_unmapped :
  let base := stack_base (read_info m info) in
  base mod 4096 = 0 → M !! vpn (u64 (base - 8)) = None.
Proof.
  intros base Hal. assert (is_u64 base) as Hb by apply load_range. unfold is_u64 in Hb.
  assert (u64 (base - 4096) ∈ guards L (read_info m info)) as Hg by by left.
  pose proof (u64_range (base - 4096)) as Hu. unfold is_u64 in Hu.
  rewrite <- (guard_unmapped _ (proj1 Hu) Hg). f_equal.
  assert (256 ≤ u64 (base - 4096) / 4096 < 2 ^ 20) as Hlow.
  { apply (km_low _ _ _ _ Hkm). right. by apply (list_elem_of_fmap_2 (λ g, g / 4096)). }
  unfold u64 in *. unfold vpn. f_equal. zdm.
Qed.

(** Where a section's page is mapped, and how. *)
Lemma section_page a f :
  kernel_base (read_info m info) ≤ a <
    kernel_base (read_info m info) + kernel_size (read_info m info) →
  ¬ guard_page (guards L (read_info m info)) (a / 4096) →
  page_flags L (a / 4096 * 4096) = leaf_flags f → 0 ≤ f < 4 →
  M !! vpn a = Some (a / 4096 * 4096, f).
Proof.
  intros Ha Hg Hf H4. pose proof base_nonneg. rewrite (image_vpn a) by done.
  assert (kernel_page info (read_info m info) (a / 4096)) as Hq by (left; by apply inside_overlaps).
  rewrite (km_mapped _ _ _ _ Hkm) by done. unfold id_entry. rewrite Hf. f_equal.
  pose proof (km_low _ _ _ _ Hkm _ (or_introl Hq)). apply decode_entry; [|done].
  unfold frame, PMM_PAGE_SIZE, PMM_LIMIT. split; [lia|zdm].
Qed.

(** ** The two stacks *)

Context (pool : gset Z).
Context (Hpool : ∀ a, a ∈ pool → ¬ Pmm.boot_reserved info (read_info m info) (a / 4096)).
Context (Hstack : boot_stack (read_info m info)).
Context (Hend : stack_base (read_info m info) + stack_size (read_info m info) < 2 ^ 64).

(** The image, the boot stack and its guards are at low addresses. *)
Lemma low_addresses :
  let b := read_info m info in
  0x100000 ≤ kernel_base b ∧ 0 < kernel_size b ∧ kernel_base b + kernel_size b ≤ 2 ^ 32 ∧
  0x101000 ≤ stack_base b ∧ 0 ≤ stack_size b ∧ stack_base b + stack_size b < 2 ^ 32.
Proof.
  intros b. pose proof base_nonneg as H0. pose proof (read_info_range m info) as Hr. cbv zeta in Hr.
  destruct Hpl as [[Ht _ _ _] _], Hstack as [[Hb Hs] _].
  fold b in H0, Hr, Hend, Ht, Hb, Hs. unfold is_u64 in Hr.
  assert (∀ x, kernel_base b ≤ x < kernel_base b + kernel_size b → 256 ≤ x / 4096 < 2 ^ 20) as Hk
    by (intros x Hx; apply (km_low _ _ _ _ Hkm); left; left; by apply inside_overlaps).
  pose proof (Hk (kernel_base b) ltac:(lia)). pose proof (Hk (kernel_base b + kernel_size b - 1) ltac:(lia)).
  assert (256 ≤ u64 (stack_base b - 4096) / 4096 < 2 ^ 20) as Hg1
    by (apply (km_low _ _ _ _ Hkm); right; apply (list_elem_of_fmap_2 (λ g, g / 4096)); by left).
  assert (256 ≤ u64 (stack_base b + stack_size b) / 4096 < 2 ^ 20) as Hg2
    by (apply (km_low _ _ _ _ Hkm); right; apply (list_elem_of_fmap_2 (λ g, g / 4096)); right; by left).
  unfold u64 in Hg1, Hg2. zdm.
Qed.

(** The guards as addresses. *)
Lemma guard_pages q :
  guard_page (guards L (read_info m info)) q ↔
  q * 4096 = stack_base (read_info m info) - 4096 ∨
  q * 4096 = stack_base (read_info m info) + stack_size (read_info m info) ∨
  q = double_fault_guard_low L / 4096 ∨ q = double_fault_guard_high L / 4096.
Proof.
  pose proof low_addresses as Hlow. cbv zeta in Hlow. destruct Hstack as [[Hb Hs] _].
  unfold guard_page, guards. rewrite !fmap_cons, !elem_of_cons, fmap_nil, elem_of_nil.
  rewrite !u64_small by (unfold is_u64; lia). split.
  - intros [->|[->|[->|[->|[]]]]]; [left; zdm|right; left; zdm|auto..].
  - intros [H|[H|[->| ->]]]; [left; zdm|right; left; zdm|auto..].
Qed.

(** Where everything is. *)
Ltac geometry :=
  pose proof low_addresses as Hlow; cbv zeta in Hlow; pose proof guard_pages as Hg;
  destruct Hstack as [[Hb Hs] Hap], Hpl as [[Ht Hro Hdf Hal] _];
  rewrite !Forall_cons in Hal; destruct Hal as (Ha1 & Ha2 & Ha3 & Ha4 & Ha5 & Ha6 & _).

(** Outside the code and the read-only data. *)
Lemma plain_flags a :
  ¬ kernel_text_start L ≤ a < kernel_text_end L → ¬ kernel_rodata_start L ≤ a < kernel_rodata_end L →
  page_flags L a = leaf_flags PAGING_WRITE.
Proof.
  intros Ht Hro. unfold page_flags.
  destruct (Z.leb_spec (kernel_text_start L) a), (Z.ltb_spec a (kernel_text_end L)),
    (Z.leb_spec (kernel_rodata_start L) a), (Z.ltb_spec a (kernel_rodata_end L)); done || lia.
Qed.

(** A page the kernel writes to. *)
Lemma writable_word a :
  kernel_page info (read_info m info) (a / 4096) →
  ¬ guard_page (guards L (read_info m info)) (a / 4096) →
  Pmm.boot_reserved info (read_info m info) (a / 4096) →
  page_flags L (a / 4096 * 4096) = leaf_flags PAGING_WRITE →
  0 ≤ a →
  M !! vpn a = Some (a / 4096 * 4096, PAGING_WRITE) ∧ writable M pool a.
Proof.
  intros Hq Hg Hr Hf H0. pose proof (km_low _ _ _ _ Hkm _ (or_introl Hq)) as Hl.
  assert (M !! vpn a = Some (a / 4096 * 4096, PAGING_WRITE)) as Hx.
  { rewrite vpn_low, (km_mapped _ _ _ _ Hkm) by done. unfold id_entry. rewrite Hf. f_equal.
    apply decode_entry; [|by vm_compute]. unfold frame, PMM_PAGE_SIZE, PMM_LIMIT. split; [lia|zdm]. }
  split; [done|]. exists (a / 4096 * 4096), PAGING_WRITE. split; [done|]. split; [by vm_compute|].
  replace (a / 4096 * 4096 + a mod 4096) with a by zdm.
  intros Hin%Hpool. by rewrite (proj1 (page_of_page a)) in Hin.
Qed.

(** The boot stack. *)
Lemma stack_word a :
  stack_base (read_info m info) ≤ a < stack_base (read_info m info) + stack_size (read_info m info) →
  M !! vpn a = Some (a / 4096 * 4096, PAGING_WRITE) ∧ writable M pool a.
Proof.
  intros Ha. geometry.
  assert (Pmm.overlaps (a / 4096) (stack_base (read_info m info)) (stack_size (read_info m info))) as Ho
    by by apply inside_overlaps.
  apply writable_word; [right; by left| |by do 3 right| |lia].
  - rewrite Hg. zdm.
  - apply plain_flags; zdm.
Qed.

(** The double fault's. *)
Context (sy : SYMBOLS) (Hdp : double_fault_placed L sy).

Lemma double_fault_word a :
  at_double_fault_stack sy ≤ a < at_double_fault_stack sy + sizeof_double_fault_stack →
  writable M pool a.
Proof.
  intros Ha. geometry. destruct Hdp as [H1 H2 H3 H4].
  unfold sizeof_double_fault_stack in *.
  assert (Pmm.overlaps (a / 4096) (kernel_base (read_info m info)) (kernel_size (read_info m info))) as Ho
    by (apply inside_overlaps; lia).
  apply writable_word; [by left| |by left| |lia].
  - rewrite Hg. zdm.
  - apply plain_flags; zdm.
Qed.

(** The sections: read-only code and data, and nothing else executable. *)
Lemma text_page : ∃ fl, M !! vpn (kernel_text_start L) = Some (kernel_text_start L, fl) ∧
  has_bits fl PAGING_WRITE = false.
Proof.
  geometry. destruct Hdp as [H1 H2 H3 H4].
  exists PAGING_EXEC. split; [|by vm_compute].
  replace (kernel_text_start L) with (kernel_text_start L / 4096 * 4096) at 2 by zdm.
  apply section_page; [lia| | |by vm_compute].
  - rewrite Hg. unfold sizeof_double_fault_stack in *. zdm.
  - replace (kernel_text_start L / 4096 * 4096) with (kernel_text_start L) by zdm. unfold page_flags.
    by rewrite Z.leb_refl, (proj2 (Z.ltb_lt _ _)) by lia.
Qed.

Lemma rodata_page : ∃ fl, M !! vpn (kernel_rodata_start L) = Some (kernel_rodata_start L, fl) ∧
  has_bits fl PAGING_WRITE = false.
Proof.
  geometry. destruct Hdp as [H1 H2 H3 H4].
  assert (∃ f, page_flags L (kernel_rodata_start L) = leaf_flags f ∧ 0 ≤ f < 4 ∧
    has_bits f PAGING_WRITE = false) as (f & Hf & Hf4 & Hw).
  { unfold page_flags. rewrite Z.leb_refl, (proj2 (Z.ltb_lt _ (kernel_rodata_end L))) by lia.
    destruct (_ && _); [by exists PAGING_EXEC|by exists 0]. }
  exists f. split; [|done].
  replace (kernel_rodata_start L) with (kernel_rodata_start L / 4096 * 4096) at 2 by zdm.
  apply section_page; [lia| | |done].
  - rewrite Hg. unfold sizeof_double_fault_stack in *. zdm.
  - by replace (kernel_rodata_start L / 4096 * 4096) with (kernel_rodata_start L) by zdm.
Qed.

Lemma data_page a :
  kernel_text_end L ≤ a < double_fault_guard_low L →
  ∃ fl, M !! vpn a = Some (a / 4096 * 4096, fl) ∧ has_bits fl PAGING_EXEC = false.
Proof.
  intros Ha. geometry. destruct Hdp as [H1 H2 H3 H4].
  assert (∃ f, page_flags L (a / 4096 * 4096) = leaf_flags f ∧ 0 ≤ f < 4 ∧
    has_bits f PAGING_EXEC = false) as (f & Hf & Hf4 & Hx).
  { unfold page_flags. rewrite (proj2 (Z.ltb_ge (a / 4096 * 4096) (kernel_text_end L))) by zdm.
    rewrite andb_false_r. destruct (_ && _); [by exists 0|by exists PAGING_WRITE]. }
  exists f. split; [|done]. apply section_page; [lia| |done|done].
  rewrite Hg. unfold sizeof_double_fault_stack in *. zdm.
Qed.

End kernel.

(** The linker script places the double fault's stack so. *)
Lemma linked_guard o x :
  Linker.link o = Some x → double_fault_guard_low (Linker.layout x) = Linker.double_fault_guard_low o.
Proof. unfold Linker.link. destruct (negb _); [discriminate|]. by intros [= <-]. Qed.

Lemma linked_double_fault o x sy :
  LinkerSpec.objects_ok o → Linker.link o = Some x →
  at_double_fault_stack sy =
    Linker.ALIGN (Linker.double_fault_guard_low o + 0x1000) (Linker.alignment (Linker.df_stack o)) →
  double_fault_placed (Linker.layout x) sy.
Proof.
  intros Ho Hx Hsy. destruct (LinkerSpec.link_placed o x Ho Hx) as [start Hp].
  pose proof (LinkerSpec.ob_sections _ Ho) as Hok. rewrite !Forall_cons in Hok.
  destruct Hok as (_ & [Hro _] & [Hd _] & _ & [_ [Ha1 Ha2]] & _).
  destruct (LinkerSpec.pc_df _ _ _ Hp) as [Hdf _]. pose proof (LinkerSpec.pc_rodata _ _ _ Hp) as Hpr.
  pose proof (LinkerSpec.pc_data _ _ _ Hp) as Hpd.
  pose proof (LinkerSpec.pc_aligned _ _ _ Hp) as Hal. rewrite !Forall_cons in Hal.
  rewrite <- (linked_guard o x Hx) in Hsy. rewrite LinkerSpec.ALIGN_page in Hsy by (done || zdm).
  clear Hx Hp. split; unfold sizeof_double_fault_stack; lia.
Qed.

(** The loader places the boot stack so, in the middle of its hand-off area. *)
Lemma handed_over_stack info k n dsize dversion :
  info mod 4096 = 0 →
  Elf.k_base k + Elf.k_pages k * 4096 ≤ info ∨ info + BootMain.handoff_pages * 4096 ≤ Elf.k_base k →
  boot_stack (LoaderSpec.info_of info k n dsize dversion).
Proof.
  intros Hal Hap. unfold BootMain.handoff_pages, BootMain.map_capacity in *.
  split; cbn [LoaderSpec.info_of stack_base stack_size kernel_base kernel_size];
    unfold BootMain.map_capacity in *; zdm.
Qed.

(** *** Properties *)

(** The gates and the stack of double faults that [tables_init] fills in. *)
Lemma filled_stack sy stack_top t :
  tables_room t →
  nth 0 (tss_ist (kernel_tss (fst (tables_init sy stack_top t)))) 0 =
    u64 (at_double_fault_stack sy + sizeof_double_fault_stack).
Proof.
  intros Ht. cbn [tables_init fst kernel_tss tss_ist]. pose proof (tt_ist _ Ht) as Hl.
  by destruct (tss_ist (kernel_tss t)).
Qed.

(** A way out is one of what follows too. *)
Lemma exit_bind {S R X Y} (m : ex S R X) (f : X → ex S R Y) s r :
  fst (m s) = inl r → fst ((m ≫= f) s) = inl r.
Proof. unfold mbind, ex_bind. destruct (m s) as [[r0|x] s0]; [by intros [= ->]|by intros [= ]]. Qed.

Lemma lift_get {S R X Y} (f : S → X) (g : X → ex S R Y) s :
  ((a ← lift (get f); g a) : ex S R Y) s = g (f s) s.
Proof. done. Qed.

Lemma room_window {A : Type} `{!PmmApi A} `{!PmmContract A} (M : gmap Z (Z * Z)) L info k0 v pool sp :
  checkable (A:=A) L info k0 M → room_below M pool sp → room_below (window_map M v None) pool sp.
Proof.
  intros Hck [H48 Hw]. split; [done|]. intros j Hj. destruct (Hw j Hj) as (fr & fl & Hx & Hr).
  exists fr, fl. split; [|done]. by eapply window_other.
Qed.

Section running.
Context (L : LAYOUT) (m : ram) (info : Z) (k : PAGING Pmm.PMM) (M : gmap Z (Z * Z)).
Context (Hpl : placement L m (read_info m info)) (Hkm : kernel_mapping L info m M).
Context (Hck : checkable L info k M).
Context (Hpool : ∀ a, a ∈ pmm_pool (pmm k) → ¬ Pmm.boot_reserved info (read_info m info) (a / 4096)).
Context (Hstack : boot_stack (read_info m info)).
Context (Hend : stack_base (read_info m info) + stack_size (read_info m info) < 2 ^ 64).
Context (sy : SYMBOLS) (stack_top : Z) (t : TABLES).
Context (Hsy : stubs_placed sy) (Ht : tables_room t) (Hdp : double_fault_placed L sy).

Abbreviation T := (fst (tables_init sy stack_top t)).
Abbreviation ld := (snd (tables_init sy stack_top t)).
Abbreviation b := (read_info m info).
Abbreviation ist := (at_double_fault_stack sy + sizeof_double_fault_stack).

(** The double fault's guards. *)
Lemma double_fault_guards : 0 ≤ double_fault_guard_low L ∧ 0 ≤ double_fault_guard_high L.
Proof.
  pose proof (base_nonneg m info). destruct Hpl as [[_ _ Hdf _] _]. lia.
Qed.

(** Both stacks have the room of a frame. *)
Lemma stack_room sp :
  stack_base b + 48 ≤ sp / 16 * 16 → sp ≤ stack_base b + stack_size b →
  is_u64 sp ∧ room_below M (pmm_pool (pmm k)) sp.
Proof.
  intros H1 H2. pose proof (low_addresses L m info M Hpl Hkm Hstack Hend) as Hl. cbv zeta in Hl.
  split; [unfold is_u64; zdm|]. split; [lia|]. intros j Hj.
  apply (stack_word L m info M Hpl Hkm _ Hpool Hstack Hend). zdm.
Qed.

Lemma ist_room :
  ist mod 4096 = 0 ∧ nth 0 (tss_ist (kernel_tss T)) 0 = ist ∧ is_u64 ist ∧
  room_below M (pmm_pool (pmm k)) ist.
Proof.
  pose proof (low_addresses L m info M Hpl Hkm Hstack Hend) as Hl. cbv zeta in Hl.
  pose proof (double_fault_word L m info M Hpl Hkm _ Hpool Hstack Hend sy Hdp) as Hw.
  destruct Hpl as [[_ _ Hdf Hal] _], Hdp as [H1 H2 _ _]. rewrite !Forall_cons in Hal.
  assert (ist mod 4096 = 0) as H0 by (rewrite <- H2; apply Hal).
  assert (is_u64 ist) as Hu by (unfold is_u64, sizeof_double_fault_stack in *; lia).
  split; [done|]. split; [rewrite filled_stack by done; by apply u64_small|]. split; [done|].
  unfold sizeof_double_fault_stack in *. split; [zdm|]. intros j Hj. apply Hw. zdm.
Qed.

(** A page fault of what runs on the boot stack is reported. *)
Lemma page_fault_reported {X} rf rip sp a error (test : ex (PAGING Pmm.PMM) leave X) v :
  stack_base b + 48 ≤ sp / 16 * 16 → sp ≤ stack_base b + stack_size b →
  raises (window_map M v None) (pmm_pool (pmm k)) a error test k →
  fst (executing T ld rf rip sp test k) = inl (Handler 14 error a (sp / 16 * 16 - 48)).
Proof.
  intros H1 H2 Hr. destruct (stack_room sp H1 H2) as [Hu Hroom].
  destruct ist_room as (_ & Hi & Hiu & _).
  eapply executing_raises; [|by apply sp_u64|by rewrite Hi|exact Hr|done|by eapply room_window].
  intros w Hw. by apply filled_gates.
Qed.

(** Without a fault the code stays where it is. *)
Lemma spins_reported {X} rf rip sp (test : ex (PAGING Pmm.PMM) leave X) :
  fst (test k) = inl Spins → fst (executing T ld rf rip sp test k) = inl (Leaves Spins).
Proof.
  unfold executing. destruct (test k) as [[r|x] k']; [by intros [= ->]|by intros [= ]].
Qed.

(** A fixture of the window, with room for its mapping and without. *)
Lemma window_reported rf rip sp room mode (test : ex (PAGING Pmm.PMM) leave unit) :
  stack_base b + 48 ≤ sp / 16 * 16 → sp ≤ stack_base b + stack_size b →
  wpx test (fixture_raises k M room mode) (λ _ _, False) k →
  fst (executing T ld rf rip sp test k) =
    inl (if room then Handler 14 (mode_error mode) PAGING_DYNAMIC_BASE (sp / 16 * 16 - 48)
         else Leaves Spins).
Proof.
  intros H1 H2 Hr. destruct room.
  - destruct (test k) as [[r|x] k'] eqn:Hx; unfold wpx in Hr; rewrite Hx in Hr; [|done].
    destruct Hr as [-> [v Hv]]. apply (page_fault_reported rf rip sp _ _ test v); [done..|].
    unfold raises, wpx. by rewrite Hx.
  - apply spins_reported. unfold wpx, fixture_raises in Hr. destruct (test k) as [[r|x] k0]; [by subst r|done].
Qed.

(** The tables are as [paging_init] left them. *)
Context (Hk : intact M (pmm_pool (pmm k)) k) (Hri : read_info (mem k) info = b).

Lemma intact_reported {X} rf rip sp a error (test : ex (PAGING Pmm.PMM) leave X) :
  stack_base b + 48 ≤ sp / 16 * 16 → sp ≤ stack_base b + stack_size b →
  raises M (pmm_pool (pmm k)) a error test k →
  fst (executing T ld rf rip sp test k) = inl (Handler 14 error a (sp / 16 * 16 - 48)).
Proof.
  intros H1 H2 Hr. apply (page_fault_reported rf rip sp a error test None); [done..|].
  by rewrite (window_none L info k M Hck).
Qed.

(** The fixtures of the kernel's pages. *)
Lemma text_write_raises :
  raises M (pmm_pool (pmm k)) (kernel_text_start L) 3 (paging_test_text_write L) k.
Proof.
  destruct (text_page L m info M Hpl Hkm Hstack Hend sy Hdp) as (fl & Hx & Hp).
  by eapply raises_bind, raises_write_byte.
Qed.

Lemma rodata_write_raises :
  raises M (pmm_pool (pmm k)) (kernel_rodata_start L) 3 (paging_test_rodata_write L) k.
Proof.
  destruct (rodata_page L m info M Hpl Hkm Hstack Hend sy Hdp) as (fl & Hx & Hp).
  by eapply raises_bind, raises_write_byte.
Qed.

Lemma data_exec_raises a :
  kernel_text_end L ≤ a < double_fault_guard_low L →
  raises M (pmm_pool (pmm k)) a 17 (paging_test_data_exec a) k.
Proof.
  intros Ha. destruct (data_page L m info M Hpl Hkm Hstack Hend sy Hdp a Ha) as (fl & Hx & Hp).
  by eapply raises_bind, raises_invoke.
Qed.

Lemma stack_exec_raises a :
  stack_base b ≤ a < stack_base b + stack_size b →
  raises M (pmm_pool (pmm k)) a 17 (paging_test_stack_exec a) k.
Proof.
  intros Ha. destruct (stack_word L m info M Hpl Hkm _ Hpool Hstack Hend a Ha) as [Hx Hw].
  apply wpx_bind. eapply wpx_intact_write_byte; [exact Hk|exact Hw|]. intros k' Hk'.
  by eapply raises_bind, raises_invoke.
Qed.

(** The guards. *)
Lemma guard_raises g f :
  0 ≤ g → g ∈ guards L b → f (read_info (mem k) info) = g →
  raises M (pmm_pool (pmm k)) g 0
    (a ← lift (get (λ k, f (read_info (mem k) info))); read_byte a;; check_failed (X:=unit)) k.
Proof.
  intros H0 Hg Hf. apply wpx_bind, wpx_lift, wp_get. rewrite Hf.
  eapply raises_bind, raises_bind, raises_read; [exact Hk|].
  by eapply guard_unmapped.
Qed.

(** Below the stack. *)
Lemma stack_overflow_reported rf push cr2 :
  fst (paging_test_stack_overflow T ld rf info push cr2 k) =
    inl (Handler 8 0 (stack_base b - 8) (ist - 48)).
Proof.
  pose proof (low_addresses L m info M Hpl Hkm Hstack Hend) as Hl. cbv zeta in Hl.
  destruct ist_room as (Hal & Hi & Hiu & Hroom). pose proof (bs_aligned _ Hstack) as [Hb _].
  pose proof (stack_overflow_unmapped L m info M Hkm Hb) as Hx.
  assert (stack_base b / 16 * 16 = stack_base b) as Hb16 by zdm.
  assert (ist / 16 * 16 = ist) as Hi16 by zdm.
  assert (is_u64 (stack_base b)) as Hu by (unfold is_u64; lia).
  unfold paging_test_stack_overflow.
  rewrite !lift_get.
  rewrite Hri. apply exit_bind.
  erewrite (executing_double M (pmm_pool (pmm k)) T ld rf (isr_table sy)) with (X := unit);
    [|intros w Hw; by apply filled_gates|by apply sp_u64|by rewrite Hi
     |by apply raises_write_none|done|by rewrite Hb16|by rewrite Hi].
  by rewrite Hb16, Hi, Hi16, u64_small by (unfold is_u64; lia).
Qed.

End running.

(** C27: every fault fixture ends in the handler of the exception it is for, on the
    state [pmm_init] and [paging_init] leave and with the tables of
    [tables_init]. Writes to the kernel's text and read-only data, execution of
    its data and of its stack, accesses to the four guard pages, and - when the
    four pages the mapping takes can be had - a write to a page whose write
    permission was withdrawn, a call into one whose execute permission was, an
    access to one unmapped, each of them with a warm translation, end in a page
    fault: with the error code that tells the violation (3 for a write, 17 for
    the execution of a page that is there, 0 for a read of one that is not), the
    address in CR2 and the frame on the stack in use. A push at the low end of
    the boot stack ends in a double fault, since no frame fits there: with the
    error code 0, the address of the guard in CR2 and the frame at the top of the
    double fault's own stack. *)
Theorem fault_fixtures_fault L m info s c k sy stack_top t rf rip sp nx_data code push cr2 :
  is_u64 info → Pmm.pmm_init m info Pmm.pmm_bss = (true, s) →
  placement L m (read_info m info) → paging_init L info (booted m s c) = (true, k) →
  stubs_placed sy → tables_room t → double_fault_placed L sy → boot_stack (read_info m info) →
  kernel_text_end L ≤ nx_data < double_fault_guard_low L →
  let b := read_info m info in
  stack_base b ≤ code < stack_base b + stack_size b →
  stack_base b + 48 ≤ sp / 16 * 16 → sp ≤ stack_base b + stack_size b →
  let '(T, ld) := tables_init sy stack_top t in
  let page_fault error address := Handler 14 error address (sp / 16 * 16 - 48) in
  let room := bool_decide (4 ≤ pmm_available (pmm k) ∧ paging_table_count k + 3 ≤ MAX_TABLES) in
  Forall (λ '(test, error, address),
      fst (executing T ld rf rip sp test k) = inl (page_fault error address))
    [(paging_test_text_write L, 3, kernel_text_start L);
     (paging_test_rodata_write L, 3, kernel_rodata_start L);
     (paging_test_data_exec nx_data, 17, nx_data);
     (paging_test_stack_exec code, 17, code);
     (paging_test_stack_low info, 0, stack_base b - 4096);
     (paging_test_stack_high info, 0, stack_base b + stack_size b);
     (paging_test_df_low L, 0, double_fault_guard_low L);
     (paging_test_df_high L, 0, double_fault_guard_high L)] ∧
  Forall (λ '(test, error),
      fst (executing T ld rf rip sp test k) =
        inl (if room then page_fault error PAGING_DYNAMIC_BASE else Leaves Spins))
    [(paging_test_readonly, 3); (paging_test_nx, 17); (paging_test_unmapped, 0)] ∧
  fst (paging_test_stack_overflow T ld rf info push cr2 k) =
    inl (Handler 8 0 (stack_base b - 8)
           (at_double_fault_stack sy + sizeof_double_fault_stack - 48)).
Proof.
  intros Hu Hi Hpl Hp Hsy Ht Hdp Hst Hnx b Hcode Hsp Hsp'.
  pose proof (pmm_init_started m info s Hu Hi) as Hps.
  destruct (init_running L info Hu m s c k Hps Hpl Hp)
    as [[(r & Hg & Hck & Hkm) Hen _ Hmp Hri] _].
  destruct (start_holds k r Hg Hen) as [Hh _].
  assert (Hpool : ∀ a, a ∈ pmm_pool (pmm k) → ¬ Pmm.boot_reserved info (read_info m info) (a / 4096))
    by (intros a Ha; by apply Hmp).
  pose proof (Pmm.valid_boot_info_spec m info Hu (ps_valid _ _ _ Hps)) as Hv.
  cbv zeta in Hv. unfold UINT64_MAX in Hv.
  assert (Hend : stack_base b + stack_size b < 2 ^ 64) by (subst b; lia). clear Hv.
  assert (Hk : intact (decode <$> leaf r) (pmm_pool (pmm k)) k) by (by exists r).
  pose proof (low_addresses L m info _ Hpl Hkm Hst Hend) as Hl. cbv zeta in Hl. fold b in Hl.
  pose proof (double_fault_guards L m info Hpl) as Hdg. fold b in Hdg.
  rewrite (surjective_pairing (tables_init sy stack_top t)). cbv zeta. split; [|split].
  - rewrite !Forall_cons, Forall_nil. split_and!; [eapply intact_reported; try done..|done].
    + by eapply text_write_raises.
    + by eapply rodata_write_raises.
    + by eapply data_exec_raises.
    + by eapply stack_exec_raises.
    + eapply (guard_raises L m info k _ Hkm Hk (stack_base b - 4096)
        (λ b, u64 (stack_base b - 4096))); [lia| |rewrite Hri]; fold b.
      * rewrite <- (u64_small (stack_base b - 4096)) by (unfold is_u64; lia). by left.
      * by rewrite u64_small by (unfold is_u64; lia).
    + eapply (guard_raises L m info k _ Hkm Hk (stack_base b + stack_size b)
        (λ b, u64 (stack_base b + stack_size b))); [lia| |rewrite Hri]; fold b.
      * rewrite <- (u64_small (stack_base b + stack_size b)) by (unfold is_u64; lia). right. by left.
      * by rewrite u64_small by (unfold is_u64; lia).
    + eapply raises_bind, raises_bind, raises_read; [exact Hk|].
      eapply guard_unmapped; [exact Hkm|lia|]. do 2 right. by left.
    + eapply raises_bind, raises_bind, raises_read; [exact Hk|].
      eapply guard_unmapped; [exact Hkm|lia|]. do 3 right. by left.
  - apply (holds_live _ _ _ _ _ _ _ Hck) in Hh.
    rewrite !Forall_cons, Forall_nil.
    split_and!; [eapply window_reported with (mode := 0)|eapply window_reported with (mode := 1)
      |eapply window_reported with (mode := 2)|done]; try done; by eapply (fault_check_spec L info k _ Hck).
  - by eapply stack_overflow_reported.
Qed.

(** ** Witness *)

(** The kernel of [PagingInitSpec.Demo]: its double fault's stack is between the
    guards, behind a page of data, and the stubs are among its code. *)
Definition demo_symbols : SYMBOLS := {|
  Tables.at_gdt := 0x113100; Tables.at_idt := 0x113200; Tables.at_tss := 0x113140;
  at_double_fault_stack := 0x115000; isr_table := λ v, 0x110800 + 16 * v |}.

(** A word is on the stack, and the fixture's code below. *)
Lemma fault_fixtures_fault_witness :
  let '(T, ld) := tables_init demo_symbols 0x11f000 TablesSpec.tables_bss in
  let k := Demo.running in
  let page_fault error address := Handler 14 error address 0x11efc0 in
  let room := bool_decide (4 ≤ pmm_available (pmm k) ∧ paging_table_count k + 3 ≤ MAX_TABLES) in
  Forall (λ '(test, error, address),
      fst (executing T ld true 0x110200 0x11eff8 test k) = inl (page_fault error address))
    [(paging_test_text_write Demo.layout, 3, 0x110000);
     (paging_test_rodata_write Demo.layout, 3, 0x112000);
     (paging_test_data_exec 0x113000, 17, 0x113000);
     (paging_test_stack_exec 0x11e0f8, 17, 0x11e0f8);
     (paging_test_stack_low Demo.info_at, 0, 0x11c000);
     (paging_test_stack_high Demo.info_at, 0, 0x11f000);
     (paging_test_df_low Demo.layout, 0, 0x114000);
     (paging_test_df_high Demo.layout, 0, 0x119000)] ∧
  Forall (λ '(test, error),
      fst (executing T ld true 0x110200 0x11eff8 test k) =
        inl (if room then page_fault error PAGING_DYNAMIC_BASE else Leaves Spins))
    [(paging_test_readonly, 3); (paging_test_nx, 17); (paging_test_unmapped, 0)] ∧
  fst (paging_test_stack_overflow T ld true Demo.info_at 0x1103f4 0 k) =
    inl (Handler 8 0 0x11cff8 (0x119000 - 48)).
Proof.
  apply (fault_fixtures_fault Demo.layout Demo.boot_ram Demo.info_at Demo.pmm Demo.processor
    Demo.running demo_symbols 0x11f000 TablesSpec.tables_bss true 0x110200 0x11eff8 0x113000 0x11e0f8);
    [done|exact demo_init|exact demo_placement|apply demo_runs; by vm_compute
    |split; cbn [demo_symbols isr_table]; [unfold is_u64; lia|lia]
    |split; [done|done|by repeat constructor]|by split|by split; [by vm_compute|left; by vm_compute]
    |by vm_compute..].
Defined.

End PagingFixtures.
