(* ===== verification/KernelMain.v ===== *)
(** * The kernel's entry: [kernel/main.c]

    The checks of what the loader hands over, and the order in which the parts
    are brought up: the serial line, the descriptor tables, memory, the timer,
    reception, interrupts, and the console for good. *)

From Stdlib Require Import String.
From S2P Require Import Prelude State BootInfo PmmInterface Pmm PmmCheck X86 Paging PagingInit.
From S2P Require Import PagingCheck RxBuffer Devices SerialIrq Irq Serial Timer Text Tables.
From S2P Require Import Console ConsoleSpec KernelConsole.

Module KernelMain.
Import State X86 Paging PagingInit PagingCheck Devices Text Tables.

#[local] Existing Instances Pmm.Pmm_api Pmm.Pmm_contract Pmm.pmm_wf_dec.
#[local] Existing Instances KernelConsole.system_board KernelConsole.system_wire
  KernelConsole.system_contract.

(** ** The whole state *)

(** The processor is that of [drivers]; [memory] sees it while memory is
    initialized. *)
Record MACHINE (D : Type) := {
  drivers : KERNEL D;
  memory : PAGING Pmm.PMM;
  tables : TABLES;
  loaded : option LOADED;
  kernel_boot_info : Z;
  kernel_initial_rsp : Z;
  kernel_observed_rsp : Z;
}.
Arguments Build_MACHINE {D}.
Arguments drivers {D}.
Arguments memory {D}.
Arguments tables {D}.
Arguments loaded {D}.
Arguments kernel_boot_info {D}.
Arguments kernel_initial_rsp {D}.
Arguments kernel_observed_rsp {D}.

(** ** The checks of the boot information *)

Definition valid_boot_header (p : Z) (info : BOOT_INFO) : bool :=
  if (p =? 0) || negb (magic info =? BOOT_INFO_MAGIC) then false
  else if negb (version info =? BOOT_INFO_VERSION) || negb (info_size info =? sizeof_BOOT_INFO)
  then false
  else (flags info =? BOOT_SERVICES_EXITED) && (BootInfo.reserved info =? 0).

Definition valid_memory_map (info : BOOT_INFO) : bool :=
  if (memory_map info =? 0) || (memory_map_size info =? 0) then false
  else if descriptor_size info <? sizeof_BOOT_MEMORY_DESCRIPTOR then false
  else if negb (memory_map_size info mod descriptor_size info =? 0) then false
  else descriptor_version info =? 1.

Definition valid_stack (info : BOOT_INFO) (rsp initial_rsp : Z) : bool :=
  if stack_size info <? 4096 then false
  else if UINT64_MAX - stack_size info <? stack_base info then false
  else
    let top := u64 (stack_base info + stack_size info) in
    if (rsp <? stack_base info) || (top <=? rsp) then false
    else (initial_rsp =? top) && (Z.land initial_rsp 15 =? 0).

Section kernel.
Context {D : Type} `{!Device D}.
Implicit Types (s : MACHINE D).

(** ** Statements *)

Abbreviation boot := (ex (MACHINE D) leave).

Definition set_drivers s (k : KERNEL D) : MACHINE D :=
  {| drivers := k; memory := memory s; tables := tables s; loaded := loaded s;
     kernel_boot_info := kernel_boot_info s; kernel_initial_rsp := kernel_initial_rsp s;
     kernel_observed_rsp := kernel_observed_rsp s |}.
Definition set_memory s (k : PAGING Pmm.PMM) : MACHINE D :=
  {| drivers := drivers s; memory := k; tables := tables s; loaded := loaded s;
     kernel_boot_info := kernel_boot_info s; kernel_initial_rsp := kernel_initial_rsp s;
     kernel_observed_rsp := kernel_observed_rsp s |}.
Definition with_processor (k : KERNEL D) (c : CPU) : KERNEL D :=
  {| Devices.cpu := c; device := device k; trace := trace k; serial := serial k; irq := irq k;
     timer := timer k |}.

Definition driver {A} (m : io D A) : boot A := lift (λ s,
  let '(a, k) := m (drivers s) in (a, set_drivers s k)).

(** A part of the memory management, on the processor of the moment. *)
Definition managing {A} (f : PAGING Pmm.PMM → A * PAGING Pmm.PMM) : st (MACHINE D) A := λ s,
  let '(a, k) := f (with_cpu (memory s) (Devices.cpu (drivers s))) in
  (a, set_memory (set_drivers s (with_processor (drivers s) (Paging.cpu k))) k).
Definition manage (f : PAGING Pmm.PMM → bool * PAGING Pmm.PMM) : boot bool := lift (managing f).

Definition spin {A} : boot A := exit Spins.

Definition set_kernel_boot_info (p : Z) : boot unit := lift (modify (λ s,
  {| drivers := drivers s; memory := memory s; tables := tables s; loaded := loaded s;
     kernel_boot_info := p; kernel_initial_rsp := kernel_initial_rsp s;
     kernel_observed_rsp := kernel_observed_rsp s |})).
Definition set_kernel_observed_rsp (rsp : Z) : boot unit := lift (modify (λ s,
  {| drivers := drivers s; memory := memory s; tables := tables s; loaded := loaded s;
     kernel_boot_info := kernel_boot_info s; kernel_initial_rsp := kernel_initial_rsp s;
     kernel_observed_rsp := rsp |})).

Definition boot_log (message : list Z) : boot unit :=
  written ← driver (Serial.serial_write message);
  if negb written then spin
  else
    flushed ← driver Serial.serial_flush;
    if negb flushed then spin else mret tt.

Definition boot_failure {A} (message : list Z) : boot A :=
  driver (Serial.serial_write message);;
  driver Serial.serial_flush;;
  spin.

(** ** Memory *)

Definition run_pmm_init (info : Z) (k : PAGING Pmm.PMM) : bool * PAGING Pmm.PMM :=
  let '(b, p) := Pmm.pmm_init (mem k) info (pmm k) in (b, with_pmm k p).

(** The check reaches memory at its physical addresses, before [paging_init] by
    the firmware's tables and after it by the kernel's, which map boot RAM to
    itself ([PagingInitSpec]). *)
Definition run_pmm_check (k : PAGING Pmm.PMM) : bool * PAGING Pmm.PMM :=
  let '(b, p, m) := PmmCheck.pmm_boot_check (pmm k) (mem k) in (b, with_mem (with_pmm k p) m).

Definition run_paging_check (L : LAYOUT) : boot bool := λ s,
  match managing (PagingCheck.paging_boot_check L (kernel_boot_info s)) s with
  | (inl (Return b), s) => (inr b, s)
  | other => other
  end.

Definition initialize_memory (L : LAYOUT) (info : Z) : boot unit :=
  ok ← manage (run_pmm_init info);
  ok ← (if (ok : bool) then manage run_pmm_check else mret false);
  (if negb ok then boot_failure (txt "KERNEL ERROR: physical page management" ++ newline)
   else mret tt);;
  boot_log (txt "KERNEL: physical pages ready (4 KiB, self-test passed)" ++ newline);;
  ok ← manage (paging_init L info);
  ok ← (if (ok : bool) then manage run_pmm_check else mret false);
  (if negb ok then boot_failure (txt "KERNEL ERROR: paging initialization or RAM check" ++ newline)
   else mret tt);;
  boot_log (txt "KERNEL: paging ready (own CR3, RAM check passed)" ++ newline);;
  ok ← run_paging_check L;
  (if negb ok then boot_failure (txt "KERNEL ERROR: dynamic paging check" ++ newline)
   else mret tt);;
  boot_log (txt "KERNEL: dynamic paging checks passed" ++ newline).

(** ** The timer *)

(** [timer_check_registers] of [kernel/interrupts.S], as far as the flags are
    concerned: it sets DF and CF, takes the interrupts the next [hlt] waits for
    and looks whether both are still set. The general registers and the
    arithmetic flags it ends with are not part of the model. *)
Definition timer_check_registers : io D bool :=
  set_cpu (λ c, with_rflags c (Z.lor (rflags c) 0x401));;
  KernelConsole.enable;;
  KernelConsole.disable;;
  saved ← get (λ k, x86_read_rflags (Devices.cpu k));
  set_cpu (λ c, with_rflags c (Z.land (rflags c) (not64 0x400)));;
  mret (Z.land saved 0x401 =? 0x401).

Definition initialize_timer : boot unit :=
  ok ← driver Timer.timer_init;
  if negb ok then spin
  else
    ok ← driver timer_check_registers;
    ticks ← driver Timer.timer_ticks;
    if negb ok || (ticks =? 0) then spin
    else boot_log (txt "KERNEL: timer ready (PIT, ~100 Hz)" ++ newline).

(** ** [kernel_main] *)

Definition init_tables (sy : SYMBOLS) (stack_top : Z) : boot unit := lift (modify (λ s,
  let '(t, l) := tables_init sy stack_top (tables s) in
  {| drivers := drivers s; memory := memory s; tables := t; loaded := Some l;
     kernel_boot_info := kernel_boot_info s; kernel_initial_rsp := kernel_initial_rsp s;
     kernel_observed_rsp := kernel_observed_rsp s |})).

(** Up to the call of [console_run]; [rsp] is the stack pointer on entry. *)
Definition kernel_boot (L : LAYOUT) (sy : SYMBOLS) (info rsp : Z) : boot unit :=
  set_kernel_observed_rsp rsp;;
  b ← lift (get (λ s, read_info (mem (memory s)) info));
  initial ← lift (get kernel_initial_rsp);
  if negb (valid_boot_header info b) then spin
  else if negb (valid_memory_map b) || negb (valid_stack b rsp initial) then spin
  else
    set_kernel_boot_info info;;
    ok ← driver Serial.serial_init;
    if negb ok then spin
    else
      boot_log (txt "KERNEL: serial ready (COM1, 115200 8N1)" ++ newline ++
                txt "KERNEL: boot information verified" ++ newline);;
      init_tables sy (u64 (stack_base b + stack_size b));;
      boot_log (txt "KERNEL: GDT/IDT/TSS ready" ++ newline);;
      initialize_memory L info;;
      initialize_timer;;
      ok ← driver Serial.serial_enable_receive;
      (if negb ok then boot_failure (txt "KERNEL ERROR: serial receive IRQ" ++ newline)
       else mret tt);;
      boot_log (txt "KERNEL: serial receive ready (IRQ4, 255-byte buffer)" ++ newline);;
      driver (set_cpu x86_enable_interrupts).

(** What the console runs on. *)
Definition system s : KernelConsole.SYSTEM D :=
  {| KernelConsole.drivers := drivers s; KernelConsole.pages := pmm (memory s);
     KernelConsole.reports := [] |}.

(** The console's outcome after [n] turns, or how the kernel stopped before. *)
Definition kernel_main (L : LAYOUT) (sy : SYMBOLS) (n : nat) (junk : list Z) (info rsp : Z) s :=
  match kernel_boot L sy info rsp s with
  | (inl e, s) => inl (e, s)
  | (inr _, s) => inr (Console.console_run n junk (system s))
  end.

End kernel.

End KernelMain.
