(* ===== verification/RegisterCheck.v ===== *)
(** * The check of the registers

    [timer_check_registers] of [kernel/interrupts.S]: what it answers, whatever
    happens while it waits, and that it is the check of the flags which
    [KernelMain] runs when the interrupts it waits for are taken through the
    stubs. *)

From S2P Require Import Prelude State X86 Devices Irq Tables TablesSpec KernelConsole KernelMain.
From S2P Require Import Asm AsmSpec Disabled Stubs StubsSpec.

Module RegisterCheck.
Import State X86 Devices Tables Asm AsmSpec Disabled Stubs StubsSpec.

(** The registers hold the values they are listed with. *)
Definition holds (f : REG → Z) (l : list (REG * Z)) : bool := forallb (λ x, f (fst x) =? snd x) l.

Lemma holds_ext f g l : (∀ r, r ∈ (fst <$> l) → f r = g r) → holds f l = holds g l.
Proof.
  unfold holds. induction l as [|[r v] l IH]; intros H; [done|]. cbn. rewrite H by by left.
  rewrite IH; [done|]. intros r' Hr'. apply H. by right.
Qed.

Section check.
Context {D : Type} `{!Device D}.
Implicit Types (s : CORE D).
Context (E : stop → CORE D → Prop).

(** Nothing but the flags has changed, and of them only the status. *)
Record reflagged s s' : Prop := {
  rf_reg r : reg s' r = reg s r;
  rf_stack : stack s' = stack s;
  rf_rest : (seg s', tr s', gdtr s', idtr s', cr2 s') = (seg s, tr s, gdtr s, idtr s, cr2 s);
  rf_kernel : kernel s' = with_flags (kernel s) (flags s');
  rf_flags : is_u64 (flags s) → is_u64 (flags s');
  rf_alike : alike (flags s') (flags s);
}.

Lemma reflagged_refl s : reflagged s s.
Proof. split; try done. unfold flags. by rewrite with_flags_same. Qed.

Lemma reflagged_trans s1 s2 s3 : reflagged s1 s2 → reflagged s2 s3 → reflagged s1 s3.
Proof.
  intros [Hr1 Hs1 Ho1 Hk1 Hu1 Ha1] [Hr2 Hs2 Ho2 Hk2 Hu2 Ha2]. split; try (congruence || (by transitivity (flags s2)) || auto).
  by rewrite Hk2, Hk1, with_flags_twice.
Qed.

(** [cmpq] and the [jne] that looks at its result. *)
Lemma wpx_cmp v r (Q : unit → CORE D → Prop) s :
  is_u64 v → is_u64 (reg s r) →
  (∀ s', reflagged s s' → has_bits (flags s') ZF = (reg s r =? v) → Q tt s') →
  wpx (cmp_imm v r) E Q s.
Proof.
  intros Hv Hr HQ. apply wpx_compute. cbn [fst snd].
  match goal with |- context [Z.lor _ ?st] => set (w := st) end.
  assert (is_u64 w ∧ Z.land w (not64 STATUS) = 0) as [Hw Hz] by apply status_sound.
  apply HQ; [split|].
  - intros r'. cbn [set_kernel set_reg reg]. unfold insert, fn_insert. by case_decide; subst.
  - done.
  - done.
  - done.
  - intros Hu. apply is_u64_lor; [|done]. by apply is_u64_land.
  - by apply alike_lor.
  - unfold w. rewrite flags_with, status_zero. unfold is_u64, u64 in *.
    destruct (Z.eqb_spec (reg s r) v) as [->|Hne]; zbool; [by rewrite Z.sub_diag|].
    apply Z.eqb_neq. intros H. apply Hne. zdm.
Qed.

Lemma wpx_check_registers l (Q : bool → CORE D → Prop) s :
  (∀ r, is_u64 (reg s r)) → Forall (λ x, is_u64 (snd x)) l →
  (∀ s', reflagged s s' → Q (holds (reg s) l) s') →
  wpx (check_registers l) E Q s.
Proof.
  revert s. induction l as [|[r v] l IH]; intros s Hu Hl HQ; cbn [check_registers].
  - apply wpx_ret, HQ, reflagged_refl.
  - apply Forall_cons in Hl as [Hv Hl]. cbn [fst snd] in *.
    apply wpx_bind, wpx_cmp; [done..|]. intros s1 H1 Hz.
    apply wpx_bind. unfold equal. apply wpx_bind, wpx_the, wpx_ret. rewrite Hz.
    unfold holds in HQ. cbn [forallb fst snd] in HQ. fold (holds (reg s) l) in HQ.
    destruct (reg s r =? v); cbn [andb] in *.
    + apply IH; [by intros r'; rewrite (rf_reg _ _ H1)|done|]. intros s2 H2.
      rewrite (holds_ext _ _ _ (λ r _, rf_reg _ _ H1 r)). apply HQ. by eapply reflagged_trans.
    + by apply wpx_ret, HQ.
Qed.

Lemma wpx_fill l (Q : unit → CORE D → Prop) s :
  NoDup (fst <$> l) → Forall (λ x, is_u64 (snd x)) l →
  (∀ s', (∀ r v, (r, v) ∈ l → reg s' r = v) → (∀ r, r ∉ (fst <$> l) → reg s' r = reg s r) →
    stack s' = stack s → outside s' = outside s → Q tt s') →
  wpx (fill_registers l) E Q s.
Proof.
  revert s. induction l as [|[r v] l IH]; intros s Hd Hl HQ; cbn [fill_registers foldr].
  - apply wpx_ret, HQ; [|done..]. intros r v H%elem_of_nil. done.
  - apply NoDup_cons in Hd as [Hn Hd]. apply Forall_cons in Hl as [Hv Hl]. cbn [fst snd] in *.
    apply wpx_bind, wpx_step, IH; [done..|]. rewrite u64_small by done.
    intros s' Hin Hout Hs Ho. apply HQ; [| |done|done].
    + intros r' v' [[= -> ->]|H]%elem_of_cons; [|by apply Hin].
      rewrite Hout by done. apply fn_lookup_insert.
    + intros r' [Hne H]%not_elem_of_cons. rewrite Hout by done. by apply fn_lookup_insert_ne.
Qed.

(** ** The verdict *)

Definition intact s : bool := holds (reg s) patterns && (Z.land (flags s) 0x401 =? 0x401).

(** [s'] is [s] with the verdict [b] in RAX. *)
Record decided (b : bool) s s' : Prop := {
  de_rax : reg s' RAX = Z.b2z b;
  de_reg r : r ≠ RAX → reg s' r = reg s r;
  de_stack a : reg s RSP ≤ a → load (stack s') a = load (stack s) a;
  de_rest : (seg s', tr s', gdtr s', idtr s', cr2 s') = (seg s, tr s, gdtr s, idtr s, cr2 s);
  de_kernel : kernel s' = with_flags (kernel s) (flags s');
  de_flags : is_u64 (flags s');
  de_alike : alike (flags s') (Z.land (Z.land (flags s) (not64 IF_BIT)) (not64 DF));
}.

Lemma low_byte x b : u8 (Z.lor (Z.land x (not64 0xff)) (Z.b2z b)) = Z.b2z b.
Proof.
  unfold u8. rewrite <- Z.land_ones by lia. rewrite Z.land_lor_distr_l, <- Z.land_assoc.
  change (Z.land (not64 255) (Z.ones 8)) with 0. rewrite Z.land_0_r. by destruct b.
Qed.

(** [andq; cmpq; sete; movzbl] on the flags in RAX. *)
Lemma wpx_flag_verdict (Q : unit → CORE D → Prop) s :
  is_u64 (flags s) → is_u64 (reg s RAX) →
  (∀ s', reg s' RAX = Z.b2z (Z.land (reg s RAX) 0x401 =? 0x401) →
    (∀ r, r ≠ RAX → reg s' r = reg s r) → stack s' = stack s →
    (seg s', tr s', gdtr s', idtr s', cr2 s') = (seg s, tr s, gdtr s, idtr s, cr2 s) →
    kernel s' = with_flags (kernel s) (flags s') → is_u64 (flags s') → alike (flags s') (flags s) →
    Q tt s') →
  wpx (and_imm 0x401 RAX;; cmp_imm 0x401 RAX;; sete RAX;; movzbl RAX RAX) E Q s.
Proof.
  intros Hf Hr HQ. apply wpx_bind, wpx_compute. cbn [fst snd]. change (u64 0x401) with 0x401.
  match goal with |- context [Z.lor _ ?st] => set (w := st) end.
  assert (is_u64 w ∧ Z.land w (not64 STATUS) = 0) as [Hw Hz] by apply status_sound.
  match goal with |- wpx _ _ _ ?x => set (s1 := x) end.
  assert (reg s1 RAX = Z.land (reg s RAX) 0x401) as H1 by apply fn_lookup_insert.
  apply wpx_bind, wpx_cmp; [by vm_compute|rewrite H1; by apply is_u64_land|].
  intros s2 [Hr2 Hs2 Ho2 Hk2 Hu2 Ha2] Hz2. apply wpx_bind. unfold sete, equal.
  apply wpx_bind, wpx_bind, wpx_the, wpx_ret, wpx_step, wpx_step. rewrite Hz2, H1.
  cbn [set_reg reg]. rewrite fn_lookup_insert, low_byte.
  apply HQ; try done.
  - intros r Hne. cbn [set_reg reg]. rewrite !fn_lookup_insert_ne, Hr2 by done.
    by apply fn_lookup_insert_ne.
  - apply Hu2. apply is_u64_lor; [|done]. by apply is_u64_land.
  - etrans; [exact Ha2|]. by apply alike_lor.
Qed.

(** [s'] is [s] with interrupts off, DF clear and the image [img] of the flags on
    the stack. *)
Record flags_pushed (img : Z) s s' : Prop := {
  fp_rsp : reg s' RSP = reg s RSP - 8;
  fp_reg r : r ≠ RSP → reg s' r = reg s r;
  fp_image : load (stack s') (reg s RSP - 8) = img;
  fp_stack a : reg s RSP ≤ a → load (stack s') a = load (stack s) a;
  fp_rest : (seg s', tr s', gdtr s', idtr s', cr2 s') = (seg s, tr s, gdtr s, idtr s, cr2 s);
  fp_kernel : kernel s' = with_flags (kernel s) (flags s');
  fp_flags : is_u64 (flags s');
  fp_alike : alike (flags s') (Z.land (Z.land (flags s) (not64 IF_BIT)) (not64 DF));
}.

Lemma flags_pushed_reflagged img s1 s2 s3 :
  flags_pushed img s1 s2 → reflagged s2 s3 → flags_pushed img s1 s3.
Proof.
  intros [Hp Hr Hi Hs Ho Hk Hu Ha] [Hr2 Hs2 Ho2 Hk2 Hu2 Ha2].
  split; first [congruence|by auto|by etrans|by rewrite Hk2, Hk, with_flags_twice
    |intros; rewrite ?Hr2, ?Hs2; auto].
Qed.

(** [cli; pushfq; cld] *)
Lemma wpx_flags_pushed {A} (c : asm D A) (Q : A → CORE D → Prop) s :
  is_u64 (flags s) → 8 ≤ reg s RSP < 2 ^ 64 →
  (∀ s', flags_pushed (Z.land (Z.land (flags s) (not64 IF_BIT)) (not64 0x30000)) s s' →
    wpx c E Q s') →
  wpx (cli;; pushfq;; cld;; c) E Q s.
Proof.
  intros Hf Hsp HQ. apply wpx_bind, wpx_drive.
  match goal with |- wpx _ _ _ ?x => set (s1 := x) end.
  assert (flags s1 = Z.land (flags s) (not64 IF_BIT)) as Hf1 by done.
  assert (is_u64 (flags s1)) as Hu1 by (rewrite Hf1; by apply is_u64_land).
  apply wpx_bind. unfold pushfq. apply wpx_bind, wpx_the, wpx_push_word; [by apply is_u64_land|done|].
  intros s2 [Hp2 Hr2 Hw2 Ha2] Ho2. apply wpx_bind, wpx_step, HQ. rewrite <- Hf1.
  injection Ho2 as Hg2 Ht2 Hgd2 Hid2 Hc2 Hk2.
  change (reg s1) with (reg s) in *. change (stack s1) with (stack s) in *. cbn [length] in Hp2.
  assert (flags s2 = flags s1) as Hf2 by (unfold flags; by rewrite Hk2).
  split; cbn [set_kernel reg stack seg tr gdtr idtr cr2 kernel]; rewrite ?flags_with, ?Hf2.
  - lia.
  - done.
  - rewrite <- (Hw2 0%nat _ eq_refl). f_equal; lia.
  - done.
  - by rewrite Hg2, Ht2, Hgd2, Hid2, Hc2.
  - by rewrite Hk2.
  - by apply is_u64_land.
  - done.
Qed.

(** The two ends of the check. *)
Lemma wpx_passed img (Q : unit → CORE D → Prop) s s1 :
  flags_pushed img s s1 → is_u64 img → 8 ≤ reg s RSP < 2 ^ 64 →
  (∀ s', decided (Z.land img 0x401 =? 0x401) s s' → Q tt s') →
  wpx (pop RAX;; and_imm 0x401 RAX;; cmp_imm 0x401 RAX;; sete RAX;; movzbl RAX RAX) E Q s1.
Proof.
  intros [Hp Hr Hi Hs Ho Hk Hu Ha] Himg Hsp HQ. apply wpx_bind, wpx_pop; [done|lia|lia|].
  intros s2 [Hp2 Hw2 Hr2 Hs2 Ho2]. pose proof (Hw2 0%nat _ eq_refl) as H2. cbn [length] in Hp2.
  replace (reg s1 RSP + 8 * Z.of_nat 0) with (reg s RSP - 8) in H2 by lia. rewrite Hi in H2.
  injection Ho2 as Hg2 Ht2 Hgd2 Hid2 Hc2 Hk2.
  assert (flags s2 = flags s1) as Hf2 by (unfold flags; by rewrite Hk2).
  apply wpx_flag_verdict; [by rewrite Hf2|by rewrite H2|]. rewrite H2, Hf2, Hk2.
  intros s3 Hx3 Hr3 Hs3 Ho3 Hk3 Hu3 Ha3. apply HQ. split.
  - done.
  - intros r Hne. rewrite Hr3 by done. destruct (decide (r = RSP)) as [->|Hsp']; [lia|].
    rewrite Hr2 by (done || by rewrite list_elem_of_singleton). by apply Hr.
  - intros a Hal. by rewrite Hs3, Hs2, Hs.
  - rewrite Ho3, <- Ho. by rewrite Hg2, Ht2, Hgd2, Hid2, Hc2.
  - by rewrite Hk3, Hk, with_flags_twice.
  - done.
  - by etrans.
Qed.

Lemma wpx_failed img (Q : unit → CORE D → Prop) s s1 :
  flags_pushed img s s1 → 8 ≤ reg s RSP < 2 ^ 64 →
  (∀ s', decided false s s' → Q tt s') → wpx (add_imm 8 RSP;; zero RAX) E Q s1.
Proof.
  intros [Hp Hr Hi Hs Ho Hk Hu Ha] Hsp HQ. apply wpx_bind, wpx_compute. cbn [fst snd].
  match goal with |- context [Z.lor _ ?st] => set (w := st) end.
  assert (is_u64 w ∧ Z.land w (not64 STATUS) = 0) as [Hw Hz] by apply status_sound.
  apply wpx_compute. cbn [fst snd]. rewrite flags_with, Z.lxor_nilpotent.
  match goal with |- context [Z.lor (Z.land (Z.lor _ w) _) ?st] => set (w' := st) end.
  assert (is_u64 w' ∧ Z.land w' (not64 STATUS) = 0) as [Hw' Hz'] by apply status_sound.
  apply HQ. split; cbn [set_kernel set_reg reg stack seg tr gdtr idtr cr2 kernel]; rewrite ?flags_with.
  - apply fn_lookup_insert.
  - intros r Hne. rewrite fn_lookup_insert_ne by done. destruct (decide (r = RSP)) as [->|Hsp'].
    + rewrite fn_lookup_insert, u64_small by (unfold is_u64; lia). lia.
    + rewrite fn_lookup_insert_ne by done. by apply Hr.
  - done.
  - done.
  - by rewrite Hk, !with_flags_twice.
  - apply is_u64_lor; [|done]. apply is_u64_land; [|by vm_compute]. apply is_u64_lor; [|done].
    by apply is_u64_land.
  - etrans; [by apply alike_lor|]. etrans; [by apply alike_lor|done].
Qed.

(** From the end of the wait to the pops. *)
Lemma wpx_verdict {A} (c : asm D A) (Q : A → CORE D → Prop) s :
  (∀ r, is_u64 (reg s r)) → is_u64 (flags s) → 8 ≤ reg s RSP →
  (∀ s', decided (intact s) s s' → wpx c E Q s') →
  wpx (cli;; pushfq;; cld;; same ← check_registers patterns;
       (if (same : bool) then
          pop RAX;; and_imm 0x401 RAX;; cmp_imm 0x401 RAX;; sete RAX;; movzbl RAX RAX
        else add_imm 8 RSP;; zero RAX);; c) E Q s.
Proof.
  intros Hu Hf Hsp HQ. pose proof (Hu RSP) as [_ H64].
  apply wpx_flags_pushed; [done|done|]. set (img := Z.land (Z.land _ _) _). intros s1 H1.
  apply wpx_bind, wpx_check_registers; [|by repeat constructor|].
  { intros r. destruct (decide (r = RSP)) as [->|Hne]; [rewrite (fp_rsp _ _ _ H1); unfold is_u64; lia|].
    by rewrite (fp_reg _ _ _ H1). }
  intros s2 H2. pose proof (flags_pushed_reflagged _ _ _ _ H1 H2) as H12.
  rewrite (holds_ext _ (reg s)).
  2: { intros r Hr. apply (fp_reg _ _ _ H1). intros ->. revert Hr.
       by apply (bool_decide_unpack (RSP ∉ fst <$> patterns)). }
  unfold intact in HQ. apply wpx_bind. destruct (holds (reg s) patterns); cbn [andb] in HQ.
  - eapply wpx_passed; [exact H12|by do 2 (apply is_u64_land; [|by vm_compute])|done|].
    intros s3 H3. apply HQ. revert H3. unfold img. by rewrite <- !Z.land_assoc.
  - by eapply wpx_failed.
Qed.

(** ** The whole routine *)

(** What the routine waits in: every register but RSP with its pattern, CF, DF
    and IF set. *)
Record prepared s s' : Prop := {
  pr_regs r : is_u64 (reg s' r);
  pr_patterns : holds (reg s') patterns = true;
  pr_rsp : reg s' RSP = reg s RSP - 48;
  pr_rest : (seg s', tr s', gdtr s', idtr s', cr2 s') = (seg s, tr s, gdtr s, idtr s, cr2 s);
  pr_kernel : kernel s' = with_flags (kernel s) (Z.lor (Z.lor (flags s) 0x401) IF_BIT);
}.

(** What the routine relies on the wait for: the stack. *)
Record waited s s' : Prop := {
  wa_regs r : is_u64 (reg s' r);
  wa_flags : is_u64 (flags s');
  wa_rsp : reg s' RSP = reg s RSP;
  wa_stack a : reg s RSP ≤ a → load (stack s') a = load (stack s) a;
}.

(** The routine has returned: [s] is where it was called, [s2] where the wait
    ended. *)
Record answered s s2 s' : Prop := {
  an_rax : reg s' RAX = Z.b2z (intact s2);
  an_rsp : reg s' RSP = reg s RSP + 8;
  an_saved r : r ∈ callee_saved → reg s' r = reg s r;
  an_stack a : reg s RSP ≤ a → load (stack s') a = load (stack s) a;
  an_rest : (seg s', tr s', gdtr s', idtr s', cr2 s') = (seg s2, tr s2, gdtr s2, idtr s2, cr2 s2);
  an_kernel : kernel s' = with_flags (kernel s2) (flags s');
  an_flags : is_u64 (flags s');
  an_alike : alike (flags s') (Z.land (Z.land (flags s2) (not64 IF_BIT)) (not64 DF));
}.

Lemma patterns_hold f : (∀ r v, (r, v) ∈ patterns → f r = v) → holds f patterns = true.
Proof.
  intros H. unfold holds. apply forallb_forall. intros [r v] Hin%list_elem_of_In. apply Z.eqb_eq.
  by apply H.
Qed.

Lemma patterns_words f r : (∀ r v, (r, v) ∈ patterns → f r = v) → r ≠ RSP → is_u64 (f r).
Proof.
  intros H Hr. assert (∃ v, (r, v) ∈ patterns ∧ is_u64 v) as (v & Hv & Hu).
  { unfold patterns.
    destruct r; try done; eexists; (split; [repeat first [by left|right]|by vm_compute]). }
  by rewrite (H r v Hv).
Qed.

Lemma wpx_check_across wait (Q : Z → CORE D → Prop) s :
  (∀ r, is_u64 (reg s r)) → 56 ≤ reg s RSP → reg s RSP + 8 < 2 ^ 64 →
  (∀ s1, prepared s s1 →
    wpx wait E (λ _ s2, waited s1 s2 ∧ ∀ s3, answered s s2 s3 → Q (load (stack s) (reg s RSP)) s3) s1) →
  wpx (check_across wait) E Q s.
Proof.
  intros Hu Hsp H64 Hwait. apply wpx_bind, wpx_push_all; [by apply (bool_decide_unpack _)|done|cbn; lia|].
  intros s1 H1 Ho1. pose proof (pu_rsp _ _ _ H1) as Hp1. cbn [length fmap list_fmap] in Hp1.
  apply wpx_bind, wpx_fill; [by apply (bool_decide_unpack _)|by repeat constructor|].
  intros s2 Hpat2 Hr2 Hs2 Ho2. do 2 apply wpx_bind, wpx_step. apply wpx_bind, wpx_drive, wpx_bind.
  match goal with |- wpx _ _ _ ?x => set (s3 := x) end.
  injection Ho1 as Hg1 Ht1 Hgd1 Hid1 Hc1 Hk1. injection Ho2 as Hg2 Ht2 Hgd2 Hid2 Hc2 Hk2.
  assert (reg s2 RSP = reg s1 RSP) as Hp2 by by apply Hr2, (bool_decide_unpack (RSP ∉ _)).
  assert (prepared s s3) as H3.
  { split.
    - intros r. change (is_u64 (reg s2 r)). destruct (decide (r = RSP)) as [->|Hne];
        [unfold is_u64; lia|by apply patterns_words].
    - by apply patterns_hold.
    - change (reg s2 RSP = reg s RSP - 48). lia.
    - by rewrite <- Hg1, <- Ht1, <- Hgd1, <- Hid1, <- Hc1, <- Hg2, <- Ht2, <- Hgd2, <- Hid2, <- Hc2.
    - rewrite <- Hk1, <- Hk2. unfold flags. rewrite <- Hk1, <- Hk2.
      change 0x401 with (Z.lor DF CF). by rewrite Z.lor_assoc. }
  eapply wpx_mono; [apply Hwait, H3|done|]. intros [] s4 [[Hu4 Hf4 Hp4 Ha4] HQ].
  change (reg s3) with (reg s2) in *. change (stack s3) with (stack s2) in *.
  apply wpx_verdict; [done|done|lia|]. intros s5 [Hx5 Hr5 Ha5 Ho5 Hk5 Hf5 Hal5].
  apply wpx_bind, wpx_pop_all; [by apply (bool_decide_unpack _)..|rewrite Hr5 by done; lia|
    rewrite Hr5 by done; cbn [length]; lia|].
  intros s6 H6. destruct (pushed_popped _ s s1 s5 s6 H1) as [Hp6 Hr6]; [rewrite Hr5 by done; lia| |exact H6|].
  { intros a Hal. rewrite Ha5, Ha4, Hs2 by lia. done. }
  destruct H6 as [_ _ Hn6 Hs6 Ho6]. injection Ho6 as Hg6 Ht6 Hgd6 Hid6 Hc6 Hk6.
  assert (∀ a, reg s RSP ≤ a → load (stack s6) a = load (stack s) a) as Hst.
  { intros a Hal. rewrite Hs6, Ha5, Ha4, Hs2, (pu_above _ _ _ H1) by lia. done. }
  apply wpx_pop_word. rewrite Hst, Hp6 by lia. rewrite u64_small by (unfold is_u64; lia).
  assert (flags (set_reg RSP (reg s RSP + 8) s6) = flags s5) as Hf6 by (unfold flags; cbn; by rewrite Hk6).
  apply HQ. split; rewrite ?Hf6; cbn [set_reg reg stack seg tr gdtr idtr cr2 kernel]; try done.
  - rewrite fn_lookup_insert_ne by done. rewrite Hn6; [done|done|by apply (bool_decide_unpack _)].
  - intros r Hr. rewrite fn_lookup_insert_ne by (intros <-; revert Hr; by apply (bool_decide_unpack (RSP ∉ callee_saved))).
    by apply Hr6.
  - by rewrite <- Ho5, Hg6, Ht6, Hgd6, Hid6, Hc6.
  - by rewrite Hk6.
Qed.

(** ** The wait *)

Context (P : CODE D) (sy : SYMBOLS) (T : TABLES) (Hsy : stubs_placed sy).
Context (HT : ∀ v, 0 ≤ v < 256 → kernel_idt T !! Z.to_nat v = Some (idt_gate (isr_table sy v) v)).
Context (room : Z) `{!Compiled room P} (Hroom : 0 ≤ room).

Lemma restored_refl s : restored s s.
Proof. by split. Qed.

Lemma restored_trans s1 s2 s3 : restored s1 s2 → restored s2 s3 → restored s1 s3.
Proof.
  intros [Hr1 Hg1 Ht1 Hs1] [Hr2 Hg2 Ht2 Hs2].
  split; [intros r; by rewrite Hr2|intros g; by rewrite Hg2|congruence|].
  intros a Ha. rewrite Hs2; [by apply Hs1|]. by rewrite Hr1.
Qed.

(** An interrupt keeps the flags. *)
Lemma interrupt_flags v (k : KERNEL D) : rflags (cpu (snd (Irq.interrupt v k))) = rflags (cpu k).
Proof.
  unfold Irq.interrupt, mbind, st_bind, on_cpu, set_cpu, x86_irq_save, x86_read_rflags.
  by destruct (Irq.irq_dispatch v _).
Qed.

Lemma typed_restored v s s' :
  typed s → restored s s' → kernel s' = snd (Irq.interrupt v (kernel s)) → typed s'.
Proof.
  intros [Hr Hg Hf Hc] [Hr' Hg' Ht' _] Hk. split.
  - intros r. by rewrite Hr'.
  - intros g. by rewrite Hg'.
  - unfold flags. by rewrite Hk, interrupt_flags.
  - injection Ht' as _ _ _ ->. done.
Qed.

(** Interrupts one after the other. *)
Lemma wpx_interrupts rip l (Q : unit → CORE D → Prop) s :
  Forall (λ v, 32 ≤ v < 48) l → is_u64 rip → typed s → room + 216 ≤ reg s RSP →
  (∀ s', restored s s' → typed s' →
    kernel s' = snd (foldr (λ v m, Irq.interrupt v;; m) (mret tt) l (kernel s)) → Q tt s') →
  wpx (foldr (λ v m,
    _ ← enter P sy T {| e_vector := v; e_rip := rip; e_error := 0; e_resume := false |}; m)
    (mret tt) l) E Q s.
Proof.
  intros Hl Hrip. revert s. induction Hl as [|v l Hv Hl IH]; intros s Hty Hsp HQ; cbn [foldr].
  - apply wpx_ret, HQ; [apply restored_refl|done|done].
  - apply wpx_bind, (wpx_interrupt P sy T E Hsy HT room); [done|done|done|done|done|done|done|].
    cbn [e_vector]. intros s1 H1 Hk1. pose proof (typed_restored v s s1 Hty H1 Hk1) as Hty1.
    apply IH; [done|by rewrite (rs_reg _ _ H1)|]. intros s2 H2 Hty2 Hk2.
    apply HQ; [by eapply restored_trans|done|]. rewrite Hk2, Hk1. cbn [foldr].
    unfold mbind, st_bind. by destruct (Irq.interrupt v (kernel s)).
Qed.

(** [hlt]: the machine stays halted when nothing is requested. *)
Lemma wpx_hlt rip (Q : unit → CORE D → Prop) s :
  is_u64 rip → typed s → room + 216 ≤ reg s RSP → has_bits (flags s) IF_BIT = true →
  (requests (device (kernel s)) = [] → E Halted s) →
  (requests (device (kernel s)) ≠ [] → ∀ s', restored s s' → typed s' →
    kernel s' = snd (Irq.interrupts (kernel s)) → Q tt s') →
  wpx (hlt P sy T rip) E Q s.
Proof.
  intros Hrip Hty Hsp Hif HE HQ. do 2 apply wpx_bind, wpx_the. rewrite Hif. cbn [negb].
  pose proof (requests_range (device (kernel s))) as Hl.
  assert (Irq.interrupts (kernel s) =
    foldr (λ v m, Irq.interrupt v;; m) (mret tt) (requests (device (kernel s))) (kernel s)) as Hi.
  { unfold Irq.interrupts, mbind, st_bind, get, x86_read_rflags. unfold flags, IF_BIT in Hif.
    by rewrite Hif. }
  rewrite Hi in HQ. destruct (requests (device (kernel s))) as [|v l]; [by apply wpx_exit, HE|].
  apply wpx_interrupts; [done..|]. intros s' H1 H2 H3. by apply HQ.
Qed.

End check.

(** ** Properties *)

Lemma set_flag_bit f : has_bits (Z.lor (Z.lor f 0x401) IF_BIT) IF_BIT = true.
Proof.
  change IF_BIT with (bit64 9). rewrite has_bits_bit64, Z.lor_spec, testbit_bit64 by lia.
  apply orb_true_r.
Qed.

Lemma still_set' f : (Z.land (Z.lor (Z.lor f 0x401) IF_BIT) 0x401 =? 0x401) = true.
Proof.
  apply Z.eqb_eq, Z.bits_inj'. intros i Hi. rewrite Z.land_spec, !Z.lor_spec.
  destruct (Z.testbit 0x401 i); by rewrite ?orb_true_r, ?andb_false_r.
Qed.

Lemma still_set f :
  (Z.land (Z.land (Z.lor (Z.lor f 0x401) IF_BIT) (not64 IF_BIT)) 0x401 =? 0x401) = true.
Proof.
  rewrite <- Z.land_assoc. change (Z.land (not64 IF_BIT) 0x401) with 0x401. apply still_set'.
Qed.

(** The state after the check of the flags, from the state at the end of the
    wait. *)
Lemma check_registers_run {D} `{!Device D} (k : KERNEL D) :
  let k1 := snd (Irq.interrupts (with_flags k (Z.lor (Z.lor (rflags (cpu k)) 0x401) IF_BIT))) in
  let f := Z.land (rflags (cpu k1)) (not64 IF_BIT) in
  KernelMain.timer_check_registers k =
    (Z.land f 0x401 =? 0x401, with_flags k1 (Z.land f (not64 DF))).
Proof.
  intros k1 f. unfold KernelMain.timer_check_registers, KernelConsole.enable, KernelConsole.disable,
    mbind, st_bind, set_cpu, on_cpu, x86_enable_interrupts. cbn [with_rflags rflags cpu].
  match goal with |- context [Irq.interrupts ?x] => change (Irq.interrupts x) with
    (Irq.interrupts (with_flags k (Z.lor (Z.lor (rflags (cpu k)) 0x401) IF_BIT))) end.
  fold k1. unfold k1 in *. by destruct (Irq.interrupts _) as [[] k2].
Qed.

Lemma interrupts_flags {D} `{!Device D} (k : KERNEL D) :
  rflags (cpu (snd (Irq.interrupts k))) = rflags (cpu k).
Proof.
  unfold Irq.interrupts, mbind, st_bind, get. destruct (negb _); [done|].
  generalize (requests (device k)). intros l. revert k. induction l as [|v l IH]; intros k; [done|].
  cbn [foldr]. unfold mbind, st_bind. pose proof (interrupt_flags v k) as H.
  destruct (Irq.interrupt v k) as [[] k1]. cbn [snd] in H. rewrite <- H. apply IH.
Qed.

(** C7: the check of the registers is what [KernelMain] runs, and passes: with the
    stubs as they are, the tables that [tables_init] fills and compiled functions
    that keep to the calling convention, [timer_check_registers] halts for ever
    exactly when no interrupt is requested; otherwise it returns 1 to its caller
    with the callee-saved registers, RSP and the caller's stack as the convention
    says, and the kernel in the state of the model's check of the flags, but for
    the status flags. *)
Theorem timer_check_registers_passes {D} `{!Device D} room (P : CODE D) `{!Compiled room P}
    sy stack_top t next (s : CORE D) :
  0 ≤ room → stubs_placed sy → tables_room t → is_u64 next → typed s →
  room + 264 ≤ reg s RSP → reg s RSP + 8 < 2 ^ 64 →
  wpx (timer_check_registers P sy (fst (tables_init sy stack_top t)) next)
    (λ r _, r = Halted ∧ requests (device (kernel s)) = [])
    (λ rip s', requests (device (kernel s)) ≠ [] ∧ rip = load (stack s) (reg s RSP) ∧
      let '(ok, k) := KernelMain.timer_check_registers (kernel s) in
      ok = true ∧ reg s' RAX = Z.b2z ok ∧ reg s' RSP = reg s RSP + 8 ∧
      (∀ r, r ∈ callee_saved → reg s' r = reg s r) ∧
      (∀ a, reg s RSP ≤ a → load (stack s') a = load (stack s) a) ∧
      (∀ g, seg s' g = seg s g) ∧ (tr s', gdtr s', idtr s', cr2 s') = (tr s, gdtr s, idtr s, cr2 s) ∧
      kernel s' = with_flags k (flags s') ∧ alike (flags s') (rflags (cpu k))) s.
Proof.
  intros Hroom Hsy Ht Hnext Hty Hsp H64. pose proof (ty_reg _ Hty) as Hu.
  apply wpx_check_across; [done|lia|done|]. intros s1 [Hu1 Hpat1 Hp1 Ho1 Hk1].
  injection Ho1 as Hg1 Ht1 Hgd1 Hid1 Hc1.
  assert (flags s1 = Z.lor (Z.lor (flags s) 0x401) IF_BIT) as Hf1 by (unfold flags at 1; by rewrite Hk1).
  assert (typed s1) as Hty1.
  { split; [done| | |by rewrite Hc1; apply Hty].
    - rewrite Hg1. apply Hty.
    - rewrite Hf1. apply is_u64_lor; [apply is_u64_lor; [apply Hty|by vm_compute]|by vm_compute]. }
  apply (wpx_hlt _ P sy _ Hsy (filled_gates sy stack_top t Ht) room); [done|done|done|lia| | |].
  { rewrite Hf1. apply set_flag_bit. }
  { by rewrite Hk1. }
  rewrite Hk1. intros Hreq s2 [Hr2 Hg2 Ht2 Hs2] Hty2 Hk2. split.
  { split; [apply Hty2|apply Hty2|done|done]. }
  intros s3 [Hx3 Hp3 Hr3 Hs3 Ho3 Hk3 Hf3 Ha3]. split; [done|]. split; [done|].
  rewrite check_registers_run. cbv zeta.
  assert (flags s2 = Z.lor (Z.lor (flags s) 0x401) IF_BIT) as Hf2.
  { unfold flags at 1. rewrite Hk2, interrupts_flags. done. }
  change (rflags (cpu (kernel s))) with (flags s). rewrite <- Hk2.
  change (rflags (cpu (kernel s2))) with (flags s2) in *. rewrite Hf2 in *. rewrite still_set.
  split; [done|]. split.
  { rewrite Hx3. unfold intact. rewrite (holds_ext _ (reg s1)) by (intros r _; apply Hr2).
    by rewrite Hpat1, Hf2, still_set'. }
  do 3 (split; [done|]). injection Ho3 as Hg3 Ht3 Hgd3 Hid3 Hc3. injection Ht2 as Ht2 Hgd2 Hid2 Hc2.
  split; [intros g; by rewrite Hg3, Hg2, Hg1|]. split; [congruence|]. split; [exact Hk3|exact Ha3].
Qed.

(** *** At a concrete input *)

(** Hardware whose timer has a tick ready. *)
Lemma timer_range : Forall (λ v, 32 ≤ v < 48) [32].
Proof. by repeat constructor. Qed.

#[local] Instance ticking : Device unit := {|
  port_in _ d := (0x60, d);
  port_out _ _ d := d;
  requests _ := [32];
  requests_range _ := timer_range;
|}.

(** The routine is called with the kernel's registers of [StubsSpec], RSP at the
    return address. *)
Lemma timer_check_registers_passes_witness :
  match timer_check_registers demo_code TablesSpec.demo_symbols
    (fst (tables_init TablesSpec.demo_symbols 0x200000 TablesSpec.tables_bss)) 0x100def interrupted with
  | (inr rip, s') =>
      rip = 42 ∧ reg s' RAX = 1 ∧ reg s' RBX = 0xd ∧ reg s' R15 = 0xffffffffffffffff ∧
      reg s' RSP = 0x1fff40 ∧ ticks (timer (kernel s')) = 1
  | _ => False
  end.
Proof.
  pose proof (timer_check_registers_passes 8 demo_code TablesSpec.demo_symbols 0x200000
    TablesSpec.tables_bss 0x100def interrupted ltac:(lia) demo_placed demo_tables
    ltac:(unfold is_u64; lia) interrupted_typed ltac:(cbn; lia) ltac:(cbn; lia)) as H.
  revert H. generalize (timer_check_registers (D:=unit) demo_code TablesSpec.demo_symbols
    (fst (tables_init TablesSpec.demo_symbols 0x200000 TablesSpec.tables_bss)) 0x100def).
  intros m H. unfold wpx in H. destruct (m interrupted) as [[e|rip] s']; [by destruct H|].
  destruct H as (_ & -> & H).
  assert (ticks (timer (snd (KernelMain.timer_check_registers (kernel interrupted)))) = 1) as Ht
    by by vm_compute.
  destruct (KernelMain.timer_check_registers (kernel interrupted)) as [ok k].
  destruct H as (-> & Hrax & Hrsp & Hsaved & _ & _ & _ & Hk & _).
  split; [by vm_compute|]. split; [done|].
  split; [rewrite Hsaved by (by left); done|].
  split; [rewrite Hsaved by (by apply (bool_decide_unpack _)); done|].
  split; [done|]. by rewrite Hk.
Defined.

End RegisterCheck.
