(* ===== verification/BootDrivers.v ===== *)
(** * The drivers while the kernel starts

    With interrupts off and reception not yet enabled, polled output does
    nothing but access ports; and what the initializing functions
    ([serial_init], [serial_enable_receive], [timer_init]) mean for the line. *)

From S2P Require Import Prelude State X86 RxBuffer Devices SerialIrq Irq Serial Timer.
From S2P Require Import Frames SerialSpec IrqSpec KernelConsole KernelMain.

Module BootDrivers.
Import X86 RxBuffer Devices SerialIrq Irq Serial Frames SerialSpec.

Section drivers.
Context {D : Type} `{!Device D}.
Implicit Types (k : KERNEL D).

(** ** Output with interrupts off *)

#[export] Instance same_software_preorder : PreOrder (same_software (D:=D)).
Proof. split; [by split|]. intros k1 k2 k3 [] []. split; congruence. Qed.

Definition hushed k : Prop :=
  has_bits (flags_of k) 0x200 = false ∧ receive_enabled (serial k) = false.

Definition inert {A} (m : io D A) : Prop := ∀ k, hushed k → wp m (λ _ k', same_software k k') k.

Lemma hushed_same k k' : same_software k k' → hushed k → hushed k'.
Proof. intros [Hc Hs _ _]. unfold hushed, flags_of. by rewrite Hc, Hs. Qed.

Lemma inert_wp {A} (m : io D A) k : inert m → wp m (λ _ k', hushed k → same_software k k') k.
Proof. intros Hm. pose proof (Hm k) as H. unfold wp in *. by destruct (m k). Qed.

Lemma inert_bind {A B} (m : io D A) (f : A → io D B) :
  inert m → (∀ a, inert (f a)) → inert (m ≫= f).
Proof.
  intros Hm Hf k Hk. apply wp_bind. eapply wp_mono; [by apply Hm|]. intros a k1 H1.
  eapply wp_mono; [by apply Hf, (hushed_same k)|]. intros b k2 H2. by transitivity k1.
Qed.

Lemma inert_ret {A} (a : A) : inert (mret a).
Proof. intros k _. by apply wp_ret. Qed.
Lemma inert_inb p : inert (x86_inb p).
Proof. intros k _. eapply wp_mono; [apply wp_inb|]. by intros v k' [_ []]. Qed.
Lemma inert_outb p v : inert (x86_outb p v).
Proof. intros k _. eapply wp_mono; [apply wp_outb|]. by intros [] k' []. Qed.

Lemma inert_interrupts : inert interrupts.
Proof.
  intros k [Hf _]. unfold interrupts. apply wp_bind, wp_get. unfold flags_of in Hf.
  unfold x86_read_rflags. rewrite Hf. by apply wp_ret.
Qed.

Lemma inert_poll mask i : inert (poll mask i).
Proof.
  unfold poll. apply inert_bind; [apply inert_interrupts|intros []].
  apply inert_bind; [apply inert_inb|intros status]. destruct (status =? 0xff); [apply inert_ret|].
  intros k Hk. apply wp_bind, wp_get. pose proof Hk as [_ ->]. cbn [andb]. revert k Hk.
  change (inert (mret tt;; if Z.land status mask =? mask then mret (Some true) else mret None)).
  apply inert_bind; [apply inert_ret|intros []]. destruct (_ =? _); apply inert_ret.
Qed.

Lemma inert_wait_status mask : inert (wait_status mask).
Proof.
  unfold wait_status. apply inert_bind; [|intros [r|]; apply inert_ret]. intros k Hk.
  apply (wp_for _ _ _ (λ _ k', same_software k k')); [reflexivity| |done].
  intros i k1 _ H1. eapply wp_mono; [by apply inert_poll, (hushed_same k)|].
  intros [r|] k2 H2; by transitivity k1.
Qed.

Lemma inert_put_byte v : inert (put_byte v).
Proof.
  unfold put_byte. apply inert_bind; [apply inert_wait_status|intros [|]; cbn [negb]; [|apply inert_ret]].
  apply inert_bind; [apply inert_interrupts|intros []].
  apply inert_bind; [apply inert_outb|intros []; apply inert_ret].
Qed.

Lemma inert_serial_write t : inert (serial_write t).
Proof.
  induction t as [|c t IH]; cbn [serial_write]; [apply inert_ret|]. apply inert_bind.
  { destruct (c =? 10); [apply inert_put_byte|apply inert_ret]. }
  intros [|]; cbn [negb]; [|apply inert_ret].
  apply inert_bind; [apply inert_put_byte|intros [|]; [apply IH|apply inert_ret]].
Qed.

(** ** The line through the initializing functions *)

(** Waiting changes nothing that matters. *)
Lemma wp_wait mask k :
  wp (wait_status mask) (λ _ k', quiet quiet_access k k' ∧ (hushed k → same_software k k')) k.
Proof. apply wp_and; [apply keeps_wait_status|apply inert_wp, inert_wait_status]. Qed.

(** Nothing is sent, and the driver's invariant is kept. *)
Definition silent k k' : Prop :=
  KernelConsole.drivers_ok k → KernelConsole.drivers_ok k' ∧ wire (line k') = wire (line k).

#[export] Instance silent_preorder : PreOrder silent.
Proof.
  split; [by intros k Hk|]. intros k1 k2 k3 H1 H2 Hk. destruct (H1 Hk) as [Hk2 Hw].
  destruct (H2 Hk2) as [Hk3 Hw3]. by rewrite Hw3, Hw.
Qed.

Lemma quiet_silent k k' : quiet quiet_access k k' → silent k k'.
Proof. intros H Hk. by apply KernelConsole.quiet_ok. Qed.

(** Changes that no port sees. *)
Lemma silent_software k k' :
  trace k' = trace k → (rx_wf (receive_buffer (serial k)) → rx_wf (receive_buffer (serial k'))) →
  silent k k'.
Proof.
  intros Ht Hr (Hl & Hp & Hwf). unfold KernelConsole.drivers_ok, line in *. rewrite Ht. auto.
Qed.

(** The switch of the divisor latch: accesses that leave the line as it was. *)
Lemma silent_did l k k' :
  IrqSpec.did l k k' →
  (∀ u, latch u = false → latch (foldl line_step u l) = false ∧
    wire (foldl line_step u l) = wire u ∧ polite (foldl line_step u l) = polite u) →
  silent k k'.
Proof.
  intros [Ht _ [_ Hs _ _]] Hl (Hk & Hp & Hwf). destruct (Hl (line k) Hk) as (H1 & H2 & H3).
  unfold KernelConsole.drivers_ok, line in *. rewrite Ht, line_of_app, Hs. by rewrite H1, H2, H3.
Qed.

(** One more write to a port. *)
Lemma wp_out_did {A} l p v (m : io D A) Q k0 k :
  IrqSpec.did l k0 k →
  (∀ k', IrqSpec.did (l ++ [Out (u16 p) (u8 v)]) k0 k' → wp m Q k') →
  wp (x86_outb p v;; m) Q k.
Proof.
  intros H HQ. apply wp_bind. eapply wp_mono; [apply wp_outb|]. intros [] k' Hk%IrqSpec.accessed_did.
  apply HQ. by eapply IrqSpec.did_app.
Qed.

Lemma wp_serial_init k :
  hushed k → wp serial_init (λ _ k', silent k k' ∧ same_software k k') k.
Proof.
  intros Hk. unfold serial_init. apply wp_bind.
  eapply wp_mono; [apply wp_and; [apply (keeps_wait_status 0x40)|by apply inert_wait_status]|].
  intros [|] k1 [H1%quiet_silent Hs1]; cbn [negb]; [|by apply wp_ret].
  assert (hushed k1) as Hk1 by by apply (hushed_same k).
  apply (wp_out_did [] _ _ _ _ k1); [apply IrqSpec.did_nil|]. intros k2 H2.
  do 7 (eapply wp_out_did; [exact H2|]; clear k2 H2; intros k2 H2).
  pose proof (IrqSpec.di_software _ _ _ H2) as Hs2.
  assert (silent k1 k2) as H12.
  { eapply silent_did; [exact H2|]. intros [lt cl w pl] Hlt. cbn in Hlt. subst lt. by vm_compute. }
  eapply wp_mono; [apply wp_and; [apply (keeps_wait_status 0x20)|]|].
  { apply inert_wait_status. by apply (hushed_same k1). }
  intros ok k3 [H3%quiet_silent Hs3]. split; [by do 2 (etrans; [done|])|by do 2 (etrans; [done|])].
Qed.

Lemma keeps_set_cpu P f : (∀ c, rflags (f c) = rflags c) → keeps (D:=D) P (set_cpu f).
Proof. intros Hf k. apply quiet_software; try done. intros _. apply Hf. Qed.

Lemma keeps_irq_enable n : keeps (D:=D) quiet_access (irq_enable n).
Proof. unfold irq_enable, pic_write. keeping. Qed.

Lemma keeps_disable_apic : keeps (D:=D) quiet_access disable_apic.
Proof.
  unfold disable_apic. apply keeps_bind; [by intros k; apply quiet_software|intros features].
  destruct (has_bits _ _); [|apply keeps_ret].
  apply keeps_bind; [by intros k; apply quiet_software|intros apic].
  destruct (has_bits _ _); [apply keeps_ret|].
  apply keeps_bind; [by apply keeps_set_cpu|intros []; apply keeps_ret].
Qed.

Lemma keeps_timer_init : keeps (D:=D) quiet_access Timer.timer_init.
Proof.
  unfold Timer.timer_init, irq_init, program_pic, pic_write.
  apply keeps_bind; [apply keeps_get|intros ?]. apply keeps_bind; [apply keeps_get|intros ?].
  destruct (_ || _); [apply keeps_ret|]. apply keeps_bind.
  - apply keeps_bind; [apply keeps_get|intros ?]. apply keeps_bind; [apply keeps_get|intros ?].
    destruct (_ || _); [apply keeps_ret|]. apply keeps_bind; [apply keeps_disable_apic|].
    intros [|]; cbn [negb]; keeping.
  - intros [|]; cbn [negb]; [|apply keeps_ret].
    do 4 (apply keeps_bind; [keeping|intros []]). apply keeps_irq_enable.
Qed.

(** The check of the registers leaves the flags with interrupts off. *)
Lemma wp_timer_check_registers k :
  is_u64 (flags_of k) →
  wp KernelMain.timer_check_registers (λ _ k', silent k k' ∧
    is_u64 (flags_of k') ∧ has_bits (flags_of k') 0x200 = false) k.
Proof.
  intros Hu. unfold KernelMain.timer_check_registers, KernelConsole.enable, KernelConsole.disable.
  apply wp_bind. unfold wp at 1, set_cpu, on_cpu.
  set (k1 := Build_KERNEL _ _ _ _ _ _). apply wp_bind, wp_bind. unfold wp at 1.
  set (k2 := Build_KERNEL _ _ _ _ _ _).
  assert (silent k k2) as H2 by by apply silent_software.
  assert (is_u64 (flags_of k2)) as Hu2.
  { change (flags_of k2) with (Z.lor (Z.lor (flags_of k) 0x401) IF_BIT).
    apply is_u64_lor; [apply is_u64_lor; [done|by vm_compute]|by vm_compute]. }
  eapply wp_mono; [apply keeps_interrupts|]. intros [] k3 H3.
  assert (is_u64 (flags_of k3)) as Hu3 by by rewrite (qu_flags _ _ _ H3 Hu2).
  apply wp_bind. unfold wp at 1. set (k4 := Build_KERNEL _ _ _ _ _ _).
  apply wp_bind, wp_get, wp_bind. unfold wp at 1. set (k5 := Build_KERNEL _ _ _ _ _ _). apply wp_ret.
  split.
  { etrans; [exact H2|]. etrans; [exact (quiet_silent _ _ H3)|]. by apply silent_software. }
  change (flags_of k5) with (Z.land (Z.land (flags_of k3) (not64 IF_BIT)) (not64 0x400)).
  split; [apply is_u64_land; [apply is_u64_land; [done|by vm_compute]|by vm_compute]|].
  change 0x200 with (bit64 9). rewrite has_bits_bit64 by lia.
  rewrite !Z.land_spec. change (Z.testbit (not64 IF_BIT) 9) with false. by rewrite andb_false_r.
Qed.

Lemma wp_serial_enable_receive k :
  is_u64 (flags_of k) →
  wp serial_enable_receive (λ ok k', silent k k' ∧ flags_of k' = flags_of k) k.
Proof.
  intros Hu. unfold serial_enable_receive. apply wp_bind, wp_get, wp_bind, wp_get.
  destruct (_ || _); [by apply wp_ret|]. apply wp_bind.
  eapply wp_mono; [apply (keeps_irq_enable 4)|]. intros [|] k1 H1; cbn [negb];
    [|apply wp_ret; split; [by apply quiet_silent|by apply H1]].
  apply wp_bind. unfold wp at 1, set_receive_buffer, set_serial. set (k2 := Build_KERNEL _ _ _ _ _ _).
  assert (silent k1 k2) as H2.
  { apply silent_software; [done|]. intros Hwf. apply (ring_step_refines Reset _ Hwf). }
  apply (wp_out_did [] _ _ _ _ k2); [apply IrqSpec.did_nil|]. intros k3 H3.
  eapply wp_out_did; [exact H3|]. clear k3 H3. intros k3 H3.
  apply wp_bind. unfold wp at 1. set (k4 := Build_KERNEL _ _ _ _ _ _).
  assert (silent k3 k4) as H4 by by apply silent_software.
  assert (silent k2 k3) as H23.
  { eapply silent_did; [exact H3|]. intros [lt cl w pl] Hlt. cbn in Hlt. subst lt. by vm_compute. }
  apply (wp_out_did [] _ _ _ _ k4); [apply IrqSpec.did_nil|]. intros k5 H5. apply wp_ret. split.
  - transitivity k1; [by apply quiet_silent|]. do 3 (etrans; [done|]).
    eapply silent_did; [exact H5|]. intros [lt cl w pl] Hlt. cbn in Hlt. subst lt. by vm_compute.
  - pose proof (IrqSpec.di_software _ _ _ H5) as [Hc5 _ _ _].
    pose proof (IrqSpec.di_software _ _ _ H3) as [Hc3 _ _ _].
    unfold flags_of. rewrite Hc5. cbn [cpu k4]. rewrite Hc3. by apply H1.
Qed.

End drivers.

End BootDrivers.
