(* ===== verification/KernelMainSpec.v ===== *)
(** * What the kernel does until the console runs

    On any hardware the kernel either reaches the console - with validated boot
    information, memory as [PagingInit] promises it, the descriptor tables
    loaded, the drivers' invariant and interrupts on - or it spins; and what is
    on the wire tells how far it got. *)

From Stdlib Require Import String.
From S2P Require Import Prelude State BootInfo PmmInterface Pmm X86 Paging PagingSpace PagingInit.
From S2P Require Import Timer PagingModel PagingCheckSpec PmmCheck PagingInitSpec PagingCheck BootMemory RxBuffer Devices SerialIrq Irq Serial.
From S2P Require Import Frames SerialSpec Text Tables Console ConsoleSpec KernelConsole KernelMain.
From S2P Require Import BootDrivers.

Module KernelMainSpec.
Import State X86 Paging PagingSpace PagingInit PagingInitSpec PagingCheck PagingCheckSpec BootMemory.
Import RxBuffer Devices Frames SerialSpec Text Tables KernelMain BootDrivers.

#[local] Existing Instances Pmm.Pmm_api Pmm.Pmm_contract Pmm.pmm_wf_dec.
#[local] Existing Instances KernelConsole.system_board KernelConsole.system_wire
  KernelConsole.system_contract.

(** ** What the kernel says *)

Definition say (t : string) : list Z := txt t ++ newline.

Definition serial_ready : list Z :=
  say "KERNEL: serial ready (COM1, 115200 8N1)" ++ say "KERNEL: boot information verified" ++
  say "KERNEL: GDT/IDT/TSS ready".
Definition pages_ready : list Z :=
  serial_ready ++ say "KERNEL: physical pages ready (4 KiB, self-test passed)".
Definition paging_ready : list Z :=
  pages_ready ++ say "KERNEL: paging ready (own CR3, RAM check passed)".
Definition memory_ready : list Z :=
  paging_ready ++ say "KERNEL: dynamic paging checks passed".
Definition timer_ready : list Z := memory_ready ++ say "KERNEL: timer ready (PIT, ~100 Hz)".
Definition boot_text : list Z :=
  timer_ready ++ say "KERNEL: serial receive ready (IRQ4, 255-byte buffer)".

(** All the kernel can say before the console greets. *)
Definition transcripts : list (list Z) :=
  [ boot_text;
    serial_ready ++ say "KERNEL ERROR: physical page management";
    pages_ready ++ say "KERNEL ERROR: paging initialization or RAM check";
    paging_ready ++ say "KERNEL ERROR: dynamic paging check";
    timer_ready ++ say "KERNEL ERROR: serial receive IRQ" ].

Definition told (t : list Z) : Prop := Exists (λ u, t `prefix_of` u) transcripts.

Section kernel.
Context {D : Type} `{!Device D}.
Context (k0 : KERNEL D).
Implicit Types (s : MACHINE D) (k : KERNEL D).

(** The kernel has sent [t], and interrupts are off. *)
Record has_said (t : list Z) k : Prop := {
  hs_ok : KernelConsole.drivers_ok k;
  hs_wire : wire (line k) = wire (line k0) ++ expand t;
  hs_u64 : is_u64 (flags_of k);
  hs_off : has_bits (flags_of k) 0x200 = false;
}.

(** How the kernel may stop. *)
Definition stopped (e : leave) s : Prop :=
  e = Spins ∧ ∃ t, told t ∧ wire (line (drivers s)) `prefix_of` wire (line k0) ++ expand t.

Lemma wpx_driver {A} (m : io D A) E (Q : A → MACHINE D → Prop) s :
  wp m (λ a k, Q a (set_drivers s k)) (drivers s) → wpx (driver m) E Q s.
Proof. intros H. apply wpx_lift. unfold wp in *. by destruct (m (drivers s)). Qed.

Lemma wpx_spin {A} t k (Q : A → MACHINE D → Prop) s :
  has_said t k → drivers s = k → told t → wpx spin stopped Q s.
Proof. intros H <- Ht. split; [done|]. exists t. by rewrite (hs_wire _ _ H). Qed.

(** A write: what is sent, and what stays. *)
Lemma wp_send t msg k :
  KernelConsole.drivers_ok k → wire (line k) = wire (line k0) ++ expand t →
  wp (Serial.serial_write msg) (λ ok k',
    (∃ p, p `prefix_of` expand msg ∧ wire (line k') = wire (line k0) ++ expand t ++ p ∧
       (ok = true → p = expand msg)) ∧
    KernelConsole.drivers_ok k' ∧ (is_u64 (flags_of k) → flags_of k' = flags_of k)) k.
Proof.
  intros (Hl & Hp & Hwf) Hw. pose proof (wp_serial_write msg k Hl) as H1.
  pose proof (KernelConsole.serial_write_ring msg k Hwf) as H2. unfold wp in *.
  destruct (Serial.serial_write msg k) as [ok k'].
  destruct H1 as (p & [Hs Hf] & Hpre & Hok). specialize (Hs Hl).
  split; [|split; [split; [apply Hs|split; [by apply Hs|done]]|done]].
  exists p. split; [done|]. split; [by rewrite (tr_wire _ _ _ Hs), Hw, app_assoc|done].
Qed.

Lemma wp_say t msg k :
  has_said t k →
  wp (Serial.serial_write msg) (λ ok k',
    (∃ p, p `prefix_of` expand msg ∧ wire (line k') = wire (line k0) ++ expand t ++ p) ∧
    (ok = true → has_said (t ++ msg) k') ∧
    (receive_enabled (serial k) = false → same_software k k')) k.
Proof.
  intros [Hdr Hw Hu Hoff]. pose proof (wp_send t msg k Hdr Hw) as H1.
  pose proof (inert_wp _ k (inert_serial_write msg)) as H2. unfold wp in *.
  destruct (Serial.serial_write msg k) as [ok k'].
  destruct H1 as ((p & Hp & Hwire & Hok) & Hdr' & Hf). specialize (Hf Hu).
  split; [by exists p|]. split; [|intros He; by apply H2]. intros ->. rewrite (Hok eq_refl) in Hwire.
  split; [done| |by rewrite Hf..]. by rewrite KernelConsole.expand_app.
Qed.

Lemma stopped_within t msg p s :
  told (t ++ msg) → p `prefix_of` expand msg →
  wire (line (drivers s)) = wire (line k0) ++ expand t ++ p → stopped Spins s.
Proof.
  intros Ht Hp Hw. split; [done|]. exists (t ++ msg). split; [done|].
  rewrite Hw, KernelConsole.expand_app. by do 2 apply prefix_app.
Qed.

Lemma wpx_boot_log t msg s (Q : unit → MACHINE D → Prop) :
  has_said t (drivers s) → told (t ++ msg) →
  (∀ k, has_said (t ++ msg) k →
     (receive_enabled (serial (drivers s)) = false → same_software (drivers s) k) →
     Q tt (set_drivers s k)) →
  wpx (boot_log msg) stopped Q s.
Proof.
  intros Hs Ht HQ. apply wpx_bind, wpx_driver. eapply wp_mono; [by apply (wp_say t msg)|].
  intros ok k1 ((p & Hp & Hw) & Hok & Hsame).
  destruct ok; cbn [negb]; [|by eapply stopped_within].
  specialize (Hok eq_refl). apply wpx_bind, wpx_driver. cbn [drivers set_drivers].
  eapply wp_mono; [apply (wp_wait 0x40)|]. intros flushed k2 [H2 Hs2].
  pose proof Hok as [Hdr1 Hw1 Hu1 Hoff1]. destruct (KernelConsole.quiet_ok _ _ H2 Hdr1) as [Hdr2 Hw2].
  pose proof (qu_flags _ _ _ H2 Hu1) as Hf2.
  assert (has_said (t ++ msg) k2) as Hs'.
  { split; [done|by rewrite Hw2|rewrite Hf2; done|by rewrite Hf2]. }
  destruct flushed; cbn [negb]; [|by eapply wpx_spin].
  apply wpx_ret. apply HQ; [done|]. intros He. specialize (Hsame He).
  etrans; [exact Hsame|]. apply Hs2, (hushed_same (drivers s)); [done|]. split; [apply Hs|done].
Qed.

Lemma wpx_boot_failure {A} t msg s (Q : A → MACHINE D → Prop) :
  KernelConsole.drivers_ok (drivers s) → wire (line (drivers s)) = wire (line k0) ++ expand t →
  told (t ++ msg) → wpx (boot_failure msg) stopped Q s.
Proof.
  intros Hdr Hw Ht. apply wpx_bind, wpx_driver. eapply wp_mono; [by apply (wp_send t msg)|].
  intros ok k1 ((p & Hp & Hw1 & _) & Hdr1 & _). apply wpx_bind, wpx_driver.
  eapply wp_mono; [apply (wp_wait 0x40)|]. intros flushed k2 [H2 _]. cbn [drivers set_drivers] in H2.
  destruct (KernelConsole.quiet_ok _ _ H2 Hdr1) as [_ Hw2].
  eapply stopped_within; [done|exact Hp|]. cbn [drivers set_drivers]. by rewrite Hw2.
Qed.

(** ** Memory *)

Lemma wpx_manage (f : st (PAGING Pmm.PMM) bool) E (Q : bool → MACHINE D → Prop) s :
  wp f (λ b (k : PAGING Pmm.PMM), Q b (set_memory (set_drivers s (with_processor (drivers s) (Paging.cpu k))) k))
    (with_cpu (memory s) (Devices.cpu (drivers s))) → wpx (manage f) E Q s.
Proof. intros H. apply wpx_lift. unfold wp, managing in *. by destruct (f _). Qed.

Lemma has_said_processor t k c :
  has_said t k → rflags c = flags_of k → has_said t (with_processor k c).
Proof.
  intros [Hok Hw Hu Hoff] Hc. split; [done|done|..]; change (flags_of (with_processor k c)) with (rflags c);
    by rewrite Hc.
Qed.

(** What the memory management leaves alone. *)
Record same_rest s s' : Prop := {
  sr_tables : tables s' = tables s;
  sr_loaded : loaded s' = loaded s;
  sr_info : kernel_boot_info s' = kernel_boot_info s;
  sr_initial : kernel_initial_rsp s' = kernel_initial_rsp s;
  sr_observed : kernel_observed_rsp s' = kernel_observed_rsp s;
}.

Lemma wp_boot_check (k : PAGING Pmm.PMM) (Q : bool → PAGING Pmm.PMM → Prop) :
  Pmm.pmm_wf (pmm k) →
  (∀ p m, check_keeps (pmm k) p (mem k) m → Q true (checked k p m)) →
  (∀ k' : PAGING Pmm.PMM, Q false k') → wp run_pmm_check Q k.
Proof.
  intros Hwf Hyes Hno. pose proof (boot_check_keeps (pmm k) (mem k) Hwf) as H.
  unfold wp, run_pmm_check. destruct (PmmCheck.pmm_boot_check (pmm k) (mem k)) as [[[|] p] m].
  - apply Hyes, H.
  - by apply Hno.
Qed.

Ltac telling := apply (bool_decide_unpack _); vm_compute; exact I.

Section memory.
Context (L : LAYOUT) (info : Z) (m : ram) (c0 : CPU).
Context (Hinfo : is_u64 info).
Context (Hpl : fst (Pmm.pmm_init m info Pmm.pmm_bss) = true → placement L m (read_info m info)).

(** The allocator and its check. *)
Lemma wpx_pages {X} (rest : ex (MACHINE D) leave X) s (Q : X → MACHINE D → Prop) :
  memory s = booted m Pmm.pmm_bss c0 → has_said serial_ready (drivers s) →
  receive_enabled (serial (drivers s)) = false →
  (∀ s' m' p, with_cpu (memory s') (Devices.cpu (drivers s')) = booted m' p (Devices.cpu (drivers s')) →
     fst (Pmm.pmm_init m info Pmm.pmm_bss) = true → pmm_started m' info p →
     read_info m' info = read_info m info →
     (∀ q, Pmm.usable_page m' (read_info m info) q ↔ Pmm.usable_page m (read_info m info) q) →
     has_said pages_ready (drivers s') → receive_enabled (serial (drivers s')) = false →
     same_rest s s' → wpx rest stopped Q s') →
  wpx (ok ← manage (run_pmm_init info);
       ok ← (if (ok : bool) then manage run_pmm_check else mret false);
       (if negb ok then boot_failure (txt "KERNEL ERROR: physical page management" ++ newline)
        else mret tt);;
       boot_log (txt "KERNEL: physical pages ready (4 KiB, self-test passed)" ++ newline);;
       rest) stopped Q s.
Proof.
  intros Hmem Hs He HQ. apply wpx_bind, wpx_manage. unfold wp, run_pmm_init. rewrite Hmem.
  change (mem (with_cpu _ _)) with m. change (pmm (with_cpu _ _)) with Pmm.pmm_bss.
  destruct (Pmm.pmm_init m info Pmm.pmm_bss) as [[|] p] eqn:Hi.
  2:{ apply wpx_bind, wpx_ret, wpx_bind. eapply (wpx_boot_failure serial_ready); [apply Hs|apply Hs|telling]. }
  pose proof (pmm_init_started m info p Hinfo Hi) as Hps.
  apply wpx_bind, wpx_manage, wp_boot_check; [apply Hps| |].
  2:{ intros k'. apply wpx_bind. eapply (wpx_boot_failure serial_ready); [apply Hs|apply Hs|telling]. }
  intros p' m' Hc. change (check_keeps p p' m m') in Hc.
  destruct (checked_started info Hinfo c0 m m' p p' Hps Hc) as (Hps' & Hi' & Hus).
  apply wpx_bind, wpx_ret, wpx_bind. eapply (wpx_boot_log serial_ready); [|telling|].
  { apply has_said_processor; [by apply has_said_processor|done]. }
  intros k Hk Hsame. specialize (Hsame He). apply (HQ _ m' p'); try done.
  exact (eq_trans (f_equal receive_enabled (sw_serial _ _ Hsame)) He).
Qed.

(** The page tables, and the check again. *)
Lemma wpx_page_tables {X} (rest : ex (MACHINE D) leave X) m' p s (Q : X → MACHINE D → Prop) :
  with_cpu (memory s) (Devices.cpu (drivers s)) = booted m' p (Devices.cpu (drivers s)) →
  fst (Pmm.pmm_init m info Pmm.pmm_bss) = true → pmm_started m' info p → read_info m' info = read_info m info →
  (∀ q, Pmm.usable_page m' (read_info m info) q ↔ Pmm.usable_page m (read_info m info) q) →
  has_said pages_ready (drivers s) → receive_enabled (serial (drivers s)) = false →
  (∀ s', memory_up L info m (with_cpu (memory s') (Devices.cpu (drivers s'))) →
     has_said paging_ready (drivers s') → receive_enabled (serial (drivers s')) = false →
     same_rest s s' → wpx rest stopped Q s') →
  wpx (ok ← manage (paging_init L info);
       ok ← (if (ok : bool) then manage run_pmm_check else mret false);
       (if negb ok then
          boot_failure (txt "KERNEL ERROR: paging initialization or RAM check" ++ newline)
        else mret tt);;
       boot_log (txt "KERNEL: paging ready (own CR3, RAM check passed)" ++ newline);;
       rest) stopped Q s.
Proof.
  intros Hmem Hi0 Hps Hri Hus Hs He HQ. apply wpx_bind, wpx_manage. unfold wp. rewrite Hmem.
  set (c := Devices.cpu (drivers s)) in *.
  pose proof (init_running L info Hinfo m' p c) as Hrun.
  destruct (paging_init L info (booted m' p c)) as [[|] k] eqn:Hi.
  2:{ apply wpx_bind, wpx_ret, wpx_bind. eapply (wpx_boot_failure pages_ready); [apply Hs|apply Hs|telling]. }
  destruct (Hrun k Hps (placement_same L info m m' Hri Hus (Hpl Hi0)) eq_refl) as [Hup Hrf].
  apply (memory_up_same L info m m' k Hri Hus) in Hup.
  assert (has_said pages_ready (with_processor (drivers s) (Paging.cpu k))) as Hs1
    by by apply has_said_processor.
  apply wpx_bind, wpx_manage, wp_boot_check.
  { destruct (mu_space _ _ _ _ Hup) as (r & Hg & _). exact (PagingModel.rep_pmm k r (g_rep k r Hg)). }
  2:{ intros k'. apply wpx_bind. eapply (wpx_boot_failure pages_ready); [apply Hs|apply Hs|telling]. }
  intros p' m2 Hc. apply (memory_up_checked L info Hinfo m k p' m2) in Hup; [|exact Hc].
  apply wpx_bind, wpx_ret, wpx_bind. eapply (wpx_boot_log pages_ready); [|telling|].
  { by apply has_said_processor. }
  intros k2 Hk2 Hsame. specialize (Hsame He). apply HQ; [|done| |by split].
  - assert (Devices.cpu k2 = Paging.cpu k) as Hcpu by exact (sw_cpu _ _ Hsame).
    change (memory_up L info m (with_cpu (checked k p' m2) (Devices.cpu k2))). rewrite Hcpu. exact Hup.
  - exact (eq_trans (f_equal receive_enabled (sw_serial _ _ Hsame)) He).
Qed.

(** The check of dynamic paging. *)
Lemma wpx_dynamic s (Q : unit → MACHINE D → Prop) :
  kernel_boot_info s = info →
  memory_up L info m (with_cpu (memory s) (Devices.cpu (drivers s))) →
  has_said paging_ready (drivers s) → receive_enabled (serial (drivers s)) = false →
  (∀ s', memory_up L info m (memory s') → enough (pmm_available (pmm (memory s')))
       (paging_table_count (memory s')) →
     has_said memory_ready (drivers s') → same_rest s s' → Q tt s') →
  wpx (ok ← run_paging_check L;
       (if negb ok then boot_failure (txt "KERNEL ERROR: dynamic paging check" ++ newline)
        else mret tt);;
       boot_log (txt "KERNEL: dynamic paging checks passed" ++ newline)) stopped Q s.
Proof.
  intros Hkbi Hup Hs He HQ. apply wpx_bind.
  pose proof (memory_up_boot_check L info m _ Hup) as H.
  unfold wpx at 1, run_paging_check, managing. rewrite Hkbi.
  destruct (PagingCheck.paging_boot_check L info (with_cpu (memory s) (Devices.cpu (drivers s))))
    as [[e|b] k].
  - destruct H as [-> _]. apply wpx_bind. eapply (wpx_boot_failure paging_ready); [apply Hs|apply Hs|telling].
  - destruct H as (-> & Hup' & Hreg & Hen & _). apply wpx_bind, wpx_ret.
    eapply (wpx_boot_log paging_ready); [|telling|].
    + apply has_said_processor; [done|]. by injection Hreg.
    + intros k2 Hk2 _. by apply HQ.
Qed.

Lemma wpx_initialize_memory s (Q : unit → MACHINE D → Prop) :
  memory s = booted m Pmm.pmm_bss c0 → kernel_boot_info s = info →
  has_said serial_ready (drivers s) → receive_enabled (serial (drivers s)) = false →
  (∀ s', memory_up L info m (memory s') → enough (pmm_available (pmm (memory s')))
       (paging_table_count (memory s')) →
     has_said memory_ready (drivers s') → same_rest s s' → Q tt s') →
  wpx (initialize_memory L info) stopped Q s.
Proof.
  intros Hmem Hkbi Hs He HQ. unfold initialize_memory.
  apply wpx_pages; [done..|]. intros s1 m' p Hm1 Hi1 Hps Hri Hus Hs1 He1 Hr1.
  eapply wpx_page_tables; [exact Hm1|done..|]. intros s2 Hup2 Hs2 He2 Hr2.
  apply wpx_dynamic; [|done..|].
  - by rewrite (sr_info _ _ Hr2), (sr_info _ _ Hr1).
  - intros s3 Hup3 Hen3 Hs3 Hr3. apply HQ; [done..|]. destruct Hr1, Hr2, Hr3. split; congruence.
Qed.

End memory.

(** ** The timer *)

Lemma wpx_initialize_timer s (Q : unit → MACHINE D → Prop) :
  has_said memory_ready (drivers s) →
  (∀ k, has_said timer_ready k → Q tt (set_drivers s k)) →
  wpx initialize_timer stopped Q s.
Proof.
  intros Hs HQ. unfold initialize_timer. apply wpx_bind, wpx_driver.
  eapply wp_mono; [apply keeps_timer_init|]. intros ok k1 H1.
  assert (has_said memory_ready k1) as Hs1.
  { destruct Hs as [Hok Hw Hu Hoff]. destruct (KernelConsole.quiet_ok _ _ H1 Hok) as [Hok1 Hw1].
    pose proof (qu_flags _ _ _ H1 Hu) as Hf. split; [done|by rewrite Hw1|by rewrite Hf..]. }
  destruct ok; cbn [negb]; [|by eapply wpx_spin; [exact Hs1|done|telling]].
  apply wpx_bind, wpx_driver. cbn [drivers set_drivers].
  eapply wp_mono; [apply wp_timer_check_registers, Hs1|]. intros ok k2 (H2 & Hu2 & Hoff2).
  assert (has_said memory_ready k2) as Hs2.
  { destruct Hs1 as [Hok Hw _ _]. destruct (H2 Hok) as [Hok2 Hw2]. by split; [|rewrite Hw2|..]. }
  apply wpx_bind, wpx_driver. unfold wp at 1, Timer.timer_ticks, get. cbn [drivers set_drivers].
  destruct (_ || _); [by eapply wpx_spin; [exact Hs2|done|telling]|].
  eapply (wpx_boot_log memory_ready); [exact Hs2|telling|]. intros k3 Hk3 _. by apply HQ.
Qed.

(** Reception, and interrupts. *)
Lemma wpx_receiving s (Q : unit → MACHINE D → Prop) :
  has_said timer_ready (drivers s) →
  (∀ k, KernelConsole.drivers_ok k → wire (line k) = wire (line k0) ++ expand boot_text →
     has_bits (flags_of k) 0x200 = true → Q tt (set_drivers s k)) →
  wpx (ok ← driver Serial.serial_enable_receive;
       (if negb ok then boot_failure (txt "KERNEL ERROR: serial receive IRQ" ++ newline)
        else mret tt);;
       boot_log (txt "KERNEL: serial receive ready (IRQ4, 255-byte buffer)" ++ newline);;
       driver (set_cpu x86_enable_interrupts)) stopped Q s.
Proof.
  intros Hs HQ. apply wpx_bind, wpx_driver.
  eapply wp_mono; [apply wp_serial_enable_receive, Hs|]. intros ok k1 [H1 Hf1].
  assert (has_said timer_ready k1) as Hs1.
  { destruct Hs as [Hok Hw Hu Hoff]. destruct (H1 Hok) as [Hok1 Hw1].
    split; [done|by rewrite Hw1|by rewrite Hf1..]. }
  destruct ok; cbn [negb]; apply wpx_bind;
    [apply wpx_ret|eapply (wpx_boot_failure timer_ready); [apply Hs1|apply Hs1|telling]].
  apply wpx_bind. eapply (wpx_boot_log timer_ready); [exact Hs1|telling|]. intros k2 Hs2 _.
  apply wpx_driver. unfold wp, set_cpu, on_cpu. cbn [drivers set_drivers]. apply HQ; [apply Hs2|apply Hs2|].
  change (flags_of _) with (Z.lor (flags_of k2) IF_BIT). change 0x200 with (bit64 9).
  rewrite has_bits_bit64 by lia. rewrite Z.lor_spec. change (Z.testbit IF_BIT 9) with true.
  apply orb_true_r.
Qed.

(** ** [kernel_boot] *)

(** The boot information has passed the kernel's checks. *)
Definition accepted (info rsp initial_rsp : Z) (b : BOOT_INFO) : Prop :=
  valid_boot_header info b = true ∧ valid_memory_map b = true ∧ valid_stack b rsp initial_rsp = true.

(** What the console finds. *)
Record started L sy (info rsp : Z) (m : ram) s s' : Prop := {
  sd_accepted : accepted info rsp (kernel_initial_rsp s) (read_info m info);
  sd_memory : memory_up L info m (memory s');
  sd_room : enough (pmm_available (pmm (memory s'))) (paging_table_count (memory s'));
  sd_tables : let b := read_info m info in
    (tables s', loaded s') =
      (fst (tables_init sy (u64 (stack_base b + stack_size b)) (tables s)),
       Some (snd (tables_init sy (u64 (stack_base b + stack_size b)) (tables s))));
  sd_info : kernel_boot_info s' = info;
  sd_observed : kernel_observed_rsp s' = rsp;
  sd_drivers : KernelConsole.drivers_ok (drivers s');
  sd_wire : wire (line (drivers s')) = wire (line k0) ++ expand boot_text;
  sd_interrupts : has_bits (flags_of (drivers s')) 0x200 = true;
}.

Lemma wpx_kernel_boot L sy info rsp m c0 s :
  is_u64 info → (fst (Pmm.pmm_init m info Pmm.pmm_bss) = true → placement L m (read_info m info)) →
  memory s = booted m Pmm.pmm_bss c0 → has_said [] (drivers s) →
  receive_enabled (serial (drivers s)) = false →
  wpx (kernel_boot L sy info rsp) stopped (λ _ s', started L sy info rsp m s s') s.
Proof.
  intros Hinfo Hpl Hmem Hs He. unfold kernel_boot.
  apply wpx_bind, wpx_lift, wp_modify, wpx_bind, wpx_lift, wp_get, wpx_bind, wpx_lift, wp_get.
  cbn [memory kernel_initial_rsp]. rewrite Hmem. change (mem (booted m _ _)) with m.
  set (b := read_info m info) in *.
  destruct (valid_boot_header info b) eqn:Hv1; cbn [negb]; [|by eapply wpx_spin; [exact Hs|done|telling]].
  destruct (valid_memory_map b) eqn:Hv2; cbn [negb orb]; [|by eapply wpx_spin; [exact Hs|done|telling]].
  destruct (valid_stack b rsp _) eqn:Hv3; cbn [negb]; [|by eapply wpx_spin; [exact Hs|done|telling]].
  apply wpx_bind, wpx_lift, wp_modify, wpx_bind, wpx_driver. cbn [drivers].
  eapply wp_mono; [apply wp_serial_init; split; [apply Hs|done]|]. intros ok k1 [H1 Hsw1].
  assert (has_said [] k1) as Hs1.
  { destruct Hs as [Hok Hw Hu Hoff]. destruct (H1 Hok) as [Hok1 Hw1].
    unfold flags_of in *. split; [done|by rewrite Hw1|..]; unfold flags_of; by rewrite (sw_cpu _ _ Hsw1). }
  assert (receive_enabled (serial k1) = false) as He1 by by rewrite (sw_serial _ _ Hsw1).
  destruct ok; cbn [negb]; [|by eapply wpx_spin; [exact Hs1|done|telling]].
  apply wpx_bind. eapply (wpx_boot_log []); [exact Hs1|telling|]. intros k2 Hs2 Hsame2.
  specialize (Hsame2 He1). apply wpx_bind, wpx_lift, wp_modify.
  destruct (tables_init _ _ _) as [t l] eqn:Ht. apply wpx_bind.
  eapply wpx_boot_log; [exact Hs2|telling|]. intros k3 Hs3 Hsame3.
  assert (receive_enabled (serial k3) = false) as He3.
  { assert (receive_enabled (serial k2) = false) as He2
      by exact (eq_trans (f_equal receive_enabled (sw_serial _ _ Hsame2)) He1).
    exact (eq_trans (f_equal receive_enabled (sw_serial _ _ (Hsame3 He2))) He2). }
  apply wpx_bind. eapply (wpx_initialize_memory L info m c0); [done|done|done|done|exact Hs3|exact He3|].
  intros s4 Hup4 Hen4 Hs4 [Hr1 Hr2 Hr3 Hr4 Hr5]. apply wpx_bind, wpx_initialize_timer; [exact Hs4|].
  intros k5 Hs5. apply wpx_receiving; [exact Hs5|]. intros k6 Hok6 Hw6 Hif6. split; try done.
  change (tables_init sy (u64 (stack_base b + stack_size b)) (tables s) = (t, l)) in Ht.
  fold b. cbv zeta. rewrite Ht. exact (f_equal2 pair Hr1 Hr2).
Qed.

End kernel.

(** ** The kernel *)

(** How the loader and [kernel_entry] leave the drivers: nothing sent yet, static
    variables as in [.bss], interrupts off. *)
Definition unused {D} (k : KERNEL D) : Prop :=
  trace k = [] ∧ serial k = serial_bss ∧ is_u64 (rflags (Devices.cpu k)) ∧
  has_bits (rflags (Devices.cpu k)) 0x200 = false.

(** The start in terms of [has_said]. *)
Lemma kernel_boot_outcome {D} `{!Device D} L sy info rsp m c0 (s : MACHINE D) :
  is_u64 info → (fst (Pmm.pmm_init m info Pmm.pmm_bss) = true → placement L m (read_info m info)) →
  memory s = booted m Pmm.pmm_bss c0 → unused (drivers s) →
  wpx (kernel_boot L sy info rsp) (stopped (drivers s))
    (λ _ s', started (drivers s) L sy info rsp m s s') s.
Proof.
  intros Hinfo Hpl Hmem (Ht & Hb & Hu & Hoff).
  apply (wpx_kernel_boot (drivers s) L sy info rsp m c0 s Hinfo Hpl Hmem); [|by rewrite Hb].
  assert (line (drivers s) = {| latch := false; clear := false; wire := []; polite := true |}) as Hl0
    by (unfold line; by rewrite Ht).
  split; [|by rewrite app_nil_r|done|done].
  unfold KernelConsole.drivers_ok. rewrite Hl0, Hb. split; [done|]. split; [done|]. apply rx_bss_wf.
Qed.

End KernelMainSpec.
