(* ===== verification/BootLive.v ===== *)
(** * The drivers on hardware that answers

    When the UART gets ready in time and the timer ticks, the steps of the boot
    that concern the drivers succeed: each of them exactly when what it asks of
    the processor holds. *)

From S2P Require Import Prelude State X86 RxBuffer Devices SerialIrq Irq Serial Timer.
From S2P Require Import Frames SerialSpec IrqSpec KernelConsole KernelMain BootDrivers.

Module BootLive.
Import X86 RxBuffer Devices SerialIrq Irq Serial Timer Frames SerialSpec IrqSpec BootDrivers.

(** Hardware whose timer requests its interrupt once the kernel has set up the
    controllers and unmasked the timer's line. *)
Class Ticking (D : Type) `{Board D} := {
  timer_requests d : remapped (pics d) → masked (pics d) 0 = false → 32 ∈ requests d;
  requests_bound d : Z.of_nat (length (requests d)) < 2 ^ 64;
}.

Section drivers.
Context {D : Type} `{!Device D}.
Implicit Types (k : KERNEL D).

(** ** The serial line *)

Section prompt.
Context (Hp : prompt_hardware (D:=D)).

Lemma live_serial_init k :
  hushed k → wp serial_init (λ ok k', ok = true ∧ same_software k k') k.
Proof.
  intros Hk. eapply wp_mono; [apply wp_and; [|apply (wp_serial_init k Hk)]|].
  2:{ intros ok k' [Hok [_ Hs]]. exact (conj Hok Hs). }
  unfold serial_init. apply wp_bind.
  eapply wp_mono; [apply wp_wait_status_prompt; [done|by right]|]. intros ok k1 ->. cbn [negb].
  do 8 (apply wp_bind; eapply wp_mono; [apply wp_outb|]; intros [] ? _).
  apply wp_wait_status_prompt; [done|by left].
Qed.

(** Output succeeds, and changes nothing that the boot depends on. *)
Lemma live_output t k :
  wp (serial_write t) (λ ok k', ok = true ∧ (hushed k → same_software k k')) k.
Proof. apply wp_and; [by apply wp_serial_write_prompt|apply inert_wp, inert_serial_write]. Qed.

Lemma live_flush k :
  wp serial_flush (λ ok k', ok = true ∧ (hushed k → same_software k k')) k.
Proof.
  apply wp_and; [apply wp_wait_status_prompt; [done|by right]|apply inert_wp, inert_wait_status].
Qed.

End prompt.

(** ** Interrupt lines *)

(** With the controllers initialized and interrupts off a line is unmasked. *)
Lemma live_irq_enable n k :
  irq_initialized (irq k) = true → has_bits (flags_of k) 0x200 = false → 0 ≤ n < 8 →
  wp (irq_enable n) (λ ok k', ok = true ∧ same_software k k') k.
Proof.
  intros Hi Hf Hn. unfold irq_enable. apply wp_bind, wp_get, wp_bind, wp_get.
  change (x86_read_rflags (cpu k)) with (flags_of k). rewrite Hi, Hf.
  rewrite (proj2 (Z.leb_gt 16 n)), (proj2 (Z.ltb_lt n 8)), (proj2 (Z.leb_gt 8 n)) by lia. cbn [negb orb].
  cbv zeta. apply wp_bind. eapply wp_mono; [apply wp_inb|]. intros v k1 [_ [_ _ H1]].
  apply wp_bind. eapply wp_mono; [apply does_pic_write|]. intros [] k2 [_ _ H2].
  apply wp_bind, wp_ret, wp_ret. split; [done|]. by transitivity k1.
Qed.

Lemma live_enable_receive k :
  irq_initialized (irq k) = true → hushed k → wp serial_enable_receive (λ ok _, ok = true) k.
Proof.
  intros Hi [Hf He]. unfold serial_enable_receive. apply wp_bind, wp_get, wp_bind, wp_get.
  change (x86_read_rflags (cpu k)) with (flags_of k). rewrite He, Hf. cbn [orb].
  apply wp_bind. eapply wp_mono; [by apply (live_irq_enable 4)|]. intros ok k1 [-> _]. done.
Qed.

(** ** The timer *)

Section board.
Context `{!Board D}.

Lemma live_timer_init k :
  timer_initialized (timer k) = false → irq_initialized (irq k) = false →
  has_bits (flags_of k) 0x200 = false →
  wp timer_init (λ ok k', serial k' = serial k ∧ flags_of k' = flags_of k ∧
    ok = negb (apic_present (cpu k) && x2apic (cpu k)) ∧
    (ok = true → irq_initialized (irq k') = true ∧ ticks (timer k') = 0 ∧
       remapped (pics (device k')) ∧ masked (pics (device k')) 0 = false)) k.
Proof.
  intros Ht Hi Hf. eapply wp_mono; [apply wp_timer_init|]. intros [|] k' (Hs & Hfl & H).
  - destruct H as (_ & (_ & _ & Ha) & Hi' & Ht' & _ & Hr & Hm & _). rewrite Ha, Ht'.
    do 3 (split; [done|]). intros _. do 3 (split; [done|]). by rewrite Hm by lia.
  - destruct H as [[H|H] _]; [congruence|]. do 2 (split; [done|]). split; [|done].
    destruct (apic_present (cpu k) && x2apic (cpu k)) eqn:Ha; [done|]. by destruct H.
Qed.

(** One interrupt: a tick when it is the timer's. *)
Definition tick (v : Z) : Z := if v =? 32 then 1 else 0.

Lemma live_interrupt v k :
  32 ≤ v < 48 → rx_wf (receive_buffer (serial k)) →
  0 ≤ ticks (timer k) → ticks (timer k) + tick v < 2 ^ 64 →
  wp (interrupt v) (λ _ k', ticks (timer k') = ticks (timer k) + tick v ∧
    irq_initialized (irq k') = irq_initialized (irq k) ∧
    rx_wf (receive_buffer (serial k')) ∧ flags_of k' = flags_of k ∧
    receive_enabled (serial k') = receive_enabled (serial k)) k.
Proof.
  intros Hv Hwf Hlo Hhi. unfold interrupt, tick in *. apply wp_bind. unfold wp at 1, on_cpu.
  cbn -[irq_dispatch x86_disable_interrupts]. set (k1 := Build_KERNEL _ _ _ _ _ _).
  apply wp_bind. eapply wp_mono; [apply wp_and; [by apply (wp_irq_dispatch v k1)|apply keeps_irq_dispatch]|].
  intros [] k2 [(l & _ & _ & H) [_ _ He Hr]]. unfold wp, set_cpu, on_cpu.
  cbn [timer irq serial flags_of cpu rflags with_rflags k1] in *.
  destruct H as [((H32 & _) & [_ Hs Hq Hm] & _)|(before & work & _ & _ & _ & Hh & _)].
  - rewrite Hm, Hq. rewrite (proj2 (Z.eqb_neq v 32)) by lia. rewrite Z.add_0_r. auto.
  - unfold handled in Hh. destruct (Z.eqb_spec v 32).
    + destruct Hh as (-> & -> & ->). rewrite u64_small by (unfold is_u64; cbn; lia). auto.
    + rewrite Z.add_0_r. destruct (v =? 36).
      * destruct Hh as (-> & -> & _). auto.
      * destruct Hh as (-> & -> & -> & _). auto.
Qed.

Lemma live_interrupts vs k :
  Forall (λ v, 32 ≤ v < 48) vs → rx_wf (receive_buffer (serial k)) →
  0 ≤ ticks (timer k) → ticks (timer k) + Z.of_nat (length vs) < 2 ^ 64 →
  wp (foldr (λ v m, interrupt v;; m) (mret tt) vs) (λ _ k',
    ticks (timer k) ≤ ticks (timer k') ∧ (32 ∈ vs → ticks (timer k) < ticks (timer k')) ∧
    irq_initialized (irq k') = irq_initialized (irq k) ∧ flags_of k' = flags_of k ∧
    receive_enabled (serial k') = receive_enabled (serial k)) k.
Proof.
  intros Hvs. revert k. induction Hvs as [|v vs Hv Hvs IH]; intros k Hwf Hlo Hhi; cbn [foldr].
  { apply wp_ret. split; [lia|]. by split; [intros ?%elem_of_nil|]. }
  assert (0 ≤ tick v ≤ 1) as Htick by (unfold tick; by destruct (v =? 32)).
  cbn [length] in Hhi. apply wp_bind.
  eapply wp_mono; [apply (live_interrupt v k); [done..|lia]|].
  intros [] k1 (Ht1 & Hi1 & Hwf1 & Hf1 & He1). eapply wp_mono; [apply (IH k1); [done|lia..]|].
  intros [] k2 (Hle & Hlt & Hi2 & Hf2 & He2). split; [lia|].
  split; [|split; [congruence|split; congruence]].
  intros [<-|Hin]%elem_of_cons; [unfold tick in Ht1; cbn in Ht1; lia|]. specialize (Hlt Hin). lia.
Qed.

(** The flags survive the interrupts that are taken, and the timer ticks. *)
Lemma live_check_registers `{!Ticking D} k :
  is_u64 (flags_of k) → rx_wf (receive_buffer (serial k)) → ticks (timer k) = 0 →
  remapped (pics (device k)) → masked (pics (device k)) 0 = false →
  wp KernelMain.timer_check_registers (λ ok k', ok = true ∧ ticks (timer k') ≠ 0 ∧
    irq_initialized (irq k') = irq_initialized (irq k) ∧
    receive_enabled (serial k') = receive_enabled (serial k)) k.
Proof.
  intros Hu Hwf Ht0 Hr Hm. unfold KernelMain.timer_check_registers, KernelConsole.enable, KernelConsole.disable.
  apply wp_bind. unfold wp at 1, set_cpu, on_cpu.
  set (k1 := Build_KERNEL _ _ _ _ _ _). apply wp_bind, wp_bind. unfold wp at 1.
  set (k2 := Build_KERNEL _ _ _ _ _ _).
  unfold interrupts. apply wp_bind, wp_get.
  set (f := Z.lor (Z.lor (flags_of k) 0x401) IF_BIT). change (x86_read_rflags (cpu k2)) with f.
  assert (has_bits f 0x200 = true) as Hif.
  { change 0x200 with (bit64 9). rewrite has_bits_bit64 by lia. unfold f. rewrite Z.lor_spec.
    change (Z.testbit IF_BIT 9) with true. apply orb_true_r. }
  rewrite Hif. cbn [negb]. apply wp_bind, wp_get.
  change (requests (device k2)) with (requests (device k)).
  pose proof (requests_bound (device k)).
  eapply wp_mono; [apply (live_interrupts (requests (device k)) k2 (requests_range _) Hwf);
    change (timer k2) with (timer k); lia|].
  intros [] k3 (_ & Hlt & Hi3 & Hf3 & He3). specialize (Hlt (timer_requests _ Hr Hm)).
  change (timer k2) with (timer k) in Hlt. change (irq k2) with (irq k) in Hi3.
  change (serial k2) with (serial k) in He3. change (flags_of k2) with f in Hf3.
  apply wp_bind. unfold wp at 1. set (k4 := Build_KERNEL _ _ _ _ _ _).
  apply wp_bind, wp_get, wp_bind. unfold wp at 1. set (k5 := Build_KERNEL _ _ _ _ _ _). apply wp_ret.
  split; [|split; [change (timer k5) with (timer k3); lia|done]].
  apply Z.eqb_eq. change (x86_read_rflags (cpu k4)) with (Z.land (flags_of k3) (not64 IF_BIT)).
  rewrite Hf3. apply Z.bits_inj'. intros i Hi. unfold f. rewrite !Z.land_spec, !Z.lor_spec.
  destruct (Z.testbit 0x401 i) eqn:Hb; [|by rewrite !andb_false_r].
  rewrite orb_true_r. cbn [orb andb]. rewrite andb_true_r.
  assert (i = 0 ∨ i = 10) as [->| ->]; [|done..].
  destruct (Z.ltb_spec i 11) as [Hlt'|Hge].
  - assert (i ∈ seqZ 0 11) as Hin by (apply elem_of_seqZ; lia). revert Hb. change (seqZ 0 11) with
      [0; 1; 2; 3; 4; 5; 6; 7; 8; 9; 10] in Hin. rewrite !elem_of_cons, elem_of_nil in Hin.
    by repeat destruct Hin as [->|Hin]; auto.
  - rewrite Z.bits_above_log2 in Hb; [done|lia|change (Z.log2 0x401) with 10; lia].
Qed.

End board.
End drivers.

End BootLive.
