(* ===== verification/KernelMainLive.v ===== *)
(** * When the kernel reaches the console

    On hardware that answers in time the boot is decided by what the loader has
    handed over, the processor's features and the number of free pages. *)

From Stdlib Require Import String.
From S2P Require Import Prelude State BootInfo PmmInterface Pmm X86 Paging PagingSpace PagingInit.
From S2P Require Import PagingModel PagingCheckSpec PmmCheck PagingInitStep PagingInitSpec PagingCheck BootMemory.
From S2P Require Import RxBuffer Devices SerialIrq Irq Serial Timer.
From S2P Require Import Frames SerialSpec IrqSpec Text Tables Console ConsoleSpec KernelConsole KernelMain.
From S2P Require Import BootDrivers KernelMainSpec BootLive.

Module KernelMainLive.
Import State X86 Paging PagingSpace PagingInit PagingInitStep PagingInitSpec PagingCheck PagingCheckSpec BootMemory.
Import Devices Frames SerialSpec IrqSpec Text Tables KernelMain BootDrivers KernelMainSpec BootLive.

#[local] Existing Instances Pmm.Pmm_api Pmm.Pmm_contract Pmm.pmm_wf_dec.
#[local] Existing Instances KernelConsole.system_board KernelConsole.system_wire
  KernelConsole.system_contract.

(** ** What decides *)

(** The memory the allocator starts from, as [pmm_init] sees it. *)
Definition managed (m : ram) (info : Z) : Pmm.PMM := snd (Pmm.pmm_init m info Pmm.pmm_bss).

(** What [initialize_memory] asks for: boot information that [pmm_init] accepts,
    what [paging_init] needs, and six pages more for the checks. *)
Record memory_bootable (L : LAYOUT) (info : Z) (m : ram) (c : CPU) : Prop := {
  mb_map : fst (Pmm.pmm_init m info Pmm.pmm_bss) = true;
  mb_paging : initializable L info (booted m (managed m info) c);
  mb_room : Z.of_nat (size (tables_of (ram_pages m (read_info m info)))) + 6 ≤
    pmm_available (managed m info);
}.

(** The whole: the checks of [kernel_main], memory, and a local APIC that can be
    switched off. *)
Record bootable {D} (L : LAYOUT) (info rsp : Z) (m : ram) (s : MACHINE D) : Prop := {
  bt_accepted : accepted info rsp (kernel_initial_rsp s) (read_info m info);
  bt_memory : memory_bootable L info m (Devices.cpu (drivers s));
  bt_apic : apic_present (Devices.cpu (drivers s)) && x2apic (Devices.cpu (drivers s)) = false;
}.

Section kernel.
Context {D : Type} `{!Device D}.
Implicit Types (s : MACHINE D) (k : KERNEL D).

(** ** Steps that cannot fail, and those that end the boot *)

Lemma wpx_failure {A} msg (P : Prop) (Q : A → MACHINE D → Prop) s :
  P → wpx (boot_failure msg) (λ _ _, P) Q s.
Proof.
  intros HP. apply wpx_bind, wpx_driver. eapply (wp_mono _ (λ _ _, True)).
  { unfold wp. by destruct (Serial.serial_write _ _). }
  intros ok k1 _. apply wpx_bind, wpx_driver. eapply (wp_mono _ (λ _ _, True)).
  { unfold wp. by destruct (Serial.serial_flush _). }
  by intros ok' k2 _.
Qed.

Context (Hp : prompt_hardware (D:=D)).

Lemma live_log msg s E (Q : unit → MACHINE D → Prop) :
  (∀ k, (hushed (drivers s) → same_software (drivers s) k) → Q tt (set_drivers s k)) →
  wpx (boot_log msg) E Q s.
Proof.
  intros HQ. apply wpx_bind, wpx_driver. eapply wp_mono; [by apply live_output|].
  intros ok k1 [-> H1]. cbn [negb]. apply wpx_bind, wpx_driver.
  eapply wp_mono; [by apply live_flush|]. intros ok k2 [-> H2]. cbn [negb drivers set_drivers] in *.
  apply wpx_ret, HQ. intros Hh. specialize (H1 Hh). transitivity k1; [done|].
  by apply H2, (hushed_same (drivers s)).
Qed.

(** What memory management leaves of the drivers' world. *)
Record drivers_kept s s' : Prop := {
  dk_serial : serial (drivers s') = serial (drivers s);
  dk_irq : irq (drivers s') = irq (drivers s);
  dk_timer : timer (drivers s') = timer (drivers s);
  dk_flags : flags_of (drivers s') = flags_of (drivers s);
  dk_cpuid : cpuid (Devices.cpu (drivers s')) = cpuid (Devices.cpu (drivers s));
  dk_apic : msr (Devices.cpu (drivers s')) !! 0x1b = msr (Devices.cpu (drivers s)) !! 0x1b;
  dk_info : kernel_boot_info s' = kernel_boot_info s;
}.

#[local] Instance drivers_kept_preorder : PreOrder drivers_kept.
Proof. split; [by split|]. intros s1 s2 s3 [] []. split; congruence. Qed.

Lemma drivers_kept_hushed s s' : drivers_kept s s' → hushed (drivers s) → hushed (drivers s').
Proof. intros [Hs _ _ Hf _ _ _] [H1 H2]. split; congruence. Qed.

(** A step of the memory management on the processor, and a log after it. *)
Lemma kept_log s s0 c k :
  same_software (with_processor (drivers s) c) k → kernel_boot_info s0 = kernel_boot_info s →
  rflags c = flags_of (drivers s) → cpuid c = cpuid (Devices.cpu (drivers s)) →
  msr c !! 0x1b = msr (Devices.cpu (drivers s)) !! 0x1b → drivers_kept s (set_drivers s0 k).
Proof.
  intros [Hc Hs Hq Ht] Hi Hf Hcpuid Hmsr. cbn [with_processor Devices.cpu serial irq timer] in *.
  split; unfold flags_of; cbn [drivers set_drivers]; rewrite ?Hc; done.
Qed.

(** ** Memory *)

Section memory.
Context (L : LAYOUT) (info : Z) (m : ram) (c0 : CPU).
Context (Hinfo : is_u64 info).
Context (Hpl : fst (Pmm.pmm_init m info Pmm.pmm_bss) = true → placement L m (read_info m info)).

Abbreviation need := (Z.of_nat (size (tables_of (ram_pages m (read_info m info))))).

Lemma live_boot_check (k : PAGING Pmm.PMM) (Q : bool → PAGING Pmm.PMM → Prop) :
  Pmm.pmm_wf (pmm k) →
  (∀ p m', check_keeps (pmm k) p (mem k) m' → Q true (checked k p m')) →
  (∀ k' : PAGING Pmm.PMM, pmm_available (pmm k) < 3 → Q false k') → wp run_pmm_check Q k.
Proof.
  intros Hwf Hyes Hno. pose proof (boot_check_keeps (pmm k) (mem k) Hwf) as H.
  unfold wp, run_pmm_check. destruct (PmmCheck.pmm_boot_check (pmm k) (mem k)) as [[[|] p] m'].
  - apply Hyes, H.
  - by apply Hno.
Qed.

(** The allocator and its check; [c] is the processor of the moment. *)
Lemma live_pages {X} (rest : ex (MACHINE D) leave X) s (Q : X → MACHINE D → Prop) :
  let c := Devices.cpu (drivers s) in
  let fails := λ (_ : leave) (_ : MACHINE D), ¬ memory_bootable L info m c in
  memory s = booted m Pmm.pmm_bss c0 → hushed (drivers s) →
  (∀ s' m' p, with_cpu (memory s') (Devices.cpu (drivers s')) = booted m' p c →
     Pmm.pmm_init m info Pmm.pmm_bss = (true, managed m info) →
     pmm_started m info (managed m info) → check_keeps (managed m info) p m m' →
     drivers_kept s s' → wpx rest fails Q s') →
  wpx (ok ← manage (run_pmm_init info);
       ok ← (if (ok : bool) then manage run_pmm_check else mret false);
       (if negb ok then boot_failure (txt "KERNEL ERROR: physical page management" ++ newline)
        else mret tt);;
       boot_log (txt "KERNEL: physical pages ready (4 KiB, self-test passed)" ++ newline);;
       rest) fails Q s.
Proof.
  intros c fails Hmem Hh HQ. apply wpx_bind, wpx_manage. unfold wp, run_pmm_init. rewrite Hmem.
  change (mem (with_cpu _ _)) with m. change (pmm (with_cpu _ _)) with Pmm.pmm_bss.
  unfold managed in HQ. unfold fails in *. clear fails.
  destruct (Pmm.pmm_init m info Pmm.pmm_bss) as [[|] p0] eqn:Hi; cbn [snd] in HQ.
  2:{ apply wpx_bind, wpx_ret, wpx_bind. apply wpx_failure. intros [Hmap _ _]. by rewrite Hi in Hmap. }
  pose proof (pmm_init_started m info p0 Hinfo Hi) as Hps.
  apply wpx_bind, wpx_manage, live_boot_check; [apply Hps| |].
  2:{ intros k' H3. apply wpx_bind, wpx_failure. intros [_ _ Hroom]. unfold managed in Hroom.
      rewrite Hi in Hroom. cbn [snd] in Hroom. change (pmm_available p0 < 3) in H3. lia. }
  intros p' m' Hc. change (check_keeps p0 p' m m') in Hc.
  apply wpx_bind, wpx_ret, wpx_bind, live_log. intros k Hsame. specialize (Hsame Hh).
  apply (HQ _ m' p'); [|done|done|done|].
  - cbn [drivers set_drivers memory]. rewrite (sw_cpu _ _ Hsame). done.
  - by eapply kept_log; [exact Hsame|..].
Qed.

(** The page tables, and the check again. *)
Lemma live_page_tables {X} (rest : ex (MACHINE D) leave X) m' p s (Q : X → MACHINE D → Prop) :
  let c := Devices.cpu (drivers s) in
  let fails := λ (_ : leave) (_ : MACHINE D), ¬ memory_bootable L info m c in
  with_cpu (memory s) c = booted m' p c →
  Pmm.pmm_init m info Pmm.pmm_bss = (true, managed m info) →
  pmm_started m info (managed m info) → check_keeps (managed m info) p m m' → hushed (drivers s) →
  (∀ s', memory_up L info m (with_cpu (memory s') (Devices.cpu (drivers s'))) →
     initializable L info (booted m (managed m info) c) →
     pmm_available (pmm (memory s')) + need = pmm_available (managed m info) →
     paging_table_count (memory s') = need → drivers_kept s s' → wpx rest fails Q s') →
  wpx (ok ← manage (paging_init L info);
       ok ← (if (ok : bool) then manage run_pmm_check else mret false);
       (if negb ok then
          boot_failure (txt "KERNEL ERROR: paging initialization or RAM check" ++ newline)
        else mret tt);;
       boot_log (txt "KERNEL: paging ready (own CR3, RAM check passed)" ++ newline);;
       rest) fails Q s.
Proof.
  intros c fails Hmem Hi Hps Hc Hh HQ. apply wpx_bind, wpx_manage. unfold wp. fold c. rewrite Hmem.
  destruct (checked_started info Hinfo c m m' _ p Hps Hc) as (Hps' & Hri & Hus).
  pose proof (checked_initializable L info Hinfo m m' _ p c Hps Hc) as Hiff.
  pose proof (paging_init_decided L m' info p c Hinfo Hps') as Hdec. rewrite Hiff in Hdec.
  pose proof (init_running L info Hinfo m' p c) as Hrun.
  pose proof (init_counts L info Hinfo m' p c) as Hcounts.
  destruct (paging_init L info (booted m' p c)) as [[|] k] eqn:Hk; cbn [fst] in Hdec.
  2:{ apply wpx_bind, wpx_ret, wpx_bind. apply wpx_failure. intros [_ Hin _]. by apply Hdec in Hin. }
  pose proof (proj1 Hdec eq_refl) as Hin.
  destruct (Hrun k Hps' (placement_same L info m m' Hri Hus (Hpl (f_equal fst Hi))) eq_refl) as [Hup Hrf].
  destruct (Hcounts k Hps' eq_refl) as (Hcount & Hav & Hcpuid & Hmsr).
  apply (memory_up_same L info m m' k Hri Hus) in Hup.
  assert (ram_pages m' (read_info m' info) = ram_pages m (read_info m info)) as Hpages.
  { destruct (checked_descriptors info Hinfo c m m' _ p Hps Hc) as [_ Hd]. rewrite Hri.
    unfold ram_pages. f_equal. apply list_fmap_ext. intros j i Hj. rewrite Hd; [done|].
    apply lookup_seqZ in Hj. lia. }
  rewrite Hpages in Hcount. rewrite Hcount in Hav.
  change (pmm_available p) with (Pmm.free_pages p) in Hav.
  pose proof (ch_free _ _ _ _ Hc) as Hfree.
  assert (pmm_available (pmm k) + need = pmm_available (managed m info)) as Hav'
    by (rewrite <- Hfree; exact Hav).
  apply wpx_bind, wpx_manage, live_boot_check.
  { destruct (mu_space _ _ _ _ Hup) as (r & Hg & _).
    exact (PagingModel.rep_pmm k r (g_rep k r Hg)). }
  2:{ intros k' H3. apply wpx_bind, wpx_failure. intros [_ _ Hroom].
      change (pmm_available (pmm k) < 3) in H3. lia. }
  intros p' m2 Hc2. change (check_keeps (pmm k) p' (mem k) m2) in Hc2.
  pose proof (ch_free _ _ _ _ Hc2) as Hfree2.
  apply (memory_up_checked L info Hinfo m k p' m2) in Hup; [|exact Hc2].
  apply wpx_bind, wpx_ret, wpx_bind, live_log. intros k2 Hsame.
  assert (hushed (with_processor (drivers s) (Paging.cpu k))) as Hh'.
  { destruct Hh as [H1 H2]. split; [|done]. unfold flags_of in *. cbn. by rewrite Hrf. }
  specialize (Hsame Hh'). apply HQ; [|done| |exact Hcount|].
  - cbn [drivers set_drivers memory]. rewrite (sw_cpu _ _ Hsame). exact Hup.
  - cbn [memory set_drivers]. rewrite <- Hav', <- Hfree2. done.
  - by eapply kept_log; [exact Hsame|..].
Qed.

Lemma live_initialize_memory s :
  let c := Devices.cpu (drivers s) in
  memory s = booted m Pmm.pmm_bss c0 → kernel_boot_info s = info → hushed (drivers s) →
  wpx (initialize_memory L info) (λ _ _, ¬ memory_bootable L info m c)
    (λ _ s', memory_bootable L info m c ∧ drivers_kept s s') s.
Proof.
  intros c Hmem Hkbi Hh. unfold initialize_memory. apply live_pages; [done..|].
  intros s1 m' p Hm1 Hi Hps Hc H1. 
  assert (Devices.cpu (drivers s1) = c) as Hc1 by exact (f_equal Paging.cpu Hm1).
  pose proof (drivers_kept_hushed s s1 H1 Hh) as Hh1. fold c in Hm1 |- *. rewrite <- Hc1 in Hm1 |- *.
  eapply live_page_tables; [exact Hm1|done..|].
  intros s2 Hup Hin Hav Hcount H2. rewrite Hc1 in Hin |- *.
  pose proof (drivers_kept_hushed s1 s2 H2 Hh1) as Hh2. apply wpx_bind.
  pose proof (memory_up_boot_check L info m _ Hup) as H.
  assert (kernel_boot_info s2 = info) as Hkbi2 by by rewrite (dk_info _ _ H2), (dk_info _ _ H1).
  pose proof (elem_of_ram_pages m (read_info m info)) as Hrp.
  assert (need ≤ 2054) as Hneed.
  { apply tables_of_bound. intros q Hq. apply Hrp in Hq as (i & _ & _ & Hq & _); [lia|apply Hps]. }
  unfold wpx at 1, run_paging_check, managing. rewrite Hkbi2.
  destruct (PagingCheck.paging_boot_check L info (with_cpu (memory s2) (Devices.cpu (drivers s2))))
    as [[e|b] k].
  - destruct H as [-> Hno]. apply wpx_bind, wpx_failure. intros [_ _ Hroom]. apply Hno.
    unfold enough, MAX_TABLES. cbn [pmm with_cpu paging_table_count]. lia.
  - destruct H as (-> & _ & Hreg & [Hen _] & Ha & _). apply wpx_bind, wpx_ret, live_log.
    intros k2 Hsame. cbn [drivers set_memory set_drivers] in Hsame.
    unfold registers, with_tlb in Hreg. injection Hreg as Hrf _ _ _ Hmsr Hcpuid.
    assert (hushed (with_processor (drivers s2) (Paging.cpu k))) as Hh3.
    { destruct Hh2 as [H3 H4]. split; [|done]. unfold flags_of in *. cbn. by rewrite Hrf. }
    specialize (Hsame Hh3). split.
    + split; [by rewrite Hi|done|]. change (pmm_available (pmm (memory s2))) with
        (pmm_available (pmm (with_cpu (memory s2) (Devices.cpu (drivers s2))))) in Hav.
      rewrite <- Hav, <- Ha. lia.
    + etrans; [exact H1|]. etrans; [exact H2|]. eapply kept_log; [exact Hsame|done..|].
      by rewrite Hmsr.
Qed.

End memory.

(** ** The timer *)

Lemma apic_kept s s' :
  drivers_kept s s' →
  apic_present (Devices.cpu (drivers s')) && x2apic (Devices.cpu (drivers s')) =
  apic_present (Devices.cpu (drivers s)) && x2apic (Devices.cpu (drivers s)).
Proof.
  intros [_ _ _ _ Hc Ha _]. unfold apic_present, x2apic, x86_cpuid, x86_read_msr. by rewrite Hc, Ha.
Qed.

Lemma live_initialize_timer `{!Board D} `{!Ticking D} s :
  let c := Devices.cpu (drivers s) in
  hushed (drivers s) → is_u64 (flags_of (drivers s)) → serial (drivers s) = serial_bss →
  timer (drivers s) = timer_bss → irq (drivers s) = irq_bss →
  wpx initialize_timer (λ _ _, apic_present c && x2apic c = true)
    (λ _ s', apic_present c && x2apic c = false ∧ irq_initialized (irq (drivers s')) = true ∧
       hushed (drivers s')) s.
Proof.
  intros c [Hoff He] Hu Hser Ht Hi. unfold initialize_timer. apply wpx_bind, wpx_driver.
  eapply wp_mono; [apply live_timer_init; [by rewrite Ht|by rewrite Hi|done]|].
  intros ok k1 (Hs1 & Hf1 & -> & H1). fold c in H1 |- *.
  destruct (apic_present c && x2apic c); cbn [negb]; [done|].
  destruct (H1 eq_refl) as (Hi1 & Ht1 & Hr1 & Hm1).
  apply wpx_bind, wpx_driver. cbn [drivers set_drivers].
  assert (is_u64 (flags_of k1)) as Hu1 by by rewrite Hf1.
  eapply wp_mono; [apply wp_and; [apply live_check_registers|apply wp_timer_check_registers]; try done|].
  { rewrite Hs1, Hser. apply RxBuffer.rx_bss_wf. }
  intros ok k2 [(-> & Htick & Hi2 & He2) (_ & _ & Hoff2)].
  apply wpx_bind, wpx_driver. unfold wp at 1, Timer.timer_ticks, get. cbn [drivers set_drivers negb orb].
  rewrite (proj2 (Z.eqb_neq _ 0) Htick).
  assert (hushed k2) as Hh2 by (split; [done|]; by rewrite He2, Hs1).
  apply live_log. intros k3 Hsame. specialize (Hsame Hh2). split; [done|]. cbn [drivers set_drivers].
  split; [|by apply (hushed_same k2)]. rewrite (sw_irq _ _ Hsame).
  exact (eq_trans Hi2 Hi1).
Qed.

Lemma live_receiving s E :
  irq_initialized (irq (drivers s)) = true → hushed (drivers s) →
  wpx (ok ← driver Serial.serial_enable_receive;
       (if negb ok then boot_failure (txt "KERNEL ERROR: serial receive IRQ" ++ newline)
        else mret tt);;
       boot_log (txt "KERNEL: serial receive ready (IRQ4, 255-byte buffer)" ++ newline);;
       driver (set_cpu x86_enable_interrupts)) E (λ _ _, True) s.
Proof.
  intros Hi Hh. apply wpx_bind, wpx_driver. eapply wp_mono; [by apply live_enable_receive|].
  intros ok k1 ->. cbn [negb]. apply wpx_bind, wpx_ret, wpx_bind, live_log. intros k2 _.
  by apply wpx_driver.
Qed.

(** ** [kernel_boot] *)

Lemma live_kernel_boot `{!Board D} `{!Ticking D} L sy info rsp m c0 s :
  is_u64 info → (fst (Pmm.pmm_init m info Pmm.pmm_bss) = true → placement L m (read_info m info)) →
  memory s = booted m Pmm.pmm_bss c0 → is_u64 (flags_of (drivers s)) → hushed (drivers s) →
  serial (drivers s) = serial_bss → timer (drivers s) = timer_bss → irq (drivers s) = irq_bss →
  wpx (kernel_boot L sy info rsp) (λ _ _, ¬ bootable L info rsp m s)
    (λ _ _, bootable L info rsp m s) s.
Proof.
  intros Hinfo Hpl Hmem Hu Hh Hser Htim Hirq. unfold kernel_boot.
  apply wpx_bind, wpx_lift, wp_modify, wpx_bind, wpx_lift, wp_get, wpx_bind, wpx_lift, wp_get.
  cbn [memory kernel_initial_rsp]. rewrite Hmem. change (mem (booted m _ _)) with m.
  set (b := read_info m info) in *.
  destruct (valid_boot_header info b) eqn:Hv1; cbn [negb].
  2:{ intros [(H & _) _ _]. fold b in H. congruence. }
  destruct (valid_memory_map b) eqn:Hv2; cbn [negb orb].
  2:{ intros [(_ & H & _) _ _]. fold b in H. congruence. }
  destruct (valid_stack b rsp _) eqn:Hv3; cbn [negb].
  2:{ intros [(_ & _ & H) _ _]. fold b in H. congruence. }
  apply wpx_bind, wpx_lift, wp_modify, wpx_bind, wpx_driver. cbn [drivers].
  eapply wp_mono; [by apply live_serial_init|]. intros ok k1 [-> H1]. cbn [negb].
  pose proof (hushed_same _ _ H1 Hh) as Hh1.
  apply wpx_bind, live_log. intros k2 H2. specialize (H2 Hh1). cbn [drivers set_drivers] in H2.
  pose proof (hushed_same _ _ H2 Hh1) as Hh2.
  apply wpx_bind, wpx_lift, wp_modify. destruct (tables_init _ _ _) as [t l]. apply wpx_bind, live_log.
  intros k3 H3. cbn [drivers set_drivers] in H3. specialize (H3 Hh2).
  pose proof (hushed_same _ _ H3 Hh2) as Hh3.
  assert (same_software (drivers s) k3) as [Hc Hs Hq Ht] by by do 2 (etrans; [done|]).
  set (s3 := set_drivers _ k3).
  apply wpx_bind.
  pose proof (live_initialize_memory L info m c0 Hinfo Hpl s3 eq_refl eq_refl Hh3) as Hm.
  assert (Devices.cpu (drivers s3) = Devices.cpu (drivers s)) as Hc3 by exact Hc.
  rewrite Hc3 in Hm. eapply wpx_mono; [exact Hm| |].
  { intros e s4 Hno [_ Hb _]. by apply Hno. }
  intros [] s4 [Hmb H4]. apply wpx_bind.
  pose proof (apic_kept _ _ H4) as Hapic. rewrite Hc3 in Hapic.
  eapply wpx_mono; [apply live_initialize_timer| |].
  - by apply (drivers_kept_hushed s3 s4).
  - rewrite (dk_flags _ _ H4). unfold flags_of. rewrite Hc3. exact Hu.
  - rewrite (dk_serial _ _ H4). exact (eq_trans Hs Hser).
  - rewrite (dk_timer _ _ H4). exact (eq_trans Ht Htim).
  - rewrite (dk_irq _ _ H4). exact (eq_trans Hq Hirq).
  - intros e s5 Hx [_ _ Hb]. cbv beta in Hx. congruence.
  - intros [] s5 (Hx & Hi5 & Hh5). eapply wpx_mono; [by apply (live_receiving s5 (λ _ _, False))|done|].
    intros _ _ _. split; [by repeat split|done|congruence].
Qed.

End kernel.

(** ** The kernel *)

(** The decision, for a placement that matters only when [pmm_init] succeeds, with
    what is on the line either way. *)
Lemma kernel_main_decided {D} `{!Device D, !Board D, !Ticking D} L sy n junk info rsp m c0
    (s : MACHINE D) :
  prompt_hardware (D:=D) → List.length junk = 128%nat → is_u64 info →
  (fst (Pmm.pmm_init m info Pmm.pmm_bss) = true → placement L m (read_info m info)) →
  memory s = booted m Pmm.pmm_bss c0 →
  unused (drivers s) → irq (drivers s) = irq_bss → timer (drivers s) = timer_bss →
  match kernel_main L sy n junk info rsp s with
  | inl (e, s') => e = Spins ∧ ¬ bootable L info rsp m s ∧
      ∃ t, told t ∧ wire (line (drivers s')) `prefix_of` expand t
  | inr (Console.Spin _) => False
  | inr o => bootable L info rsp m s ∧
      ∃ s', memory_up L info m (memory s') ∧ wire (line (drivers s')) = expand boot_text ∧
        KernelConsole.conversed n (system s') o
  end.
Proof.
  intros Hp Hjunk Hinfo Hpl Hmem Hun Hirq Htim. pose proof Hun as (_ & Hser & Hu & Hoff).
  assert (hushed (drivers s)) as Hh by (split; [exact Hoff|by rewrite Hser]).
  pose proof (live_kernel_boot Hp L sy info rsp m c0 s Hinfo Hpl Hmem Hu Hh Hser Htim Hirq) as H.
  pose proof (kernel_boot_outcome L sy info rsp m c0 s Hinfo Hpl Hmem Hun) as Ho.
  assert (line (drivers s) = {| latch := false; clear := false; wire := []; polite := true |}) as Hl0
    by (unfold line; by rewrite (proj1 Hun)).
  unfold wpx, kernel_main in *. destruct (kernel_boot L sy info rsp s) as [[e|u] s'].
  - destruct Ho as (-> & t & Ht & Hw). rewrite Hl0 in Hw. do 2 (split; [done|]). by exists t.
  - destruct Ho as [_ Hup _ _ _ _ Hok Hw _]. rewrite Hl0 in Hw.
    pose proof (KernelConsole.console_converses n junk (system s') Hjunk Hok) as Hc.
    destruct (Console.console_run n junk (system s')); [|done|]; (split; [done|]; by exists s').
Qed.

(** C3: on any hardware, whatever the loader has handed over, the kernel either
    spins - and then the line carries a prefix of one of five transcripts, four
    of which end in the error that stopped it - or it reaches the console: then
    the boot information has passed every check, memory is under the kernel's own
    tables with an empty window, no page in use but the tables and exactly the
    usable unreserved pages managed, the descriptor tables are loaded, the boot
    text has been sent in full, interrupts are on; and from there on the line
    carries the greeting and the console's answers. It never faults, and no loop
    of the boot checks runs out of fuel. *)
Theorem kernel_main_reaches_console {D} `{!Device D} L sy n junk info rsp m c0 (s : MACHINE D) :
  List.length junk = 128%nat → is_u64 info → placement L m (read_info m info) →
  memory s = booted m Pmm.pmm_bss c0 → unused (drivers s) →
  match kernel_boot L sy info rsp s with
  | (inl e, s') =>
      kernel_main L sy n junk info rsp s = inl (e, s') ∧ e = Spins ∧
      ∃ t, told t ∧ wire (line (drivers s')) `prefix_of` expand t
  | (inr _, s') =>
      accepted info rsp (kernel_initial_rsp s) (read_info m info) ∧
      memory_up L info m (memory s') ∧
      (tables s', loaded s') =
        (let b := read_info m info in
         let '(t, l) := tables_init sy (u64 (stack_base b + stack_size b)) (tables s) in (t, Some l)) ∧
      kernel_boot_info s' = info ∧ has_bits (rflags (Devices.cpu (drivers s'))) 0x200 = true ∧
      wire (line (drivers s')) = expand boot_text ∧
      ∃ o, kernel_main L sy n junk info rsp s = inr o ∧
        KernelConsole.conversed n (system s') o
  end.
Proof.
  intros Hjunk Hinfo Hpl Hmem Hun.
  pose proof (kernel_boot_outcome L sy info rsp m c0 s Hinfo (λ _, Hpl) Hmem Hun) as H.
  assert (line (drivers s) = {| latch := false; clear := false; wire := []; polite := true |}) as Hl0
    by (unfold line; by rewrite (proj1 Hun)).
  unfold wpx in H. unfold kernel_main. destruct (kernel_boot L sy info rsp s) as [[e|u] s'].
  - destruct H as (-> & t & Ht' & Hw). rewrite Hl0 in Hw. by do 2 (split; [done|]); exists t.
  - destruct H as [Hacc Hup _ Htab Hkbi _ Hok' Hw Hif]. rewrite Hl0 in Hw.
    split; [done|]. split; [done|]. split.
    { rewrite Htab. cbv zeta. by destruct (tables_init _ _ _). }
    split; [done|]. split; [exact Hif|]. split; [exact Hw|]. eexists. split; [done|].
    apply KernelConsole.console_converses; [done|exact Hok'].
Qed.

(** C4: the boot is decided. On hardware whose UART gets ready in time and whose
    timer ticks, with the drivers' variables as in [.bss], the kernel reaches the
    console - and the console answers for any number of turns - exactly when the
    boot information passes the checks of [kernel_main] and [pmm_init], the
    processor is in a state [paging_init] supports, boot RAM can be cached and
    holds the kernel, its stack, the boot data and the guards, the free pages
    suffice for the page tables and six more, and the local APIC is not in x2APIC
    mode; and it spins exactly otherwise. *)
Theorem kernel_main_decides {D} `{!Device D, !Board D, !Ticking D} L sy n junk info rsp m c0
    (s : MACHINE D) :
  prompt_hardware (D:=D) → List.length junk = 128%nat → is_u64 info →
  placement L m (read_info m info) → memory s = booted m Pmm.pmm_bss c0 →
  unused (drivers s) → irq (drivers s) = irq_bss → timer (drivers s) = timer_bss →
  match kernel_main L sy n junk info rsp s with
  | inl (e, _) => e = Spins ∧ ¬ bootable L info rsp m s
  | inr (Console.Spin _) => False
  | inr _ => bootable L info rsp m s
  end.
Proof.
  intros Hp Hjunk Hinfo Hpl Hmem Hun Hirq Htim.
  pose proof (kernel_main_decided L sy n junk info rsp m c0 s Hp Hjunk Hinfo (λ _, Hpl) Hmem Hun Hirq Htim) as H.
  destruct (kernel_main L sy n junk info rsp s) as [[e s']|[]]; [by destruct H as (-> & H & _)|apply H..].
Qed.

(** ** A machine *)

(** The controllers, the timer, and a UART that needs three polls to send a
    byte. *)
Record CHIPSET := { c_pics : PIC * PIC; c_pit : PIT; sending : Z }.

Lemma timer_vector (b : bool) : Forall (λ v, 32 ≤ v < 48) (if b then [] else [32]).
Proof. destruct b; by repeat constructor. Qed.

#[local] Instance chipset : Device CHIPSET := {|
  port_in p d :=
    if p =? 0x3fd then
      if 0 <? sending d then
        (0, {| c_pics := c_pics d; c_pit := c_pit d; sending := Z.min 3 (sending d) - 1 |})
      else (0x60, d)
    else (if p =? 0x21 then mask (fst (c_pics d)) else if p =? 0xa1 then mask (snd (c_pics d))
          else 0xff, d);
  port_out p v d :=
    {| c_pics := pics_step (c_pics d) (Out p v); c_pit := pit_step (c_pit d) (Out p v);
       sending := if p =? 0x3f8 then 3 else sending d |};
  requests d := if masked (c_pics d) 0 then [] else [32];
  requests_range d := timer_vector (masked (c_pics d) 0);
|}.

#[local] Program Instance chipset_board : Board CHIPSET := {| pics := c_pics; pit := c_pit |}.
Solve All Obligations with
  intros; cbn; repeat match goal with |- context [if ?b then _ else _] => destruct b end; done.

#[local] Instance chipset_ticking : Ticking CHIPSET.
Proof.
  split.
  - intros d _ Hm. change (32 ∈ (if masked (c_pics d) 0 then [] else [32])).
    change (pics d) with (c_pics d) in Hm. rewrite Hm. by left.
  - intros d. change (requests d) with (if masked (c_pics d) 0 then [] else [32]). by destruct (masked _ 0).
Qed.

Lemma chipset_prompt : prompt_hardware (D:=CHIPSET).
Proof.
  exists (λ d, Z.max 0 (Z.min 3 (sending d))). split.
  - intros d. unfold Serial.POLL_LIMIT. lia.
  - intros d. cbn. destruct (Z.ltb_spec 0 (sending d)); cbn; (split; [done|]); [right; lia|by left].
  - intros [p v|p v] d d'; cbn; intros Hq.
    + intros [_ ->]. destruct (p =? 0x3fd); [|cbn; lia]. destruct (0 <? sending d); cbn; lia.
    + intros ->. cbn. destruct (Z.eqb_spec p 0x3f8); [by destruct Hq|lia].
Qed.

Definition symbols : SYMBOLS := {|
  at_gdt := 0x113000; at_idt := 0x113100; at_tss := 0x113080; at_double_fault_stack := 0x115000;
  isr_table i := 0x110100 + 16 * i |}.

Definition reset_chips : CHIPSET := {|
  c_pics := ({| expects := 0; single := false; wants_mode := true; vector_base := 8; cascade := 4;
                mode := 1; mask := 0 |},
             {| expects := 0; single := false; wants_mode := true; vector_base := 112; cascade := 2;
                mode := 1; mask := 0 |});
  c_pit := {| pit_mode := 3; pit_low := None; divisor := None |}; sending := 0 |}.

Definition machine : MACHINE CHIPSET := {|
  drivers := {| Devices.cpu := PagingInitSpec.Demo.processor; device := reset_chips; trace := [];
                serial := serial_bss; irq := irq_bss; timer := timer_bss |};
  memory := booted PagingInitSpec.Demo.boot_ram Pmm.pmm_bss PagingInitSpec.Demo.processor;
  tables := {| kernel_gdt := replicate 5 0; kernel_idt := replicate 256 (idt_gate 0 0);
               kernel_tss := {| reserved0 := 0; Tables.rsp := replicate 3 0; reserved1 := 0;
                 tss_ist := replicate 7 0; reserved2 := 0; reserved3 := 0; iomap_base := 0 |} |};
  loaded := None; kernel_boot_info := 0;
  kernel_initial_rsp := 0x11f000; kernel_observed_rsp := 0 |}.

Lemma demo_managed : managed PagingInitSpec.Demo.boot_ram PagingInitSpec.Demo.info_at = PagingInitSpec.Demo.pmm.
Proof. unfold managed. by rewrite demo_init. Qed.

Lemma demo_bootable :
  bootable PagingInitSpec.Demo.layout PagingInitSpec.Demo.info_at 0x11eff8
    PagingInitSpec.Demo.boot_ram machine.
Proof.
  assert (is_u64 PagingInitSpec.Demo.info_at) as Hu by done.
  split; [by vm_compute| |by vm_compute]. split.
  - by rewrite demo_init.
  - rewrite demo_managed. apply paging_init_decided; [done|by apply (pmm_init_started _ _ _ Hu), demo_init|].
    by vm_compute.
  - rewrite demo_managed. by vm_compute.
Qed.

Lemma kernel_main_decides_witness :
  match kernel_main PagingInitSpec.Demo.layout symbols 3 (replicate 128 0)
    PagingInitSpec.Demo.info_at 0x11eff8 machine
  with
  | inr (Console.Done _ _) | inr (Console.Halt _) => True
  | _ => False
  end.
Proof.
  pose proof (kernel_main_decides PagingInitSpec.Demo.layout symbols 3
    (replicate 128 0) PagingInitSpec.Demo.info_at 0x11eff8 PagingInitSpec.Demo.boot_ram
    PagingInitSpec.Demo.processor machine chipset_prompt eq_refl ltac:(by vm_compute) demo_placement
    eq_refl ltac:(by vm_compute) eq_refl eq_refl) as H.
  destruct (kernel_main _ _ _ _ _ _ machine) as [[e s']|[]]; [|done..].
  destruct H as [_ H]. apply H, demo_bootable.
Defined.

Lemma kernel_main_reaches_console_witness :
  ∃ s', kernel_boot PagingInitSpec.Demo.layout symbols PagingInitSpec.Demo.info_at 0x11eff8 machine =
      (inr tt, s') ∧
    wire (line (drivers s')) = expand boot_text ∧
    memory_up PagingInitSpec.Demo.layout PagingInitSpec.Demo.info_at PagingInitSpec.Demo.boot_ram
      (memory s') ∧
    has_bits (rflags (Devices.cpu (drivers s'))) 0x200 = true.
Proof.
  assert (is_u64 PagingInitSpec.Demo.info_at) as Hu by done.
  assert (unused (drivers machine)) as Hun by by vm_compute.
  assert (is_u64 (flags_of (drivers machine))) as Hf by by vm_compute.
  assert (hushed (drivers machine)) as Hh by by vm_compute.
  pose proof (kernel_main_reaches_console PagingInitSpec.Demo.layout symbols 3 (replicate 128 0)
    PagingInitSpec.Demo.info_at 0x11eff8 PagingInitSpec.Demo.boot_ram PagingInitSpec.Demo.processor
    machine eq_refl Hu demo_placement eq_refl Hun) as H.
  pose proof (live_kernel_boot chipset_prompt PagingInitSpec.Demo.layout symbols
    PagingInitSpec.Demo.info_at 0x11eff8 PagingInitSpec.Demo.boot_ram PagingInitSpec.Demo.processor
    machine Hu (λ _, demo_placement) eq_refl Hf Hh eq_refl eq_refl eq_refl) as Hb. unfold wpx in Hb.
  destruct (kernel_boot _ _ _ _ machine) as [[e|[]] s']; [destruct Hb; apply demo_bootable|].
  destruct H as (_ & Hup & _ & _ & Hif & Hw & _). exists s'.
  exact (conj eq_refl (conj Hw (conj Hup Hif))).
Defined.

End KernelMainLive.
