(* ===== verification/Handoff.v ===== *)
(** * From the loader to the kernel

    What [boot/main.c] leaves is what [kernel/main.c] and [kernel/pmm.c] check:
    whether the kernel goes on depends on the firmware's memory map alone. *)

From S2P Require Import Prelude BootInfo Pmm State X86 Elf ElfSpec Firmware Load BootMain.
From S2P Require Import FirmwareSpec LoadSpec BootSpec LoaderSpec KernelMain.

Module Handoff.
Import State Elf ElfSpec Firmware Load BootMain FirmwareSpec LoadSpec BootSpec LoaderSpec.

(** A map the kernel can read: descriptors of version 1, at least as large as the
    header's, no partial one. *)
Definition readable_map (size descriptor_size descriptor_version : Z) : Prop :=
  0 < size ∧ 40 ≤ descriptor_size ∧ size mod descriptor_size = 0 ∧ descriptor_version = 1.

Section handoff.
Context (info : Z) (k : LOADED_KERNEL) (n dsize dversion : Z).
Context (Harea : area info) (Hn : 0 ≤ n ≤ map_capacity) (Hd : 0 ≤ dsize).

Let b := info_of info k n dsize dversion.
Let top := info + 4096 + map_capacity + 4096 + 16 * 4096.

Lemma header_accepted : KernelMain.valid_boot_header info b = true.
Proof.
  destruct Harea as [Hlo _ _]. unfold KernelMain.valid_boot_header.
  by rewrite (proj2 (Z.eqb_neq info 0)) by lia.
Qed.

Lemma map_accepted : KernelMain.valid_memory_map b = true ↔ readable_map n dsize dversion.
Proof.
  destruct Harea as [Hlo _ _]. unfold KernelMain.valid_memory_map, readable_map.
  change (memory_map b) with (info + 4096). change (memory_map_size b) with n.
  change (descriptor_size b) with dsize. change (descriptor_version b) with dversion.
  unfold sizeof_BOOT_MEMORY_DESCRIPTOR.
  rewrite (proj2 (Z.eqb_neq (info + 4096) 0)) by lia. cbn [orb].
  destruct (Z.eqb_spec n 0), (Z.ltb_spec dsize 40), (Z.eqb_spec (n mod dsize) 0), (Z.eqb_spec dversion 1);
    cbn [negb]; split; try done; lia.
Qed.

(** [kernel_entry] keeps the aligned stack top, and its call pushes an address. *)
Lemma stack_accepted : KernelMain.valid_stack b (top - 8) top = true.
Proof.
  destruct Harea as [Hlo Hal Hhi]. unfold KernelMain.valid_stack, UINT64_MAX. cbv zeta.
  assert (top = stack_base b + stack_size b) as Htop by done.
  assert (stack_base b = info + 4096 + map_capacity + 4096 ∧ stack_size b = 16 * 4096) as [Hsb Hss] by done.
  unfold map_capacity in *. rewrite <- Htop, u64_small by (unfold is_u64; lia).
  rewrite (proj2 (Z.ltb_ge _ _)), (proj2 (Z.ltb_ge _ _)) by lia.
  rewrite (proj2 (Z.ltb_ge (top - 8) _)), (proj2 (Z.leb_gt top _)), Z.eqb_refl by lia. cbn [orb andb].
  change 15 with (Z.ones 4). rewrite Z.land_ones by lia. apply Z.eqb_eq. change (2 ^ 4) with 16. zdm.
Qed.

(** The allocator demands descriptors of whole words besides. *)
Lemma allocator_accepted :
  0 < k_pages k → 0 ≤ k_base k → k_base k + 4096 * k_pages k ≤ 2 ^ 32 →
  Pmm.valid_boot_info info b = true ↔ readable_map n dsize dversion ∧ dsize mod 8 = 0.
Proof.
  intros Hp Hb Hlim. destruct Harea as [Hlo Hal Hhi]. unfold Pmm.valid_boot_info.
  change (memory_map b) with (info + 4096). change (memory_map_size b) with n.
  change (descriptor_size b) with dsize. change (descriptor_version b) with dversion.
  change (kernel_base b) with (k_base k). change (kernel_size b) with (k_pages k * 4096).
  change (stack_base b) with (info + 4096 + map_capacity + 4096). change (stack_size b) with (16 * 4096).
  unfold map_capacity, readable_map in *.
  rewrite !andb_true_iff, !negb_true_iff, !Pmm.valid_range_spec, ?Z.eqb_eq, ?Z.eqb_neq, ?Z.leb_le
    by (unfold is_u64, sizeof_BOOT_INFO; lia).
  unfold UINT64_MAX, sizeof_BOOT_MEMORY_DESCRIPTOR, sizeof_BOOT_INFO.
  split; [intuition lia|]. intros ((H1 & H2 & H3 & H4) & H5).
  repeat split; try done; try lia. zdm.
Qed.

End handoff.

(** The kernel's checks accept what the loader hands over: whenever the loader
    enters the kernel, the header and the stack are accepted, with the stack
    pointer that [kernel_entry] loads and its call moves; the memory map is
    accepted exactly when the one the firmware gave with the last key is of
    descriptors of version 1 of at least 40 bytes, none of them partial; and the
    allocator accepts the whole exactly when their size is a multiple of eight
    besides. *)
Theorem kernel_accepts_handoff {W} `{!Protocols W, !Conforming W} table garbage image
    (s : LOADER W) :
  match efi_main table garbage image s with
  | (Entered entry info top, s') => ∃ map key dsize dversion before,
      calls s' = before ++ [MapTaken map key dsize dversion; ExitTried key EFI_SUCCESS] ∧
      ∀ r, words_of (mem s') r →
        let b := read_info r info in
        let readable := readable_map (Z.of_nat (List.length map)) dsize dversion in
        KernelMain.valid_boot_header info b = true ∧
        KernelMain.valid_stack b (top - 8) top = true ∧
        (KernelMain.valid_memory_map b = true ↔ readable) ∧
        (Pmm.valid_boot_info info b = true ↔ readable ∧ dsize mod 8 = 0)
  | _ => True
  end.
Proof.
  pose proof (efi_main_handed_over table garbage image s) as H.
  destruct (efi_main table garbage image s) as [[status|entry info top|] s']; [done| |done].
  destruct H as (l & k & map & ds & dv & H).
  pose proof (λ r, handed_over_info _ _ _ _ _ _ _ _ _ _ r H) as Hinfo.
  destruct H as [Hc (before & key & Hl) _ Har Hk _ _ _ -> Hco _].
  pose proof (co_fits _ _ _ _ _ _ Hco) as Hn.
  assert (0 ≤ ds) as Hd by (rewrite <- (co_descriptor_size _ _ _ _ _ _ Hco); apply get64_range).
  exists map, key, ds, dv, (calls s ++ before). split; [by rewrite Hc, Hl, app_assoc|].
  intros r Hw. cbv zeta. rewrite (Hinfo r Hw).
  split; [by apply header_accepted|]. split; [by apply stack_accepted|].
  split; [apply map_accepted|apply allocator_accepted]; first [done|lia].
Qed.

End Handoff.
