(* ===== verification/System.v ===== *)
(** * The whole: from the firmware to the console

    [kernel_entry] of [kernel/entry.S], and the composition of the loader with
    the kernel: what of the firmware's answers and of the processor decides
    whether the machine gets from [efi_main] to the console. *)

From S2P Require Import Prelude State BootInfo PmmInterface Pmm PmmSpec X86 Paging PagingBits PagingInit.
From S2P Require Import PagingInitStep PagingInitSpec PagingCheck BootMemory Devices SerialIrq Irq Serial Timer SerialSpec IrqSpec.
From S2P Require Import Elf Firmware Load BootMain FirmwareSpec LoadSpec BootSpec LoaderSpec.
From S2P Require Import Tables Console KernelConsole KernelMain KernelMainSpec BootLive KernelMainLive Handoff.
From S2P Require Import ElfSpec Linker LinkerSpec.

Module System.
Import Firmware BootMain FirmwareSpec BootSpec LoaderSpec Handoff.
Import Elf(LOADED_KERNEL, k_base, k_pages, k_entry).
Import State X86 Paging PagingInit PagingInitStep PagingInitSpec BootMemory.
Import Devices SerialSpec IrqSpec KernelMain KernelMainSpec BootLive KernelMainLive.

#[local] Existing Instances Pmm.Pmm_api Pmm.Pmm_contract Pmm.pmm_wf_dec.

(** ** [kernel/entry.S] *)

Section entry.
Context {D : Type} `{!Device D}.

(** The image when it is entered: the variables as in [.bss], on the processor
    and the memory the loader has left. *)
Definition started_image (d : D) (c : CPU) (r : ram) (t : Tables.TABLES) : MACHINE D := {|
  drivers := {| Devices.cpu := c; device := d; trace := [];
                serial := serial_bss; irq := irq_bss; timer := timer_bss |};
  memory := booted r Pmm.pmm_bss c;
  tables := t; loaded := None;
  kernel_boot_info := 0; kernel_initial_rsp := 0; kernel_observed_rsp := 0 |}.

(** The first two instructions: [cli; cld]. *)
Definition entry_cpu (c : CPU) : CPU :=
  let c := x86_disable_interrupts c in with_rflags c (Z.land (rflags c) (not64 0x400)).

(** The return address of the call lies on the boot stack, whose contents are not
    part of the model; [kernel_main] does not return. *)
Definition kernel_entry (L : LAYOUT) (sy : Tables.SYMBOLS) (n : nat) (junk : list Z)
    (info stack_top : Z) (s : MACHINE D) :=
  let k := with_processor (drivers s) (entry_cpu (Devices.cpu (drivers s))) in
  let rsp := Z.land stack_top (not64 15) in
  kernel_main L sy n junk info (u64 (rsp - 8))
    {| drivers := k; memory := memory s; tables := tables s; loaded := loaded s;
       kernel_boot_info := kernel_boot_info s; kernel_initial_rsp := rsp;
       kernel_observed_rsp := kernel_observed_rsp s |}.

End entry.

(** ** The firmware's map and the loader's pages *)

(** A page of a descriptor for the loader's code or data. *)
Definition loader_page (m : ram) (b : BOOT_INFO) (q : Z) : Prop :=
  ∃ i, 0 ≤ i < Pmm.descriptor_count b ∧
    (type (Pmm.descriptor m b i) = 1 ∨ type (Pmm.descriptor m b i) = 2) ∧
    Z.testbit (attributes (Pmm.descriptor m b i)) 63 = false ∧
    Pmm.contains_page (Pmm.descriptor m b i) q.

(** The map describes the pages the loader still holds - the hand-off area and the
    image's - as the loader has asked for them. *)
Record described (m : ram) (info : Z) : Prop := {
  ds_area q : Pmm.overlaps q info (handoff_pages * 4096) → loader_page m (read_info m info) q;
  ds_kernel q :
    Pmm.overlaps q (kernel_base (read_info m info)) (kernel_size (read_info m info)) →
    loader_page m (read_info m info) q;
}.

(** What decides: a memory map the kernel can read, whose descriptors are whole
    pages and do not overlap; the hand-off area between 1 MiB and 4 GiB; a
    processor and RAM that [paging_init] supports; enough free pages; a local
    APIC that can be switched off. *)
Record system_bootable (m : ram) (info : Z) (c : CPU) : Prop := {
  sb_area : 0x100000 ≤ info ∧ info + handoff_pages * 4096 ≤ 2 ^ 32;
  sb_readable : let b := read_info m info in
    readable_map (memory_map_size b) (descriptor_size b) (descriptor_version b) ∧
    descriptor_size b mod 8 = 0;
  sb_map : Pmm.well_formed_map m (read_info m info);
  sb_cpu : supported_cpu_state (cr4 c) c = true;
  sb_cache : ram_cacheable m (read_info m info);
  sb_room : Z.of_nat (size (tables_of (ram_pages m (read_info m info)))) + 6 ≤
    pmm_available (managed m info);
  sb_apic : apic_present c && x2apic c = false;
}.

Section map.
Context (m : ram) (b : BOOT_INFO).

Lemma loader_unusable q :
  Pmm.well_formed_map m b → loader_page m b q → ¬ Pmm.usable_page m b q.
Proof.
  intros Hwf (i & Hi & Hty & _ & Hc) (_ & j & Hj & [Ht _] & Hc').
  assert (i ≠ j) as Hne by (intros ->; lia). unfold Pmm.contains_page in *.
  destruct (Z.lt_total i j) as [Hlt|[?|Hlt]]; [|done|].
  - destruct (proj2 (Hwf j Hj) i ltac:(lia)); lia.
  - destruct (proj2 (Hwf i Hi) j ltac:(lia)); lia.
Qed.

Lemma loader_ram q : 256 ≤ q < 2 ^ 20 → loader_page m b q → ram_page m b q.
Proof.
  intros Hq (i & Hi & Hty & Hrt & Hc). exists i. split; [done|]. split; [|by split].
  split; [|done]. destruct Hty; auto.
Qed.

Lemma loader_covered base size :
  0 < size → 0x100000 ≤ base → base + size ≤ PMM_LIMIT →
  (∀ q, Pmm.overlaps q base size → loader_page m b q) → covered (ram_page m b) base size.
Proof.
  intros Hs Hlo Hhi Hl. do 3 (split; [done|]). intros q Hq. apply loader_ram; [|by apply Hl].
  unfold Pmm.overlaps, PMM_LIMIT in *. zdm.
Qed.

End map.

Lemma overlaps_within q base size base' size' :
  base' ≤ base → base + size ≤ base' + size' → Pmm.overlaps q base size → Pmm.overlaps q base' size'.
Proof. unfold Pmm.overlaps. lia. Qed.

(** One page. *)
Lemma covered_page S g :
  g mod 4096 = 0 → covered S g 4096 ↔ 0x100000 ≤ g ∧ g + 4096 ≤ PMM_LIMIT ∧ S (g / 4096).
Proof.
  intros Hg. unfold covered, Pmm.overlaps. split.
  - intros (_ & Hlo & Hhi & HS). do 2 (split; [done|]). apply HS. zdm.
  - intros (Hlo & Hhi & HS). do 3 (split; [done|]). intros q Hq. assert (q = g / 4096) as -> by zdm. exact HS.
Qed.

(** Guards in distinct pages. *)
Lemma guardable_distinct S (l : list Z) :
  Forall (λ g, covered S g 4096) l → Forall (λ g, g mod 4096 = 0) l →
  NoDup ((λ g, g / 4096) <$> l) → guardable S l.
Proof.
  revert S. induction l as [|g l IH]; intros S; [done|]. rewrite !Forall_cons, fmap_cons, NoDup_cons.
  intros [Hg Hl] [Ha Hal] [Hno Hd]. split; [done|]. apply IH; [|done..].
  rewrite Forall_forall in Hl, Hal |- *. intros x Hx.
  pose proof (Hal x Hx) as Hax. rewrite (covered_page _ x Hax).
  destruct (proj1 (covered_page _ x Hax) (Hl x Hx)) as (? & ? & HS). do 3 (split; [done|]). intros He. apply Hno. rewrite <- He.
  apply list_elem_of_fmap. by exists x.
Qed.

(** The words of a memory. *)
Definition words (m : Elf.memory) : ram :=
  set_to_map (λ a, (a, get64 a m)) (set_map (λ x, x - x mod 8) (dom m) : gset Z).

Lemma words_of_words m : words_of m (words m).
Proof.
  intros a Ha. unfold load, words. set (X := set_map (λ x, x - x mod 8) (dom m) : gset Z).
  assert (∀ v, (set_to_map (λ a, (a, get64 a m)) X : ram) !! a = Some v ↔ a ∈ X ∧ v = get64 a m) as Hl.
  { intros v. rewrite lookup_set_to_map by (by intros ???? [= ->]). split.
    - by intros (x & Hx & [= -> <-]).
    - intros [Hx ->]. by exists a. }
  destruct (decide (a ∈ X)) as [HX|HX].
  - rewrite (proj2 (Hl (get64 a m)) (conj HX eq_refl)). apply u64_small, get64_range.
  - assert ((set_to_map (λ a, (a, get64 a m)) X : ram) !! a = None) as ->.
    { apply eq_None_not_Some. by intros [v [Hv _]%Hl]. }
    assert (∀ i, 0 ≤ i < 8 → m !! (a + i) = None) as Hno.
    { intros i Hi. apply not_elem_of_dom. intros Hd. apply HX, elem_of_map.
      exists (a + i). split; [zdm|done]. }
    unfold get64, get_bytes. change (seqZ 0 8) with [0; 1; 2; 3; 4; 5; 6; 7]. cbn [fmap list_fmap].
    by rewrite !Hno by lia.
Qed.

(** ** The loader's hand-over, as the kernel finds it *)

Section connect.
Context {W : Type} (s s' : LOADER W) (entry info top : Z) (l : list event) (k : LOADED_KERNEL)
  (map : list Z) (dsize dversion : Z).
Context (Hover : handed_over s s' entry info top l k map dsize dversion) (Hsep : separate_grants l).
Context (m : ram) (Hm : words_of (Firmware.mem s') m).
Context (L : LAYOUT).

Let b := read_info m info.

Lemma handed_info : b = info_of info k (Z.of_nat (List.length map)) dsize dversion.
Proof. by eapply handed_over_info. Qed.

Lemma handed_stride : 0 ≤ dsize.
Proof. rewrite <- (co_descriptor_size _ _ _ _ _ _ (hv_complete _ _ _ _ _ _ _ _ _ _ Hover)). apply get64_range. Qed.

Lemma handed_u64 : is_u64 info.
Proof. destruct (hv_area _ _ _ _ _ _ _ _ _ _ Hover). unfold is_u64. lia. Qed.

(** [pmm_init] succeeds exactly on a map it can read. *)
Lemma handed_map :
  fst (Pmm.pmm_init m info Pmm.pmm_bss) = true ↔
    (readable_map (memory_map_size b) (descriptor_size b) (descriptor_version b) ∧
     descriptor_size b mod 8 = 0) ∧ Pmm.well_formed_map m b.
Proof.
  destruct Hover as [_ _ _ Har Hk _ _ _ _ Hco _]. pose proof (co_fits _ _ _ _ _ _ Hco) as Hn.
  assert (Pmm.valid_boot_info info b = true ↔
    readable_map (memory_map_size b) (descriptor_size b) (descriptor_version b) ∧
    descriptor_size b mod 8 = 0) as <-.
  { rewrite handed_info. apply (allocator_accepted info k (Z.of_nat (List.length map)) dsize dversion);
      [done|lia|apply handed_stride|lia..]. }
  rewrite <- Pmm.valid_map_ranges_spec. unfold b. split.
  - destruct (Pmm.pmm_init m info Pmm.pmm_bss) as [[|] p] eqn:Hi; [|done]. intros _.
    apply Pmm.pmm_init_true in Hi as (? & ? & _); [done|apply handed_u64].
  - intros [Hv Hr]. destruct (Pmm.pmm_init_ok m info handed_u64 Hv Hr) as (p & -> & _). done.
Qed.

Context (Hds : described m info) (Hlk : linked L (kernel_base b) (kernel_size b)).

Lemma handed_placement : Pmm.well_formed_map m b → placement L m b.
Proof.
  intros Hwf. split; [done|]. destruct Hover as [_ _ _ [Hlo Hal Hhi] _ _ _ _ _ _ _].
  assert (∀ x, info ≤ x < info + handoff_pages * 4096 → ¬ Pmm.usable_page m b (x / 4096)) as Hx.
  { intros x Hx. apply loader_unusable; [done|]. apply (ds_area _ _ Hds). by apply inside_overlaps. }
  rewrite handed_info. cbn [stack_base stack_size info_of]. rewrite <- handed_info. unfold handoff_pages, map_capacity in *.
  rewrite !Forall_cons. split; [|split; [|done]]; rewrite u64_small by (unfold is_u64; lia); apply Hx; lia.
Qed.

(** The regions the kernel runs on, and its guards, are in RAM exactly when the
    hand-off area is where the kernel's tables reach. *)
Lemma handed_fields :
  memory_map b = info + 4096 ∧ memory_map_size b = Z.of_nat (List.length map) ∧
  kernel_base b = k_base k ∧ kernel_size b = k_pages k * 4096 ∧
  stack_base b = info + 18 * 4096 ∧ stack_size b = 16 * 4096.
Proof. rewrite handed_info. cbn. unfold map_capacity. repeat split; lia. Qed.

Lemma area_covered base size :
  0x100000 ≤ info → info + handoff_pages * 4096 ≤ PMM_LIMIT →
  0 < size → info ≤ base → base + size ≤ info + handoff_pages * 4096 →
  covered (ram_page m b) base size.
Proof.
  intros Hlo Hhi Hs H1 H2. apply loader_covered; [done|lia..|].
  intros q Hq. apply (ds_area _ _ Hds). by eapply overlaps_within.
Qed.

Lemma kernel_covered base size :
  0 < size → kernel_base b ≤ base → base + size ≤ kernel_base b + kernel_size b →
  covered (ram_page m b) base size.
Proof.
  intros Hs H1 H2. pose proof (hv_kernel _ _ _ _ _ _ _ _ _ _ Hover) as Hk.
  pose proof handed_fields as Hf. apply loader_covered; [done|unfold PMM_LIMIT; lia..|].
  intros q Hq. apply (ds_kernel _ _ Hds). by eapply overlaps_within.
Qed.

Lemma handed_runs :
  0 < memory_map_size b → 0x100000 ≤ info → info + handoff_pages * 4096 ≤ PMM_LIMIT →
  runs_on (ram_page m b) info b.
Proof.
  intros Hn Hlo Hhi. pose proof handed_fields as (Hmb & Hf & Hkb & Hks & Hsb & Hss).
  unfold runs_on. rewrite Hmb, Hsb, Hss.
  pose proof (co_fits _ _ _ _ _ _ (hv_complete _ _ _ _ _ _ _ _ _ _ Hover)) as Hfit.
  pose proof (hv_kernel _ _ _ _ _ _ _ _ _ _ Hover) as Hk.
  unfold map_capacity, handoff_pages, sizeof_BOOT_INFO in *.
  split; [apply kernel_covered; lia|].
  split; [|split]; apply area_covered; unfold handoff_pages; lia.
Qed.

Lemma handed_guards :
  0x100000 ≤ info → info + handoff_pages * 4096 ≤ PMM_LIMIT →
  guardable (ram_page m b) (guards L b).
Proof.
  intros Hlo Hhi. pose proof handed_fields as (_ & _ & Hkb & Hks & Hsb & Hss).
  pose proof (hv_area _ _ _ _ _ _ _ _ _ _ Hover) as [_ Hal _].
  pose proof (hv_apart _ _ _ _ _ _ _ _ _ _ Hover Hsep) as Hap.
  pose proof (hv_kernel _ _ _ _ _ _ _ _ _ _ Hover) as Hk.
  destruct Hlk as [_ _ Hdf Ha]. rewrite !Forall_cons in Ha. destruct Ha as (_ & _ & _ & _ & Ha1 & Ha2 & _).
  assert (∀ x, info ≤ x → x + 4096 ≤ info + handoff_pages * 4096 → covered (ram_page m b) x 4096) as HA
    by (intros; by apply area_covered).
  assert (∀ x, kernel_base b ≤ x → x + 4096 ≤ kernel_base b + kernel_size b →
    covered (ram_page m b) x 4096) as HK by (intros; by apply kernel_covered).
  unfold guards, handoff_pages, PMM_LIMIT in *. rewrite Hsb, Hss, !u64_small by (unfold is_u64; lia).
  apply guardable_distinct.
  - rewrite !Forall_cons. split; [apply HA; lia|]. split; [apply HA; lia|].
    split; [apply HK; zdm|]. split; [apply HK; zdm|done].
  - rewrite !Forall_cons. split; [zdm|]. split; [zdm|]. done.
  - rewrite !fmap_cons, !NoDup_cons, !elem_of_cons.
    assert (∀ x : Z, x ∉ (λ g, g / 4096) <$> []) as Hnil by (intros x; apply not_elem_of_nil).
    repeat split; [..|apply NoDup_nil_2]; try apply Hnil.
    all: intros H; repeat (destruct H as [H|H]; [zdm|]); by apply Hnil in H.
Qed.

Lemma handed_regions :
  0 < memory_map_size b →
  (runs_on (ram_page m b) info b ∧ guardable (ram_page m b) (guards L b) ↔
   0x100000 ≤ info ∧ info + handoff_pages * 4096 ≤ 2 ^ 32).
Proof.
  intros Hn. split; [|intros [Hlo Hhi]; split; [by apply handed_runs|by apply handed_guards]].
  intros [(_ & _ & (_ & Hlo & _) & _) (_ & (_ & _ & Hhi & _) & _)]. split; [done|].
  pose proof handed_fields as (_ & _ & _ & _ & Hsb & Hss). rewrite Hsb, Hss in Hhi.
  pose proof (hv_area _ _ _ _ _ _ _ _ _ _ Hover) as [Hpos Hal Htop].
  unfold handoff_pages, PMM_LIMIT in *. rewrite u64_small in Hhi; [lia|unfold is_u64; lia].
Qed.

(** [kernel_entry] finds the stack's top aligned. *)
Lemma handed_stack : Z.land top (not64 15) = top ∧ u64 (top - 8) = top - 8.
Proof.
  destruct Hover as [_ _ _ [Hlo Hal Hhi] _ _ _ _ -> _ _]. unfold map_capacity.
  change 15 with (Z.ones 4). rewrite land_align by (unfold is_u64; lia). change (2 ^ 4) with 16.
  split; [zdm|apply u64_small; unfold is_u64; lia].
Qed.

(** The kernel's conditions, in the terms of the firmware and the processor. *)
Lemma handed_bootable {D} `{!Device D} (s0 : MACHINE D) :
  kernel_initial_rsp s0 = top →
  bootable L info (top - 8) m s0 ↔ system_bootable m info (Devices.cpu (drivers s0)).
Proof.
  intros Htop. pose proof handed_map as Hmap. pose proof handed_stride as Hstride.
  pose proof (hv_area _ _ _ _ _ _ _ _ _ _ Hover) as Harea.
  pose proof (co_fits _ _ _ _ _ _ (hv_complete _ _ _ _ _ _ _ _ _ _ Hover)) as Hfit.
  split.
  - intros [_ [Hi [_ Hcpu Hcache _ Hruns Hguards] Hroom] Hapic].
    apply Hmap in Hi as [Hread Hwf]. split; [|done..].
    apply handed_regions; [apply Hread|by split].
  - intros [Harea' Hread Hwf Hcpu Hcache Hroom Hapic].
    assert (fst (Pmm.pmm_init m info Pmm.pmm_bss) = true) as Hi by by apply Hmap.
    destruct (proj2 (handed_regions (proj1 (proj1 Hread))) Harea') as [Hruns Hguards].
    split; [|split; [done| |done]|done].
    + unfold accepted. rewrite Htop, (hv_top _ _ _ _ _ _ _ _ _ _ Hover). cbv zeta in Hread. fold b in Hread |- *.
      rewrite handed_info in Hread |- *.
      split; [by apply header_accepted|]. split; [|by apply stack_accepted].
      apply (map_accepted info k (Z.of_nat (List.length map)) dsize dversion Harea); [lia|apply Hread].
    + destruct Harea. split; [lia|exact Hcpu|exact Hcache| |exact Hruns|exact Hguards].
      change (pmm_available (pmm _)) with (pmm_available (managed m info)).
      change (mem _) with m. fold b in Hroom |- *. lia.
Qed.

End connect.

(** ** The whole *)

Lemma separate_suffix l1 l2 : separate_grants (l1 ++ l2) → separate_grants l2.
Proof.
  unfold separate_grants, grants. rewrite bind_app.
  induction (l1 ≫= _) as [|[a n] g IH]; [done|]. intros [_ H]. by apply IH.
Qed.

Lemma entry_cpu_disabled c : entry_cpu (x86_disable_interrupts c) = entry_cpu c.
Proof.
  unfold entry_cpu, x86_disable_interrupts. cbv zeta.
  change (rflags (with_rflags c ?v)) with v. change (rflags (with_rflags (with_rflags c ?v) ?w)) with w.
  unfold with_rflags at 1 3. f_equal. by rewrite <- (Z.land_assoc (rflags c)), Z.land_diag.
Qed.

Lemma entry_cpu_off c :
  is_u64 (rflags (entry_cpu c)) ∧ has_bits (rflags (entry_cpu c)) 0x200 = false.
Proof.
  unfold entry_cpu, x86_disable_interrupts. cbn [rflags with_rflags]. split.
  - rewrite Z.land_comm. apply is_u64_land; [by vm_compute|]. apply Z.land_nonneg. by right.
  - change 0x200 with (bit64 9). rewrite has_bits_bit64, !Z.land_spec by lia.
    change (Z.testbit (not64 IF_BIT) 9) with false. by rewrite andb_false_r.
Qed.

(** The conclusion of the run from [kernel_entry] on: [s'] is what the loader left,
    on the hardware [d]. *)
Definition runs {D} `{!Device D} L sy n junk info top m (c0 c : CPU) (d : D) t : Prop :=
  let boots := system_bootable m info (entry_cpu c0) in
  match kernel_entry L sy n junk info top (started_image d c m t) with
  | inl (e, s) => e = PagingCheck.Spins ∧ ¬ boots ∧
      ∃ t, told t ∧ wire (line (drivers s)) `prefix_of` expand t
  | inr (Console.Spin _) => False
  | inr o => boots ∧
      ∃ s, memory_up L info m (memory s) ∧ wire (line (drivers s)) = expand boot_text ∧
        KernelConsole.conversed n (system s) o
  end.

Lemma handed_over_runs {W D} `{!Protocols W, !Conforming W, !Device D, !Board D, !Ticking D}
    (s s' : LOADER W) entry info top l k map ds dv L sy n junk (d : D) t m :
  prompt_hardware (D:=D) → List.length junk = 128%nat →
  handed_over s s' entry info top l k map ds dv → separate_grants l →
  words_of (Firmware.mem s') m → described m info →
  linked L (kernel_base (read_info m info)) (kernel_size (read_info m info)) →
  runs L sy n junk info top m (Firmware.cpu s) (Firmware.cpu s') d t.
Proof.
  intros Hp Hjunk H Hsep Hm Hds Hlk. unfold runs. cbv zeta. rewrite (hv_cpu _ _ _ _ _ _ _ _ _ _ H).
  pose proof (handed_u64 _ _ _ _ _ _ _ _ _ _ H) as Hinfo.
  pose proof (handed_stack _ _ _ _ _ _ _ _ _ _ H) as [Htop Hrsp].
  unfold kernel_entry. rewrite Htop, Hrsp.
  match goal with |- match kernel_main _ _ _ _ _ _ ?x with _ => _ end => set (s0 := x) end.
  assert (Devices.cpu (drivers s0) = entry_cpu (Firmware.cpu s)) as Hcpu by apply entry_cpu_disabled.
  pose proof (handed_bootable _ _ _ _ _ _ _ _ _ _ H Hsep m Hm L Hds Hlk s0 eq_refl) as Hboot.
  rewrite Hcpu in Hboot.
  assert (unused (drivers s0)) as Hun.
  { split; [done|]. split; [done|]. rewrite Hcpu. apply entry_cpu_off. }
  pose proof (kernel_main_decided L sy n junk info (top - 8) m
    (x86_disable_interrupts (Firmware.cpu s)) s0 Hp Hjunk Hinfo) as Hmain.
  destruct (kernel_main L sy n junk info (top - 8) s0) as [[e s1]|[]]; try rewrite Hboot in Hmain;
    apply Hmain; try done.
  all: intros Hi; apply (handed_placement _ _ _ _ _ _ _ _ _ _ H m Hm L Hds Hlk).
  all: by apply (handed_map _ _ _ _ _ _ _ _ _ _ H m Hm) in Hi as [_ Hwf].
Qed.

(** C1: the system boots, or stops with its reason. Whenever the loader enters the
    kernel - the firmware having granted no page twice and describing the pages
    the loader holds as the loader's, the kernel's sections and guards being
    whole pages of the loaded image - the machine, on hardware whose UART gets
    ready in time and whose timer ticks, reaches the console exactly when the
    final memory map is readable, well formed and cacheable where the kernel runs,
    the hand-off area lies between 1 MiB and 4 GiB, the processor is as
    [paging_init] wants it, enough pages are free and the local APIC is not in
    x2APIC mode: then memory is under the kernel's own tables, the boot text is on
    the line in full, and for any number of turns the line carries the console's
    answers to what it read. It spins exactly otherwise, and the line carries a
    prefix of the transcript that ends in the error. *)
Theorem system_boots {W D} `{!Protocols W, !Conforming W, !Device D, !Board D, !Ticking D}
    table garbage image (s : LOADER W) L sy n junk (d : D) t :
  prompt_hardware (D:=D) → List.length junk = 128%nat →
  match efi_main table garbage image s with
  | (Entered entry info top, s') =>
      separate_grants (calls s') → ∀ m, words_of (Firmware.mem s') m → described m info →
      linked L (kernel_base (read_info m info)) (kernel_size (read_info m info)) →
      let boots := system_bootable m info (entry_cpu (Firmware.cpu s)) in
      match kernel_entry L sy n junk info top (started_image d (Firmware.cpu s') m t) with
      | inl (e, s1) => e = PagingCheck.Spins ∧ ¬ boots ∧
          ∃ t, told t ∧ wire (line (drivers s1)) `prefix_of` expand t
      | inr (Console.Spin _) => False
      | inr o => boots ∧
          ∃ s1, memory_up L info m (memory s1) ∧ wire (line (drivers s1)) = expand boot_text ∧
            KernelConsole.conversed n (system s1) o
      end
  | _ => True
  end.
Proof.
  intros Hp Hjunk. pose proof (efi_main_handed_over table garbage image s) as H.
  destruct (efi_main table garbage image s) as [[status|entry info top|] s']; [done| |done].
  destruct H as (l & k & map & ds & dv & H). intros Hsep m Hm Hds Hlk.
  rewrite (hv_calls _ _ _ _ _ _ _ _ _ _ H) in Hsep. apply separate_suffix in Hsep.
  exact (handed_over_runs s s' entry info top l k map ds dv L sy n junk d t m Hp Hjunk H Hsep Hm Hds Hlk).
Qed.

(** ** The linked kernel *)

(** The loader's range of a file that the linker script describes. *)
Lemma handed_linked {W} (s s' : LOADER W) entry info top l k map ds dv o x m :
  handed_over s s' entry info top l k map ds dv → separate_grants l →
  words_of (Firmware.mem s') m → Linker.link o = Some x → LinkerSpec.objects_ok o →
  Linker.image_end x ≤ 65 * 1024 * 1024 →
  LinkerSpec.written x (u8 <$> delivered l) (Z.of_nat (List.length (delivered l))) →
  entry = Linker.kernel_entry x ∧
  linked (Linker.layout x) (kernel_base (read_info m info)) (kernel_size (read_info m info)).
Proof.
  intros H Hsep Hm Hx Ho Hend Hd. destruct (LinkerSpec.link_placed o x Ho Hx) as [start Hpl].
  destruct (hv_image _ _ _ _ _ _ _ _ _ _ H Hsep) as (r & m0 & [Hload Hentry Hpages _ _] & Hbase).
  pose proof (LinkerSpec.image_loadable o x start _ _ Ho Hpl Hd ltac:(lia)) as Hload'.
  pose proof (ElfSpec.image_range_unique _ _ _ _ _ (ElfSpec.li_range _ _ _ _ Hload)
    (ElfSpec.li_range _ _ _ _ Hload')) as ->. cbn [Elf.base Elf.end_] in Hpages, Hbase.
  split.
  - by rewrite (hv_entry _ _ _ _ _ _ _ _ _ _ H), Hentry, (LinkerSpec.wr_entry _ _ _ Hd).
  - rewrite (handed_over_info _ _ _ _ _ _ _ _ _ _ _ H Hm). cbn [kernel_base kernel_size info_of].
    rewrite Hbase. replace (k_pages k * 4096) with (Linker.image_end x - 0x100000) by lia.
    exact (LinkerSpec.image_linked o x start Ho Hpl).
Qed.

(** The system whose kernel file is one that the linker script describes: nothing
    is left to assume of where the sections are. *)
Theorem linked_system_boots {W D} `{!Protocols W, !Conforming W, !Device D, !Board D, !Ticking D}
    table garbage image (s : LOADER W) o x sy n junk (d : D) t :
  prompt_hardware (D:=D) → List.length junk = 128%nat →
  LinkerSpec.objects_ok o → Linker.link o = Some x → Linker.image_end x ≤ 65 * 1024 * 1024 →
  match efi_main table garbage image s with
  | (Entered entry info top, s') =>
      separate_grants (calls s') →
      (∀ l, calls s' = calls s ++ l →
        LinkerSpec.written x (u8 <$> delivered l) (Z.of_nat (List.length (delivered l)))) →
      ∀ m, words_of (Firmware.mem s') m → described m info →
      entry = Linker.kernel_entry x ∧
      runs (Linker.layout x) sy n junk info top m (Firmware.cpu s) (Firmware.cpu s') d t
  | _ => True
  end.
Proof.
  intros Hp Hjunk Ho Hx Hend. pose proof (efi_main_handed_over table garbage image s) as H.
  destruct (efi_main table garbage image s) as [[status|entry info top|] s']; [done| |done].
  destruct H as (l & k & map & ds & dv & H). intros Hsep Hd m Hm Hds.
  pose proof (hv_calls _ _ _ _ _ _ _ _ _ _ H) as Hcalls.
  rewrite Hcalls in Hsep. apply separate_suffix in Hsep.
  destruct (handed_linked s s' entry info top l k map ds dv o x m H Hsep Hm Hx Ho Hend (Hd l Hcalls))
    as [He Hlk]. split; [exact He|].
  exact (handed_over_runs s s' entry info top l k map ds dv _ sy n junk d t m Hp Hjunk H Hsep Hm Hds Hlk).
Qed.

(** ** A machine *)

(** A lower bound of the free pages, and an upper one of the tables. *)
Lemma started_available m info s (P : gset Z) :
  pmm_started m info s →
  (∀ q, q ∈ P → Pmm.usable_page m (read_info m info) q ∧ ¬ Pmm.boot_reserved info (read_info m info) q) →
  Z.of_nat (size P) ≤ Pmm.pmm_available s.
Proof.
  intros Hps HP. unfold Pmm.pmm_available. rewrite (Pmm.wf_free s (ps_wf _ _ _ Hps)).
  apply inj_le, subseteq_size. intros q Hq. unfold Pmm.vacant_pages.
  rewrite (ps_none _ _ _ Hps), difference_empty. by apply (ps_pages _ _ _ Hps), HP.
Qed.

(** The firmware and the processor of [LoaderSpec], with the chipset of
    [KernelMainLive]. *)
Module Demo.
Import LoaderSpec.Demo(boot_words, boot_values).

#[local] Existing Instances LoaderSpec.Demo.protocols LoaderSpec.Demo.conforming.

Definition layout : LAYOUT := {|
  kernel_text_start := 0x100000; kernel_text_end := 0x101000;
  kernel_rodata_start := 0x101000; kernel_rodata_end := 0x102000;
  double_fault_guard_low := 0x100000; double_fault_guard_high := 0x101000 |}.

Definition handed : BOOT_INFO := {|
  magic := BOOT_INFO_MAGIC; version := 2; info_size := 88;
  memory_map := 0x201000; memory_map_size := 80; descriptor_size := 40; descriptor_version := 1;
  reserved := 0; kernel_base := 0x100000; kernel_size := 0x2000;
  stack_base := 0x212000; stack_size := 0x10000; flags := 1 |}.

(** The two descriptors: the loader's memory and free memory. *)
Definition region (t start n : Z) : BOOT_MEMORY_DESCRIPTOR := {|
  type := t; padding := 0; physical_start := start; virtual_start := 0; number_of_pages := n;
  attributes := 8 |}.
Definition taken : BOOT_MEMORY_DESCRIPTOR := region 2 0x100000 0x200.
Definition free : BOOT_MEMORY_DESCRIPTOR := region 7 0x300000 0x100.

Definition boot_data : ram :=
  PmmSpec.words 0x200000
    [BOOT_INFO_MAGIC; 2 + Z.shiftl 88 32; 0x201000; 80; 40; 1; 0x100000; 0x2000; 0x212000; 0x10000; 1]
  ∪ PmmSpec.words 0x201000 [2; 0x100000; 0; 0x200; 8; 7; 0x300000; 0; 0x100; 8].

(** What the kernel finds. *)
Lemma found (bytes : Elf.memory) m :
  (λ x, get64 x bytes) <$> boot_words = boot_values → words_of bytes m →
  read_info m 0x200000 = handed ∧
  Pmm.descriptor m handed 0 = taken ∧ Pmm.descriptor m handed 1 = free.
Proof.
  intros He Hw. assert (boot_values = load boot_data <$> boot_words) as Hv by by vm_compute.
  rewrite Hv in He. clear Hv.
  assert (∀ x, x ∈ boot_words → x mod 8 = 0 → load m x = load boot_data x) as Hl.
  { intros x Hx Ha. rewrite (Hw x Ha). apply list_elem_of_lookup in Hx as [i Hi].
    apply (f_equal (lookup i)) in He. rewrite !list_lookup_fmap, Hi in He. by injection He. }
  clear He. split; [|split].
  - transitivity (read_info boot_data 0x200000); [|by vm_compute].
    apply read_info_agree. intros j Hj. apply Hl; [|zdm].
    apply elem_of_app. left. apply list_elem_of_fmap. exists j. by rewrite elem_of_seqZ.
  - transitivity (Pmm.descriptor boot_data handed 0); [|by vm_compute].
    apply read_descriptor_agree. intros j Hj. change (u64 _) with 0x201000. apply Hl; [|zdm].
    apply elem_of_app. right. apply list_elem_of_fmap. exists j. rewrite elem_of_seqZ. lia.
  - transitivity (Pmm.descriptor boot_data handed 1); [|by vm_compute].
    apply read_descriptor_agree. intros j Hj. change (u64 _) with 0x201028. apply Hl; [|zdm].
    apply elem_of_app. right. apply list_elem_of_fmap. exists (j + 5). rewrite elem_of_seqZ. lia.
Qed.

Lemma taken_formed : Pmm.well_formed_descriptor taken.
Proof. by vm_compute. Qed.
Lemma free_formed : Pmm.well_formed_descriptor free.
Proof. by vm_compute. Qed.
Lemma info_u64 : is_u64 0x200000.
Proof. unfold is_u64. lia. Qed.
Lemma handed_valid : Pmm.valid_boot_info 0x200000 handed = true.
Proof. by vm_compute. Qed.
Lemma layout_linked : linked layout (kernel_base handed) (kernel_size handed).
Proof. split; [by vm_compute..|]. by repeat constructor. Qed.

(** The root, and a table for each level above the pages from 1 to 4 MiB. *)
Definition tables_needed : gset (Z * Z) := list_to_set [(0, 0); (1, 0); (2, 0); (3, 0); (3, 1)].

Lemma prefix_needed l q : 1 ≤ l ≤ 3 → 256 ≤ q < 1024 → (l, PagingBits.prefix q l) ∈ tables_needed.
Proof.
  intros Hl Hq. unfold tables_needed, PagingBits.prefix.
  assert (l = 1 ∨ l = 2 ∨ l = 3) as [->|[->| ->]] by lia.
  - change (512 ^ (4 - 1)) with 134217728. assert (q / 134217728 = 0) as -> by zdm. set_solver.
  - change (512 ^ (4 - 2)) with 262144. assert (q / 262144 = 0) as -> by zdm. set_solver.
  - change (512 ^ (4 - 3)) with 512. assert (q / 512 = 0 ∨ q / 512 = 1) as [->| ->] by zdm; set_solver.
Qed.

Definition free_pages : gset Z := list_to_set (seqZ 0x300 0x100).

Lemma free_pages_size : Z.of_nat (size free_pages) = 256.
Proof. unfold free_pages. rewrite size_list_to_set by apply NoDup_seqZ. by rewrite length_seqZ. Qed.

Section found.
Context (m : ram) (Hb : read_info m 0x200000 = handed).
Context (H0 : Pmm.descriptor m handed 0 = taken) (H1 : Pmm.descriptor m handed 1 = free).

Lemma found_count i : 0 ≤ i < Pmm.descriptor_count handed → i = 0 ∨ i = 1.
Proof. change (Pmm.descriptor_count handed) with 2. lia. Qed.

Lemma found_map : Pmm.well_formed_map m handed.
Proof.
  intros i Hi. destruct (found_count i Hi) as [->| ->]; rewrite ?H0, ?H1.
  - split; [exact taken_formed|lia].
  - split; [exact free_formed|]. intros j Hj. assert (j = 0) as -> by lia. rewrite H0. by right.
Qed.

Lemma found_described : described m 0x200000.
Proof.
  assert (∀ q, 0x100000 ≤ q * 4096 → (q + 1) * 4096 ≤ 0x300000 → loader_page m handed q) as Hl.
  { intros q H2 H3. exists 0. rewrite H0. split; [change (Pmm.descriptor_count handed) with 2; lia|].
    split; [by right|]. split; [reflexivity|]. unfold Pmm.contains_page.
    change (Pmm.descriptor_limit taken) with 0x300000. cbn [taken region physical_start]. lia. }
  split; intros q; rewrite Hb; unfold Pmm.overlaps, handoff_pages; cbn [handed kernel_base kernel_size];
    intros Hq; apply Hl; lia.
Qed.

Lemma found_linked : linked layout (kernel_base (read_info m 0x200000)) (kernel_size (read_info m 0x200000)).
Proof. rewrite Hb. exact layout_linked. Qed.

Lemma found_init : ∃ p, Pmm.pmm_init m 0x200000 Pmm.pmm_bss = (true, p).
Proof.
  destruct (Pmm.pmm_init_ok m 0x200000 info_u64) as (p & Hp & _); [..|by exists p]; rewrite Hb.
  - exact handed_valid.
  - apply Pmm.valid_map_ranges_spec, found_map.
Qed.

(** 256 free pages; five tables. *)
Lemma found_room :
  Z.of_nat (size (tables_of (ram_pages m handed))) + 6 ≤ pmm_available (managed m 0x200000).
Proof.
  transitivity 256.
  - assert (size (tables_of (ram_pages m handed)) ≤ size tables_needed)%nat as Hle.
    { apply subseteq_size. intros [l x]. rewrite elem_of_tables_of.
      intros [[-> ->]|(Hl & q & (i & Hi & _ & _ & Hc)%(elem_of_ram_pages _ _ _ found_map) & ->)];
        [set_solver|].
      assert (256 ≤ q < 1024) as Hq.
      { destruct (found_count i Hi) as [->| ->]; rewrite ?H0, ?H1 in Hc; revert Hc; unfold Pmm.contains_page.
        - change (Pmm.descriptor_limit taken) with 0x300000. cbn [taken region physical_start]. lia.
        - change (Pmm.descriptor_limit free) with 0x400000. cbn [free region physical_start]. lia. }
      by apply prefix_needed. }
    revert Hle. change (size tables_needed) with 5%nat. lia.
  - destruct found_init as [p Hp]. unfold managed. rewrite Hp. cbn [snd].
    pose proof (pmm_init_started m 0x200000 p info_u64 Hp) as Hps.
    change (pmm_available p) with (Pmm.pmm_available p). rewrite <- free_pages_size.
    apply (started_available m 0x200000 p free_pages Hps).
    intros q Hq%elem_of_list_to_set%elem_of_seqZ. rewrite Hb. split.
    + split; [rewrite Pmm.PAGE_COUNT_val; lia|]. exists 1. rewrite H1.
      split; [change (Pmm.descriptor_count handed) with 2; lia|]. split; [done|].
      unfold Pmm.contains_page. change (Pmm.descriptor_limit free) with 0x400000.
      cbn [free region physical_start]. lia.
    + unfold Pmm.boot_reserved, Pmm.overlaps, sizeof_BOOT_INFO. cbn. lia.
Qed.

Lemma found_bootable : system_bootable m 0x200000 (entry_cpu LoaderSpec.Demo.processor).
Proof.
  split; try rewrite Hb.
  - unfold handoff_pages. lia.
  - by vm_compute.
  - exact found_map.
  - by vm_compute.
  - intros i Hi. destruct (found_count i Hi) as [->| ->]; rewrite ?H0, ?H1; by intros _.
  - exact found_room.
  - by vm_compute.
Qed.

End found.

End Demo.

#[local] Existing Instances LoaderSpec.Demo.protocols LoaderSpec.Demo.conforming.
#[local] Existing Instances KernelMainLive.chipset KernelMainLive.chipset_board KernelMainLive.chipset_ticking.

(** From power-on to three turns of the console. *)
Lemma system_boots_witness :
  ∃ s' m,
    efi_main LoaderSpec.Demo.table LoaderSpec.Demo.garbage 6 (LoaderSpec.Demo.machine true) =
      (Entered 0x100002 0x200000 0x222000, s') ∧ words_of (Firmware.mem s') m ∧
    match
      kernel_entry Demo.layout symbols 3 (replicate 128 0) 0x200000 0x222000
        (started_image reset_chips (Firmware.cpu s') m (tables KernelMainLive.machine))
    with
    | inr (Console.Done _ _) | inr (Console.Halt _) => True
    | _ => False
    end.
Proof.
  pose proof (system_boots LoaderSpec.Demo.table LoaderSpec.Demo.garbage 6
    (LoaderSpec.Demo.machine true) Demo.layout symbols 3 (replicate 128 0) reset_chips (tables KernelMainLive.machine) chipset_prompt eq_refl) as H.
  pose proof LoaderSpec.Demo.machine_enters as E.
  destruct (efi_main _ _ _ _) as [o s']. destruct E as (-> & Hsep & Hw).
  exists s', (words (Firmware.mem s')). pose proof (words_of_words (Firmware.mem s')) as Hm.
  destruct (Demo.found _ _ Hw Hm) as (Hb & H0 & H1).
  specialize (H Hsep _ Hm (Demo.found_described _ Hb H0) (Demo.found_linked _ Hb)).
  pose proof (Demo.found_bootable _ Hb H0 H1) as Hboots.
  split; [reflexivity|]. split; [exact Hm|].
  destruct (kernel_entry _ _ _ _ _ _ _) as [[e s1]|[]]; [|first [exact I|exact H]..].
  destruct H as (_ & H & _). exact (H Hboots).
Defined.

End System.
